(** * Codebraid: tree synchronisation and chunk resolution

    A shallow embedding of [codebraid/converters/base.py] and
    [codebraid/converters/pandoc.py], with the properties of the walker,
    the option resolver, the source-trace matcher, the freeze/thaw
    transform and the output splicer stated over it.

    Conventions.
    - A Python [str] is a [string]; a character is a code point below 256.
    - A Python exception is a value of [exn]; a function that can raise
      returns a [result].
    - Objects that the code shares and mutates (the default show tables of
      base.py, the dicts and lists of a loaded Pandoc AST) live in an
      explicit store and are named by a location. *)

From Stdlib Require Import String Ascii List ZArith Lia Bool DecimalString.
From stdpp Require Import base option list gmap strings.

Local Open Scope string_scope.
Local Open Scope list_scope.

(** ** Python primitives *)

Module Py.

(** Exceptions raised by the modelled code. *)
Inductive exn : Type :=
| IndexError (msg : string)
| KeyError (key : string)
| ValueError
| TypeError
| AttributeError
| UnboundLocalError (name : string)
| RecursionError
| NotImplementedError
| StopIteration.

Inductive result (A : Type) : Type :=
| Ok (a : A)
| Raise (e : exn).
Arguments Ok {A} a.
Arguments Raise {A} e.

#[global] Instance result_ret : MRet result := fun A a => Ok a.
#[global] Instance result_bind : MBind result := fun A B f m =>
  match m with
  | Ok a => f a
  | Raise e => Raise e
  end.

(** Values that reach option processing: [None], [bool], [int], [str], a
    list of [str] (the stored hide list) and a [str]-to-[str] dict (the
    sub-options of a namespace). *)
Inductive pyval : Type :=
| PNone
| PBool (b : bool)
| PInt (z : Z)
| PStr (s : string)
| PStrs (xs : list string)
| PSub (kvs : list (string * string)).

Definition ascii_eqb (a b : ascii) : bool := Ascii.eqb a b.

(** [sub in s] for a one-character [sub]. *)
Fixpoint contains_char (c : ascii) (s : string) : bool :=
  match s with
  | EmptyString => false
  | String d s' => ascii_eqb c d || contains_char c s'
  end.

(** [s.startswith(p)] *)
Definition startswith (p s : string) : bool := String.prefix p s.

(** [s.replace(c, '')] for a one-character [c]. *)
Fixpoint remove_char (c : ascii) (s : string) : string :=
  match s with
  | EmptyString => EmptyString
  | String d s' =>
      if ascii_eqb c d then remove_char c s' else String d (remove_char c s')
  end.

(** [s.split(sep)] for a one-character [sep]: never empty. *)
Fixpoint split (sep : ascii) (s : string) : list string :=
  match s with
  | EmptyString => [EmptyString]
  | String d s' =>
      if ascii_eqb sep d then EmptyString :: split sep s'
      else match split sep s' with
           | [] => [String d EmptyString]
           | w :: ws => String d w :: ws
           end
  end.

(** [s.split(sep, 1)] when [sep in s]: the text before and after the
    first [sep]; [None] when [sep] does not occur. *)
Fixpoint split1 (sep : ascii) (s : string) : option (string * string) :=
  match s with
  | EmptyString => None
  | String d s' =>
      if ascii_eqb sep d then Some (EmptyString, s')
      else match split1 sep s' with
           | Some (a, b) => Some (String d a, b)
           | None => None
           end
  end.

(** [sep.join(xs)] *)
Fixpoint join (sep : string) (xs : list string) : string :=
  match xs with
  | [] => EmptyString
  | [x] => x
  | x :: xs' => x +:+ sep +:+ join sep xs'
  end.

(** [s[a:b]] for [0 <= a], [0 <= b] *)
Definition slice (s : string) (a b : nat) : string := String.substring a (b - a) s.

(** [s[a:]] *)
Fixpoint drop_str (a : nat) (s : string) : string :=
  match a, s with
  | O, _ => s
  | S a', String _ s' => drop_str a' s'
  | S _, EmptyString => EmptyString
  end.

(** [s.find(sub, start)]: [None] stands for -1. *)
Fixpoint find_at (sub s : string) (i : nat) : option nat :=
  if String.prefix sub s then Some i
  else match s with
       | EmptyString => None
       | String _ s' => find_at sub s' (S i)
       end.

Definition find (sub s : string) (start : nat) : option nat :=
  if (String.length s <? start)%nat then None
  else find_at sub (drop_str start s) start.

(** [s.count(c, a, b)] for a one-character [c]. *)
Fixpoint count_char (c : ascii) (s : string) : nat :=
  match s with
  | EmptyString => 0
  | String d s' => (if ascii_eqb c d then 1 else 0) + count_char c s'
  end.

Definition count (c : ascii) (s : string) (a b : nat) : nat :=
  count_char c (slice s a b).

Definition nl : ascii := ascii_of_nat 10.
Definition cr : ascii := ascii_of_nat 13.
Definition tab : ascii := ascii_of_nat 9.

(** The line boundaries of [str.splitlines()] among the code points below
    256: LF, VT, FF, CR, FS, GS, RS and NEL. *)
Definition is_linebreak (c : ascii) : bool :=
  let n := nat_of_ascii c in
  ((n =? 10) || (n =? 11) || (n =? 12) || (n =? 13)
   || (n =? 28) || (n =? 29) || (n =? 30) || (n =? 133))%nat.

(** [s.splitlines()]: lines without their terminators; CR LF is one
    boundary; a final terminator opens no empty line. *)
Fixpoint splitlines_go (cur : string) (s : string) : list string :=
  match s with
  | EmptyString =>
      match cur with EmptyString => [] | _ => [String.rev cur] end
  | String c s' =>
      if is_linebreak c then
        match s' with
        | String d s'' =>
            if ascii_eqb c cr && ascii_eqb d nl
            then String.rev cur :: splitlines_go EmptyString s''
            else String.rev cur :: splitlines_go EmptyString s'
        | EmptyString => [String.rev cur]
        end
      else splitlines_go (String c cur) s'
  end.

Definition splitlines (s : string) : list string := splitlines_go EmptyString s.

(** The double quote, as a one-character string. *)
Definition dq : string := String (ascii_of_nat 34) EmptyString.
Definition sq : string := String (ascii_of_nat 39) EmptyString.
Definition bs : string := String (ascii_of_nat 92) EmptyString.

Definition hex_digit (n : nat) : ascii :=
  if (n <? 10)%nat then ascii_of_nat (48 + n) else ascii_of_nat (87 + n).

(** [repr(s)] of a [str]: quoted with ['] unless the text holds a ['] and
    no double quote; the quote, the backslash and unprintable characters
    escaped. *)
Definition repr_char (quote : ascii) (c : ascii) : string :=
  let n := nat_of_ascii c in
  if ascii_eqb c quote || (n =? 92)%nat then bs +:+ String c EmptyString
  else if (n =? 9)%nat then bs +:+ "t"
  else if (n =? 10)%nat then bs +:+ "n"
  else if (n =? 13)%nat then bs +:+ "r"
  else if ((n <? 32) || (n =? 127) || ((127 <? n) && (n <? 161)) || (n =? 173))%nat
  then bs +:+ "x" +:+ String (hex_digit (n / 16)) (String (hex_digit (n mod 16)) EmptyString)
  else String c EmptyString.

Fixpoint repr_chars (quote : ascii) (s : string) : string :=
  match s with
  | EmptyString => EmptyString
  | String c s' => repr_char quote c +:+ repr_chars quote s'
  end.

Definition repr_str (s : string) : string :=
  let quote :=
    if contains_char (ascii_of_nat 39) s && negb (contains_char (ascii_of_nat 34) s)
    then ascii_of_nat 34 else ascii_of_nat 39 in
  String quote (repr_chars quote s) +:+ String quote EmptyString.

Definition str_of_Z (z : Z) : string := NilZero.string_of_int (Z.to_int z).

(** [str(v)], which is what ['{0}'.format(v)] inserts. *)
Definition py_str (v : pyval) : string :=
  match v with
  | PNone => "None"
  | PBool true => "True"
  | PBool false => "False"
  | PInt z => str_of_Z z
  | PStr s => s
  | PStrs xs => "[" +:+ join ", " (map repr_str xs) +:+ "]"
  | PSub kvs =>
      "{" +:+ join ", " (map (fun kv => repr_str kv.1 +:+ ": " +:+ repr_str kv.2) kvs) +:+ "}"
  end.

End Py.

(** ** base.py: option processors and [CodeChunk] *)

Module Base.
Import Py.

(** A show table: an [OrderedDict] from output channel to display format. *)
Definition show_spec : Type := list (string * string).

Section OrderedDict.
Context {V : Type}.

(** [k in d] *)
Fixpoint od_mem (k : string) (d : list (string * V)) : bool :=
  match d with
  | [] => false
  | (k', _) :: d' => String.eqb k k' || od_mem k d'
  end.

(** [d.get(k)] *)
Fixpoint od_get (k : string) (d : list (string * V)) : option V :=
  match d with
  | [] => None
  | (k', v) :: d' => if String.eqb k k' then Some v else od_get k d'
  end.

(** [d[k] = v]: a present key keeps its place, a new key goes last. *)
Fixpoint od_set (k : string) (v : V) (d : list (string * V)) : list (string * V) :=
  match d with
  | [] => [(k, v)]
  | (k', v') :: d' =>
      if String.eqb k k' then (k', v) :: d' else (k', v') :: od_set k v d'
  end.

(** [d.pop(k, None)], the returned value dropped. *)
Fixpoint od_pop (k : string) (d : list (string * V)) : list (string * V) :=
  match d with
  | [] => []
  | (k', v') :: d' =>
      if String.eqb k k' then d' else (k', v') :: od_pop k d'
  end.

End OrderedDict.

(** The store of show tables.  [next] is the next free location. *)
Record heap : Type := mkHeap {
  objs : gmap positive show_spec;
  next : positive
}.

(** A new [OrderedDict] object. *)
Definition alloc (d : show_spec) (h : heap) : positive * heap :=
  (next h, {| objs := <[next h := d]> (objs h); next := Pos.succ (next h) |}).

(** What an options dict holds under a key: an immutable value, or a
    reference to a show table. *)
Inductive slot : Type :=
| Val (v : pyval)
| Ref (l : positive).

(** The two module-level show tables and their locations. *)
Definition _cb_default_show_notebook : show_spec :=
  [("code", "verbatim"); ("stdout", "verbatim"); ("stderr", "verbatim")].
Definition _cb_default_show_inline_notebook : show_spec :=
  [("expression", "raw"); ("stderr", "verbatim")].

Definition loc_default_show_notebook : positive := 1%positive.
Definition loc_default_show_inline_notebook : positive := 2%positive.

(** The store right after the module is imported. *)
Definition module_heap : heap :=
  {| objs := <[loc_default_show_notebook := _cb_default_show_notebook]>
             (<[loc_default_show_inline_notebook := _cb_default_show_inline_notebook]> ∅);
     next := 3%positive |}.

Definition _cb_default_options : gmap string slot :=
  <["first_number" := Val (PStr "next")]>
  (<["lang" := Val PNone]>
  (<["line_numbers" := Val (PBool true)]>
  (<["session" := Val PNone]>
  (<["show" := Ref loc_default_show_notebook]> ∅)))).

Definition _cb_default_inline_options : gmap string slot :=
  <["lang" := Val PNone]>
  (<["session" := Val PNone]>
  (<["show" := Ref loc_default_show_inline_notebook]> ∅)).

(** What an option processor reads and writes: the chunk's two message
    lists, the options dict under construction and the store. *)
Record pstate : Type := mkPstate {
  errs : list string;
  warns : list string;
  opts : gmap string slot;
  hp : heap
}.

Definition add_error (msg : string) (st : pstate) : pstate :=
  {| errs := errs st ++ [msg]; warns := warns st; opts := opts st; hp := hp st |}.
Definition add_warning (msg : string) (st : pstate) : pstate :=
  {| errs := errs st; warns := warns st ++ [msg]; opts := opts st; hp := hp st |}.
Definition set_option (k : string) (v : slot) (st : pstate) : pstate :=
  {| errs := errs st; warns := warns st; opts := <[k := v]> (opts st); hp := hp st |}.
Definition set_heap (h : heap) (st : pstate) : pstate :=
  {| errs := errs st; warns := warns st; opts := opts st; hp := h |}.

Definition msg_invalid (key : string) (value : pyval) : string :=
  "Invalid " +:+ dq +:+ key +:+ dq +:+ " value " +:+ dq +:+ py_str value +:+ dq +:+ " in code chunk".

Definition _cb_option_unknown (key : string) (value : pyval) (st : pstate) : result pstate :=
  Ok (add_error ("Unknown option " +:+ dq +:+ key +:+ dq +:+ " for code chunk") st).

Definition _cb_option_bool (key : string) (value : pyval) (st : pstate) : result pstate :=
  match value with
  | PBool _ => Ok (set_option key (Val value) st)
  | _ => Ok (add_warning (msg_invalid key value) st)
  end.

Definition _cb_option_str (key : string) (value : pyval) (st : pstate) : result pstate :=
  match value with
  | PStr _ => Ok (set_option key (Val value) st)
  | _ => Ok (add_warning (msg_invalid key value) st)
  end.

(** [isinstance(value, int) and value > 0] also holds of [True]. *)
Definition _cb_option_first_number (key : string) (value : pyval) (st : pstate) : result pstate :=
  let accepted :=
    match value with
    | PInt z => (0 <? z)%Z
    | PBool b => b
    | PStr s => String.eqb s "next"
    | _ => false
    end in
  if accepted then Ok (set_option key (Val value) st)
  else Ok (add_warning (msg_invalid key value) st).

Definition hide_channels : list string := ["code"; "stdout"; "stderr"; "expression"].

(** One [options['show'].pop(v, None)]. *)
Definition hide_pop (v : string) (st : pstate) : result pstate :=
  match opts st !! "show" with
  | None => Raise (KeyError "show")
  | Some (Ref l) =>
      match objs (hp st) !! l with
      | Some d =>
          Ok (set_heap {| objs := <[l := od_pop v d]> (objs (hp st)); next := next (hp st) |} st)
      | None => Raise (KeyError "show")
      end
  | Some (Val (PSub kvs)) => Ok (set_option "show" (Val (PSub (od_pop v kvs))) st)
  | Some (Val (PStrs _)) => Raise TypeError
  | Some (Val _) => Raise AttributeError
  end.

Fixpoint hide_pop_all (vs : list string) (st : pstate) : result pstate :=
  match vs with
  | [] => Ok st
  | v :: vs' => st' ← hide_pop v st; hide_pop_all vs' st'
  end.

Definition _cb_option_hide (key : string) (value : pyval) (st : pstate) : result pstate :=
  match value with
  | PStr s =>
      if String.eqb s "all" then
        (* [options['show'] = None], then [options[key] = hide_values]
           with [hide_values] never assigned *)
        Raise (UnboundLocalError "hide_values")
      else
        let hide_values := split "+" (remove_char " " s) in
        if forallb (fun v => existsb (String.eqb v) hide_channels) hide_values then
          st' ← hide_pop_all hide_values st;
          Ok (set_option key (Val (PStrs hide_values)) st')
        else Ok (add_warning (msg_invalid key value) st)
  | _ => Ok (add_warning (msg_invalid key value) st)
  end.

Definition _cb_option_label (key : string) (value : pyval) (st : pstate) : result pstate :=
  match opts st !! "label" with
  | Some _ =>
      Ok (add_warning ("Duplicate option " +:+ dq +:+ key +:+ dq +:+ " (label/name) for code chunk") st)
  | None =>
      match value with
      | PStr _ => Ok (set_option "label" (Val value) st)
      | _ => Ok (add_warning (msg_invalid key value) st)
      end
  end.

Definition show_formats : list string := ["verbatim"; "verbatim_or_empty"; "raw"].

Definition msg_show_duplicate (key value output : string) : string :=
  "Option " +:+ dq +:+ key +:+ dq +:+ " value " +:+ dq +:+ value +:+ dq
  +:+ " contains duplicate " +:+ dq +:+ output +:+ dq +:+ " in code chunk".

Definition msg_show_not_inline (key value : string) : string :=
  "Invalid " +:+ dq +:+ key +:+ dq +:+ " value " +:+ dq +:+ value +:+ dq
  +:+ " (not inline) in code chunk".

(** [output] and [format] of a token: the token itself and [None] when it
    has no colon, else [output_and_format.split(':', 1)]. *)
Definition split_token (output_and_format : string) : string * option string :=
  match split1 ":" output_and_format with
  | None => (output_and_format, None)
  | Some (o, f) => (o, Some f)
  end.

(** The body of the loop of [_cb_option_show] over the [+]-separated
    tokens: [value_processed] and the warnings so far go in and come out. *)
Definition show_token (inline : bool) (key value : string)
    (acc : show_spec * list string) (output_and_format : string)
    : show_spec * list string :=
  let '(value_processed, ws) := acc in
  let '(output, format) := split_token output_and_format in
  let invalid := (value_processed, ws ++ [msg_invalid key (PStr value)]) in
  let store f := (od_set output f value_processed, ws) in
  if od_mem output value_processed then
    (value_processed, ws ++ [msg_show_duplicate key value output])
  else if String.eqb output "code" then
    match format with
    | None => store "verbatim"
    | Some f => if String.eqb f "verbatim" then store f else invalid
    end
  else if String.eqb output "stdout" || String.eqb output "stderr" then
    match format with
    | None => store "verbatim"
    | Some f => if existsb (String.eqb f) show_formats then store f else invalid
    end
  else if String.eqb output "expression" then
    if negb inline then
      (value_processed, ws ++ [msg_show_not_inline key value])
    else
      match format with
      | None => store "raw"
      | Some f => if existsb (String.eqb f) show_formats then store f else invalid
      end
  else invalid.

Definition show_tokens (inline : bool) (key value : string) (ws : list string)
    : show_spec * list string :=
  fold_left (show_token inline key value) (split "+" (remove_char " " value)) ([], ws).

Definition _cb_option_show (inline : bool) (key : string) (value : pyval) (st : pstate)
    : result pstate :=
  match value with
  | PStr s =>
      if String.eqb s "none" then Ok (set_option key (Val PNone) st)
      else if String.eqb s "notebook" then
        let src := if inline then loc_default_show_inline_notebook
                   else loc_default_show_notebook in
        match objs (hp st) !! src with
        | Some d =>
            let '(l, h) := alloc d (hp st) in
            Ok (set_option key (Ref l) (set_heap h st))
        | None => Raise (KeyError "show")
        end
      else
        let '(value_processed, ws) := show_tokens inline key s (warns st) in
        let '(l, h) := alloc value_processed (hp st) in
        Ok {| errs := errs st; warns := ws; opts := <[key := Ref l]> (opts st); hp := h |}
  | _ => Ok (add_warning (msg_invalid key value) st)
  end.

(** [_cb_option_processors]: a [defaultdict] whose default is
    [_cb_option_unknown]. *)
Definition _cb_option_processors (inline : bool) (key : string)
    : string -> pyval -> pstate -> result pstate :=
  if String.eqb key "hide" then _cb_option_hide
  else if String.eqb key "first_number" then _cb_option_first_number
  else if String.eqb key "label" then _cb_option_label
  else if String.eqb key "lang" then _cb_option_str
  else if String.eqb key "line_numbers" then _cb_option_bool
  else if String.eqb key "session" then _cb_option_str
  else if String.eqb key "show" then _cb_option_show inline
  else _cb_option_unknown.

(** The [code] argument: a [str] or a list of lines. *)
Inductive code_arg : Type :=
| CodeStr (s : string)
| CodeLines (ls : list string).

Record CodeChunk : Type := mkCodeChunk {
  source_errors : list string;
  source_warnings : list string;
  command : pyval;
  code : string;
  source_name : option string;
  source_start_line_number : option Z;
  inline : bool;
  options : gmap string slot
}.

(** [for k, v in options.items(): self._option_processors[k](self, k, v, final_options)] *)
Fixpoint process_options (inline : bool) (items : list (string * pyval)) (st : pstate)
    : result pstate :=
  match items with
  | [] => Ok st
  | (k, v) :: items' =>
      st' ← _cb_option_processors inline k k v st;
      process_options inline items' st'
  end.

(** [code_lines[-1] += '\n'] *)
Fixpoint append_nl_last (ls : list string) : result (list string) :=
  match ls with
  | [] => Raise (IndexError "list index out of range")
  | [l] => Ok [l +:+ String nl EmptyString]
  | l :: ls' => ls'' ← append_nl_last ls'; Ok (l :: ls'')
  end.

(** [CodeChunk.__init__].  [pre_errors] and [pre_warnings] are the message
    lists the object already has when a subclass filled them before the
    call ([__pre_init__] leaves them); both are empty for a new object. *)
Definition CodeChunk_init (pre_errors pre_warnings : list string)
    (command : pyval) (code : code_arg) (options : list (string * pyval))
    (source_name : option string) (source_start_line_number : option Z)
    (inline : bool) (h : heap) : result (CodeChunk * heap) :=
  let errors1 :=
    match command with
    | PStr "code" | PStr "run" => pre_errors
    | _ => pre_errors ++ ["Unknown Codebraid command " +:+ dq +:+ py_str command +:+ dq]
    end in
  let code_lines :=
    match code with
    | CodeLines ls => ls
    | CodeStr s => splitlines s
    end in
  let errors2 :=
    if (1 <? length code_lines)%nat && inline
    then errors1 ++ ["Inline code cannot be longer that 1 line"]
    else errors1 in
  code_lines' ← (if negb inline then append_nl_last code_lines else Ok code_lines);
  let final_options :=
    if inline then _cb_default_inline_options else _cb_default_options in
  st ← process_options inline options
         {| errs := errors2; warns := pre_warnings; opts := final_options; hp := h |};
  Ok ({| source_errors := errs st;
         source_warnings := warns st;
         command := command;
         code := join (String nl EmptyString) code_lines';
         source_name := source_name;
         source_start_line_number := source_start_line_number;
         inline := inline;
         options := opts st |}, hp st).

(** [Converter.code_braid]: the three steps in order, each a method of the
    converter [self]; an exception of one step ends the call. *)
Section Converter.
Context {S : Type}.
Variable _extract_code_chunks : S -> result S.
Variable _process_code_chunks : S -> result S.
Variable _postprocess_code_chunks : S -> result S.

Definition code_braid (self : S) : result S :=
  self ← _extract_code_chunks self;
  self ← _process_code_chunks self;
  _postprocess_code_chunks self.

End Converter.

End Base.

(** ** pandoc.py: the store of a loaded AST *)

Module Pandoc.
Import Py.

(** A JSON scalar.  A number with a fraction or an exponent is kept as its
    text: the code never reads one. *)
Inductive scalar : Type :=
| SNone
| SBool (b : bool)
| SInt (z : Z)
| SFloat (text : string)
| SStr (s : string).

(** What a dict field or a list slot holds: a scalar, or a reference to a
    list or to a dict of the store. *)
Inductive val : Type :=
| VAtom (a : scalar)
| VList (l : positive)
| VDict (l : positive).

#[global] Instance scalar_eq_dec : EqDecision scalar.
Proof. solve_decision. Defined.
#[global] Instance val_eq_dec : EqDecision val.
Proof. solve_decision. Defined.

(** The mutable objects of an AST, as [json.loads] makes them and as the
    code changes them: each dict with its items in insertion order, each
    list with its slots.  Locations from [next_loc] on are free. *)
Record store : Type := mkStore {
  dicts : gmap positive (list (string * val));
  lists : gmap positive (list val);
  next_loc : positive
}.

Definition empty_store : store := {| dicts := ∅; lists := ∅; next_loc := 1%positive |}.

Definition new_list (xs : list val) (st : store) : val * store :=
  (VList (next_loc st),
   {| dicts := dicts st; lists := <[next_loc st := xs]> (lists st);
      next_loc := Pos.succ (next_loc st) |}).

Definition new_dict (d : list (string * val)) (st : store) : val * store :=
  (VDict (next_loc st),
   {| dicts := <[next_loc st := d]> (dicts st); lists := lists st;
      next_loc := Pos.succ (next_loc st) |}).

Definition set_dict (l : positive) (d : list (string * val)) (st : store) : store :=
  {| dicts := <[l := d]> (dicts st); lists := lists st; next_loc := next_loc st |}.

Definition set_list (l : positive) (xs : list val) (st : store) : store :=
  {| dicts := dicts st; lists := <[l := xs]> (lists st); next_loc := next_loc st |}.

(** The dict at a location.  A reference always names an object; the
    error stands for a store that lacks it. *)
Definition get_dict (st : store) (l : positive) : result (list (string * val)) :=
  match dicts st !! l with
  | Some d => Ok d
  | None => Raise TypeError
  end.

Definition get_list (st : store) (l : positive) : result (list val) :=
  match lists st !! l with
  | Some xs => Ok xs
  | None => Raise TypeError
  end.

(** [d[k]] *)
Definition getkey (k : string) (d : list (string * val)) : result val :=
  match Base.od_get k d with
  | Some v => Ok v
  | None => Raise (KeyError k)
  end.

(** [a, b = x] *)
Definition unpack_pair (st : store) (x : val) : result (val * val) :=
  match x with
  | VList l =>
      xs ← get_list st l;
      match xs with
      | [a; b] => Ok (a, b)
      | _ => Raise ValueError
      end
  | VDict l =>
      d ← get_dict st l;
      match d with
      | [(k1, _); (k2, _)] => Ok (VAtom (SStr k1), VAtom (SStr k2))
      | _ => Raise ValueError
      end
  | VAtom (SStr (String a (String b EmptyString))) =>
      Ok (VAtom (SStr (String a EmptyString)), VAtom (SStr (String b EmptyString)))
  | VAtom (SStr _) => Raise ValueError
  | VAtom _ => Raise TypeError
  end.

(** [x[i]] for an index [i]. *)
Definition getitem (st : store) (x : val) (i : nat) : result val :=
  match x with
  | VList l =>
      xs ← get_list st l;
      match xs !! i with
      | Some v => Ok v
      | None => Raise (IndexError "list index out of range")
      end
  | VAtom (SStr s) =>
      match String.get i s with
      | Some a => Ok (VAtom (SStr (String a EmptyString)))
      | None => Raise (IndexError "string index out of range")
      end
  | VDict l => Raise (KeyError (str_of_Z (Z.of_nat i)))
  | VAtom _ => Raise TypeError
  end.

(** [len(x)] *)
Definition py_len (st : store) (x : val) : result nat :=
  match x with
  | VList l => xs ← get_list st l; Ok (length xs)
  | VDict l => d ← get_dict st l; Ok (length d)
  | VAtom (SStr s) => Ok (String.length s)
  | VAtom _ => Raise TypeError
  end.

(** [v == name] for a [str] [name]. *)
Definition is_str (name : string) (v : val) : bool :=
  match v with
  | VAtom (SStr s) => String.eqb s name
  | _ => false
  end.

Definition mem (x : string) (xs : list string) : bool := existsb (String.eqb x) xs.

(** ** pandoc.py: the tree walker *)

(** A node handed out by the walker: a dict of the AST, or the fake
    [Plain] node [{'t': 'Plain', 'c': term, 'codebraid_pseudonode': True}]
    that the walker builds for item [k] of the DefinitionList [owner]; no
    list of the AST holds it. *)
Inductive node_ref : Type :=
| Loaded (l : positive)
| Pseudonode (owner : positive) (k : nat) (term : val).

(** What the walker yields:
    [(node, parent_node, parent_node_list, parent_node_list_index, in_note)]. *)
Record node_tuple : Type := mkTuple {
  nt_node : node_ref;
  nt_parent : node_ref;
  nt_list : val;
  nt_index : nat;
  nt_in_note : bool
}.

(** [type_filter is None or node_type in type_filter], for a filter that
    is a set or a dict of type names: a list or a dict is not hashable. *)
Definition passes_filter (type_filter : option (list string)) (node_type : val) : result bool :=
  match type_filter with
  | None => Ok true
  | Some names =>
      match node_type with
      | VAtom (SStr s) => Ok (mem s names)
      | VAtom _ => Ok false
      | VList _ | VDict _ => Raise TypeError
      end
  end.

Section Walk.

Variable st : store.

(** The type of [walk_node_list]:
    [node_list], [parent_node], [type_filter], [skip_note_contents], [in_note]. *)
Definition walker : Type :=
  val -> node_ref -> option (list string) -> bool -> bool -> result (list node_tuple).

(** The recursive calls of [walk_node_list], one level down. *)
Variable rec : walker.

(** The loop over the items of a DefinitionList. *)
Fixpoint walk_definitions (owner : positive) (type_filter : option (list string))
    (skip_note_contents in_note : bool) (k : nat) (elems : list val)
    : result (list node_tuple) :=
  match elems with
  | [] => Ok []
  | elem :: elems' =>
      '(term, definition) ← unpack_pair st elem;
      let pseudonode := Pseudonode owner k term in
      let own :=
        match type_filter with
        | None => [mkTuple pseudonode (Loaded owner) elem 0 in_note]
        | Some names =>
            if mem "Plain" names
            then [mkTuple pseudonode (Loaded owner) elem 0 in_note] else []
        end in
      ts ← rec term pseudonode type_filter skip_note_contents in_note;
      ds ← rec definition (Loaded owner) type_filter skip_note_contents in_note;
      rest ← walk_definitions owner type_filter skip_note_contents in_note (S k) elems';
      Ok (own ++ ts ++ ds ++ rest)
  end.

(** One turn of [for index, obj in enumerate(node_list)]: the tuples it
    yields and the value of the local [in_note] afterwards. *)
Definition walk_item (node_list : val) (parent_node : node_ref)
    (type_filter : option (list string)) (skip_note_contents : bool)
    (index : nat) (in_note : bool) (o : val) : result (list node_tuple * bool) :=
  match o with
  | VDict l =>
      fields ← get_dict st l;
      match Base.od_get "t" fields with
      | None => Ok ([], in_note)
      | Some node_type =>
          pass ← passes_filter type_filter node_type;
          let own :=
            if pass : bool then [mkTuple (Loaded l) parent_node node_list index in_note] else [] in
          match Base.od_get "c" fields with
          | Some (VList lc) =>
              if is_str "Note" node_type then
                if skip_note_contents then Ok (own, in_note)
                else
                  sub ← rec (VList lc) (Loaded l) type_filter skip_note_contents true;
                  Ok (own ++ sub, true)
              else if negb (is_str "DefinitionList" node_type) then
                sub ← rec (VList lc) (Loaded l) type_filter skip_note_contents in_note;
                Ok (own ++ sub, in_note)
              else
                contents ← get_list st lc;
                sub ← walk_definitions l type_filter skip_note_contents in_note 0 contents;
                Ok (own ++ sub, in_note)
          | _ => Ok (own, in_note)
          end
      end
  | VList _ =>
      sub ← rec o parent_node type_filter skip_note_contents in_note;
      Ok (sub, in_note)
  | VAtom _ => Ok ([], in_note)
  end.

Fixpoint walk_items (node_list : val) (parent_node : node_ref)
    (type_filter : option (list string)) (skip_note_contents : bool)
    (index : nat) (in_note : bool) (items : list val) : result (list node_tuple) :=
  match items with
  | [] => Ok []
  | o :: items' =>
      '(ys, in_note') ← walk_item node_list parent_node type_filter skip_note_contents
                          index in_note o;
      zs ← walk_items node_list parent_node type_filter skip_note_contents
             (S index) in_note' items';
      Ok (ys ++ zs)
  end.

(** The body of [walk_node_list].  Iterating a dict gives its keys and
    iterating a [str] its characters, none of which is a dict or a list. *)
Definition walk_body : walker :=
  fun node_list parent_node type_filter skip_note_contents in_note =>
  match node_list with
  | VList l =>
      items ← get_list st l;
      walk_items node_list parent_node type_filter skip_note_contents 0 in_note items
  | VDict _ => Ok []
  | VAtom (SStr _) => Ok []
  | VAtom _ => Raise TypeError
  end.

End Walk.

(** [walk_node_list], with the interpreter's recursion limit as [depth]:
    the walk of a tree nested deeper than that raises [RecursionError]. *)
Fixpoint walk_node_list (st : store) (depth : nat) : walker :=
  match depth with
  | O => fun _ _ _ _ _ => Raise RecursionError
  | S depth' => walk_body st (walk_node_list st depth')
  end.

(** [PandocConverter._walk_ast], for the AST whose root dict is at [ast]. *)
Definition _walk_ast (st : store) (depth : nat) (ast : positive)
    (type_filter : option (list string)) (skip_note_contents : bool)
    : result (list node_tuple) :=
  d ← get_dict st ast;
  ast_root_node_list ← getkey "blocks" d;
  walk_node_list st depth ast_root_node_list (Loaded ast) type_filter skip_note_contents false.

(** ** pandoc.py: class and key-value processors *)

(** [int(s)] on the code points below 256.  The blanks that [int] skips
    at both ends are the ASCII blanks of C (tab to carriage return, and
    space) and the blanks above 127 (next line, no-break space); the
    separators 28 to 31, which [str.strip] takes off, are an error for
    [int]. *)
Definition is_int_space (c : ascii) : bool :=
  let n := nat_of_ascii c in
  (((9 <=? n) && (n <=? 13)) || (n =? 32) || (n =? 133) || (n =? 160))%nat.

Fixpoint lstrip (s : string) : string :=
  match s with
  | String c s' => if is_int_space c then lstrip s' else s
  | EmptyString => EmptyString
  end.

Definition strip (s : string) : string := String.rev (lstrip (String.rev (lstrip s))).

Definition digit_of (c : ascii) : option Z :=
  let n := nat_of_ascii c in
  if ((48 <=? n) && (n <=? 57))%nat then Some (Z.of_nat (n - 48)) else None.

(** Digits with single underscores between them; [after_digit] says
    whether the previous character was a digit. *)
Fixpoint parse_digits (acc : Z) (after_digit : bool) (s : string) : option Z :=
  match s with
  | EmptyString => if after_digit then Some acc else None
  | String c s' =>
      match digit_of c with
      | Some d => parse_digits (10 * acc + d) true s'
      | None =>
          if (nat_of_ascii c =? 95)%nat && after_digit then parse_digits acc false s'
          else None
      end
  end.

(** [int(s)] of a [str]; [None] stands for [ValueError]. *)
Definition py_int (s : string) : option Z :=
  match strip s with
  | String c s' =>
      if (nat_of_ascii c =? 45)%nat then Z.opp <$> parse_digits 0 false s'
      else if (nat_of_ascii c =? 43)%nat then parse_digits 0 false s'
      else parse_digits 0 false (String c s')
  | EmptyString => None
  end.

(** [s.endswith(p)] *)
Definition endswith (p s : string) : bool := String.prefix (String.rev p) (String.rev s).

(** [sub in s] *)
Definition contains (sub s : string) : bool :=
  match find sub s 0 with Some _ => true | None => false end.

(** The options dict that [PandocCodeChunk.__init__] fills from the
    classes and the key-value pairs, and the two message lists. *)
Record prestate : Type := mkPrestate {
  pre_errors : list string;
  pre_warnings : list string;
  pre_options : list (string * pyval)
}.

Definition pre_error (msg : string) (st : prestate) : prestate :=
  {| pre_errors := pre_errors st ++ [msg]; pre_warnings := pre_warnings st;
     pre_options := pre_options st |}.
Definition pre_warning (msg : string) (st : prestate) : prestate :=
  {| pre_errors := pre_errors st; pre_warnings := pre_warnings st ++ [msg];
     pre_options := pre_options st |}.
Definition pre_set (k : string) (v : pyval) (st : prestate) : prestate :=
  {| pre_errors := pre_errors st; pre_warnings := pre_warnings st;
     pre_options := Base.od_set k v (pre_options st) |}.
Definition pre_has (k : string) (st : prestate) : bool := Base.od_mem k (pre_options st).

Section Processors.

(** [CodeChunk.commands] and [Include.keywords]: two constants of the base
    module that this file reads. *)
Variable commands : list string.
Variable include_keywords : list string.

Definition class_lang_or_unknown (class_index : nat) (class_name : string) (st : prestate)
    : result prestate :=
  if pre_has "lang" st then
    if startswith "cb." class_name then
      Ok (pre_error ("Unknown or unsupported Codebraid command " +:+ dq +:+ class_name +:+ dq) st)
    else Ok (pre_error "Unknown non-Codebraid class" st)
  else if (0 <? class_index)%nat then
    if startswith "cb." class_name then
      Ok (pre_error ("Unknown or unsupported Codebraid command " +:+ dq +:+ class_name +:+ dq) st)
    else
      Ok (pre_error ("The language/format " +:+ dq +:+ class_name +:+ dq
                     +:+ " must be the first class for code chunk") st)
  else Ok (pre_set "lang" (PStr class_name) st).

Definition class_codebraid_command (class_index : nat) (class_name : string) (st : prestate)
    : result prestate :=
  if pre_has "codebraid_command" st then
    Ok (pre_error "Only one Codebraid command can be applied per code chunk" st)
  else
    match split1 "." class_name with
    | Some (_, cmd) => Ok (pre_set "codebraid_command" (PStr cmd) st)
    | None => Raise (IndexError "list index out of range")
    end.

Definition class_line_anchors (class_index : nat) (class_name : string) (st : prestate)
    : result prestate :=
  if pre_has "line_anchors" st
  then Ok (pre_warning "Duplicate line anchor class for code chunk" st)
  else Ok (pre_set "line_anchors" (PBool true) st).

Definition class_line_numbers (class_index : nat) (class_name : string) (st : prestate)
    : result prestate :=
  if pre_has "line_numbers" st
  then Ok (pre_warning "Duplicate line numbering class for code chunk" st)
  else Ok (pre_set "line_numbers" (PBool true) st).

Definition line_anchors_names : list string := ["lineAnchors"; "line-anchors"; "line_anchors"].
Definition line_numbers_names : list string :=
  ["line_numbers"; "numberLines"; "number-lines"; "number_lines"].

(** [_get_class_processors()]: a [defaultdict] whose default is
    [class_lang_or_unknown]. *)
Definition _class_processors (c : string) : nat -> string -> prestate -> result prestate :=
  if mem c (map (fun k => "cb." +:+ k) commands) then class_codebraid_command
  else if mem c line_anchors_names then class_line_anchors
  else if mem c line_numbers_names then class_line_numbers
  else class_lang_or_unknown.

Definition namespace_keywords : list string := ["include"].

Definition msg_duplicate_attr (key : string) : string :=
  "Duplicate " +:+ dq +:+ key +:+ dq +:+ " attribute for code chunk".
Definition msg_true_false (key : string) : string :=
  "Attribute " +:+ dq +:+ key +:+ dq +:+ " must be true or false for code chunk".

Definition keyval_generic (key value : string) (st : prestate) : result prestate :=
  if pre_has key st then Ok (pre_error (msg_duplicate_attr key) st)
  else if mem key namespace_keywords then
    Ok (pre_error ("Invalid key " +:+ dq +:+ key +:+ dq +:+ " for code chunk") st)
  else Ok (pre_set key (PStr value) st).

Definition keyval_bool (key value : string) (st : prestate) : result prestate :=
  if pre_has key st then Ok (pre_error (msg_duplicate_attr key) st)
  else if negb (mem value ["true"; "false"]) then Ok (pre_error (msg_true_false key) st)
  else Ok (pre_set key (PBool (String.eqb value "true")) st).

Definition keyval_int (key value : string) (st : prestate) : result prestate :=
  if pre_has key st then Ok (pre_error (msg_duplicate_attr key) st)
  else
    match py_int value with
    | None =>
        Ok (pre_error ("Attribute " +:+ dq +:+ key +:+ dq +:+ " must be integer for code chunk") st)
    | Some z => Ok (pre_set key (PInt z) st)
    end.

Definition keyval_first_number (key value : string) (st : prestate) : result prestate :=
  if pre_has "first_number" st
  then Ok (pre_warning "Duplicate first line number attribute for code chunk" st)
  else
    match py_int value with
    | None => Ok (pre_set "first_number" (PStr value) st)
    | Some z => Ok (pre_set "first_number" (PInt z) st)
    end.

Definition keyval_line_anchors (key value : string) (st : prestate) : result prestate :=
  if pre_has "line_anchors" st
  then Ok (pre_warning "Duplicate line anchor attribute for code chunk" st)
  else if negb (mem value ["true"; "false"]) then Ok (pre_warning (msg_true_false key) st)
  else Ok (pre_set "line_anchors" (PBool (String.eqb value "true")) st).

Definition keyval_line_numbers (key value : string) (st : prestate) : result prestate :=
  if pre_has "line_numbers" st
  then Ok (pre_warning "Duplicate line numbering attribute for code chunk" st)
  else if negb (mem value ["true"; "false"]) then Ok (pre_warning (msg_true_false key) st)
  else Ok (pre_set "line_numbers" (PBool (String.eqb value "true")) st).

Definition keyval_namespace (key value : string) (st : prestate) : result prestate :=
  match (if contains_char "." key then split1 "." key else split1 "_" key) with
  | None => Raise ValueError
  | Some (namespace, sub_key) =>
      match Base.od_get namespace (pre_options st) with
      | None => Ok (pre_set namespace (PSub [(sub_key, value)]) st)
      | Some (PSub sub_options) =>
          if Base.od_mem sub_key sub_options then Ok (pre_error (msg_duplicate_attr key) st)
          else Ok (pre_set namespace (PSub (Base.od_set sub_key value sub_options)) st)
      | Some (PStr s) =>
          if contains sub_key s then Ok (pre_error (msg_duplicate_attr key) st)
          else Raise TypeError
      | Some (PStrs xs) =>
          if mem sub_key xs then Ok (pre_error (msg_duplicate_attr key) st)
          else Raise TypeError
      | Some _ => Raise TypeError
      end
  end.

Definition displays : list string :=
  [EmptyString; "markup"; "copied_markup"; "code"; "stdout"; "stderr"].

(** ['{0}_name'.format(dsp) if dsp else 'name'] for each display. *)
Definition per_display (name : string) : list string :=
  map (fun dsp => match dsp with
                  | EmptyString => name
                  | _ => dsp +:+ "_" +:+ name
                  end) displays.

(** [_get_keyval_processors()]: a [defaultdict] whose default is
    [keyval_generic]. *)
Definition _kv_processors (k : string) : string -> string -> prestate -> result prestate :=
  if mem k ["complete"; "example"; "live_output"; "outside_main"] then keyval_bool
  else if mem k ["copy"; "name"] then keyval_generic
  else if mem k (per_display "expand_tabs") then keyval_bool
  else if mem k ["first_number"; "startFrom"; "start-from"; "start_from"] then keyval_first_number
  else if mem k (map (fun w => "include_" +:+ w) include_keywords) then keyval_namespace
  else if mem k ["jupyter_timeout"] then keyval_int
  else if mem k line_anchors_names then keyval_line_anchors
  else if mem k line_numbers_names then keyval_line_numbers
  else if mem k (per_display "rewrap_lines") then keyval_bool
  else if mem k (per_display "rewrap_width") then keyval_int
  else if mem k (per_display "tab_size") then keyval_int
  else keyval_generic.

End Processors.

(** ** pandoc.py: [PandocCodeChunk] *)

Definition as_str (v : val) : option string :=
  match v with VAtom (SStr s) => Some s | _ => None end.

Definition as_pair (st : store) (v : val) : option (string * string) :=
  match v with
  | VList l =>
      match lists st !! l with
      | Some [VAtom (SStr k); VAtom (SStr v)] => Some (k, v)
      | _ => None
      end
  | _ => None
  end.

(** The parts of a [Code] or [CodeBlock] node as Pandoc writes it,
    [{'t': type, 'c': [[id, [class, ...], [[key, value], ...]], code]}]:
    its type, id, classes, key-value pairs and code.  [None] for a dict of
    another shape; a chunk is only built from a node of this shape. *)
Definition code_node_parts (st : store) (node : positive)
    : option (val * string * list string * list (string * string) * string) :=
  d ← dicts st !! node;
  ty ← Base.od_get "t" d;
  contents ← Base.od_get "c" d;
  match contents with
  | VList lc =>
      match lists st !! lc with
      | Some [VList la; VAtom (SStr code)] =>
          match lists st !! la with
          | Some [VAtom (SStr node_id); VList lcs; VList lkv] =>
              classes ← lists st !! lcs;
              kvpairs ← lists st !! lkv;
              cs ← mapM as_str classes;
              kvs ← mapM (as_pair st) kvpairs;
              Some (ty, node_id, cs, kvs, code)
          | _ => None
          end
      | _ => None
      end
  | _ => None
  end.

(** A JSON value without identities: a document before it is loaded, or
    a node that the code builds before it is put into the AST. *)
#[local] Unset Elimination Schemes.
Inductive json : Type :=
| JAtom (a : scalar)
| JList (xs : list json)
| JDict (fields : list (string * json)).
#[local] Set Elimination Schemes.

Definition JStr (s : string) : json := JAtom (SStr s).

(** The dict [{'t': t, 'c': c}]. *)
Definition JNode (t : string) (c : json) : json := JDict [("t", JStr t); ("c", c)].

(** A node of an output list: its type and its contents. *)
Record onode : Type := mkNode {
  t : string;
  c : json
}.

Definition of_node (n : onode) : json := JNode (t n) (c n).

(** The attribute triple [[id, [class, ...], [[key, value], ...]]]. *)
Definition attr (node_id : string) (classes : list string) (kvpairs : list (string * string))
    : json :=
  JList [JStr node_id; JList (map JStr classes);
         JList (map (fun kv => JList [JStr kv.1; JStr kv.2]) kvpairs)].

(** One rich output of a chunk: [ro['data']] and [ro['files']], both keyed
    by mime type. *)
Record rich : Type := mkRich {
  ro_data : list (string * string);
  ro_files : list (string * string)
}.

(** An attribute that no constructor under src/ assigns: it is [Unset]
    until other code, such as the code processor, assigns it, and reading
    it before that raises [AttributeError]. *)
Inductive later (A : Type) : Type :=
| Unset
| Assigned (a : A).

Arguments Unset {A}.
Arguments Assigned {A} a.

Definition read {A} (x : later A) : result A :=
  match x with
  | Assigned a => Ok a
  | Unset => Raise AttributeError
  end.

(** A [PandocCodeChunk].  The fields after [_output_nodes] are attributes
    that this file reads and does not assign: [code_start_line_number] is
    [None] after the constructor of base.py, the others are assigned by
    the code processor. *)
Record PandocCodeChunk : Type := mkChunk {
  chunk : Base.CodeChunk;
  node : positive;
  parent_node : node_ref;
  parent_node_list : val;
  parent_node_list_index : nat;
  node_id : string;
  node_classes : list string;
  node_kvpairs : list (string * string);
  pandoc_id : string;
  pandoc_classes : list string;
  pandoc_kvpairs : list (string * string);
  _output_nodes : option (list onode);
  runtime_source_error : later bool;
  code_start_line_number : option Z;
  repl_lines : later (option (list string));
  expr_lines : later (option (list string));
  stdout_lines : later (option (list string));
  stderr_lines : later (option (list string));
  rich_output : later (option (list rich))
}.

Definition set_chunk (b : Base.CodeChunk) (self : PandocCodeChunk) : PandocCodeChunk :=
  {| chunk := b; node := node self; parent_node := parent_node self;
     parent_node_list := parent_node_list self;
     parent_node_list_index := parent_node_list_index self;
     node_id := node_id self; node_classes := node_classes self;
     node_kvpairs := node_kvpairs self; pandoc_id := pandoc_id self;
     pandoc_classes := pandoc_classes self; pandoc_kvpairs := pandoc_kvpairs self;
     _output_nodes := _output_nodes self;
     runtime_source_error := runtime_source_error self;
     code_start_line_number := code_start_line_number self;
     repl_lines := repl_lines self; expr_lines := expr_lines self;
     stdout_lines := stdout_lines self; stderr_lines := stderr_lines self;
     rich_output := rich_output self |}.

Definition set_kvpairs_nodes (kvs : list (string * string)) (out : option (list onode))
    (self : PandocCodeChunk) : PandocCodeChunk :=
  {| chunk := chunk self; node := node self; parent_node := parent_node self;
     parent_node_list := parent_node_list self;
     parent_node_list_index := parent_node_list_index self;
     node_id := node_id self; node_classes := node_classes self;
     node_kvpairs := node_kvpairs self; pandoc_id := pandoc_id self;
     pandoc_classes := pandoc_classes self; pandoc_kvpairs := kvs;
     _output_nodes := out;
     runtime_source_error := runtime_source_error self;
     code_start_line_number := code_start_line_number self;
     repl_lines := repl_lines self; expr_lines := expr_lines self;
     stdout_lines := stdout_lines self; stderr_lines := stderr_lines self;
     rich_output := rich_output self |}.

(** [bool(v)] of what an options dict holds. *)
Definition truthy (h : Base.heap) (v : Base.slot) : bool :=
  match v with
  | Base.Val PNone => false
  | Base.Val (PBool b) => b
  | Base.Val (PInt z) => negb (z =? 0)%Z
  | Base.Val (PStr s) => negb (String.eqb s EmptyString)
  | Base.Val (PStrs xs) => negb (Nat.eqb (length xs) 0)
  | Base.Val (PSub kvs) => negb (Nat.eqb (length kvs) 0)
  | Base.Ref l =>
      match Base.objs h !! l with
      | Some d => negb (Nat.eqb (length d) 0)
      | None => false
      end
  end.

(** [parent_node['t']] *)
Definition ref_type (st : store) (r : node_ref) : result val :=
  match r with
  | Loaded l => d ← get_dict st l; getkey "t" d
  | Pseudonode _ _ _ => Ok (VAtom (SStr "Plain"))
  end.

(** ['codebraid_pseudonode' in parent_node] *)
Definition is_pseudonode (st : store) (r : node_ref) : result bool :=
  match r with
  | Loaded l => d ← get_dict st l; Ok (Base.od_mem "codebraid_pseudonode" d)
  | Pseudonode _ _ _ => Ok true
  end.

Definition set_errors_options (errors : list string) (options : gmap string Base.slot)
    (b : Base.CodeChunk) : Base.CodeChunk :=
  {| Base.source_errors := errors;
     Base.source_warnings := Base.source_warnings b;
     Base.command := Base.command b;
     Base.code := Base.code b;
     Base.source_name := Base.source_name b;
     Base.source_start_line_number := Base.source_start_line_number b;
     Base.inline := Base.inline b;
     Base.options := options |}.

Section Chunks.

Variable commands : list string.
Variable include_keywords : list string.

(** [super().__init__]: the constructor of the base class, with the
    message lists the object has so far, [command], [code], [options],
    [source_name], [source_start_line_number], [inline] and the store of
    show tables.  [Base.CodeChunk_init] is the one of base.py; this file
    also reads option keys that its tables lack (['example'],
    ['code_line_numbers']), so the constructor is left open here. *)
Variable super_init :
  list string -> list string -> pyval -> Base.code_arg -> list (string * pyval) ->
  option string -> option Z -> bool -> Base.heap -> result (Base.CodeChunk * Base.heap).

Fixpoint process_classes (n : nat) (cs : list string) (st : prestate) : result prestate :=
  match cs with
  | [] => Ok st
  | c :: cs' =>
      st' ← _class_processors commands c n c st;
      process_classes (S n) cs' st'
  end.

Fixpoint process_kvpairs (kvs : list (string * string)) (st : prestate) : result prestate :=
  match kvs with
  | [] => Ok st
  | (k, v) :: kvs' =>
      st' ← _kv_processors include_keywords k k v st;
      process_kvpairs kvs' st'
  end.

Definition msg_example_alone : string :=
  "Option " +:+ dq +:+ "example" +:+ dq
  +:+ " is only allowed for inline code that is in a paragraph by itself".

(** [parent_node['t'] not in ('Plain', 'Para') or 'codebraid_pseudonode' in
    parent_node or len(parent_node_list) > 1], left to right. *)
Definition not_alone_in_paragraph (st : store) (parent_node : node_ref)
    (parent_node_list : val) : result bool :=
  ty ← ref_type st parent_node;
  if negb (is_str "Plain" ty || is_str "Para" ty) then Ok true
  else
    pseudo ← is_pseudonode st parent_node;
    if pseudo : bool then Ok true
    else n ← py_len st parent_node_list; Ok (1 <? n)%nat.

(** The check of [options['example']] for an inline chunk, after the base
    constructor has run. *)
Definition check_example (st : store) (parent_node : node_ref) (parent_node_list : val)
    (h : Base.heap) (b : Base.CodeChunk) : result Base.CodeChunk :=
  match Base.options b !! "example" with
  | None => Raise (KeyError "example")
  | Some v =>
      if truthy h v then
        bad ← not_alone_in_paragraph st parent_node parent_node_list;
        if bad : bool then
          Ok (set_errors_options (msg_example_alone :: Base.source_errors b)
                (<["example" := Base.Val (PBool false)]> (Base.options b)) b)
        else Ok b
      else Ok b
  end.

(** [PandocCodeChunk.__init__] *)
Definition PandocCodeChunk_init (st : store) (node : positive) (parent_node : node_ref)
    (parent_node_list : val) (parent_node_list_index : nat)
    (source_name : option string) (source_start_line_number : option Z)
    (h : Base.heap) : result (PandocCodeChunk * Base.heap) :=
  match code_node_parts st node with
  | Some (ty, node_id, node_classes, node_kvpairs, code) =>
      let inline := is_str "Code" ty in
      pst ← process_classes 0 node_classes (mkPrestate [] [] []);
      pst ← process_kvpairs node_kvpairs pst;
      let codebraid_command := default PNone (Base.od_get "codebraid_command" (pre_options pst)) in
      let options := Base.od_pop "codebraid_command" (pre_options pst) in
      let line_anchors := Base.od_get "lineAnchors" options in
      let options := Base.od_pop "lineAnchors" options in
      '(b, h') ← super_init (pre_errors pst) (pre_warnings pst) codebraid_command
                  (Base.CodeStr code) options source_name source_start_line_number inline h;
      b ← (if inline then check_example st parent_node parent_node_list h' b else Ok b);
      classes1 ←
        match Base.od_get "lang" options with
        | None | Some PNone => Ok []
        | Some (PStr lang) =>
            let lang := if endswith "_repl" lang then hd EmptyString (split "_" lang) else lang in
            Ok (lang :: match Base.command b with PStr "repl" => ["repl"] | _ => [] end)
        | Some _ => Raise AttributeError
        end;
      let classes2 :=
        match line_anchors with
        | Some v => if truthy h' (Base.Val v) then ["lineAnchors"] else []
        | None => []
        end in
      let classes3 :=
        match Base.options b !! "code_line_numbers" with
        | Some v => if truthy h' v then ["numberLines"] else []
        | None => []
        end in
      Ok ({| chunk := b; node := node; parent_node := parent_node;
             parent_node_list := parent_node_list;
             parent_node_list_index := parent_node_list_index;
             node_id := node_id; node_classes := node_classes;
             node_kvpairs := node_kvpairs; pandoc_id := node_id;
             pandoc_classes := classes1 ++ classes2 ++ classes3; pandoc_kvpairs := [];
             _output_nodes := None;
             runtime_source_error := Unset; code_start_line_number := None;
             repl_lines := Unset; expr_lines := Unset; stdout_lines := Unset;
             stderr_lines := Unset; rich_output := Unset |}, h')
  | None => Raise TypeError
  end.

End Chunks.

(** ** pandoc.py: [output_nodes] *)

Section Output.

(** [self.layout_output(output, format, lines)], [util.splitlines_lf] and
    the two tables [options.rich_text_default_display] and
    [options.mime_map]: defined outside this file. *)
Variable layout_output : PandocCodeChunk -> string -> string -> option (list string) -> string.
Variable splitlines_lf : string -> list string.
Variable rich_text_default_display : list (string * string).
Variable mime_map : list (string * string).

Definition str_of_line (n : option Z) : string :=
  match n with Some z => str_of_Z z | None => "None" end.

Definition str_of_name (n : option string) : string :=
  match n with Some s => s | None => "None" end.

(** The node that stands for a chunk with source errors; [runtime] is
    what [self.runtime_source_error] gave. *)
Definition source_error_nodes (runtime : bool) (self : PandocCodeChunk) : list onode :=
  let b := chunk self in
  let message :=
    (if runtime then "RUNTIME SOURCE ERROR in " else "SOURCE ERROR in ")
    +:+ dq +:+ str_of_name (Base.source_name b) +:+ dq +:+ " near line "
    +:+ str_of_line (Base.source_start_line_number b) +:+ ":" in
  if Base.inline b then
    [mkNode "Code" (JList [attr EmptyString ["sourceError"] [];
                           JStr (message +:+ " " +:+ join " " (Base.source_errors b))])]
  else
    [mkNode "CodeBlock" (JList [attr EmptyString ["sourceError"] [];
                                JStr (message +:+ String nl EmptyString
                                      +:+ join (String nl EmptyString) (Base.source_errors b))])].

(** [getattr(self, output+'_lines')] *)
Definition lines_of (self : PandocCodeChunk) (output : string)
    : result (option (list string)) :=
  if String.eqb output "expr" then read (expr_lines self)
  else if String.eqb output "stdout" then read (stdout_lines self)
  else read (stderr_lines self).

(** The loop [for fmt_and_text_display in format] for one rich output; it
    stops at the first format that gives a node. *)
Fixpoint rich_formats (self : PandocCodeChunk) (t_code t_raw : string) (ro : rich)
    (formats : list string) : result (list onode) :=
  match formats with
  | [] => Ok []
  | fmt_and_text_display :: formats' =>
      '(fmt, fmt_text_display) ←
        (if contains_char ":" fmt_and_text_display then
           match split ":" fmt_and_text_display with
           | [a; b] => Ok (a, Some b)
           | _ => Raise ValueError
           end
         else Ok (fmt_and_text_display,
                  Base.od_get fmt_and_text_display rich_text_default_display));
      match Base.od_get fmt mime_map with
      | None => Raise (KeyError fmt)
      | Some fmt_mime_type =>
          match Base.od_get fmt_mime_type (ro_data ro) with
          | None => rich_formats self t_code t_raw ro formats'
          | Some data =>
              match Base.od_get fmt_mime_type (ro_files ro) with
              | Some file =>
                  let image_node :=
                    mkNode "Image" (JList [attr EmptyString [] []; JList [];
                                           JList [JStr file; JStr EmptyString]]) in
                  if Base.inline (chunk self) then Ok [image_node]
                  else Ok [mkNode "Para" (JList [of_node image_node])]
              | None =>
                  let lines := splitlines_lf data in
                  let verbatim cls :=
                    mkNode t_code (JList [attr EmptyString cls [];
                                          JStr (layout_output self "rich_output" "verbatim"
                                                  (Some lines))]) in
                  let by_display raw_fmt cls raw_display :=
                    match fmt_text_display with
                    | Some "raw" =>
                        Ok [mkNode t_raw (JList [JStr raw_fmt;
                                                 JStr (layout_output self "rich_output"
                                                         raw_display (Some lines))])]
                    | Some "verbatim" =>
                        Ok (match lines with [] => [] | _ => [verbatim cls] end)
                    | Some "verbatim_or_empty" => Ok [verbatim cls]
                    | _ => Raise ValueError
                    end in
                  if mem fmt ["latex"; "html"; "markdown"] then
                    by_display (if String.eqb fmt "latex" then "tex" else fmt) [fmt] "raw"
                  else if String.eqb fmt "plain" then
                    by_display "markdown" [] "raw"
                  else Raise ValueError
              end
          end
      end
  end.

Fixpoint rich_outputs (self : PandocCodeChunk) (t_code t_raw : string)
    (formats : list string) (ros : list rich) : result (list onode) :=
  match ros with
  | [] => Ok []
  | ro :: ros' =>
      ns ← rich_formats self t_code t_raw ro formats;
      ms ← rich_outputs self t_code t_raw formats ros';
      Ok (ns ++ ms)
  end.

(** The characters of a [str], which is what iterating it gives. *)
Fixpoint chars (s : string) : list string :=
  match s with
  | EmptyString => []
  | String a s' => String a EmptyString :: chars s'
  end.

(** One turn of [for output, format in self.options['show'].items()]: the
    nodes it appends to [unformatted_nodes]. *)
Definition show_entry (self : PandocCodeChunk) (t_code t_raw : string)
    (output format : string) : result (list onode) :=
  let code_like a :=
    mkNode t_code (JList [a; JStr (layout_output self output format None)]) in
  if mem output ["markup"; "copied_markup"] then
    Ok [code_like (attr EmptyString ["markdown"] [])]
  else if String.eqb output "code" then
    Ok [code_like (attr (pandoc_id self) (pandoc_classes self) (pandoc_kvpairs self))]
  else if String.eqb output "repl" then
    lines ← read (repl_lines self);
    match lines with
    | None => Ok []
    | Some _ =>
        Ok [code_like (attr (pandoc_id self) (pandoc_classes self) (pandoc_kvpairs self))]
    end
  else if mem output ["expr"; "stdout"; "stderr"] then
    if String.eqb format "verbatim" then
      lines ← lines_of self output;
      match lines with
      | Some _ => Ok [code_like (attr EmptyString [output] [])]
      | None => Ok []
      end
    else if String.eqb format "verbatim_or_empty" then
      Ok [code_like (attr EmptyString [output] [])]
    else if String.eqb format "raw" then
      lines ← lines_of self output;
      match lines with
      | Some _ =>
          Ok [mkNode t_raw (JList [JStr "markdown"; JStr (layout_output self output format None)])]
      | None => Ok []
      end
    else Raise ValueError
  else if String.eqb output "rich_output" then
    outputs ← read (rich_output self);
    match outputs with
    | None => Ok []
    | Some ros => rich_outputs self t_code t_raw (chars format) ros
    end
  else Raise ValueError.

Fixpoint show_entries (self : PandocCodeChunk) (t_code t_raw : string)
    (items : list (string * string)) : result (list onode) :=
  match items with
  | [] => Ok []
  | (output, format) :: items' =>
      ns ← show_entry self t_code t_raw output format;
      ms ← show_entries self t_code t_raw items';
      Ok (ns ++ ms)
  end.

(** The separator that follows [node] when [next_node] comes after it. *)
Definition separator (inline : bool) (t_code t_raw : string) (node next_node : onode)
    : list onode :=
  if String.eqb (t node) t_raw || String.eqb (t next_node) t_raw then
    if inline then [mkNode "Str" (JStr " ")] else [mkNode "Para" (JList [])]
  else if inline && String.eqb (t node) (t next_node) && String.eqb (t next_node) t_code then
    [mkNode "Str" (JStr " ")]
  else [].

(** [zip(xs[:-1], xs[1:])] *)
Definition adjacent_pairs (xs : list onode) : list (onode * onode) :=
  zip (removelast xs) (tl xs).

(** The last lines of [output_nodes]: every node but the last one, each
    followed by its separator if any, then the last node. *)
Definition separate (inline : bool) (t_code t_raw : string) (unformatted_nodes : list onode)
    : list onode :=
  match unformatted_nodes with
  | [] => []
  | first :: _ =>
      flat_map (fun p => p.1 :: separator inline t_code t_raw p.1 p.2)
               (adjacent_pairs unformatted_nodes)
      ++ [List.last unformatted_nodes first]
  end.

(** [self.options['show'].items()] *)
Definition show_items (h : Base.heap) (options : gmap string Base.slot)
    : result (list (string * string)) :=
  match options !! "show" with
  | None => Raise (KeyError "show")
  | Some (Base.Ref l) =>
      match Base.objs h !! l with
      | Some d => Ok d
      | None => Raise (KeyError "show")
      end
  | Some (Base.Val (PSub kvs)) => Ok kvs
  | Some (Base.Val _) => Raise AttributeError
  end.

(** [str(v)] of what an options dict holds; a show table prints as an
    [OrderedDict] of pairs. *)
Definition str_of_slot (h : Base.heap) (v : Base.slot) : string :=
  match v with
  | Base.Val v => py_str v
  | Base.Ref l =>
      "OrderedDict(["
      +:+ join ", " (map (fun kv => "(" +:+ repr_str kv.1 +:+ ", " +:+ repr_str kv.2 +:+ ")")
                         (default [] (Base.objs h !! l)))
      +:+ "])"
  end.

(** The property [output_nodes]: the nodes, and the chunk with its cache
    and its key-value pairs as the call leaves them. *)
Definition output_nodes (h : Base.heap) (self : PandocCodeChunk)
    : result (list onode * PandocCodeChunk) :=
  match _output_nodes self with
  | Some nodes => Ok (nodes, self)
  | None =>
      let b := chunk self in
      match Base.source_errors b with
      | _ :: _ =>
          runtime ← read (runtime_source_error self);
          let nodes := source_error_nodes runtime self in
          Ok (nodes, set_kvpairs_nodes (pandoc_kvpairs self) (Some nodes) self)
      | [] =>
          kvpairs ←
            (if Base.inline b then Ok (pandoc_kvpairs self)
             else
               match Base.options b !! "code_line_numbers" with
               | None => Raise (KeyError "code_line_numbers")
               | Some v =>
                   if truthy h v then
                     match Base.options b !! "code_first_number" with
                     | None => Raise (KeyError "code_first_number")
                     | Some (Base.Val (PStr "next")) =>
                         Ok (pandoc_kvpairs self
                             ++ [("startFrom", str_of_line (code_start_line_number self))])
                     | Some first_number =>
                         Ok (pandoc_kvpairs self ++ [("startFrom", str_of_slot h first_number)])
                     end
                   else Ok (pandoc_kvpairs self)
               end);
          let self1 := set_kvpairs_nodes kvpairs None self in
          let t_code := if Base.inline b then "Code" else "CodeBlock" in
          let t_raw := if Base.inline b then "RawInline" else "RawBlock" in
          items ← show_items h (Base.options b);
          unformatted_nodes ← show_entries self1 t_code t_raw items;
          let nodes := separate (Base.inline b) t_code t_raw unformatted_nodes in
          Ok (nodes, set_kvpairs_nodes kvpairs (Some nodes) self1)
      end
  end.

End Output.

(** ** pandoc.py: freeze and thaw *)

(** [type_translation_dict[node['t']]] *)
Definition translate (table : list (string * string)) (ty : val) : result string :=
  match ty with
  | VAtom (SStr s) =>
      match Base.od_get s table with
      | Some s' => Ok s'
      | None => Raise (KeyError s)
      end
  | VAtom _ => Raise (KeyError "t")
  | VList _ | VDict _ => Raise TypeError
  end.

(** [PandocConverter._freeze_raw_node] on the dict at [node]. *)
Definition _freeze_raw_node (node : positive) (st : store) : result store :=
  d ← get_dict st node;
  ty ← getkey "t" d;
  ty' ← translate [("RawBlock", "CodeBlock"); ("RawInline", "Code")] ty;
  let d := Base.od_set "t" (VAtom (SStr ty')) d in
  contents ← getkey "c" d;
  '(raw_format, raw_content) ← unpack_pair st contents;
  let '(classes, st) := new_list [VAtom (SStr "codebraid--temp")] st in
  let '(kv, st) := new_list [VAtom (SStr "format"); raw_format] st in
  let '(kvpairs, st) := new_list [kv] st in
  let '(attrs, st) := new_list [VAtom (SStr EmptyString); classes; kvpairs] st in
  let '(contents', st) := new_list [attrs; raw_content] st in
  Ok (set_dict node (Base.od_set "c" contents' d) st).

(** [PandocConverter._thaw_raw_node] on the dict at [node]. *)
Definition _thaw_raw_node (node : positive) (st : store) : result store :=
  d ← get_dict st node;
  ty ← getkey "t" d;
  ty' ← translate [("CodeBlock", "RawBlock"); ("Code", "RawInline")] ty;
  let d := Base.od_set "t" (VAtom (SStr ty')) d in
  contents ← getkey "c" d;
  attrs ← getitem st contents 0;
  kvpairs ← getitem st attrs 2;
  kv ← getitem st kvpairs 0;
  raw_format ← getitem st kv 1;
  raw_content ← getitem st contents 1;
  let '(contents', st) := new_list [raw_format; raw_content] st in
  Ok (set_dict node (Base.od_set "c" contents' d) st).

(** [x in xs] for a [str] [x]. *)
Definition has_str (st : store) (x : string) (xs : val) : result bool :=
  match xs with
  | VList l => vs ← get_list st l; Ok (bool_decide (VAtom (SStr x) ∈ vs))
  | VAtom (SStr s) => Ok (contains x s)
  | VDict l => d ← get_dict st l; Ok (Base.od_mem x d)
  | VAtom _ => Raise TypeError
  end.

(** The test that guards the call of thaw in [_postprocess_code_chunks]:
    [node_type in ('Code', 'CodeBlock') and 'codebraid--temp' in node['c'][0][1]]. *)
Definition is_frozen (node : positive) (st : store) : result bool :=
  d ← get_dict st node;
  ty ← getkey "t" d;
  if is_str "Code" ty || is_str "CodeBlock" ty then
    contents ← getkey "c" d;
    attrs ← getitem st contents 0;
    classes ← getitem st attrs 1;
    has_str st "codebraid--temp" classes
  else Ok false.

(** ** pandoc.py: the source-trace matcher *)

(** [s.lower()] on the code points below 256. *)
Definition lower_char (a : ascii) : ascii :=
  let n := nat_of_ascii a in
  if (((65 <=? n) && (n <=? 90)) || ((192 <=? n) && (n <=? 222) && negb (n =? 215)))%nat
  then ascii_of_nat (n + 32) else a.

Fixpoint lower (s : string) : string :=
  match s with
  | EmptyString => EmptyString
  | String a s' => String (lower_char a) (lower s')
  end.

(** One occurrence of [.cb.] in a text:
    [(index, line_number, maybe_codebraid_attr, command)]. *)
Definition occurrence : Type := (nat * nat * bool * option string)%type.

Definition occ_line (o : occurrence) : nat := o.1.1.2.
Definition occ_maybe (o : occurrence) : bool := o.1.2.
Definition occ_command (o : occurrence) : option string := o.2.

Definition before_attr_chars : list ascii := ["{"%char; " "%char; tab; nl].
Definition after_attr_chars : list ascii := ["}"%char; " "%char; tab; nl].

(** [s in chars] for a set of characters: only a one-character [str] is a
    member. *)
Definition char_in (chars : list ascii) (s : string) : bool :=
  match s with
  | String a EmptyString => existsb (ascii_eqb a) chars
  | _ => false
  end.

(** The [for _ in range(n)] loop that looks for the end of a command from
    index [e]; [None] stands for -1. *)
Fixpoint scan_end (n : nat) (text : string) (e : nat) : option nat :=
  match n with
  | O => None
  | S n' =>
      if char_in after_attr_chars (slice text e (S e)) then Some e
      else scan_end n' text (S e)
  end.

Section Trace.

(** [CodeChunk.commands] *)
Variable commands : list string.

Definition max_command_len : nat := foldr Nat.max 0 (map String.length commands).

(** One turn of the [while True] loop of [_find_cb_command] for a marker
    found at [i]: the occurrence and the next [start_index]. *)
Definition cb_occurrence (text : string) (line_num start_index i : nat)
    : occurrence * nat :=
  let line_num := line_num + count nl text start_index i in
  let maybe_end := scan_end (max_command_len + 1) text (i + 4) in
  let command :=
    match maybe_end with
    | None => None
    | Some e =>
        let cmd := slice text (i + 4) e in
        if mem cmd commands then Some cmd else None
    end in
  let start_index' :=
    match command, maybe_end with
    | Some _, Some e => e
    | _, _ => i + 4
    end in
  let maybe_codebraid_attr :=
    if (i <? 4)%nat || negb (char_in before_attr_chars (slice text (i - 1) i)) then false
    else
      match command, maybe_end with
      | Some _, Some e =>
          if negb (char_in after_attr_chars (slice text e (S e))) then false else true
      | _, _ => true
      end in
  ((i, line_num, maybe_codebraid_attr, command), start_index').

(** The loop of [_find_cb_command]; [fuel] bounds its turns and [None]
    says that the bound was reached. *)
Fixpoint find_cb_loop (fuel : nat) (text : string) (results : list occurrence)
    (line_num start_index : nat) : option (list occurrence) :=
  match fuel with
  | O => None
  | S fuel' =>
      match find ".cb." text start_index with
      | None => Some results
      | Some i =>
          let '(occ, start_index') := cb_occurrence text line_num start_index i in
          find_cb_loop fuel' text (results ++ [occ]) (occ_line occ) start_index'
      end
  end.

(** [PandocConverter._find_cb_command]: every turn moves [start_index] at
    least four characters on, so the length of the text bounds the turns. *)
Definition _find_cb_command (text : string) : option (list occurrence) :=
  find_cb_loop (S (String.length text)) text [] 1 0.

(** An entry of [sources_cb]: the source name and the occurrence. *)
Definition source_cb : Type := (string * occurrence)%type.

(** [sources_cb.pop()] until an entry satisfies [p], every entry passed
    over going onto [skipped].  A stack is written with its top first:
    [sources_cb] after its [reverse()] is in text order. *)
Fixpoint pop_until (p : source_cb -> bool) (sources_cb skipped : list source_cb)
    : result (source_cb * list source_cb * list source_cb) :=
  match sources_cb with
  | [] => Raise (IndexError "pop from empty list")
  | src_cb_i :: sources_cb' =>
      if p src_cb_i then Ok (src_cb_i, sources_cb', skipped)
      else pop_until p sources_cb' (src_cb_i :: skipped)
  end.

(** [while skipped: sources_cb.append(skipped.pop())] *)
Fixpoint replay (skipped sources_cb : list source_cb) : list source_cb :=
  match skipped with
  | [] => sources_cb
  | s :: skipped' => replay skipped' (s :: sources_cb)
  end.

(** [chunk.command == src_command] *)
Definition command_eq (command : pyval) (src_command : option string) : bool :=
  match command, src_command with
  | PStr a, Some b => String.eqb a b
  | PNone, None => true
  | _, _ => false
  end.

Definition option_eq (a b : option string) : bool :=
  match a, b with
  | Some x, Some y => String.eqb x y
  | None, None => true
  | _, _ => false
  end.

(** [chunk.source_name = src_name] and the line number: the marker's line
    for an inline chunk, the line after it for a block. *)
Definition locate (src_name : string) (src_line_number : nat) (self : PandocCodeChunk)
    : PandocCodeChunk :=
  let b := chunk self in
  set_chunk
    {| Base.source_errors := Base.source_errors b;
       Base.source_warnings := Base.source_warnings b;
       Base.command := Base.command b;
       Base.code := Base.code b;
       Base.source_name := Some src_name;
       Base.source_start_line_number :=
         Some (if Base.inline b then Z.of_nat src_line_number
               else Z.of_nat src_line_number + 1)%Z;
       Base.inline := Base.inline b;
       Base.options := Base.options b |} self.

(** The steps that give one chunk its place: pop until [p] holds, assign,
    replay what was passed over. *)
Definition match_chunk (p : source_cb -> bool) (self : PandocCodeChunk)
    (sources_cb skipped : list source_cb) : result (PandocCodeChunk * list source_cb) :=
  '(src_cb_i, sources_cb, skipped) ← pop_until p sources_cb skipped;
  Ok (locate src_cb_i.1 (occ_line src_cb_i.2) self, replay skipped sources_cb).

(** The first branch, taken when there are as many occurrences as chunks:
    [for chunk in self.code_chunks]. *)
Fixpoint match_equal (code_chunks : list PandocCodeChunk) (sources_cb : list source_cb)
    : result (list PandocCodeChunk * list source_cb) :=
  match code_chunks with
  | [] => Ok ([], sources_cb)
  | self :: code_chunks' =>
      '(self', sources_cb) ←
        match_chunk (fun s => command_eq (Base.command (chunk self)) (occ_command s.2))
          self sources_cb [];
      '(rest, sources_cb) ← match_equal code_chunks' sources_cb;
      Ok (self' :: rest, sources_cb)
  end.

(** [node['t']] of a yielded node, which the string tests need as a [str]. *)
Definition tuple_type (st : store) (r : node_ref) : result string :=
  match r with
  | Loaded l =>
      d ← get_dict st l;
      ty ← getkey "t" d;
      match ty with
      | VAtom (SStr s) => Ok s
      | _ => Raise AttributeError
      end
  | Pseudonode _ _ _ => Ok "Plain"
  end.

(** [node['c']] of a yielded node. *)
Definition tuple_contents (st : store) (r : node_ref) : result val :=
  match r with
  | Loaded l => d ← get_dict st l; getkey "c" d
  | Pseudonode _ _ term => Ok term
  end.

(** The test for the end-of-file comment of a concatenated source. *)
Definition is_eof_comment (st : store) (r : node_ref) : result bool :=
  contents ← tuple_contents st r;
  '(node_format, node_contents) ← unpack_pair st contents;
  match node_format with
  | VAtom (SStr f) =>
      Ok (String.eqb (lower f) "html"
          && bool_decide (node_contents = VAtom (SStr "<!--codebraid.eof-->")))
  | _ => Raise AttributeError
  end.

(** [node['t'] = 'Null'; del node['c']] *)
Definition make_null (r : node_ref) (st : store) : result store :=
  match r with
  | Loaded l =>
      d ← get_dict st l;
      Ok (set_dict l (Base.od_pop "c" (Base.od_set "t" (VAtom (SStr "Null")) d)) st)
  | Pseudonode _ _ _ => Ok st
  end.

Definition freeze_ref (r : node_ref) (st : store) : result store :=
  match r with
  | Loaded l => _freeze_raw_node l st
  | Pseudonode _ _ _ => Raise (KeyError "Plain")
  end.

(** The second loop of the first branch: freeze the raw nodes. *)
Fixpoint freeze_raw_nodes (single_source : bool) (tuples : list node_tuple) (st : store)
    : result store :=
  match tuples with
  | [] => Ok st
  | tp :: tuples' =>
      ty ← tuple_type st (nt_node tp);
      if startswith "Raw" ty then
        eof ← (if single_source then Ok false else is_eof_comment st (nt_node tp));
        st' ← (if eof : bool then make_null (nt_node tp) st else freeze_ref (nt_node tp) st);
        freeze_raw_nodes single_source tuples' st'
      else freeze_raw_nodes single_source tuples' st
  end.

(** The state of the loop of the second branch. *)
Record mstate : Type := mkMstate {
  sources_cb : list source_cb;
  source_names_stack : list string;
  code_chunk_iter : list PandocCodeChunk;
  located : list PandocCodeChunk;
  ast_store : store
}.

(** [for ... in node_cb], popping with [p] for each occurrence of the
    node's own text. *)
Fixpoint pop_each (p : occurrence -> source_cb -> bool) (node_cb : list occurrence)
    (sources_cb skipped : list source_cb) : result (list source_cb * list source_cb) :=
  match node_cb with
  | [] => Ok (sources_cb, skipped)
  | o :: node_cb' =>
      '(_, sources_cb, skipped) ← pop_until (p o) sources_cb skipped;
      pop_each p node_cb' sources_cb skipped
  end.

(** [while sources_cb and sources_cb[-1][0] == current_source_name: sources_cb.pop()] *)
Fixpoint drop_source (current_source_name : string) (sources_cb : list source_cb)
    : list source_cb :=
  match sources_cb with
  | s :: sources_cb' =>
      if String.eqb s.1 current_source_name then drop_source current_source_name sources_cb'
      else sources_cb
  | [] => []
  end.

(** [id(node) in codebraid_node_set] *)
Definition in_node_set (codebraid_node_set : list positive) (r : node_ref) : bool :=
  match r with
  | Loaded l => bool_decide (l ∈ codebraid_node_set)
  | Pseudonode _ _ _ => false
  end.

(** One turn of the loop of the second branch, taken when occurrences and
    chunks differ in number. *)
Definition match_node (single_source : bool) (codebraid_node_set : list positive)
    (tp : node_tuple) (m : mstate) : result mstate :=
  let r := nt_node tp in
  let st := ast_store m in
  ty ← tuple_type st r;
  eof ← (if negb single_source && startswith "Raw" ty then is_eof_comment st r else Ok false);
  if eof : bool then
    st' ← make_null r st;
    match source_names_stack m with
    | [] => Raise (IndexError "pop from empty list")
    | current_source_name :: names =>
        Ok {| sources_cb := drop_source current_source_name (sources_cb m);
              source_names_stack := names;
              code_chunk_iter := code_chunk_iter m;
              located := located m;
              ast_store := st' |}
    end
  else
    contents ← tuple_contents st r;
    text ← getitem st contents 1;
    node_cb ←
      match text with
      | VAtom (SStr s) =>
          match _find_cb_command s with
          | Some found => Ok found
          | None => Raise RecursionError
          end
      | _ => Raise AttributeError
      end;
    let is_block := endswith "Block" ty in
    (* inline: the code comes before the attributes *)
    stack ←
      (if negb is_block then
         '(stack, skipped) ←
           pop_each (fun o s => option_eq (occ_command o) (occ_command s.2))
             node_cb (sources_cb m) [];
         Ok (replay skipped stack)
       else Ok (sources_cb m));
    (* the chunk of this node, if it is one *)
    '(chunks, done, stack) ←
      (if in_node_set codebraid_node_set r then
         match code_chunk_iter m with
         | [] => Raise StopIteration
         | self :: chunks =>
             '(self', stack) ←
               match_chunk (fun s => command_eq (Base.command (chunk self)) (occ_command s.2)
                                     && occ_maybe s.2) self stack [];
             Ok (chunks, located m ++ [self'], stack)
         end
       else Ok (code_chunk_iter m, located m, stack));
    (* block: the code comes after the attributes *)
    stack ←
      (if is_block then
         '(stack, skipped) ←
           pop_each (fun o s => option_eq (occ_command o) (occ_command s.2)
                                && Bool.eqb (occ_maybe o) (occ_maybe s.2))
             node_cb stack [];
         Ok (replay skipped stack)
       else Ok stack);
    st' ← (if startswith "Raw" ty then freeze_ref r st else Ok st);
    Ok {| sources_cb := stack;
          source_names_stack := source_names_stack m;
          code_chunk_iter := chunks;
          located := done;
          ast_store := st' |}.

Fixpoint match_nodes (single_source : bool) (codebraid_node_set : list positive)
    (tuples : list node_tuple) (m : mstate) : result mstate :=
  match tuples with
  | [] => Ok m
  | tp :: tuples' =>
      m' ← match_node single_source codebraid_node_set tp m;
      match_nodes single_source codebraid_node_set tuples' m'
  end.

(** Lines 1063 to 1161 of [_load_and_process_initial_ast]: the chunks with
    their places and the AST with its raw nodes frozen. *)
Definition match_sources (single_source : bool) (sources_cb : list source_cb)
    (source_names_stack : list string) (code_chunks : list PandocCodeChunk)
    (codebraid_node_set : list positive) (code_raw_node_tuples : list node_tuple)
    (st : store) : result (list PandocCodeChunk * store) :=
  if (length sources_cb =? length code_chunks)%nat then
    '(chunks, _) ← match_equal code_chunks sources_cb;
    st' ← freeze_raw_nodes single_source code_raw_node_tuples st;
    Ok (chunks, st')
  else
    m ← match_nodes single_source codebraid_node_set code_raw_node_tuples
          (mkMstate sources_cb source_names_stack code_chunks [] st);
    Ok (located m ++ code_chunk_iter m, ast_store m).

End Trace.

(** ** pandoc.py: finding the chunks of an AST *)

Definition pandoc_code_raw_nodes : list string :=
  ["CodeBlock"; "Code"; "RawBlock"; "RawInline"].

(** [any(c.startswith('cb.') for c in classes)] *)
Fixpoint any_cb (classes : list val) : result bool :=
  match classes with
  | [] => Ok false
  | VAtom (SStr s) :: classes' => if startswith "cb." s then Ok true else any_cb classes'
  | _ :: _ => Raise AttributeError
  end.

Definition has_cb_class (st : store) (r : node_ref) : result bool :=
  contents ← tuple_contents st r;
  attrs ← getitem st contents 0;
  classes ← getitem st attrs 1;
  match classes with
  | VList l => items ← get_list st l; any_cb items
  | VDict l => d ← get_dict st l; any_cb (map (fun kv => VAtom (SStr kv.1)) d)
  | VAtom (SStr _) => Ok false
  | VAtom _ => Raise TypeError
  end.

Section Extract.

Variable commands : list string.
Variable include_keywords : list string.
Variable super_init :
  list string -> list string -> pyval -> Base.code_arg -> list (string * pyval) ->
  option string -> option Z -> bool -> Base.heap -> result (Base.CodeChunk * Base.heap).

(** The first loop over [code_raw_node_tuples]: a chunk for every code
    node with a class that starts with [cb.]; the new chunks in order, the
    locations of their nodes and the store of show tables. *)
Fixpoint make_chunks (st : store) (tuples : list node_tuple) (h : Base.heap)
    : result (list PandocCodeChunk * list positive * Base.heap) :=
  match tuples with
  | [] => Ok ([], [], h)
  | tp :: tuples' =>
      ty ← tuple_type st (nt_node tp);
      is_chunk ← (if startswith "Code" ty then has_cb_class st (nt_node tp) else Ok false);
      if is_chunk : bool then
        match nt_node tp with
        | Loaded l =>
            '(code_chunk, h) ←
              PandocCodeChunk_init commands include_keywords super_init st l (nt_parent tp)
                (nt_list tp) (nt_index tp) None None h;
            '(chunks, ids, h) ← make_chunks st tuples' h;
            Ok (code_chunk :: chunks, l :: ids, h)
        | Pseudonode _ _ _ => Raise TypeError
        end
      else make_chunks st tuples' h
  end.

(** [[(name, cb_i) for cb_i in self._find_cb_command(text)]] *)
Definition source_occurrences (name text : string) : result (list source_cb) :=
  match _find_cb_command commands text with
  | Some found => Ok (map (fun o => (name, o)) found)
  | None => Raise RecursionError
  end.

Fixpoint all_occurrences (sources : list (string * string)) : result (list source_cb) :=
  match sources with
  | [] => Ok []
  | (name, text) :: sources' =>
      here ← source_occurrences name text;
      rest ← all_occurrences sources';
      Ok (here ++ rest)
  end.

(** What the converter holds between its steps. *)
Record converter : Type := mkConverter {
  code_chunks : list PandocCodeChunk;
  asts : list (option string * positive);
  ast_objects : store;
  show_tables : Base.heap
}.

(** [_load_and_process_initial_ast] from the loaded AST on (the call of
    Pandoc and [json.loads] give the root [ast] of a new tree in the
    store).  [single_source_name] is [None] for concatenated sources. *)
Definition _load_and_process_initial_ast (depth : nat) (io_map : bool)
    (sources : list (string * string)) (source_string : string)
    (single_source_name : option string) (ast : positive) (self : converter)
    : result converter :=
  let st := ast_objects self in
  code_raw_node_tuples ← _walk_ast st depth ast (Some pandoc_code_raw_nodes) false;
  '(new_chunks, codebraid_node_set, h) ← make_chunks st code_raw_node_tuples (show_tables self);
  let code_chunks := code_chunks self ++ new_chunks in
  '(sources_cb, source_names_stack) ←
    match single_source_name with
    | Some name => found ← source_occurrences name source_string; Ok (found, [name])
    | None => found ← all_occurrences sources; Ok (found, map fst sources)
    end;
  if io_map then Raise NotImplementedError
  else
    '(chunks, st') ←
      match_sources commands
        (match single_source_name with Some _ => true | None => false end)
        sources_cb source_names_stack code_chunks codebraid_node_set code_raw_node_tuples st;
    Ok {| code_chunks := chunks;
          asts := asts self ++ [(single_source_name, ast)];
          ast_objects := st';
          show_tables := h |}.

(** The call of Pandoc with [json.loads]: the text goes in, the store
    gains the objects of the AST and the root is returned. *)
Variable load_ast : string -> store -> result (positive * store).

Definition load_and_process (depth : nat) (io_map : bool) (sources : list (string * string))
    (source_string : string) (single_source_name : option string) (self : converter)
    : result converter :=
  '(ast, st) ← load_ast source_string (ast_objects self);
  _load_and_process_initial_ast depth io_map sources source_string single_source_name ast
    {| code_chunks := code_chunks self; asts := asts self; ast_objects := st;
       show_tables := show_tables self |}.

Fixpoint load_each (depth : nat) (io_map : bool) (sources todo : list (string * string))
    (self : converter) : result converter :=
  match todo with
  | [] => Ok self
  | (source_name, source_string) :: todo' =>
      self' ← load_and_process depth io_map sources source_string (Some source_name) self;
      load_each depth io_map sources todo' self'
  end.

(** [PandocConverter._extract_code_chunks] *)
Definition _extract_code_chunks (depth : nat) (io_map pandoc_file_scope : bool)
    (sources : list (string * string)) (concat_source_string : string) (self : converter)
    : result converter :=
  if pandoc_file_scope || (length sources =? 1)%nat then
    load_each depth io_map sources sources self
  else load_and_process depth io_map sources concat_source_string None self.

End Extract.

(** ** pandoc.py: the output splicer *)

(** The values of a sequence put into the store one after the other. *)
Definition alloc_each (alloc : json -> store -> val * store)
    : list json -> store -> list val * store :=
  fix go (xs : list json) (st : store) : list val * store :=
    match xs with
    | [] => ([], st)
    | x :: xs' =>
        let '(v, st) := alloc x st in
        let '(vs, st) := go xs' st in
        (v :: vs, st)
    end.

Definition alloc_fields (alloc : json -> store -> val * store)
    : list (string * json) -> store -> list (string * val) * store :=
  fix go (fields : list (string * json)) (st : store) : list (string * val) * store :=
    match fields with
    | [] => ([], st)
    | (k, x) :: fields' =>
        let '(v, st) := alloc x st in
        let '(d, st) := go fields' st in
        ((k, v) :: d, st)
    end.

(** The objects of a JSON value, put into the store as [json.loads] or a
    dict or list display makes them: the parts first, then the object that
    holds them. *)
Fixpoint alloc_json (j : json) (st : store) : val * store :=
  match j with
  | JAtom a => (VAtom a, st)
  | JList xs => let '(vs, st) := alloc_each alloc_json xs st in new_list vs st
  | JDict fields => let '(d, st) := alloc_fields alloc_json fields st in new_dict d st
  end.

Fixpoint alloc_nodes (nodes : list onode) (st : store) : list val * store :=
  match nodes with
  | [] => ([], st)
  | n :: nodes' =>
      let '(v, st) := alloc_json (of_node n) st in
      let '(vs, st) := alloc_nodes nodes' st in
      (v :: vs, st)
  end.

Section Splice.

Variable layout_output : PandocCodeChunk -> string -> string -> option (list string) -> string.
Variable splitlines_lf : string -> list string.
Variable rich_text_default_display : list (string * string).
Variable mime_map : list (string * string).

(** [PandocCodeChunk.update_parent_node] *)
Definition update_parent_node (h : Base.heap) (self : PandocCodeChunk) (st : store)
    : result (store * PandocCodeChunk) :=
  match Base.options (chunk self) !! "example" with
  | None => Raise (KeyError "example")
  | Some example =>
      if negb (truthy h example) then
        let index := parent_node_list_index self in
        '(nodes, self') ← output_nodes layout_output splitlines_lf rich_text_default_display
                            mime_map h self;
        match parent_node_list self with
        | VList l =>
            xs ← get_list st l;
            let '(vs, st) := alloc_nodes nodes st in
            Ok (set_list l (take index xs ++ vs ++ drop (S index) xs) st, self')
        | _ => Raise TypeError
        end
      else
        let markup_node :=
          JNode "CodeBlock"
            (JList [attr EmptyString [] [];
                    JStr (layout_output self "example_markup" "verbatim" None)]) in
        let markup_div :=
          JNode "Div" (JList [attr EmptyString ["exampleMarkup"] []; JList [markup_node]]) in
        '(nodes, self') ← output_nodes layout_output splitlines_lf rich_text_default_display
                            mime_map h self;
        let inline := Base.inline (chunk self) in
        let example_div_contents :=
          match nodes with
          | [] => [markup_div]
          | _ :: _ =>
              let output_nodes :=
                if inline then [JNode "Para" (JList (map of_node nodes))]
                else map of_node nodes in
              [markup_div;
               JNode "Div" (JList [attr EmptyString ["exampleOutput"] []; JList output_nodes])]
          end in
        let example_div_c := JList [attr EmptyString ["example"] []; JList example_div_contents] in
        if inline then
          match parent_node self with
          | Loaded p =>
              d ← get_dict st p;
              let '(vc, st) := alloc_json example_div_c st in
              Ok (set_dict p (Base.od_set "c" vc (Base.od_set "t" (VAtom (SStr "Div")) d)) st,
                  self')
          | Pseudonode _ _ _ => Ok (st, self')
          end
        else
          let index := parent_node_list_index self in
          match parent_node_list self with
          | VList l =>
              xs ← get_list st l;
              if (index <? length xs)%nat then
                let '(v, st) := alloc_json (JNode "Div" example_div_c) st in
                Ok (set_list l (<[index := v]> xs) st, self')
              else Raise (IndexError "list assignment index out of range")
          | _ => Raise TypeError
          end
  end.

(** [for code_chunk in reversed(self.code_chunks): code_chunk.update_parent_node()],
    given the chunks in the order of the loop; the chunks come back in
    that order. *)
Fixpoint update_each (h : Base.heap) (chunks : list PandocCodeChunk) (st : store)
    : result (store * list PandocCodeChunk) :=
  match chunks with
  | [] => Ok (st, [])
  | self :: chunks' =>
      '(st, self') ← update_parent_node h self st;
      '(st, rest) ← update_each h chunks' st;
      Ok (st, self' :: rest)
  end.

(** The loop that opens [PandocConverter._postprocess_code_chunks]; the
    calls of Pandoc that follow it are outside this model. *)
Definition _postprocess_code_chunks (self : converter) : result converter :=
  '(st, updated) ← update_each (show_tables self) (rev (code_chunks self)) (ast_objects self);
  Ok {| code_chunks := rev updated; asts := asts self; ast_objects := st;
        show_tables := show_tables self |}.

End Splice.

(** ** pandoc.py: formats and sources *)

(** [min(xs, default=-1)], with [None] for -1. *)
Definition min_index (xs : list nat) : option nat :=
  match xs with
  | [] => None
  | x :: xs' => Some (fold_left Nat.min xs' x)
  end.

(** [PandocConverter._split_format_extensions] *)
Definition _split_format_extensions (format_extensions : option string)
    : option string * option string :=
  match format_extensions with
  | None => (None, None)
  | Some fe =>
      match min_index (omap id [find "+" fe 0; find "-" fe 0]) with
      | Some index => (Some (slice fe 0 index), Some (drop_str index fe))
      | None => (Some fe, None)
      end
  end.

Definition eof_comment : string := "<!--codebraid.eof-->".

(** The body of the loop of [PandocConverter.__init__] over the sources
    that are to be concatenated: the source with the comment that ends it. *)
Definition with_eof_comment (source_string : string) : string :=
  let line := String nl EmptyString in
  if String.eqb (drop_str (String.length source_string - 1) source_string) line
  then source_string +:+ line +:+ eof_comment +:+ line +:+ line
  else source_string +:+ line +:+ line +:+ eof_comment +:+ line +:+ line.

(** [self.concat_source_string] *)
Definition concat_sources (sources : list (string * string)) : string :=
  join EmptyString (map (fun s => with_eof_comment s.2) sources).

(** ** pandoc.py: tracking of source places *)

Definition stx : string := String (ascii_of_nat 2) EmptyString.
Definition etx : string := String (ascii_of_nat 3) EmptyString.

(** ['\x02CodebraidTrace({0})\x03'.format(trace)] *)
Definition tracker (trace : string) : string :=
  stx +:+ "CodebraidTrace(" +:+ trace +:+ ")" +:+ etx.

(** ['{0}:{1}'.format(source_name, line_number)] *)
Definition trace_of (source_name : string) (line_number : Z) : string :=
  source_name +:+ ":" +:+ str_of_Z line_number.

(** [PandocConverter._io_map_span_node] *)
Definition _io_map_span_node (source_name : string) (line_number : Z) : json :=
  JNode "Span"
    (JList [JList [JStr EmptyString;
                   JList [JStr "codebraid--temp"];
                   JList [JList [JStr "trace"; JStr (trace_of source_name line_number)]]];
            JList []]).

(** [str(x)] of a scalar of the AST. *)
Definition str_of_scalar (a : scalar) : string :=
  match a with
  | SNone => "None"
  | SBool true => "True"
  | SBool false => "False"
  | SInt z => str_of_Z z
  | SFloat text => text
  | SStr s => s
  end.

Section Tracking.

(** [str(x)] of a list or a dict of the AST, which the code never needs
    for an AST that Pandoc wrote. *)
Variable str_of_object : store -> val -> string.

Definition format_val (st : store) (v : val) : string :=
  match v with
  | VAtom a => str_of_scalar a
  | _ => str_of_object st v
  end.

(** [PandocConverter._io_map_span_node_to_raw_tracker] on the dict at
    [span_node]. *)
Definition _io_map_span_node_to_raw_tracker (span_node : positive) (st : store)
    : result store :=
  d ← get_dict st span_node;
  let d := Base.od_set "t" (VAtom (SStr "RawInline")) d in
  contents ← getkey "c" d;
  attrs ← getitem st contents 0;
  kvpairs ← getitem st attrs 2;
  kv ← getitem st kvpairs 0;
  trace ← getitem st kv 1;
  let '(contents', st) :=
    new_list [VAtom SNone; VAtom (SStr (tracker (format_val st trace)))] st in
  Ok (set_dict span_node (Base.od_set "c" contents' d) st).

(** [PandocConverter._freeze_raw_node_io_map] on the dict at [node]. *)
Definition _freeze_raw_node_io_map (node : positive) (source_name : string)
    (line_number : Z) (st : store) : result store :=
  d ← get_dict st node;
  ty ← getkey "t" d;
  ty' ← translate [("RawBlock", "CodeBlock"); ("RawInline", "Code")] ty;
  let d := Base.od_set "t" (VAtom (SStr ty')) d in
  contents ← getkey "c" d;
  '(raw_format, raw_content) ← unpack_pair st contents;
  let '(classes, st) := new_list [VAtom (SStr "codebraid--temp")] st in
  let '(kv_format, st) := new_list [VAtom (SStr "format"); raw_format] st in
  let '(kv_trace, st) :=
    new_list [VAtom (SStr "trace"); VAtom (SStr (trace_of source_name line_number))] st in
  let '(kvpairs, st) := new_list [kv_format; kv_trace] st in
  let '(attrs, st) := new_list [VAtom (SStr EmptyString); classes; kvpairs] st in
  let '(contents', st) := new_list [attrs; raw_content] st in
  Ok (set_dict node (Base.od_set "c" contents' d) st).

(** What a [for] loop goes over. *)
Definition iterate (st : store) (v : val) : result (list val) :=
  match v with
  | VList l => get_list st l
  | VDict l => d ← get_dict st l; Ok (map (fun kv => VAtom (SStr kv.1)) d)
  | VAtom (SStr s) =>
      Ok (map (fun a => VAtom (SStr (String a EmptyString))) (list_ascii_of_string s))
  | VAtom _ => Raise TypeError
  end.

(** The loop of [_thaw_raw_node_io_map] over the key-value pairs:
    [raw_format] and [trace] as they are bound so far. *)
Fixpoint thaw_pairs (st : store) (pairs : list val) (raw_format trace : option val)
    : result (option val * option val) :=
  match pairs with
  | [] => Ok (raw_format, trace)
  | kv :: pairs' =>
      '(k, v) ← unpack_pair st kv;
      if is_str "format" k then thaw_pairs st pairs' (Some v) trace
      else if is_str "trace" k then thaw_pairs st pairs' raw_format (Some v)
      else Raise ValueError
  end.

(** [PandocConverter._thaw_raw_node_io_map] on the dict at [node]. *)
Definition _thaw_raw_node_io_map (node : positive) (st : store) : result store :=
  d ← get_dict st node;
  ty ← getkey "t" d;
  ty' ← translate [("CodeBlock", "RawBlock"); ("Code", "RawInline")] ty;
  let d := Base.od_set "t" (VAtom (SStr ty')) d in
  contents ← getkey "c" d;
  attrs ← getitem st contents 0;
  kvpairs ← getitem st attrs 2;
  pairs ← iterate st kvpairs;
  '(raw_format, trace) ← thaw_pairs st pairs None None;
  match raw_format with
  | None => Raise (UnboundLocalError "raw_format")
  | Some raw_format =>
      match trace with
      | None => Raise (UnboundLocalError "trace")
      | Some trace =>
          raw_content ← getitem st contents 1;
          match raw_content with
          | VAtom (SStr content) =>
              let '(contents', st) :=
                new_list [raw_format;
                          VAtom (SStr (tracker (format_val st trace) +:+ content))] st in
              Ok (set_dict node (Base.od_set "c" contents' d) st)
          | _ => Raise TypeError
          end
      end
  end.

End Tracking.

(** ** pandoc.py: the Markdown of a chunk *)

(** [s.replace(c, by)] for a one-character [c]. *)
Fixpoint replace_char (c : ascii) (replacement s : string) : string :=
  match s with
  | EmptyString => EmptyString
  | String d s' =>
      if ascii_eqb c d then replacement +:+ replace_char c replacement s'
      else String d (replace_char c replacement s')
  end.

(** [s.strip(c)] for a one-character [c]. *)
Fixpoint lstrip_char (c : ascii) (s : string) : string :=
  match s with
  | String d s' => if ascii_eqb c d then lstrip_char c s' else s
  | EmptyString => EmptyString
  end.

Definition strip_char (c : ascii) (s : string) : string :=
  String.rev (lstrip_char c (String.rev (lstrip_char c s))).

(** The first character class of [_unquoted_kv_value_re],
    [[A-Za-z$_+\-]]. *)
Definition is_unquoted_start (c : ascii) : bool :=
  let n := nat_of_ascii c in
  (((65 <=? n) && (n <=? 90)) || ((97 <=? n) && (n <=? 122))
   || (n =? 36) || (n =? 95) || (n =? 43) || (n =? 45))%nat.

(** [_unquoted_kv_value_re.match(v)] as a truth value: the pattern
    [[A-Za-z$_+\-][A-Za-z0-9$_+\-:]*] is matched at the start of [v] and
    need not reach its end, so one character of the first class is
    enough. *)
Definition _unquoted_kv_value_re_match (v : string) : bool :=
  match v with
  | String c _ => is_unquoted_start c
  | EmptyString => false
  end.

(** ['"{0}"'.format(v.replace('\\', '\\\\').replace('"', '\\"'))] *)
Definition quoted (v : string) : string :=
  dq +:+ replace_char (ascii_of_nat 34) (bs +:+ dq)
           (replace_char (ascii_of_nat 92) (bs +:+ bs) v) +:+ dq.

(** [while delim in code: delim += piece] and the [delim] it ends with.
    The loop stops once [delim] is longer than [code], so the length of
    [code] and one more step are fuel enough. *)
Fixpoint grow_delim (fuel : nat) (piece delim code : string) : string :=
  match fuel with
  | O => delim
  | S fuel' =>
      if contains delim code then grow_delim fuel' piece (delim +:+ piece) code else delim
  end.

(** [set(self.options.get('hide_markup_keys', []))], as a list. *)
Definition hide_markup_keys (h : Base.heap) (options : gmap string Base.slot)
    : result (list string) :=
  match options !! "hide_markup_keys" with
  | None => Ok []
  | Some (Base.Val (PStrs xs)) => Ok xs
  | Some (Base.Val (PStr s)) =>
      Ok (map (fun a => String a EmptyString) (list_ascii_of_string s))
  | Some (Base.Val (PSub kvs)) => Ok (map fst kvs)
  | Some (Base.Val _) => Raise TypeError
  | Some (Base.Ref l) =>
      match Base.objs h !! l with
      | Some d => Ok (map fst d)
      | None => Raise TypeError
      end
  end.

(** The attributes between the braces. *)
Definition attr_list (node_id : string) (node_classes : list string)
    (node_kvpairs : list (string * string)) (hide_keys : list string) : list string :=
  (if String.eqb node_id EmptyString then [] else ["#" +:+ node_id])
  ++ map (fun c => "." +:+ c) node_classes
  ++ flat_map (fun kv =>
                 if mem kv.1 hide_keys then []
                 else [kv.1 +:+ "=" +:+
                       (if _unquoted_kv_value_re_match kv.2 then kv.2 else quoted kv.2)])
       node_kvpairs.

Section Markdown.

(** Two attributes of the chunk that this method reads and a newer base
    class sets: the lines of a placeholder, and the lines of the code. *)
Variable placeholder_code_lines : option (list string).
Variable code_lines : list string.

(** [PandocCodeChunk._generate_markdown_lines] *)
Definition _generate_markdown_lines (h : Base.heap) (self : PandocCodeChunk)
    (example : bool) : result (list string) :=
  keys ← hide_markup_keys h (Base.options (chunk self));
  let hide_keys := if example then keys ++ ["example"] else keys in
  let attr :=
    join " " (attr_list (node_id self) (node_classes self) (node_kvpairs self) hide_keys) in
  '(lines, code) ←
    match placeholder_code_lines with
    | Some [] => Raise (IndexError "list index out of range")
    | Some (first :: rest) => Ok (first :: rest, first)
    | None => Ok (code_lines, Base.code (chunk self))
    end;
  if Base.inline (chunk self) then
    let code_strip := strip_char " " code in
    let code := if startswith "`" code_strip then " " +:+ code else code in
    let code := if endswith "`" code_strip then code +:+ " " else code in
    let delim := grow_delim (S (String.length code)) "`" "`" code in
    Ok [delim +:+ code +:+ delim +:+ "{" +:+ attr +:+ "}"]
  else if match placeholder_code_lines with None => true | Some _ => false end
          || negb (String.eqb code EmptyString) then
    let delim := grow_delim (S (String.length code)) "```" "```" code in
    Ok ([delim +:+ "{" +:+ attr +:+ "}"] ++ lines ++ [delim])
  else Ok ["```{" +:+ attr +:+ "}"; "```"].

End Markdown.

End Pandoc.

(** ** Tree-shaped stores *)

Module Tree.
Import Pandoc.

(** A picture of the objects reached from one value of the store: every
    list and dict with its location.  It says what a store holds when the
    objects form a tree, as they do after [json.loads]. *)
#[local] Unset Elimination Schemes.
Inductive obj : Type :=
| OAtom (a : scalar)
| OList (id : positive) (items : list obj)
| ODict (id : positive) (fields : list (string * obj)).
#[local] Set Elimination Schemes.

Definition val_of (o : obj) : val :=
  match o with
  | OAtom a => VAtom a
  | OList id _ => VList id
  | ODict id _ => VDict id
  end.

(** The store has the objects of the picture. *)
Fixpoint holds (st : store) (o : obj) : Prop :=
  match o with
  | OAtom _ => True
  | OList id items =>
      lists st !! id = Some (map val_of items)
      /\ fold_right (fun x P => holds st x /\ P) True items
  | ODict id fields =>
      dicts st !! id = Some (map (fun kv => (kv.1, val_of kv.2)) fields)
      /\ fold_right (fun kv P => holds st kv.2 /\ P) True fields
  end.

(** The locations of the lists of the picture. *)
Fixpoint list_ids (o : obj) : list positive :=
  match o with
  | OAtom _ => []
  | OList id items => id :: flat_map list_ids items
  | ODict _ fields => flat_map (fun kv => list_ids kv.2) fields
  end.

(** The picture of a JSON value loaded with [first] as the first free
    location: the parts get their locations first, then the object that
    holds them, as in [alloc_json]. *)
Definition picture_each (pic : json -> positive -> obj * positive)
    : list json -> positive -> list obj * positive :=
  fix go (xs : list json) (first : positive) : list obj * positive :=
    match xs with
    | [] => ([], first)
    | x :: xs' =>
        let '(o, first) := pic x first in
        let '(os, first) := go xs' first in
        (o :: os, first)
    end.

Definition picture_fields (pic : json -> positive -> obj * positive)
    : list (string * json) -> positive -> list (string * obj) * positive :=
  fix go (fields : list (string * json)) (first : positive)
    : list (string * obj) * positive :=
    match fields with
    | [] => ([], first)
    | (k, x) :: fields' =>
        let '(o, first) := pic x first in
        let '(os, first) := go fields' first in
        ((k, o) :: os, first)
    end.

Fixpoint picture (j : json) (first : positive) : obj * positive :=
  match j with
  | JAtom a => (OAtom a, first)
  | JList xs =>
      let '(os, first) := picture_each picture xs first in
      (OList first os, Pos.succ first)
  | JDict fields =>
      let '(os, first) := picture_fields picture fields first in
      (ODict first os, Pos.succ first)
  end.

(** A recorded place: a list, an index in it and the node there. *)
Definition place : Type := (positive * nat * positive)%type.

Definition tuple_place (tp : node_tuple) : option place :=
  match nt_node tp, nt_list tp with
  | Loaded n, VList l => Some (l, nt_index tp, n)
  | _, _ => None
  end.

Definition places (tuples : list node_tuple) : list place := omap tuple_place tuples.

(** The list at the place has the node at the index. *)
Definition in_place (st : store) (p : place) : Prop :=
  exists xs, lists st !! p.1.1 = Some xs /\ xs !! p.1.2 = Some (VDict p.2).

(** Places in the same list come with growing indices. *)
Fixpoint ordered (ps : list place) : Prop :=
  match ps with
  | [] => True
  | p :: ps' => (forall q, q ∈ ps' -> q.1.1 = p.1.1 -> (p.1.2 < q.1.2)%nat) /\ ordered ps'
  end.

End Tree.

(** * Properties *)

Import Py.

(** ** The separators of [output_nodes] *)

Section Separators.
Import Pandoc.

Definition t_code_of (inline : bool) : string := if inline then "Code" else "CodeBlock".
Definition t_raw_of (inline : bool) : string := if inline then "RawInline" else "RawBlock".

Lemma adjacent_pairs_cons a b l :
  adjacent_pairs (a :: b :: l) = (a, b) :: adjacent_pairs (b :: l).
Proof. reflexivity. Qed.

Lemma last_default_irrelevant (x : onode) l d d' :
  List.last (x :: l) d = List.last (x :: l) d'.
Proof.
  revert x. induction l as [|y l IH]; intros x; [reflexivity|].
  change (List.last (y :: l) d = List.last (y :: l) d'). apply IH.
Qed.

Lemma separate_single inline tc tr a : separate inline tc tr [a] = [a].
Proof. reflexivity. Qed.

(** The loop, read from the front: a node, its separator if any, and the
    rest of the list from the next node on. *)
Lemma separate_cons inline tc tr a b l :
  separate inline tc tr (a :: b :: l)
  = a :: separator inline tc tr a b ++ separate inline tc tr (b :: l).
Proof.
  unfold separate. rewrite adjacent_pairs_cons. cbn [flat_map fst snd].
  rewrite <- !app_comm_cons, <- !app_assoc. do 3 f_equal.
  change (List.last (a :: b :: l) a) with (List.last (b :: l) a).
  f_equal. apply last_default_irrelevant.
Qed.

Lemma separate_between inline tc tr l1 a b l2 :
  separate inline tc tr (l1 ++ a :: b :: l2)
  = separate inline tc tr (l1 ++ [a]) ++ separator inline tc tr a b
    ++ separate inline tc tr (b :: l2).
Proof.
  induction l1 as [|x l1 IH].
  - cbn [app]. rewrite separate_cons, separate_single. reflexivity.
  - destruct l1 as [|y l1].
    + cbn [app]. rewrite !separate_cons, separate_single.
      rewrite <- !app_comm_cons, <- !app_assoc. reflexivity.
    + change ((x :: y :: l1) ++ a :: b :: l2) with (x :: y :: (l1 ++ a :: b :: l2)).
      change ((x :: y :: l1) ++ [a]) with (x :: y :: (l1 ++ [a])).
      rewrite !separate_cons.
      change (y :: l1 ++ a :: b :: l2) with ((y :: l1) ++ a :: b :: l2).
      rewrite IH. rewrite <- !app_comm_cons, <- !app_assoc. reflexivity.
Qed.

Lemma separator_spec inline (a b : onode) :
  separator inline (t_code_of inline) (t_raw_of inline) a b <> []
  <-> (t a = t_raw_of inline \/ t b = t_raw_of inline)
      \/ (inline = true /\ t a = "Code" /\ t b = "Code").
Proof.
  unfold separator.
  destruct (String.eqb_spec (t a) (t_raw_of inline)) as [Ha|Ha];
  destruct (String.eqb_spec (t b) (t_raw_of inline)) as [Hb|Hb]; cbn [orb].
  1-3: split; [intros _; left; tauto | intros _; destruct inline; discriminate].
  destruct inline; cbn [andb t_code_of].
  - destruct (String.eqb_spec (t a) (t b)) as [Hab|Hab];
    destruct (String.eqb_spec (t b) "Code") as [Hc|Hc]; cbn [andb];
    split; try discriminate; try congruence; try tauto;
    try (intros _; right; repeat split; congruence);
    try (intros [[?|?]|(_ & ? & ?)]; congruence).
  - split; [congruence|]. intros [[?|?]|(? & _)]; congruence.
Qed.

(** The claim as the spec words it: a separator exactly between two raw
    nodes, or between two inline code nodes. *)
Definition separator_as_stated (inline : bool) (a b : onode) : Prop :=
  separator inline (t_code_of inline) (t_raw_of inline) a b <> []
  <-> (t a = t_raw_of inline /\ t b = t_raw_of inline)
      \/ (inline = true /\ t a = "Code" /\ t b = "Code").

Definition block_code_node : onode :=
  mkNode "CodeBlock" (JList [attr EmptyString [] []; JStr "print(1)"]).
Definition block_raw_node : onode :=
  mkNode "RawBlock" (JList [JStr "markdown"; JStr "1"]).

(** C9, counterexample: in a block chunk a code block followed by a raw
    block gets the empty paragraph between them, although only one of the
    two is raw. *)
Lemma separator_code_then_raw :
  separate false "CodeBlock" "RawBlock" [block_code_node; block_raw_node]
  = [block_code_node; mkNode "Para" (JList []); block_raw_node]
  /\ ~ separator_as_stated false block_code_node block_raw_node.
Proof.
  split; [reflexivity|].
  intros [H _]. cbv in H.
  destruct H as [[H _]|[H _]]; [discriminate|discriminate|discriminate].
Qed.

(** C9, amended: between two adjacent output nodes the loop puts at most
    one separator, and it puts one exactly when at least one of the two is
    a raw node of the chunk's mode, or the chunk is inline and both are
    [Code] nodes.  The separator is [Str ' '] for an inline chunk and an
    empty [Para] for a block. *)
Theorem separator_exactly_when (inline : bool) (l1 l2 : list onode) (a b : onode) :
  let tc := t_code_of inline in
  let tr := t_raw_of inline in
  separate inline tc tr (l1 ++ a :: b :: l2)
  = separate inline tc tr (l1 ++ [a]) ++ separator inline tc tr a b
    ++ separate inline tc tr (b :: l2)
  /\ (separator inline tc tr a b <> []
      <-> (t a = tr \/ t b = tr) \/ (inline = true /\ t a = "Code" /\ t b = "Code"))
  /\ (separator inline tc tr a b = []
      \/ separator inline tc tr a b
         = [if inline then mkNode "Str" (JStr " ") else mkNode "Para" (JList [])]).
Proof.
  intros tc tr. split; [apply separate_between|]. split; [apply separator_spec|].
  unfold separator. subst tc tr.
  destruct inline; cbn [andb]; destruct (_ || _); try (right; reflexivity);
    try (left; reflexivity).
  destruct (_ && _); [right|left]; reflexivity.
Qed.

End Separators.

(** ** The [show] option *)

Section ShowOption.
Import Base.

Lemma od_set_other {V} (k k' : string) (v : V) d :
  k <> k' -> od_get k' (od_set k v d) = od_get k' d.
Proof.
  intros Hne. induction d as [|[k0 v0] d IH]; cbn.
  - destruct (String.eqb_spec k' k); [congruence|reflexivity].
  - destruct (String.eqb_spec k k0) as [->|Hk]; cbn.
    + destruct (String.eqb_spec k' k0); [congruence|reflexivity].
    + destruct (String.eqb_spec k' k0); [reflexivity|apply IH].
Qed.

Lemma od_get_mem {V} (k : string) (d : list (string * V)) v :
  od_get k d = Some v -> od_mem k d = true.
Proof.
  induction d as [|[k0 v0] d IH]; cbn; [discriminate|].
  destruct (String.eqb k k0); [reflexivity|apply IH].
Qed.

(** A token whose channel is already in the table changes nothing but the
    warnings. *)
Lemma show_token_duplicate inline key value vp ws tok :
  od_mem (split_token tok).1 vp = true ->
  show_token inline key value (vp, ws) tok
  = (vp, ws ++ [msg_show_duplicate key value (split_token tok).1]).
Proof.
  intros H. unfold show_token. destruct (split_token tok) as [output format].
  cbn [fst] in H. rewrite H. reflexivity.
Qed.

(** A token never changes the format of a channel that is in the table. *)
Lemma show_token_keeps inline key value vp ws tok output f :
  od_get output vp = Some f ->
  od_get output (show_token inline key value (vp, ws) tok).1 = Some f.
Proof.
  intros H. unfold show_token. destruct (split_token tok) as [o fmt].
  destruct (od_mem o vp) eqn:Hm; [exact H|].
  assert (o <> output) as Hne.
  { intros ->. apply od_get_mem in H. congruence. }
  repeat match goal with
         | |- context [if ?b then _ else _] => destruct b
         | |- context [match ?x with Some _ => _ | None => _ end] => destruct x
         end; cbn [fst]; try exact H; rewrite od_set_other by exact Hne; exact H.
Qed.

Lemma show_tokens_keep inline key value tokens vp ws output f :
  od_get output vp = Some f ->
  od_get output (fold_left (show_token inline key value) tokens (vp, ws)).1 = Some f.
Proof.
  revert vp ws. induction tokens as [|tok tokens IH]; intros vp ws H; [exact H|].
  cbn [fold_left].
  destruct (show_token inline key value (vp, ws) tok) as [vp' ws'] eqn:E.
  apply IH. change vp' with (vp', ws').1. rewrite <- E. apply show_token_keeps, H.
Qed.

(** The format that a token asks for: its own, or the default of its
    channel. *)
Definition asked_format (tok : string) : string :=
  match split_token tok with
  | (_, Some f) => f
  | ("expression", None) => "raw"
  | (_, None) => "verbatim"
  end.

(** The claim as the spec words it: of the tokens that name a channel more
    than once, the first decides the format of the channel. *)
Definition first_occurrence_wins (inline : bool) (value : string) : Prop :=
  forall before tok after,
    split "+" (remove_char " " value) = before ++ tok :: after ->
    Forall (fun t => (split_token t).1 <> (split_token tok).1) before ->
    Exists (fun t => (split_token t).1 = (split_token tok).1) after ->
    od_get (split_token tok).1 (show_tokens inline "show" value []).1
    = Some (asked_format tok).

(** C7, counterexample: in [show=stdout:bogus+stdout:raw] the first
    [stdout] is refused as invalid, and the later one is kept: the table
    is [{stdout: raw}] and the one warning is not about a duplicate. *)
Lemma show_first_occurrence_refused :
  show_tokens false "show" "stdout:bogus+stdout:raw" []
  = ([("stdout", "raw")], [msg_invalid "show" (PStr "stdout:bogus+stdout:raw")])
  /\ ~ first_occurrence_wins false "stdout:bogus+stdout:raw".
Proof.
  split; [reflexivity|].
  intros H.
  specialize (H [] "stdout:bogus" ["stdout:raw"] eq_refl (List.Forall_nil _)).
  assert (Exists (fun t => (split_token t).1 = (split_token "stdout:bogus").1) ["stdout:raw"])
    as Hex by (apply Exists_cons_hd; reflexivity).
  specialize (H Hex). vm_compute in H. discriminate.
Qed.

(** C7, amended: [show=code+stdout:raw+stdout] gives the one warning about
    the duplicate [stdout] and the table [{code: verbatim, stdout: raw}];
    and for every show value, a token whose channel is already in the
    table is dropped with one duplicate warning, and no later token
    changes the format of a channel that is in the table: the first
    occurrence that was accepted wins (one refused as invalid does not
    count). *)
Theorem show_duplicate_channel_dropped :
  (exists c h l,
     CodeChunk_init [] [] (PStr "run") (CodeStr "x")
       [("show", PStr "code+stdout:raw+stdout")] None None false module_heap = Ok (c, h)
     /\ source_warnings c = [msg_show_duplicate "show" "code+stdout:raw+stdout" "stdout"]
     /\ source_errors c = []
     /\ options c !! "show" = Some (Ref l)
     /\ objs h !! l = Some [("code", "verbatim"); ("stdout", "raw")])
  /\ (forall inline key value vp ws tok,
        od_mem (split_token tok).1 vp = true ->
        show_token inline key value (vp, ws) tok
        = (vp, ws ++ [msg_show_duplicate key value (split_token tok).1]))
  /\ (forall inline key value tokens vp ws output f,
        od_get output vp = Some f ->
        od_get output (fold_left (show_token inline key value) tokens (vp, ws)).1 = Some f).
Proof.
  split; [|split].
  - eexists _, _, 3%positive. split; [vm_compute; reflexivity|].
    repeat split; vm_compute; reflexivity.
  - apply show_token_duplicate.
  - apply show_tokens_keep.
Qed.

(** The general part at [show=code+stdout:raw+stdout], whose third token
    finds [stdout] in the table. *)
Lemma show_duplicate_channel_dropped_witness :
  od_mem (split_token "stdout").1 [("code", "verbatim"); ("stdout", "raw")] = true
  /\ show_token false "show" "code+stdout:raw+stdout"
       ([("code", "verbatim"); ("stdout", "raw")], []) "stdout"
     = ([("code", "verbatim"); ("stdout", "raw")],
        [] ++ [msg_show_duplicate "show" "code+stdout:raw+stdout" (split_token "stdout").1]).
Proof.
  split; [reflexivity|].
  apply (proj1 (proj2 show_duplicate_channel_dropped)). reflexivity.
Defined.

End ShowOption.

(** ** Chunk construction *)

Section Construction.
Import Base.

(** A processor adds to the errors it finds and drops none. *)
Definition extends_errors (st st' : pstate) : Prop :=
  exists extra, errs st' = errs st ++ extra.

Lemma extends_errors_refl st : extends_errors st st.
Proof. exists []. symmetry. apply app_nil_r. Qed.

Lemma extends_errors_trans a b c :
  extends_errors a b -> extends_errors b c -> extends_errors a c.
Proof.
  intros [x Hx] [y Hy]. exists (x ++ y). rewrite Hy, Hx. symmetry. apply app_assoc.
Qed.

Lemma hide_pop_errors v st st' : hide_pop v st = Ok st' -> errs st' = errs st.
Proof.
  unfold hide_pop. intros H.
  repeat match type of H with
         | context [match ?x with _ => _ end] => destruct x
         end; inversion H; reflexivity.
Qed.

Lemma hide_pop_all_errors vs st st' : hide_pop_all vs st = Ok st' -> errs st' = errs st.
Proof.
  revert st. induction vs as [|v vs IH]; intros st H; cbn in H.
  - inversion H. reflexivity.
  - destruct (hide_pop v st) as [st1|] eqn:E; cbn in H; [|discriminate].
    rewrite (IH _ H). eapply hide_pop_errors, E.
Qed.

Ltac errors_kept H :=
  inversion H; subst; exists [];
  cbn [errs add_warning set_option set_heap]; symmetry; apply app_nil_r.

Lemma processor_extends_errors inline k key value st st' :
  _cb_option_processors inline k key value st = Ok st' -> extends_errors st st'.
Proof.
  unfold _cb_option_processors.
  repeat match goal with |- context [if ?b then _ else _] => destruct b end.
  - unfold _cb_option_hide. destruct value as [| | |s| |]; intros H; try (errors_kept H).
    destruct (String.eqb s "all"); [discriminate|].
    destruct (forallb _ _); [|errors_kept H].
    destruct (hide_pop_all _ st) as [st1|] eqn:E; cbn in H; [|discriminate].
    inversion H. exists []. cbn. rewrite (hide_pop_all_errors _ _ _ E). symmetry. apply app_nil_r.
  - unfold _cb_option_first_number. destruct (match value with PInt _ => _ | _ => _ end);
      intros H; errors_kept H.
  - unfold _cb_option_label. destruct (opts st !! "label"); [intros H; errors_kept H|].
    destruct value; intros H; errors_kept H.
  - unfold _cb_option_str. destruct value; intros H; errors_kept H.
  - unfold _cb_option_bool. destruct value; intros H; errors_kept H.
  - unfold _cb_option_str. destruct value; intros H; errors_kept H.
  - unfold _cb_option_show. destruct value as [| | |s| |]; intros H; try (errors_kept H).
    destruct (String.eqb s "none"); [errors_kept H|].
    destruct (String.eqb s "notebook").
    + destruct (objs (hp st) !! _); [|discriminate]. cbn in H. errors_kept H.
    + destruct (show_tokens inline key s (warns st)). cbn in H. errors_kept H.
  - unfold _cb_option_unknown. intros H. inversion H. eexists. reflexivity.
Qed.

Lemma process_options_extends_errors inline items st st' :
  process_options inline items st = Ok st' -> extends_errors st st'.
Proof.
  revert st. induction items as [|[k v] items IH]; intros st H; cbn in H.
  - inversion H. apply extends_errors_refl.
  - destruct (_cb_option_processors inline k k v st) as [st1|] eqn:E; cbn in H; [|discriminate].
    eapply extends_errors_trans; [eapply processor_extends_errors, E|apply IH, H].
Qed.

Definition msg_inline_one_line : string := "Inline code cannot be longer that 1 line".

Definition code_lines_of (code : code_arg) : list string :=
  match code with
  | CodeLines ls => ls
  | CodeStr s => splitlines s
  end.

Section Rendering.
Import Pandoc.

Variable layout_output : PandocCodeChunk -> string -> string -> option (list string) -> string.
Variable splitlines_lf : string -> list string.
Variable rich_text_default_display : list (string * string).
Variable mime_map : list (string * string).

(** A chunk with source errors renders as its error annotation, once
    [runtime_source_error] is assigned; reading it before raises. *)
Lemma output_nodes_source_errors h (self : PandocCodeChunk) :
  Pandoc._output_nodes self = None ->
  source_errors (chunk self) <> [] ->
  match runtime_source_error self with
  | Assigned runtime =>
      exists self',
        output_nodes layout_output splitlines_lf rich_text_default_display mime_map h self
        = Ok (source_error_nodes runtime self, self')
  | Unset =>
      output_nodes layout_output splitlines_lf rich_text_default_display mime_map h self
      = Raise Py.AttributeError
  end.
Proof.
  intros Hc He. unfold output_nodes. rewrite Hc.
  destruct (source_errors (chunk self)); [congruence|].
  destruct (runtime_source_error self); cbn; [reflexivity|]. eexists. reflexivity.
Qed.

(** C10: an inline chunk whose code has more than one line gets the error
    ['Inline code cannot be longer that 1 line'], after the errors it had
    and before those of its options; such a chunk renders as one inline
    [Code] node of class [sourceError] instead of its output, whatever
    value [runtime_source_error] has been given ([output_nodes] reads
    the attribute, so before it is assigned the read raises).  The
    constructor returns unless the processing of the options raises. *)
Theorem inline_code_longer_than_one_line
    (pre_errors pre_warnings : list string) (command : pyval) (code : code_arg)
    (options : list (string * pyval)) (source_name : option string)
    (source_start_line_number : option Z) (h : heap) :
  (1 < length (code_lines_of code))%nat ->
  match CodeChunk_init pre_errors pre_warnings command code options source_name
          source_start_line_number true h with
  | Ok (c, h') =>
      (exists before after,
         source_errors c = before ++ msg_inline_one_line :: after
         /\ (before = pre_errors \/ exists unknown, before = pre_errors ++ [unknown]))
      /\ inline c = true
      /\ forall self : PandocCodeChunk,
           chunk self = c -> Pandoc._output_nodes self = None ->
           match runtime_source_error self with
           | Assigned _ =>
               exists self' message,
                 output_nodes layout_output splitlines_lf rich_text_default_display mime_map
                   h' self
                 = Ok ([mkNode "Code"
                          (JList [attr EmptyString ["sourceError"] []; JStr message])],
                       self')
           | Unset =>
               output_nodes layout_output splitlines_lf rich_text_default_display mime_map
                 h' self = Raise Py.AttributeError
           end
  | Raise e =>
      exists st0, process_options true options st0 = Raise e
  end.
Proof.
  intros Hlen. unfold CodeChunk_init. fold (code_lines_of code).
  apply Nat.ltb_lt in Hlen. rewrite Hlen. cbn [andb negb mbind result_bind mret result_ret].
  match goal with |- context [process_options true options ?s] => set (st0 := s) end.
  destruct (process_options true options st0) as [st|e] eqn:E; cbn.
  - destruct (process_options_extends_errors _ _ _ _ E) as [extra Hx].
    split; [|split; [reflexivity|]].
    + exists (match command with
              | PStr "code" | PStr "run" => pre_errors
              | _ => pre_errors ++ ["Unknown Codebraid command " +:+ dq +:+ py_str command +:+ dq]
              end), extra.
      split.
      * rewrite Hx. subst st0. cbn [errs]. rewrite <- app_assoc. reflexivity.
      * clear. destruct command; try (right; eexists; reflexivity).
        repeat match goal with
               | |- context [match ?x with _ => _ end] => destruct x
               end; try (left; reflexivity); right; eexists; reflexivity.
    + intros self Hself Hcache.
      pose proof (output_nodes_source_errors (hp st) self Hcache) as Hout.
      destruct (runtime_source_error self) as [|runtime].
      * apply Hout. rewrite Hself. cbn. rewrite Hx. subst st0. cbn [errs].
        intros Hnil. apply app_eq_nil in Hnil as [Hnil _].
        apply app_eq_nil in Hnil as [_ Hnil]. discriminate.
      * destruct Hout as [self' Hout].
        { rewrite Hself. cbn. rewrite Hx. subst st0. cbn [errs].
          intros Hnil. apply app_eq_nil in Hnil as [Hnil _].
          apply app_eq_nil in Hnil as [_ Hnil]. discriminate. }
        exists self'. eexists. rewrite Hout. unfold source_error_nodes.
        rewrite Hself. cbn [inline]. reflexivity.
  - exists st0. exact E.
Qed.

End Rendering.

(** C10 at the two-line code [a / b] with no options. *)
Lemma inline_code_longer_than_one_line_witness :
  (1 < length (code_lines_of (CodeStr ("a" +:+ String nl "b"))))%nat
  /\ exists c h',
       CodeChunk_init [] [] (PStr "run") (CodeStr ("a" +:+ String nl "b")) [] None None true
         module_heap = Ok (c, h')
       /\ source_errors c = [msg_inline_one_line].
Proof.
  assert ((1 < length (code_lines_of (CodeStr ("a" +:+ String nl "b"))))%nat) as Hlen
    by (vm_compute; lia).
  split; [exact Hlen|].
  pose proof (inline_code_longer_than_one_line (fun _ o _ _ => o) (fun s => [s]) [] []
                [] [] (PStr "run") (CodeStr ("a" +:+ String nl "b")) [] None None
                module_heap Hlen) as H.
  destruct (CodeChunk_init [] [] (PStr "run") (CodeStr ("a" +:+ String nl "b")) [] None None
              true module_heap) as [[c h']|e] eqn:E.
  - exists c, h'. split; [reflexivity|].
    vm_compute in E. inversion E. reflexivity.
  - vm_compute in E. discriminate.
Defined.

End Construction.

(** ** Defaults of the options *)

Section Defaults.
Import Base.

(** With no options given, the constructor returns the default table of
    the mode, whatever the store holds; the show table is the one the
    default table refers to, not a copy of it. *)
Lemma no_options_default_table
    (pre_errors pre_warnings : list string) (command : pyval) (code : code_arg)
    (source_name : option string) (source_start_line_number : option Z)
    (inline : bool) (h : heap) :
  inline = true \/ code_lines_of code <> [] ->
  exists c,
    CodeChunk_init pre_errors pre_warnings command code [] source_name
      source_start_line_number inline h = Ok (c, h)
    /\ options c = (if inline then _cb_default_inline_options else _cb_default_options).
Proof.
  intros Hc. unfold CodeChunk_init. fold (code_lines_of code).
  destruct inline; cbn [negb].
  - eexists. split; reflexivity.
  - destruct Hc as [Hc|Hc]; [discriminate|].
    assert (exists ls, append_nl_last (code_lines_of code) = Ok ls) as [ls Hls].
    { induction (code_lines_of code) as [|l ls IH]; [congruence|].
      destruct ls as [|l' ls]; [eexists; reflexivity|].
      destruct IH as [ls' Hls']; [discriminate|].
      cbn [append_nl_last] in *. rewrite Hls'. eexists. reflexivity. }
    rewrite Hls. eexists. split; reflexivity.
Qed.

(** Right after the import, the show tables of the two modes are the
    declared ones. *)
Lemma module_heap_show_tables :
  objs module_heap !! loc_default_show_notebook = Some _cb_default_show_notebook
  /\ objs module_heap !! loc_default_show_inline_notebook
     = Some _cb_default_show_inline_notebook
  /\ _cb_default_options !! "show" = Some (Ref loc_default_show_notebook)
  /\ _cb_default_inline_options !! "show" = Some (Ref loc_default_show_inline_notebook).
Proof. repeat split; vm_compute; reflexivity. Qed.

(** C3, at the failing input: an inline chunk with [hide=expression], then
    an inline chunk with no options.  The second gets the default table,
    whose show table the first has emptied of [expression]. *)
Lemma inline_default_show_after_hide :
  exists c1 h1 c2 h2,
    CodeChunk_init [] [] (PStr "run") (CodeStr "x") [("hide", PStr "expression")]
      None None true module_heap = Ok (c1, h1)
    /\ CodeChunk_init [] [] (PStr "run") (CodeStr "y") [] None None true h1 = Ok (c2, h2)
    /\ source_errors c1 = [] /\ source_warnings c1 = []
    /\ options c2 = _cb_default_inline_options
    /\ options c2 !! "show" = Some (Ref loc_default_show_inline_notebook)
    /\ objs h2 !! loc_default_show_inline_notebook = Some [("stderr", "verbatim")]
    /\ _cb_default_show_inline_notebook = [("expression", "raw"); ("stderr", "verbatim")].
Proof.
  do 4 eexists. split; [vm_compute; reflexivity|].
  split; [vm_compute; reflexivity|].
  repeat split; vm_compute; reflexivity.
Qed.

End Defaults.

(** ** A duplicate [label] attribute *)

Section DuplicateLabel.
Import Base Pandoc.

Definition code_block (classes : list string) (kvpairs : list (string * string))
    (code : string) : json :=
  JNode "CodeBlock" (JList [attr EmptyString classes kvpairs; JStr code]).

(** The AST of a document that is one code block
    [{.cb.run label="a" label="b"}] with the code [x]. *)
Definition duplicate_label_doc : json :=
  JDict [("pandoc-api-version", JList [JAtom (SInt 1); JAtom (SInt 17)]);
         ("meta", JDict []);
         ("blocks", JList [code_block ["cb.run"] [("label", "a"); ("label", "b")] "x"])].

Definition duplicate_label_store : store := (alloc_json duplicate_label_doc empty_store).2.

(** The walker finds the block at location 9, in the list at 10, under the
    root at 11. *)
Lemma duplicate_label_walk :
  _walk_ast duplicate_label_store 100 11 (Some pandoc_code_raw_nodes) false
  = Ok [mkTuple (Loaded 9) (Loaded 11) (VList 10) 0 false].
Proof. vm_compute. reflexivity. Qed.

Definition duplicate_label_chunk : result (PandocCodeChunk * heap) :=
  PandocCodeChunk_init ["code"; "run"] [] CodeChunk_init duplicate_label_store
    9 (Loaded 11) (VList 10) 0 None None module_heap.

Definition msg_duplicate_label : string :=
  "Duplicate " +:+ dq +:+ "label" +:+ dq +:+ " attribute for code chunk".

Definition is_error_annotation (n : onode) : bool :=
  match c n with
  | JList (JList [_; JList classes; _] :: _) =>
      existsb (fun cl => match cl with JAtom (SStr "sourceError") => true | _ => false end)
              classes
  | _ => false
  end.

(** What the constructor leaves in the chunk. *)
Lemma duplicate_label_chunk_fields :
  exists self h,
    duplicate_label_chunk = Ok (self, h)
    /\ source_errors (chunk self) = [msg_duplicate_label]
    /\ source_warnings (chunk self) = []
    /\ options (chunk self) !! "label" = Some (Val (PStr "a"))
    /\ Pandoc._output_nodes self = None
    /\ runtime_source_error self = Unset
    /\ source_name (chunk self) = None
    /\ source_start_line_number (chunk self) = None
    /\ inline (chunk self) = false.
Proof.
  destruct duplicate_label_chunk as [[self h]|e] eqn:E; [|vm_compute in E; discriminate].
  exists self, h. split; [reflexivity|].
  vm_compute in E. inversion E. repeat split; vm_compute; reflexivity.
Qed.

Section Rendering.

Variable layout_output : PandocCodeChunk -> string -> string -> option (list string) -> string.
Variable splitlines_lf : string -> list string.
Variable rich_text_default_display : list (string * string).
Variable mime_map : list (string * string).

(** The claim as the spec words it: one warning and no error, [label] is
    [a], and no node of the output is an error annotation. *)
Definition duplicate_label_as_stated : Prop :=
  exists self h nodes self',
    duplicate_label_chunk = Ok (self, h)
    /\ length (source_warnings (chunk self)) = 1%nat
    /\ source_errors (chunk self) = []
    /\ options (chunk self) !! "label" = Some (Val (PStr "a"))
    /\ output_nodes layout_output splitlines_lf rich_text_default_display mime_map h self
       = Ok (nodes, self')
    /\ forallb (fun n => negb (is_error_annotation n)) nodes = true.

(** C8 at the block [{.cb.run label="a" label="b"}]: the constructor
    returns with one diagnostic, the source error
    [Duplicate "label" attribute for code chunk] of [keyval_generic], and
    no warning; [label] is [a].  The chunk as constructed has no
    [runtime_source_error], so reading its output raises; once the
    attribute is assigned, with either value, the output is one
    [CodeBlock] of class [sourceError] that carries the error, and nothing
    of an execution. *)
Theorem duplicate_label_is_source_error :
  exists self h,
    duplicate_label_chunk = Ok (self, h)
    /\ source_errors (chunk self) = [msg_duplicate_label]
    /\ source_warnings (chunk self) = []
    /\ options (chunk self) !! "label" = Some (Val (PStr "a"))
    /\ output_nodes layout_output splitlines_lf rich_text_default_display mime_map h self
       = Raise Py.AttributeError
    /\ forall (processed : PandocCodeChunk) (runtime : bool),
         chunk processed = chunk self ->
         Pandoc._output_nodes processed = None ->
         runtime_source_error processed = Assigned runtime ->
         exists self',
           output_nodes layout_output splitlines_lf rich_text_default_display mime_map h
             processed
           = Ok ([mkNode "CodeBlock"
                    (JList [attr EmptyString ["sourceError"] [];
                            JStr ((if runtime then "RUNTIME SOURCE ERROR in "
                                   else "SOURCE ERROR in ")
                                  +:+ dq +:+ "None" +:+ dq
                                  +:+ " near line None:" +:+ String nl EmptyString
                                  +:+ msg_duplicate_label)])], self').
Proof.
  destruct duplicate_label_chunk_fields
    as (self & h & E & He & Hw & Hl & Hc & Hr & Hn & Hln & Hi).
  exists self, h. split; [exact E|]. split; [exact He|]. split; [exact Hw|].
  split; [exact Hl|]. split.
  - unfold output_nodes. rewrite Hc, He, Hr. reflexivity.
  - intros processed runtime Hchunk Hcache Hrun.
    destruct runtime; eexists; unfold output_nodes;
      rewrite Hcache, Hchunk, He, Hrun; cbn [read mbind result_bind];
      unfold source_error_nodes; rewrite Hchunk, Hn, Hln, Hi, He; reflexivity.
Qed.

End Rendering.

(** The claim as stated does not hold of the code: the diagnostic is an
    error. *)
Lemma duplicate_label_not_a_warning :
  ~ duplicate_label_as_stated (fun _ output _ _ => output) (fun s => [s]) [] [].
Proof.
  intros (self & h & nodes & self' & E & _ & He & _).
  destruct duplicate_label_chunk_fields as (self0 & h0 & E0 & He0 & _).
  rewrite E in E0. inversion E0. subst. rewrite He in He0. discriminate.
Qed.

End DuplicateLabel.

(** ** The [in_note] flag of the walker *)

Section InNote.
Import Pandoc.

(** The AST of a paragraph with a note and, after the note, inline code:
    [Para [Note [Para [Str "a"]], Code "x"]]. *)
Definition note_then_code_doc : json :=
  JDict [("pandoc-api-version", JList [JAtom (SInt 1); JAtom (SInt 17)]);
         ("meta", JDict []);
         ("blocks",
          JList [JNode "Para"
                   (JList [JNode "Note" (JList [JNode "Para" (JList [JNode "Str" (JStr "a")])]);
                           JNode "Code" (JList [attr EmptyString [] []; JStr "x"])])])].

Definition note_then_code_store : store := (alloc_json note_then_code_doc empty_store).2.

(** The objects of that AST: the root at 16, the outer paragraph at 14 with
    its list at 13, the note at 7, the paragraph and the [Str] inside the
    note at 5 and 3, the code at 12. *)
Lemma note_then_code_objects :
  (alloc_json note_then_code_doc empty_store).1 = VDict 16
  /\ dicts note_then_code_store !! 14%positive
     = Some [("t", VAtom (SStr "Para")); ("c", VList 13)]
  /\ lists note_then_code_store !! 13%positive = Some [VDict 7; VDict 12]
  /\ dicts note_then_code_store !! 7%positive
     = Some [("t", VAtom (SStr "Note")); ("c", VList 6)]
  /\ lists note_then_code_store !! 6%positive = Some [VDict 5]
  /\ dicts note_then_code_store !! 12%positive
     = Some [("t", VAtom (SStr "Code")); ("c", VList 11)].
Proof. repeat split; vm_compute; reflexivity. Qed.

(** C5, at the failing input: the code that follows the note in the
    paragraph's list is not inside the note, and the walker yields it with
    [in_note] true: the loop sets its local [in_note] at the note and keeps
    it for the rest of the list. *)
Lemma walk_in_note_after_note :
  _walk_ast note_then_code_store 100 16 None false
  = Ok [mkTuple (Loaded 14) (Loaded 16) (VList 15) 0 false;
        mkTuple (Loaded 7) (Loaded 14) (VList 13) 0 false;
        mkTuple (Loaded 5) (Loaded 7) (VList 6) 0 true;
        mkTuple (Loaded 3) (Loaded 5) (VList 4) 0 true;
        mkTuple (Loaded 12) (Loaded 14) (VList 13) 1 true].
Proof. vm_compute. reflexivity. Qed.

End InNote.

(** ** Freeze and thaw *)

Section FreezeThaw.
Import Base Pandoc.

Lemma od_get_set_eq {V} (k : string) (v : V) d : od_get k (od_set k v d) = Some v.
Proof.
  induction d as [|[k0 v0] d IH]; cbn.
  - rewrite String.eqb_refl. reflexivity.
  - destruct (String.eqb_spec k k0) as [->|Hk]; cbn.
    + rewrite String.eqb_refl. reflexivity.
    + destruct (String.eqb_spec k k0); [congruence|apply IH].
Qed.

Lemma od_set_set {V} (k : string) (v v' : V) d : od_set k v (od_set k v' d) = od_set k v d.
Proof.
  induction d as [|[k0 v0] d IH]; cbn.
  - rewrite String.eqb_refl. reflexivity.
  - destruct (String.eqb_spec k k0) as [->|Hk]; cbn.
    + rewrite String.eqb_refl. reflexivity.
    + destruct (String.eqb_spec k k0); [congruence|]. rewrite IH. reflexivity.
Qed.

Lemma od_set_id {V} (k : string) (v : V) d : od_get k d = Some v -> od_set k v d = d.
Proof.
  induction d as [|[k0 v0] d IH]; cbn; [discriminate|].
  destruct (String.eqb_spec k k0) as [->|Hk]; intros H.
  - inversion H. reflexivity.
  - rewrite (IH H). reflexivity.
Qed.

Lemma od_mem_set {V} (k k' : string) (v : V) d :
  od_mem k' d = true -> od_mem k' (od_set k v d) = true.
Proof.
  induction d as [|[k0 v0] d IH]; cbn; [discriminate|].
  destruct (String.eqb_spec k k0) as [->|Hk]; cbn; [tauto|].
  destruct (String.eqb k' k0); cbn; [reflexivity|apply IH].
Qed.

(** Two keys that the dict has can be set in either order. *)
Lemma od_set_comm {V} (k k' : string) (v v' : V) d :
  k <> k' -> od_mem k d = true -> od_mem k' d = true ->
  od_set k v (od_set k' v' d) = od_set k' v' (od_set k v d).
Proof.
  intros Hne. induction d as [|[k0 v0] d IH]; cbn; [discriminate|].
  destruct (String.eqb_spec k k0) as [->|Hk]; destruct (String.eqb_spec k' k0) as [->|Hk'];
    cbn; intros H1 H2; try congruence;
    repeat match goal with
           | |- context [String.eqb ?a ?b] =>
               destruct (String.eqb_spec a b); try congruence; cbn
           end; try reflexivity.
  rewrite IH by assumption. reflexivity.
Qed.

(** Every object is below the first free location. *)
Definition store_ok (st : store) : Prop :=
  map_Forall (fun l _ => (l < next_loc st)%positive) (lists st)
  /\ map_Forall (fun l _ => (l < next_loc st)%positive) (dicts st).

#[global] Instance store_ok_dec st : Decision (store_ok st).
Proof. unfold store_ok. apply _. Defined.

Lemma store_ok_list st l xs : store_ok st -> lists st !! l = Some xs -> (l < next_loc st)%positive.
Proof. intros [H _] Hl. exact (H l xs Hl). Qed.

Lemma store_ok_dict st l d : store_ok st -> dicts st !! l = Some d -> (l < next_loc st)%positive.
Proof. intros [_ H] Hl. exact (H l d Hl). Qed.

Lemma lookup_here {A} (x : A) xs : (x :: xs) !! 0%nat = Some x.
Proof. reflexivity. Qed.

Lemma lookup_next {A} (x : A) xs i : (x :: xs) !! S i = xs !! i.
Proof. reflexivity. Qed.

Ltac step := cbn [mbind result_bind mret result_ret].
Ltac slots := rewrite ?lookup_next, ?lookup_here.

Ltac lookups :=
  repeat first [ rewrite lookup_insert_eq
               | rewrite lookup_insert_ne by lia ].
Ltac run := repeat (progress (step; lookups; slots)).

(** C1: freeze then thaw of a raw node, whose contents are a list of a
    format and a content.  Both return; in between the node passes the
    test for a frozen node; afterwards the dict at the same location has
    every item as before, its type again, and under ['c'] a list of the
    same format and content, so it no longer passes the test; no other
    dict and no list that existed has changed. *)
Theorem thaw_freeze_same_node (st : store) (node : positive) (d : list (string * val))
    (ty : string) (lc : positive) (raw_format raw_content : val) :
  store_ok st ->
  dicts st !! node = Some d ->
  od_get "t" d = Some (VAtom (SStr ty)) ->
  ty = "RawBlock" \/ ty = "RawInline" ->
  od_get "c" d = Some (VList lc) ->
  lists st !! lc = Some [raw_format; raw_content] ->
  exists st1 st2 lc',
    _freeze_raw_node node st = Ok st1
    /\ is_frozen node st1 = Ok true
    /\ _thaw_raw_node node st1 = Ok st2
    /\ dicts st2 !! node = Some (od_set "c" (VList lc') d)
    /\ lists st2 !! lc' = Some [raw_format; raw_content]
    /\ is_frozen node st2 = Ok false
    /\ (forall m, m <> node -> dicts st2 !! m = dicts st !! m)
    /\ (forall l, is_Some (lists st !! l) -> lists st2 !! l = lists st !! l).
Proof.
  intros Hok Hd Ht Hty Hc Hl.
  assert (od_mem "t" d = true) as Hmt by (eapply od_get_mem, Ht).
  assert (od_mem "c" d = true) as Hmc by (eapply od_get_mem, Hc).
  set (n := next_loc st).
  set (ty' := if String.eqb ty "RawBlock" then "CodeBlock" else "Code").
  assert (translate [("RawBlock", "CodeBlock"); ("RawInline", "Code")] (VAtom (SStr ty))
          = Ok ty') as Htr by (destruct Hty; subst; reflexivity).
  assert (translate [("CodeBlock", "RawBlock"); ("Code", "RawInline")] (VAtom (SStr ty'))
          = Ok ty) as Htr' by (destruct Hty; subst; reflexivity).
  assert (is_str "Code" (VAtom (SStr ty')) || is_str "CodeBlock" (VAtom (SStr ty')) = true)
    as Hcode by (destruct Hty; subst; reflexivity).
  assert (is_str "Code" (VAtom (SStr ty)) || is_str "CodeBlock" (VAtom (SStr ty)) = false)
    as Hraw by (destruct Hty; subst; reflexivity).
  set (d1 := od_set "c" (VList (Pos.succ (Pos.succ (Pos.succ (Pos.succ n)))))
               (od_set "t" (VAtom (SStr ty')) d)).
  set (lists1 :=
         <[Pos.succ (Pos.succ (Pos.succ (Pos.succ n))) :=
             [VList (Pos.succ (Pos.succ (Pos.succ n))); raw_content]]>
         (<[Pos.succ (Pos.succ (Pos.succ n)) :=
              [VAtom (SStr EmptyString); VList n; VList (Pos.succ (Pos.succ n))]]>
         (<[Pos.succ (Pos.succ n) := [VList (Pos.succ n)]]>
         (<[Pos.succ n := [VAtom (SStr "format"); raw_format]]>
         (<[n := [VAtom (SStr "codebraid--temp")]]> (lists st)))))).
  set (st1 := {| dicts := <[node := d1]> (dicts st); lists := lists1;
                 next_loc := Pos.succ (Pos.succ (Pos.succ (Pos.succ (Pos.succ n)))) |}).
  assert (_freeze_raw_node node st = Ok st1) as Hfreeze.
  { unfold _freeze_raw_node, get_dict, getkey. rewrite Hd. step. rewrite Ht. step.
    rewrite Htr. step. rewrite od_set_other by discriminate. rewrite Hc. step.
    unfold unpack_pair, get_list. rewrite Hl. step. reflexivity. }
  assert (od_get "t" d1 = Some (VAtom (SStr ty'))) as Ht1.
  { unfold d1. rewrite od_set_other by discriminate. apply od_get_set_eq. }
  assert (od_get "c" d1 = Some (VList (Pos.succ (Pos.succ (Pos.succ (Pos.succ n)))))) as Hc1
    by apply od_get_set_eq.
  set (lc' := Pos.succ (Pos.succ (Pos.succ (Pos.succ (Pos.succ n))))).
  set (d2 := od_set "c" (VList lc') (od_set "t" (VAtom (SStr ty)) d1)).
  set (st2 := {| dicts := <[node := d2]> (dicts st1);
                 lists := <[lc' := [raw_format; raw_content]]> lists1;
                 next_loc := Pos.succ lc' |}).
  assert (d2 = od_set "c" (VList lc') d) as Hd2.
  { unfold d2, d1.
    rewrite (od_set_comm "t" "c") by (try discriminate; apply od_mem_set; assumption).
    rewrite od_set_set, od_set_set. rewrite (od_set_id "t") by exact Ht. reflexivity. }
  exists st1, st2, lc'.
  split; [exact Hfreeze|].
  split.
  { unfold is_frozen, get_dict, getkey. cbn [dicts st1]. rewrite lookup_insert_eq. step.
    rewrite Ht1. step. rewrite Hcode. rewrite Hc1. step.
    unfold getitem, has_str, get_list. cbn [lists st1]. unfold lists1. run.
    rewrite bool_decide_eq_true_2; [reflexivity|]. apply list_elem_of_here. }
  split.
  { unfold _thaw_raw_node, get_dict, getkey. cbn [dicts st1]. rewrite lookup_insert_eq. step.
    rewrite Ht1. step. rewrite Htr'. step. rewrite od_set_other by discriminate.
    rewrite Hc1. step. unfold getitem, get_list. cbn [lists st1]. unfold lists1. run.
    reflexivity. }
  split; [cbn [dicts st2]; rewrite lookup_insert_eq, Hd2; reflexivity|].
  split; [cbn [lists st2]; rewrite lookup_insert_eq; reflexivity|].
  split.
  { unfold is_frozen, get_dict, getkey. cbn [dicts st2]. rewrite lookup_insert_eq. step.
    rewrite Hd2. rewrite (od_set_other "c" "t") by discriminate. rewrite Ht. step.
    rewrite Hraw. reflexivity. }
  split.
  { intros m Hm. cbn [dicts st2 st1]. rewrite !lookup_insert_ne by congruence. reflexivity. }
  intros l [xs Hxs]. cbn [lists st2]. unfold lists1.
  assert (l < n)%positive as Hlt by (eapply store_ok_list; eassumption).
  unfold lc'. lookups. reflexivity.
Qed.

(** The AST of a document that is one raw block of HTML. *)
Definition raw_block_doc : json :=
  JDict [("pandoc-api-version", JList [JAtom (SInt 1); JAtom (SInt 17)]);
         ("meta", JDict []);
         ("blocks", JList [JNode "RawBlock" (JList [JStr "html"; JStr "<hr>"])])].

Definition raw_block_store : store := (alloc_json raw_block_doc empty_store).2.

(** C1 at the raw block of [raw_block_store], the dict at location 4 with
    its contents in the list at 3. *)
Lemma thaw_freeze_same_node_witness :
  store_ok raw_block_store
  /\ dicts raw_block_store !! 4%positive
     = Some [("t", VAtom (SStr "RawBlock")); ("c", VList 3)]
  /\ lists raw_block_store !! 3%positive = Some [VAtom (SStr "html"); VAtom (SStr "<hr>")]
  /\ exists st1 st2 lc',
       _freeze_raw_node 4 raw_block_store = Ok st1
       /\ is_frozen 4 st1 = Ok true
       /\ _thaw_raw_node 4 st1 = Ok st2
       /\ dicts st2 !! 4%positive = Some [("t", VAtom (SStr "RawBlock")); ("c", VList lc')]
       /\ lists st2 !! lc' = Some [VAtom (SStr "html"); VAtom (SStr "<hr>")]
       /\ is_frozen 4 st2 = Ok false
       /\ (forall m, m <> 4%positive -> dicts st2 !! m = dicts raw_block_store !! m)
       /\ (forall l, is_Some (lists raw_block_store !! l) ->
                     lists st2 !! l = lists raw_block_store !! l).
Proof.
  assert (store_ok raw_block_store) as Hok
    by (apply (bool_decide_unpack _); vm_compute; reflexivity).
  assert (dicts raw_block_store !! 4%positive
          = Some [("t", VAtom (SStr "RawBlock")); ("c", VList 3)]) as Hd
    by (vm_compute; reflexivity).
  assert (lists raw_block_store !! 3%positive
          = Some [VAtom (SStr "html"); VAtom (SStr "<hr>")]) as Hl
    by (vm_compute; reflexivity).
  split; [exact Hok|]. split; [exact Hd|]. split; [exact Hl|].
  exact (thaw_freeze_same_node raw_block_store 4
           [("t", VAtom (SStr "RawBlock")); ("c", VList 3)] "RawBlock" 3
           (VAtom (SStr "html")) (VAtom (SStr "<hr>"))
           Hok Hd eq_refl (or_introl eq_refl) eq_refl Hl).
Defined.

End FreezeThaw.

(** ** The source-trace matcher *)

Section Matcher.
Import Base Pandoc.

Lemma pop_until_ok p stack skipped src stack' skipped' :
  pop_until p stack skipped = Ok (src, stack', skipped') ->
  exists before,
    stack = before ++ src :: stack'
    /\ Forall (fun s => p s = false) before
    /\ p src = true
    /\ skipped' = rev before ++ skipped.
Proof.
  revert skipped. induction stack as [|s stack IH]; intros skipped H; cbn in H; [discriminate|].
  destruct (p s) eqn:Hp.
  - inversion H; subst. exists []. repeat split; [constructor|assumption].
  - destruct (IH _ H) as (before & -> & Hb & Hs & ->).
    exists (s :: before). repeat split; [constructor; assumption|assumption|].
    cbn [rev]. rewrite <- app_assoc. reflexivity.
Qed.

(** A pop from a stack without a match is a pop from the empty list. *)
Lemma pop_until_exhausted p stack skipped :
  Forall (fun s => p s = false) stack ->
  pop_until p stack skipped = Raise (IndexError "pop from empty list").
Proof.
  revert skipped. induction stack as [|s stack IH]; intros skipped H; [reflexivity|].
  inversion H; subst. cbn. rewrite H2. apply IH. assumption.
Qed.

Lemma pop_until_raise p stack skipped e :
  pop_until p stack skipped = Raise e ->
  e = IndexError "pop from empty list" /\ Forall (fun s => p s = false) stack.
Proof.
  revert skipped. induction stack as [|s stack IH]; intros skipped H; cbn in H.
  - inversion H. split; [reflexivity|constructor].
  - destruct (p s) eqn:Hp; [discriminate|].
    destruct (IH _ H) as [-> Hf]. split; [reflexivity|constructor; assumption].
Qed.

Lemma elem_of_rev {A} (x : A) l : x ∈ rev l <-> x ∈ l.
Proof. rewrite !list_elem_of_In. symmetry. apply in_rev. Qed.

Lemma subseteq_middle {A} (before after entries : list A) x :
  before ++ x :: after ⊆ entries ->
  x ∈ entries /\ before ++ after ⊆ entries /\ before ⊆ entries /\ after ⊆ entries.
Proof.
  intros H. repeat split; try intros y Hy; apply H;
    rewrite elem_of_app, elem_of_cons; try rewrite elem_of_app in Hy; tauto.
Qed.

Lemma subseteq_app {A} (l1 l2 entries : list A) :
  l1 ⊆ entries -> l2 ⊆ entries -> l1 ++ l2 ⊆ entries.
Proof. intros H1 H2 y Hy. apply elem_of_app in Hy as [Hy|Hy]; auto. Qed.

Lemma subseteq_rev {A} (l entries : list A) : l ⊆ entries -> rev l ⊆ entries.
Proof. intros H y Hy. apply H, elem_of_rev, Hy. Qed.

Lemma replay_app skipped stack : replay skipped stack = rev skipped ++ stack.
Proof.
  revert stack. induction skipped as [|s skipped IH]; intros stack; [reflexivity|].
  cbn [replay rev]. rewrite IH, <- app_assoc. reflexivity.
Qed.

(** What [match_chunk] does when it returns: the first entry that
    satisfies [p] is taken out of the stack, the chunk gets its name and
    line, and the entries passed over are back in their places. *)
Lemma match_chunk_ok p self stack self' stack' :
  match_chunk p self stack [] = Ok (self', stack') ->
  exists before src after,
    stack = before ++ src :: after
    /\ Forall (fun s => p s = false) before
    /\ p src = true
    /\ self' = locate src.1 (occ_line src.2) self
    /\ stack' = before ++ after.
Proof.
  unfold match_chunk. intros H.
  destruct (pop_until p stack []) as [[[src rest] skipped]|] eqn:E; cbn in H; [|discriminate].
  inversion H; subst. destruct (pop_until_ok _ _ _ _ _ _ E) as (before & -> & Hb & Hs & ->).
  exists before, src, rest. repeat split; try assumption.
  rewrite replay_app, app_nil_r, rev_involutive. reflexivity.
Qed.

Lemma match_chunk_exhausted p self stack skipped :
  Forall (fun s => p s = false) stack ->
  match_chunk p self stack skipped = Raise (IndexError "pop from empty list").
Proof.
  intros H. unfold match_chunk. rewrite pop_until_exhausted by assumption. reflexivity.
Qed.

(** A chunk located from an entry of [entries] whose command is the
    chunk's: the entry's source name, and the entry's line for an inline
    chunk, the line after it for a block. *)
Definition located_from (entries : list source_cb) (self self' : PandocCodeChunk) : Prop :=
  exists src,
    src ∈ entries
    /\ command_eq (command (chunk self)) (occ_command src.2) = true
    /\ source_name (chunk self') = Some src.1
    /\ source_start_line_number (chunk self')
       = Some (if inline (chunk self) then Z.of_nat (occ_line src.2)
               else (Z.of_nat (occ_line src.2) + 1)%Z)
    /\ self' = locate src.1 (occ_line src.2) self.

Lemma locate_located entries p self stack self' stack' :
  stack ⊆ entries ->
  (forall s, p s = true -> command_eq (command (chunk self)) (occ_command s.2) = true) ->
  match_chunk p self stack [] = Ok (self', stack') ->
  located_from entries self self' /\ stack' ⊆ entries.
Proof.
  intros Hsub Hp H.
  destruct (match_chunk_ok _ _ _ _ _ H) as (before & src & after & -> & Hb & Hs & -> & ->).
  destruct (subseteq_middle _ _ _ _ Hsub) as (Hsrc & Hrest & _).
  split; [|exact Hrest].
  exists src. split; [exact Hsrc|]. split; [apply Hp, Hs|].
  split; [reflexivity|]. split; [reflexivity|reflexivity].
Qed.

Lemma match_equal_located entries code_chunks stack chunks' stack' :
  stack ⊆ entries ->
  match_equal code_chunks stack = Ok (chunks', stack') ->
  Forall2 (located_from entries) code_chunks chunks'.
Proof.
  revert stack chunks' stack'.
  induction code_chunks as [|self code_chunks IH]; intros stack chunks' stack' Hsub H; cbn in H.
  - inversion H. constructor.
  - destruct (match_chunk _ self stack []) as [[self' stack1]|] eqn:E; cbn in H; [|discriminate].
    destruct (match_equal code_chunks stack1) as [[rest stack2]|] eqn:E2; cbn in H;
      [|discriminate].
    inversion H; subst.
    destruct (locate_located entries _ _ _ _ _ Hsub (fun s Hs => Hs) E) as [Hl Hsub1].
    constructor; [exact Hl|]. eapply IH; eassumption.
Qed.

Section WithCommands.

Variable commands : list string.

Lemma pop_each_subseteq entries p node_cb stack skipped stack' skipped' :
  stack ⊆ entries -> skipped ⊆ entries ->
  pop_each p node_cb stack skipped = Ok (stack', skipped') ->
  stack' ⊆ entries /\ skipped' ⊆ entries.
Proof.
  revert stack skipped. induction node_cb as [|o node_cb IH]; intros stack skipped H1 H2 H;
    cbn in H.
  - inversion H; subst. split; assumption.
  - destruct (pop_until (p o) stack skipped) as [[[src rest] sk]|] eqn:E; cbn in H;
      [|discriminate].
    destruct (pop_until_ok _ _ _ _ _ _ E) as (before & -> & _ & _ & ->).
    destruct (subseteq_middle _ _ _ _ H1) as (_ & _ & Hb & Ha).
    eapply IH; [exact Ha| |exact H].
    apply subseteq_app; [apply subseteq_rev, Hb|exact H2].
Qed.

Lemma drop_source_subseteq name stack : drop_source name stack ⊆ stack.
Proof.
  induction stack as [|s stack IH]; [reflexivity|].
  cbn. destruct (String.eqb s.1 name); [|reflexivity].
  intros y Hy. apply elem_of_cons. right. apply IH, Hy.
Qed.

(** The invariant of the loop of the second branch: the chunks located so
    far are the first chunks, each located from an entry, and the iterator
    holds the rest. *)
Definition match_inv (entries : list source_cb) (code_chunks : list PandocCodeChunk)
    (m : mstate) : Prop :=
  sources_cb m ⊆ entries
  /\ Forall2 (located_from entries) (take (length (located m)) code_chunks) (located m)
  /\ code_chunk_iter m = drop (length (located m)) code_chunks.

Lemma match_node_inv entries code_chunks single set tp m m' :
  match_inv entries code_chunks m ->
  match_node commands single set tp m = Ok m' ->
  match_inv entries code_chunks m'.
Proof.
  intros (Hsub & Hloc & Hit) H. unfold match_node in H.
  destruct (tuple_type (ast_store m) (nt_node tp)) as [ty|] eqn:Ety; cbn in H; [|discriminate].
  destruct (if negb single && startswith "Raw" ty then _ else _) as [eof|] eqn:Eeof; cbn in H;
    [|discriminate].
  destruct eof.
  { destruct (make_null _ _) as [st'|]; cbn in H; [|discriminate].
    destruct (source_names_stack m); [discriminate|].
    inversion H; subst. split; [|split; assumption].
    cbn. etransitivity; [apply drop_source_subseteq|exact Hsub]. }
  destruct (tuple_contents _ _) as [contents|]; cbn in H; [|discriminate].
  destruct (getitem _ _ _) as [text|]; cbn in H; [|discriminate].
  destruct (match text with VAtom (SStr s) => _ | _ => _ end) as [node_cb|]; cbn in H;
    [|discriminate].
  destruct (if negb (endswith "Block" ty) then _ else _) as [stack1|] eqn:E1; cbn in H;
    [|discriminate].
  assert (stack1 ⊆ entries) as Hsub1.
  { destruct (negb (endswith "Block" ty)); [|inversion E1; subst; exact Hsub].
    destruct (pop_each _ node_cb (sources_cb m) []) as [[s1 sk1]|] eqn:Ep; cbn in E1;
      [|discriminate].
    inversion E1; subst.
    destruct (pop_each_subseteq entries _ _ _ _ _ _ Hsub (list_subseteq_nil _) Ep).
    rewrite replay_app. apply subseteq_app; [apply subseteq_rev|]; assumption. }
  destruct (if in_node_set set (nt_node tp) then _ else _) as [[[chunks done] stack2]|] eqn:E2;
    cbn in H; [|discriminate].
  assert (stack2 ⊆ entries
          /\ Forall2 (located_from entries) (take (length done) code_chunks) done
          /\ chunks = drop (length done) code_chunks) as (Hsub2 & Hloc2 & Hit2).
  { destruct (in_node_set set (nt_node tp)); [|inversion E2; subst; auto].
    destruct (code_chunk_iter m) as [|self chunks0] eqn:Eit; [discriminate|].
    destruct (match_chunk _ self stack1 []) as [[self' stack']|] eqn:Em; cbn in E2;
      [|discriminate].
    inversion E2; subst.
    destruct (locate_located entries _ _ _ _ _ Hsub1
                (fun s Hs => proj1 (andb_prop _ _ Hs)) Em) as [Hl Hs'].
    split; [exact Hs'|].
    assert (length (located m) < length code_chunks)%nat as Hlt.
    { destruct (Nat.lt_ge_cases (length (located m)) (length code_chunks)) as [|Hge];
        [assumption|]. rewrite drop_ge in Hit by exact Hge. discriminate. }
    assert (code_chunks !! length (located m) = Some self) as Hself.
    { rewrite <- (Nat.add_0_r (length (located m))), <- lookup_drop, <- Hit. reflexivity. }
    rewrite length_app. cbn [length]. rewrite Nat.add_1_r. split.
    - rewrite (take_S_r _ _ _ Hself). apply Forall2_app; [exact Hloc|].
      constructor; [exact Hl|constructor].
    - rewrite <- (Nat.add_1_r (length (located m))), <- drop_drop, <- Hit. reflexivity. }
  destruct (if endswith "Block" ty then _ else _) as [stack3|] eqn:E3; cbn in H; [|discriminate].
  assert (stack3 ⊆ entries) as Hsub3.
  { destruct (endswith "Block" ty); [|inversion E3; subst; exact Hsub2].
    destruct (pop_each _ node_cb stack2 []) as [[s1 sk1]|] eqn:Ep; cbn in E3; [|discriminate].
    inversion E3; subst.
    destruct (pop_each_subseteq entries _ _ _ _ _ _ Hsub2 (list_subseteq_nil _) Ep).
    rewrite replay_app. apply subseteq_app; [apply subseteq_rev|]; assumption. }
  destruct (if startswith "Raw" ty then _ else _) as [st'|]; cbn in H; [|discriminate].
  inversion H; subst. split; [exact Hsub3|]. split; [exact Hloc2|reflexivity].
Qed.

Lemma match_nodes_inv entries code_chunks single set tuples m m' :
  match_inv entries code_chunks m ->
  match_nodes commands single set tuples m = Ok m' ->
  match_inv entries code_chunks m'.
Proof.
  revert m. induction tuples as [|tp tuples IH]; intros m Hinv H; cbn in H.
  - inversion H; subst. exact Hinv.
  - destruct (match_node commands single set tp m) as [m1|] eqn:E; cbn in H; [|discriminate].
    eapply IH; [eapply match_node_inv; eassumption|exact H].
Qed.

(** C4: when the matcher returns, the chunks it has matched are the first
    [k] chunks (all of them in the branch for equal counts), the others
    are as they were, and every matched chunk has the source name of an
    entry whose command is the chunk's, and as its start line the entry's
    line if the chunk is inline and the line after it if it is a block. *)
Theorem matched_chunk_gets_source_location
    (single_source : bool) (entries : list source_cb) (source_names_stack : list string)
    (code_chunks : list PandocCodeChunk) (codebraid_node_set : list positive)
    (code_raw_node_tuples : list node_tuple) (st st' : store)
    (chunks' : list PandocCodeChunk) :
  match_sources commands single_source entries source_names_stack code_chunks
    codebraid_node_set code_raw_node_tuples st = Ok (chunks', st') ->
  exists k,
    Forall2 (fun self self' =>
               exists src,
                 src ∈ entries
                 /\ command_eq (command (chunk self)) (occ_command src.2) = true
                 /\ source_name (chunk self') = Some src.1
                 /\ source_start_line_number (chunk self')
                    = Some (if inline (chunk self) then Z.of_nat (occ_line src.2)
                            else (Z.of_nat (occ_line src.2) + 1)%Z)
                 /\ self' = locate src.1 (occ_line src.2) self)
            (take k code_chunks) (take k chunks')
    /\ drop k chunks' = drop k code_chunks
    /\ ((length entries = length code_chunks)%nat -> k = length code_chunks).
Proof.
  unfold match_sources. intros H.
  destruct (Nat.eqb_spec (length entries) (length code_chunks)) as [Heq|Hne].
  - destruct (match_equal code_chunks entries) as [[chunks stack]|] eqn:E; cbn in H;
      [|discriminate].
    destruct (freeze_raw_nodes _ _ _) as [st1|]; cbn in H; [|discriminate].
    inversion H; subst.
    pose proof (match_equal_located entries _ _ _ _ (reflexivity _) E) as Hl.
    exists (length code_chunks).
    rewrite take_ge by reflexivity.
    rewrite take_ge by (rewrite (Forall2_length _ _ _ Hl); reflexivity).
    split; [exact Hl|]. split; [|reflexivity].
    rewrite !drop_ge; [reflexivity|reflexivity|rewrite (Forall2_length _ _ _ Hl); reflexivity].
  - destruct (match_nodes _ _ _ _ _) as [m|] eqn:E; cbn in H; [|discriminate].
    inversion H; subst.
    assert (match_inv entries code_chunks (mkMstate entries source_names_stack code_chunks [] st))
      as Hinv.
    { split; [reflexivity|]. split; [constructor|reflexivity]. }
    destruct (match_nodes_inv _ _ _ _ _ _ _ Hinv E) as (_ & Hloc & Hit).
    exists (length (located m)).
    rewrite take_app_length. split; [exact Hloc|].
    rewrite drop_app_length. split; [exact Hit|]. intros; congruence.
Qed.

End WithCommands.

End Matcher.

(** ** The scan for [.cb.] returns *)

Section Scan.
Import Base Pandoc.

Lemma prefix_length p s : String.prefix p s = true -> (String.length p <= String.length s)%nat.
Proof.
  revert s. induction p as [|a p IH]; intros s H; cbn; [lia|].
  destruct s as [|b s]; cbn in H; [discriminate|].
  destruct (Ascii.ascii_dec a b); [|discriminate]. cbn. apply IH in H. lia.
Qed.

Lemma find_at_eq sub s i :
  find_at sub s i
  = if String.prefix sub s then Some i
    else match s with
         | EmptyString => None
         | String _ s' => find_at sub s' (S i)
         end.
Proof. destruct s; reflexivity. Qed.

Lemma find_at_bounds sub s i0 i :
  find_at sub s i0 = Some i ->
  (i0 <= i /\ (i - i0) + String.length sub <= String.length s)%nat.
Proof.
  revert i0. induction s as [|a s IH]; intros i0 H; rewrite find_at_eq in H;
    destruct (String.prefix sub _) eqn:Hp; try discriminate.
  - inversion H; subst. apply prefix_length in Hp. lia.
  - inversion H; subst. apply prefix_length in Hp. lia.
  - apply IH in H. cbn [String.length]. lia.
Qed.

Lemma drop_str_length n s : String.length (drop_str n s) = (String.length s - n)%nat.
Proof.
  revert s. induction n as [|n IH]; intros s; cbn; [lia|].
  destruct s as [|a s]; cbn; [reflexivity|apply IH].
Qed.

Lemma find_bounds sub s start i :
  find sub s start = Some i ->
  (start <= i /\ i + String.length sub <= String.length s)%nat.
Proof.
  unfold find. destruct (Nat.ltb_spec (String.length s) start) as [Hlt|Hge]; [discriminate|].
  intros Hf. apply find_at_bounds in Hf. rewrite drop_str_length in Hf. lia.
Qed.

Lemma substring_one_length e s a :
  String.substring e 1 s = String a EmptyString -> (e < String.length s)%nat.
Proof.
  revert s. induction e as [|e IH]; intros s H; destruct s as [|b s]; cbn in *;
    try discriminate; [lia|].
  apply IH in H. lia.
Qed.

Lemma scan_end_bounds n text e e' :
  scan_end n text e = Some e' -> (e <= e' /\ e' < String.length text)%nat.
Proof.
  revert e. induction n as [|n IH]; intros e H; cbn in H; [discriminate|].
  destruct (char_in after_attr_chars (slice text e (S e))) eqn:Hc.
  - inversion H; subst. split; [lia|].
    unfold char_in, slice in Hc. replace (S e' - e')%nat with 1%nat in Hc by lia.
    destruct (String.substring e' 1 text) as [|a [|b r]] eqn:Hs; try discriminate.
    eapply substring_one_length, Hs.
  - apply IH in H. lia.
Qed.

Variable commands : list string.

Lemma cb_occurrence_next text line_num start_index i :
  find ".cb." text start_index = Some i ->
  let start_index' := (cb_occurrence commands text line_num start_index i).2 in
  (i + 4 <= start_index' /\ start_index' <= String.length text)%nat.
Proof.
  intros H. apply find_bounds in H. cbn [String.length] in H.
  unfold cb_occurrence. cbn [snd].
  destruct (scan_end (max_command_len commands + 1) text (i + 4)) as [e|] eqn:He.
  - apply scan_end_bounds in He. destruct (mem _ commands); lia.
  - lia.
Qed.

Lemma find_cb_loop_returns fuel text results line_num start_index :
  (start_index <= String.length text)%nat ->
  (String.length text - start_index < 4 * fuel)%nat ->
  exists found, find_cb_loop commands fuel text results line_num start_index = Some found.
Proof.
  revert results line_num start_index.
  induction fuel as [|fuel IH]; intros results line_num start_index Hle Hlt; [lia|].
  cbn [find_cb_loop].
  destruct (find ".cb." text start_index) as [i|] eqn:Hf; [|eexists; reflexivity].
  pose proof (cb_occurrence_next text line_num start_index i Hf) as Hn.
  pose proof (find_bounds _ _ _ _ Hf) as Hb.
  destruct (cb_occurrence commands text line_num start_index i) as [occ start'].
  cbn [snd] in Hn. apply IH; lia.
Qed.

(** [_find_cb_command] returns for every text: the bound on the turns of
    its loop is never reached. *)
Lemma find_cb_command_returns text :
  exists found, _find_cb_command commands text = Some found.
Proof. apply find_cb_loop_returns; lia. Qed.

End Scan.

(** ** Scenario A: inline code with [.cb.run] on line 5 *)

Section ScenarioA.
Import Base Pandoc.

Definition backtick : string := String (ascii_of_nat 96) EmptyString.
Definition newline : string := String nl EmptyString.

(** Four empty lines, then [`x+1`{.cb.run}] on line 5. *)
Definition scenario_a_text : string :=
  newline +:+ newline +:+ newline +:+ newline
  +:+ backtick +:+ "x+1" +:+ backtick +:+ "{.cb.run}" +:+ newline.

Definition scenario_a_doc : json :=
  JDict [("pandoc-api-version", JList [JAtom (SInt 1); JAtom (SInt 17)]);
         ("meta", JDict []);
         ("blocks",
          JList [JNode "Para"
                   (JList [JNode "Code" (JList [attr EmptyString ["cb.run"] []; JStr "x+1"])])])].

Definition scenario_a_store : store := (alloc_json scenario_a_doc empty_store).2.

(** The inline chunk of the document, before the matcher runs: command
    [run], no options given, the code node at location 7 in the list at 8
    of the paragraph at 9. *)
Definition scenario_a_chunk : PandocCodeChunk :=
  {| chunk := {| source_errors := []; source_warnings := [];
                 command := PStr "run"; code := "x+1";
                 source_name := None; source_start_line_number := None;
                 inline := true; options := _cb_default_inline_options |};
     node := 7; parent_node := Loaded 9; parent_node_list := VList 8;
     parent_node_list_index := 0;
     node_id := EmptyString; node_classes := ["cb.run"]; node_kvpairs := [];
     pandoc_id := EmptyString; pandoc_classes := []; pandoc_kvpairs := [];
     Pandoc._output_nodes := None; runtime_source_error := Unset;
     code_start_line_number := None; repl_lines := Unset; expr_lines := Unset;
     stdout_lines := Unset; stderr_lines := Unset; rich_output := Unset |}.

(** Its base part is what the constructor of base.py returns. *)
Lemma scenario_a_chunk_constructed :
  CodeChunk_init [] [] (PStr "run") (CodeStr "x+1") [] None None true module_heap
  = Ok (chunk scenario_a_chunk, module_heap).
Proof. vm_compute. reflexivity. Qed.

Lemma scenario_a_walk :
  _walk_ast scenario_a_store 100 11 (Some pandoc_code_raw_nodes) false
  = Ok [mkTuple (Loaded 7) (Loaded 9) (VList 8) 0 false].
Proof. vm_compute. reflexivity. Qed.

Lemma scenario_a_occurrences :
  _find_cb_command ["code"; "run"] scenario_a_text = Some [(10, 5, true, Some "run")]%nat.
Proof. vm_compute. reflexivity. Qed.

(** C4 at scenario A: the marker is found on line 5, the matcher returns,
    and the chunk has the name of the source and line 5; its show table
    is the default one of inline chunks. *)
Lemma matched_chunk_gets_source_location_witness :
  exists self',
    match_sources ["code"; "run"] true [("doc.md", (10, 5, true, Some "run"))%nat] ["doc.md"]
      [scenario_a_chunk] [7%positive] [mkTuple (Loaded 7) (Loaded 9) (VList 8) 0 false]
      scenario_a_store = Ok ([self'], scenario_a_store)
    /\ source_name (chunk self') = Some "doc.md"
    /\ source_start_line_number (chunk self') = Some 5%Z
    /\ options (chunk self') !! "show" = Some (Ref loc_default_show_inline_notebook)
    /\ objs module_heap !! loc_default_show_inline_notebook
       = Some [("expression", "raw"); ("stderr", "verbatim")].
Proof.
  assert (match_sources ["code"; "run"] true [("doc.md", (10, 5, true, Some "run"))%nat]
            ["doc.md"] [scenario_a_chunk] [7%positive]
            [mkTuple (Loaded 7) (Loaded 9) (VList 8) 0 false] scenario_a_store
          = Ok ([locate "doc.md" 5 scenario_a_chunk], scenario_a_store)) as H
    by (vm_compute; reflexivity).
  exists (locate "doc.md" 5 scenario_a_chunk). split; [exact H|].
  destruct (matched_chunk_gets_source_location _ _ _ _ _ _ _ _ _ _ H) as (k & Hl & _ & Hk).
  rewrite (Hk eq_refl) in Hl. cbn [length take] in Hl.
  inversion Hl as [|? ? ? ? (src & Hin & _ & Hname & Hline & _) _]; subst.
  apply elem_of_cons in Hin as [->|Hin]; [|apply elem_of_nil in Hin; destruct Hin].
  split; [exact Hname|]. split; [exact Hline|].
  split; vm_compute; reflexivity.
Defined.

End ScenarioA.

(** ** An exhausted stack of occurrences *)

Section Exhaustion.
Import Base Pandoc.

Definition pop_from_empty : exn := IndexError "pop from empty list".

(** The first branch: the loop stops at the first chunk that finds no
    entry with its command. *)
Lemma match_equal_exhausted done self rest stack0 done' stack1 :
  match_equal done stack0 = Ok (done', stack1) ->
  Forall (fun s => command_eq (command (chunk self)) (occ_command s.2) = false) stack1 ->
  match_equal (done ++ self :: rest) stack0 = Raise pop_from_empty.
Proof.
  revert stack0 done'. induction done as [|c done IH]; intros stack0 done' H Hno; cbn in H.
  - inversion H; subst. cbn [app match_equal].
    rewrite match_chunk_exhausted by exact Hno. reflexivity.
  - cbn [app match_equal].
    destruct (match_chunk _ c stack0 []) as [[c' stack']|]; cbn in H |- *; [|discriminate].
    destruct (match_equal done stack') as [[rest' stack'']|] eqn:E; cbn in H; [|discriminate].
    inversion H; subst. rewrite (IH _ _ E Hno). reflexivity.
Qed.

Section WithCommands.

Variable commands : list string.

(** The second branch: an exception of the turn for one node ends the
    loop. *)
Lemma match_nodes_raise single set pre tp post m0 m e :
  match_nodes commands single set pre m0 = Ok m ->
  match_node commands single set tp m = Raise e ->
  match_nodes commands single set (pre ++ tp :: post) m0 = Raise e.
Proof.
  revert m0. induction pre as [|x pre IH]; intros m0 H Hr; cbn in H.
  - inversion H; subst. cbn. rewrite Hr. reflexivity.
  - cbn. destruct (match_node commands single set x m0) as [m1|]; cbn in H |- *; [|discriminate].
    apply IH; assumption.
Qed.

(** The second branch, at the node of a chunk that is not a raw node: if
    the stack that is left when the chunk is reached has no entry with the
    chunk's command that may be an attribute, the turn raises. *)
Lemma match_node_exhausted single set tp m ty contents text node_cb stack1 self chunks :
  tuple_type (ast_store m) (nt_node tp) = Ok ty ->
  startswith "Raw" ty = false ->
  tuple_contents (ast_store m) (nt_node tp) = Ok contents ->
  getitem (ast_store m) contents 1 = Ok (VAtom (SStr text)) ->
  _find_cb_command commands text = Some node_cb ->
  (if negb (endswith "Block" ty) then
     '(stack, skipped) ←
       pop_each (fun o s => option_eq (occ_command o) (occ_command s.2))
         node_cb (sources_cb m) [];
     Ok (replay skipped stack)
   else Ok (sources_cb m)) = Ok stack1 ->
  in_node_set set (nt_node tp) = true ->
  code_chunk_iter m = self :: chunks ->
  Forall (fun s => command_eq (command (chunk self)) (occ_command s.2) && occ_maybe s.2 = false)
         stack1 ->
  match_node commands single set tp m = Raise pop_from_empty.
Proof.
  intros Hty Hraw Hc Ht Hf Hs Hin Hit Hno. unfold match_node.
  rewrite Hty. cbn [mbind result_bind]. rewrite Hraw, andb_false_r. cbn [mbind result_bind].
  rewrite Hc. cbn [mbind result_bind]. rewrite Ht. cbn [mbind result_bind].
  rewrite Hf. cbn [mbind result_bind]. rewrite Hs. cbn [mbind result_bind].
  rewrite Hin, Hit. rewrite match_chunk_exhausted by exact Hno. reflexivity.
Qed.

Variable include_keywords : list string.
Variable super_init :
  list string -> list string -> pyval -> code_arg -> list (string * pyval) ->
  option string -> option Z -> bool -> heap -> result (CodeChunk * heap).
Variable load_ast : string -> store -> result (positive * store).

(** An exception of the matcher is an exception of
    [_load_and_process_initial_ast]. *)
Lemma load_and_process_raise depth sources source_string single_source_name ast self
    tuples new_chunks set h entries names e :
  _walk_ast (ast_objects self) depth ast (Some pandoc_code_raw_nodes) false = Ok tuples ->
  make_chunks commands include_keywords super_init (ast_objects self) tuples (show_tables self)
  = Ok (new_chunks, set, h) ->
  match single_source_name with
  | Some name => found ← source_occurrences commands name source_string; Ok (found, [name])
  | None => found ← all_occurrences commands sources; Ok (found, map fst sources)
  end = Ok (entries, names) ->
  match_sources commands (match single_source_name with Some _ => true | None => false end)
    entries names (code_chunks self ++ new_chunks) set tuples (ast_objects self) = Raise e ->
  _load_and_process_initial_ast commands include_keywords super_init depth false sources
    source_string single_source_name ast self = Raise e.
Proof.
  intros Hw Hm Ho Hr. unfold _load_and_process_initial_ast.
  rewrite Hw. cbn [mbind result_bind]. rewrite Hm. cbn [mbind result_bind].
  rewrite Ho. cbn [mbind result_bind]. rewrite Hr. reflexivity.
Qed.

(** For a conversion of one source, an exception of
    [_load_and_process_initial_ast] is an exception of
    [_extract_code_chunks], and of [code_braid] whatever the later steps
    are: no converter, and so no AST and no chunk, comes back. *)
Lemma code_braid_raise depth pandoc_file_scope name text concat ast st1 self e
    (process postprocess : converter -> result converter) :
  load_ast text (ast_objects self) = Ok (ast, st1) ->
  _load_and_process_initial_ast commands include_keywords super_init depth false
    [(name, text)] text (Some name) ast
    {| code_chunks := code_chunks self; asts := asts self; ast_objects := st1;
       show_tables := show_tables self |} = Raise e ->
  _extract_code_chunks commands include_keywords super_init load_ast depth false
    pandoc_file_scope [(name, text)] concat self = Raise e
  /\ code_braid
       (_extract_code_chunks commands include_keywords super_init load_ast depth false
          pandoc_file_scope [(name, text)] concat)
       process postprocess self = Raise e.
Proof.
  intros Hl Hr.
  assert (_extract_code_chunks commands include_keywords super_init load_ast depth false
            pandoc_file_scope [(name, text)] concat self = Raise e) as Hx.
  { unfold _extract_code_chunks. cbn [length Nat.eqb]. rewrite orb_true_r.
    cbn [load_each]. unfold load_and_process. rewrite Hl. cbn [mbind result_bind].
    rewrite Hr. reflexivity. }
  split; [exact Hx|]. unfold code_braid. rewrite Hx. reflexivity.
Qed.

(** One load call: every pop of the matcher is a pop from the stack of
    occurrences, and on a stack with no entry for the chunk it raises
    [IndexError: pop from empty list]; that exception ends the loop of
    either branch, the matcher, [_load_and_process_initial_ast],
    [_extract_code_chunks] and [code_braid]: the conversion returns no
    converter, hence no AST and no chunk with a place. *)
Theorem exhausted_stack_aborts_conversion :
  (forall p self stack skipped,
     Forall (fun s => p s = false) stack ->
     match_chunk p self stack skipped = Raise pop_from_empty)
  /\ (forall done self rest stack0 done' stack1,
        match_equal done stack0 = Ok (done', stack1) ->
        Forall (fun s => command_eq (command (chunk self)) (occ_command s.2) = false) stack1 ->
        match_equal (done ++ self :: rest) stack0 = Raise pop_from_empty)
  /\ (forall single set pre tp post m0 m ty contents text node_cb stack1 self chunks,
        match_nodes commands single set pre m0 = Ok m ->
        tuple_type (ast_store m) (nt_node tp) = Ok ty ->
        startswith "Raw" ty = false ->
        tuple_contents (ast_store m) (nt_node tp) = Ok contents ->
        getitem (ast_store m) contents 1 = Ok (VAtom (SStr text)) ->
        _find_cb_command commands text = Some node_cb ->
        (if negb (endswith "Block" ty) then
           '(stack, skipped) ←
             pop_each (fun o s => option_eq (occ_command o) (occ_command s.2))
               node_cb (sources_cb m) [];
           Ok (replay skipped stack)
         else Ok (sources_cb m)) = Ok stack1 ->
        in_node_set set (nt_node tp) = true ->
        code_chunk_iter m = self :: chunks ->
        Forall (fun s => command_eq (command (chunk self)) (occ_command s.2)
                         && occ_maybe s.2 = false) stack1 ->
        match_nodes commands single set (pre ++ tp :: post) m0 = Raise pop_from_empty)
  /\ (forall single entries names code_chunks set tuples st e,
        (if (length entries =? length code_chunks)%nat
         then match_equal code_chunks entries = Raise e
         else match_nodes commands single set tuples
                (mkMstate entries names code_chunks [] st) = Raise e) ->
        match_sources commands single entries names code_chunks set tuples st = Raise e)
  /\ (forall depth pandoc_file_scope name text concat ast st1 self tuples new_chunks set h
             entries e (process postprocess : converter -> result converter),
        load_ast text (ast_objects self) = Ok (ast, st1) ->
        _walk_ast st1 depth ast (Some pandoc_code_raw_nodes) false = Ok tuples ->
        make_chunks commands include_keywords super_init st1 tuples (show_tables self)
        = Ok (new_chunks, set, h) ->
        source_occurrences commands name text = Ok entries ->
        match_sources commands true entries [name] (code_chunks self ++ new_chunks) set
          tuples st1 = Raise e ->
        code_braid
          (_extract_code_chunks commands include_keywords super_init load_ast depth false
             pandoc_file_scope [(name, text)] concat)
          process postprocess self = Raise e).
Proof.
  split; [intros; apply match_chunk_exhausted; assumption|].
  split; [intros; eapply match_equal_exhausted; eassumption|].
  split.
  { intros. eapply match_nodes_raise; [eassumption|].
    eapply match_node_exhausted; eassumption. }
  split.
  { intros single entries names code_chunks set tuples st e H. unfold match_sources.
    destruct (length entries =? length code_chunks)%nat; rewrite H; reflexivity. }
  intros depth pandoc_file_scope name text concat ast st1 self tuples new_chunks set h
         entries e process postprocess Hl Hw Hm Ho Hr.
  eapply code_braid_raise; [exact Hl|].
  eapply load_and_process_raise with (entries := entries) (names := [name]);
    cbn [ast_objects show_tables code_chunks]; try eassumption.
  rewrite Ho. reflexivity.
Qed.

End WithCommands.

(** The same at a stack whose one entry has the command [code], for the
    chunk of scenario A, whose command is [run]. *)
Lemma exhausted_stack_aborts_conversion_witness :
  Forall (fun s : source_cb =>
            command_eq (command (chunk scenario_a_chunk)) (occ_command s.2) = false)
         [("doc.md", (10, 5, true, Some "code"))%nat]
  /\ match_chunk
       (fun s => command_eq (command (chunk scenario_a_chunk)) (occ_command s.2))
       scenario_a_chunk [("doc.md", (10, 5, true, Some "code"))%nat] []
     = Raise pop_from_empty
  /\ match_sources ["code"; "run"] true [("doc.md", (10, 5, true, Some "code"))%nat] ["doc.md"]
       [scenario_a_chunk] [7%positive] [mkTuple (Loaded 7) (Loaded 9) (VList 8) 0 false]
       scenario_a_store = Raise pop_from_empty.
Proof.
  assert (Forall (fun s : source_cb =>
                    command_eq (command (chunk scenario_a_chunk)) (occ_command s.2) = false)
                 [("doc.md", (10, 5, true, Some "code"))%nat]) as Hno
    by (constructor; [reflexivity|constructor]).
  split; [exact Hno|]. split.
  - exact (proj1 (exhausted_stack_aborts_conversion ["code"; "run"] []
                    CodeChunk_init (fun _ st => Raise TypeError)) _ _ _ _ Hno).
  - vm_compute. reflexivity.
Defined.

End Exhaustion.

(** ** Two sources with [pandoc_file_scope] *)

Section FileScope.
Import Base Pandoc.

(** [a.md] has its block on line 1, [b.md] on line 4. *)
Definition file_scope_a : string :=
  "```{.python .cb.run}" +:+ newline +:+ "1" +:+ newline +:+ "```" +:+ newline.

Definition file_scope_b : string :=
  newline +:+ newline +:+ newline
  +:+ "```{.python .cb.run}" +:+ newline +:+ "2" +:+ newline +:+ "```" +:+ newline.

Definition file_scope_sources : list (string * string) :=
  [("a.md", file_scope_a); ("b.md", file_scope_b)].

(** The AST that Pandoc gives for each of them: one code block. *)
Definition file_scope_doc (code : string) : json :=
  JDict [("pandoc-api-version", JList [JAtom (SInt 1); JAtom (SInt 17)]);
         ("meta", JDict []);
         ("blocks", JList [code_block ["python"; "cb.run"] [] code])].

(** The call of Pandoc with [json.loads] for the two sources. *)
Definition file_scope_load (source_string : string) (st : store) : result (positive * store) :=
  let code := if String.eqb source_string file_scope_a then "1" else "2" in
  match alloc_json (file_scope_doc code) st with
  | (VDict ast, st') => Ok (ast, st')
  | _ => Raise TypeError
  end.

Definition file_scope_converter : converter :=
  {| code_chunks := []; asts := []; ast_objects := empty_store; show_tables := module_heap |}.

(** The code, the source name and the line of every chunk. *)
Definition chunk_locations (r : result converter)
    : option (list (string * option string * option Z)) :=
  match r with
  | Ok self =>
      Some (map (fun c => (code (chunk c), source_name (chunk c),
                           source_start_line_number (chunk c)))
                (code_chunks self))
  | Raise _ => None
  end.

Lemma chunk_locations_some r locations :
  chunk_locations r = Some locations ->
  exists self,
    r = Ok self
    /\ map (fun c => (code (chunk c), source_name (chunk c),
                      source_start_line_number (chunk c)))
           (code_chunks self) = locations.
Proof.
  destruct r as [self|e]; [|discriminate].
  intros H. inversion H. exists self. split; reflexivity.
Qed.

(** C6 at two sources that are converted with [pandoc_file_scope]:
    [_extract_code_chunks] on [a.md] alone gives its chunk line 2 of
    [a.md]; on both sources it returns as well, the stack of [b.md] used
    up by the chunk of [a.md], which now has line 5 of [b.md], and the
    chunk of [b.md] without a place.  Nothing is raised. *)
Theorem file_scope_chunk_takes_other_source :
  (exists self,
     _extract_code_chunks ["code"; "run"] [] CodeChunk_init file_scope_load 100 false true
       [("a.md", file_scope_a)] EmptyString file_scope_converter = Ok self
     /\ map (fun c => (code (chunk c), source_name (chunk c),
                       source_start_line_number (chunk c)))
            (code_chunks self)
        = [("1" +:+ newline, Some "a.md", Some 2%Z)])
  /\ exists self,
       _extract_code_chunks ["code"; "run"] [] CodeChunk_init file_scope_load 100 false true
         file_scope_sources EmptyString file_scope_converter = Ok self
       /\ map (fun c => (code (chunk c), source_name (chunk c),
                         source_start_line_number (chunk c)))
              (code_chunks self)
          = [("1" +:+ newline, Some "b.md", Some 5%Z); ("2" +:+ newline, None, None)].
Proof.
  split; apply chunk_locations_some; vm_compute; reflexivity.
Qed.

End FileScope.

(** ** The order of the walk *)

Ltac bind_step := cbn [mbind result_bind mret result_ret].

Section WalkOrder.
Import Base Pandoc Tree.

Lemma fold_right_Forall {A} (P : A -> Prop) (l : list A) :
  fold_right (fun x Q => P x /\ Q) True l <-> Forall P l.
Proof.
  induction l as [|x l IH]; cbn.
  - split; [constructor|trivial].
  - rewrite IH. split.
    + intros [H1 H2]. constructor; assumption.
    + intros H. inversion H; subst. split; assumption.
Qed.

Lemma holds_list st id items :
  holds st (OList id items)
  <-> lists st !! id = Some (map val_of items) /\ Forall (holds st) items.
Proof. cbn. rewrite (fold_right_Forall (holds st)). reflexivity. Qed.

Lemma holds_dict st id fields :
  holds st (ODict id fields)
  <-> dicts st !! id = Some (map (fun kv => (kv.1, val_of kv.2)) fields)
      /\ Forall (fun kv => holds st kv.2) fields.
Proof. cbn. rewrite (fold_right_Forall (fun kv => holds st kv.2)). reflexivity. Qed.

Lemma od_get_field (k : string) (fields : list (string * obj)) (v : val) :
  od_get k (map (fun kv => (kv.1, val_of kv.2)) fields) = Some v ->
  exists o, (k, o) ∈ fields /\ val_of o = v.
Proof.
  induction fields as [|[k0 o0] fields IH]; cbn; [discriminate|].
  destruct (String.eqb_spec k k0) as [->|Hk].
  - intros H. inversion H. exists o0. split; [left|reflexivity].
  - intros H. destruct (IH H) as [o [Ho Hv]]. exists o. split; [right; exact Ho|exact Hv].
Qed.

Lemma elem_of_flat_map {A B} (f : A -> list B) (l : list A) (x : A) (y : B) :
  x ∈ l -> y ∈ f x -> y ∈ flat_map f l.
Proof.
  induction l as [|a l IH]; cbn; intros Hx Hy.
  - inversion Hx.
  - apply elem_of_app. apply elem_of_cons in Hx as [->|Hx]; [left; exact Hy|right; auto].
Qed.

Lemma NoDup_flat_map_elem {A B} (f : A -> list B) (l : list A) (x : A) :
  NoDup (flat_map f l) -> x ∈ l -> NoDup (f x).
Proof.
  induction l as [|a l IH]; cbn; intros Hnd Hx.
  - inversion Hx.
  - apply NoDup_app in Hnd as [H1 [_ H2]].
    apply elem_of_cons in Hx as [->|Hx]; [exact H1|auto].
Qed.

(** A field of a dict of the picture is a picture of its own. *)
Lemma field_of_dict st id fields k o :
  holds st (ODict id fields) -> NoDup (list_ids (ODict id fields)) -> (k, o) ∈ fields ->
  holds st o /\ NoDup (list_ids o) /\ (forall x, x ∈ list_ids o -> x ∈ list_ids (ODict id fields)).
Proof.
  intros Hh Hnd Hin. apply holds_dict in Hh as [_ Hall].
  rewrite Forall_forall in Hall. split; [exact (Hall _ Hin)|]. split.
  - exact (NoDup_flat_map_elem (fun kv => list_ids kv.2) fields (k, o) Hnd Hin).
  - intros x Hx. exact (elem_of_flat_map (fun kv => list_ids kv.2) fields (k, o) x Hin Hx).
Qed.

Lemma ordered_app ps qs :
  ordered (ps ++ qs)
  <-> ordered ps /\ ordered qs
      /\ forall p q, p ∈ ps -> q ∈ qs -> q.1.1 = p.1.1 -> (p.1.2 < q.1.2)%nat.
Proof.
  induction ps as [|p ps IH]; cbn.
  - split.
    + intros H. split; [trivial|]. split; [exact H|]. intros p q Hp. inversion Hp.
    + intros [_ [H _]]. exact H.
  - rewrite IH. split.
    + intros [H1 [H2 [H3 H4]]]. split; [split|split].
      * intros q Hq. apply H1. apply elem_of_app. left. exact Hq.
      * exact H2.
      * exact H3.
      * intros p' q Hp' Hq. apply elem_of_cons in Hp' as [->|Hp'].
        -- apply H1. apply elem_of_app. right. exact Hq.
        -- apply H4; assumption.
    + intros [[H1 H2] [H3 H4]]. split; [|split; [exact H2|split; [exact H3|]]].
      * intros q Hq. apply elem_of_app in Hq as [Hq|Hq]; [apply H1; exact Hq|].
        apply H4; [left|exact Hq].
      * intros p' q Hp' Hq. apply H4; [right; exact Hp'|exact Hq].
Qed.

Lemma ordered_sublist ps qs : ps `sublist_of` qs -> ordered qs -> ordered ps.
Proof.
  induction 1 as [|p ps qs Hs IH|p ps qs Hs IH]; cbn.
  - trivial.
  - intros [H1 H2]. split; [|exact (IH H2)].
    intros q Hq. apply H1. exact (elem_of_sublist _ _ _ Hq Hs).
  - intros [_ H2]. exact (IH H2).
Qed.

(** A node of the AST comes with the list that has it. *)
Definition placed (tp : node_tuple) : Prop :=
  match nt_node tp with
  | Loaded _ => is_Some (tuple_place tp)
  | Pseudonode _ _ _ => True
  end.

(** What the walk of a picture with the list locations [ids] yields: the
    places are in order, each in a list of [ids], and the store has the
    node at each place. *)
Definition good (st : store) (ids : list positive) (ts : list node_tuple) : Prop :=
  ordered (places ts) /\ Forall placed ts
  /\ forall p, p ∈ places ts -> in_place st p /\ p.1.1 ∈ ids.

(** The same for the items of the list [L] at the indices [I], whose own
    places are in [L]. *)
Definition igood (st : store) (L : positive) (I : nat -> Prop) (ids : list positive)
    (ts : list node_tuple) : Prop :=
  ordered (places ts) /\ Forall placed ts
  /\ forall p, p ∈ places ts -> in_place st p /\ (p.1.1 = L /\ I p.1.2 \/ p.1.1 ∈ ids).

Lemma places_app ts1 ts2 : places (ts1 ++ ts2) = places ts1 ++ places ts2.
Proof. apply omap_app. Qed.

Lemma good_nil st ids : good st ids [].
Proof. split; [exact I|]. split; [constructor|]. intros p Hp. inversion Hp. Qed.

Lemma good_mono st ids ids' ts :
  (forall x, x ∈ ids -> x ∈ ids') -> good st ids ts -> good st ids' ts.
Proof.
  intros Hsub [H1 [H2 H3]]. split; [exact H1|]. split; [exact H2|].
  intros p Hp. destruct (H3 p Hp) as [Ha Hb]. split; [exact Ha|auto].
Qed.

Lemma good_app st ids1 ids2 ts1 ts2 :
  good st ids1 ts1 -> good st ids2 ts2 -> (forall x, x ∈ ids1 -> x ∈ ids2 -> False) ->
  good st (ids1 ++ ids2) (ts1 ++ ts2).
Proof.
  intros [A1 [A2 A3]] [B1 [B2 B3]] Hdis. split; [|split].
  - rewrite places_app. apply ordered_app. split; [exact A1|]. split; [exact B1|].
    intros p q Hp Hq Heq. exfalso. apply (Hdis p.1.1).
    + exact (proj2 (A3 p Hp)).
    + rewrite <- Heq. exact (proj2 (B3 q Hq)).
  - apply Forall_app. split; assumption.
  - intros p Hp. rewrite places_app in Hp. apply elem_of_app in Hp as [Hp|Hp].
    + destruct (A3 p Hp). split; [assumption|]. apply elem_of_app. left. assumption.
    + destruct (B3 p Hp). split; [assumption|]. apply elem_of_app. right. assumption.
Qed.

Lemma good_igood st L I ids ts : good st ids ts -> igood st L I ids ts.
Proof.
  intros [H1 [H2 H3]]. split; [exact H1|]. split; [exact H2|].
  intros p Hp. destruct (H3 p Hp). split; [assumption|right; assumption].
Qed.

Lemma igood_good st L I ids ts : igood st L I ids ts -> good st (L :: ids) ts.
Proof.
  intros [H1 [H2 H3]]. split; [exact H1|]. split; [exact H2|].
  intros p Hp. destruct (H3 p Hp) as [Ha [[Hb _]|Hb]]; (split; [exact Ha|]).
  - rewrite Hb. left.
  - right. exact Hb.
Qed.

(** The tuple of a node and then the tuples from below it. *)
Lemma igood_own st L k ids (pass : bool) n parent in_note sub :
  L ∉ ids -> good st ids sub -> in_place st (L, k, n) ->
  igood st L (eq k) ids
    ((if pass then [mkTuple (Loaded n) parent (VList L) k in_note] else []) ++ sub).
Proof.
  intros HL [H1 [H2 H3]] Hin. destruct pass; cbn [app]; [|apply good_igood; exact (conj H1 (conj H2 H3))].
  split; [|split].
  - cbn. split; [|exact H1]. intros q Hq Heq. exfalso. apply HL.
    cbn in Heq. rewrite <- Heq. exact (proj2 (H3 q Hq)).
  - constructor; [|exact H2]. cbn. eexists. reflexivity.
  - intros p Hp. cbn in Hp. apply elem_of_cons in Hp as [->|Hp].
    + split; [exact Hin|]. left. split; reflexivity.
    + destruct (H3 p Hp). split; [assumption|right; assumption].
Qed.

(** The tuples of one item and then those of the items after it. *)
Lemma igood_step st L k ids1 ids2 ys zs :
  igood st L (eq k) ids1 ys -> igood st L (le (S k)) ids2 zs ->
  L ∉ ids1 -> L ∉ ids2 -> (forall x, x ∈ ids1 -> x ∈ ids2 -> False) ->
  igood st L (le k) (ids1 ++ ids2) (ys ++ zs).
Proof.
  intros [A1 [A2 A3]] [B1 [B2 B3]] HL1 HL2 Hdis. split; [|split].
  - rewrite places_app. apply ordered_app. split; [exact A1|]. split; [exact B1|].
    intros p q Hp Hq Heq.
    destruct (A3 p Hp) as [_ [[Hp1 Hp2]|Hp1]]; destruct (B3 q Hq) as [_ [[Hq1 Hq2]|Hq1]].
    + lia.
    + exfalso. apply HL2. rewrite <- Hp1, <- Heq. exact Hq1.
    + exfalso. apply HL1. rewrite <- Hq1, Heq. exact Hp1.
    + exfalso. apply (Hdis p.1.1); [exact Hp1|]. rewrite <- Heq. exact Hq1.
  - apply Forall_app. split; assumption.
  - intros p Hp. rewrite places_app in Hp. apply elem_of_app in Hp as [Hp|Hp].
    + destruct (A3 p Hp) as [Ha [[Hb Hc]|Hb]]; (split; [exact Ha|]).
      * left. split; [exact Hb|lia].
      * right. apply elem_of_app. left. exact Hb.
    + destruct (B3 p Hp) as [Ha [[Hb Hc]|Hb]]; (split; [exact Ha|]).
      * left. split; [exact Hb|lia].
      * right. apply elem_of_app. right. exact Hb.
Qed.

End WalkOrder.

Section WalkStep.
Import Base Pandoc Tree.

Variable st : store.
Variable rec : walker.

(** The walk one level down is already known to be good. *)
Hypothesis rec_good : forall o parent tf skip in_note ts,
  holds st o -> NoDup (list_ids o) ->
  rec (val_of o) parent tf skip in_note = Ok ts -> good st (list_ids o) ts.

(** What [a, b = elem] gives are pictures below [elem]. *)
Lemma unpack_pair_objs elem term def :
  holds st elem -> NoDup (list_ids elem) -> unpack_pair st (val_of elem) = Ok (term, def) ->
  exists a b, term = val_of a /\ def = val_of b /\ holds st a /\ holds st b
    /\ NoDup (list_ids a ++ list_ids b)
    /\ forall x, x ∈ list_ids a ++ list_ids b -> x ∈ list_ids elem.
Proof.
  destruct elem as [a|id items|id fields]; intros Hh Hnd.
  - cbn. destruct a as [| | | |s]; try discriminate.
    destruct s as [|c1 [|c2 [|c3 s]]]; try discriminate.
    intros H. inversion H.
    exists (OAtom (SStr (String c1 EmptyString))), (OAtom (SStr (String c2 EmptyString))).
    split; [reflexivity|]. split; [reflexivity|]. split; [exact I|]. split; [exact I|].
    split; [apply NoDup_nil_2|]. intros x Hx. exact Hx.
  - apply holds_list in Hh as [Hl Hall]. cbn [val_of unpack_pair]. unfold get_list.
    rewrite Hl. bind_step.
    destruct items as [|oa [|ob [|oc items]]]; cbn; try discriminate.
    intros H. inversion H. exists oa, ob.
    inversion Hall as [|? ? Ha Hall']; subst. inversion Hall' as [|? ? Hb _]; subst.
    cbn in Hnd. rewrite app_nil_r in Hnd. apply NoDup_cons in Hnd as [_ Hnd].
    split; [reflexivity|]. split; [reflexivity|]. split; [exact Ha|]. split; [exact Hb|].
    split; [exact Hnd|]. intros x Hx. cbn. rewrite app_nil_r. right. exact Hx.
  - apply holds_dict in Hh as [Hd _]. cbn [val_of unpack_pair]. unfold get_dict.
    rewrite Hd. bind_step.
    destruct fields as [|[k1 o1] [|[k2 o2] [|f3 fields]]]; cbn; try discriminate.
    intros H. inversion H. exists (OAtom (SStr k1)), (OAtom (SStr k2)).
    split; [reflexivity|]. split; [reflexivity|]. split; [exact I|]. split; [exact I|].
    split; [apply NoDup_nil_2|]. intros x Hx. inversion Hx.
Qed.

Lemma pseudonode_good owner k term elem in_note (tf : option (list string)) :
  good st []
    (match tf with
     | None => [mkTuple (Pseudonode owner k term) (Loaded owner) elem 0 in_note]
     | Some names =>
         if mem "Plain" names
         then [mkTuple (Pseudonode owner k term) (Loaded owner) elem 0 in_note] else []
     end).
Proof.
  assert (good st [] [mkTuple (Pseudonode owner k term) (Loaded owner) elem 0 in_note]) as H.
  { split; [exact I|]. split; [constructor; [exact I|constructor]|].
    intros p Hp. inversion Hp. }
  destruct tf as [names|]; [destruct (mem "Plain" names)|]; first [exact H|apply good_nil].
Qed.

Lemma walk_definitions_good owner tf skip in_note elems : forall k ts,
  Forall (holds st) elems -> NoDup (flat_map list_ids elems) ->
  walk_definitions st rec owner tf skip in_note k (map val_of elems) = Ok ts ->
  good st (flat_map list_ids elems) ts.
Proof.
  induction elems as [|elem elems IH]; intros k ts Hall Hnd; cbn [map walk_definitions].
  - intros H. inversion H. apply good_nil.
  - inversion Hall as [|? ? Hh Hall']; subst.
    cbn [flat_map] in Hnd. apply NoDup_app in Hnd as [Hnd1 [Hdis Hnd2]].
    destruct (unpack_pair st (val_of elem)) as [[term def]|e] eqn:Hu; bind_step; [|discriminate].
    destruct (unpack_pair_objs elem term def Hh Hnd1 Hu)
      as [a [b [-> [-> [Ha [Hb [Hab Hsub]]]]]]].
    apply NoDup_app in Hab as [Hna [Hdab Hnb]].
    destruct (rec (val_of a) _ tf skip in_note) as [tms|e] eqn:Ht; bind_step; [|discriminate].
    destruct (rec (val_of b) _ tf skip in_note) as [ds|e] eqn:Hd; bind_step; [|discriminate].
    destruct (walk_definitions st rec owner tf skip in_note (S k) (map val_of elems))
      as [rest|e] eqn:Hr; bind_step; [|discriminate].
    intros H. inversion H. subst ts.
    pose proof (rec_good _ _ _ _ _ _ Ha Hna Ht) as Gt.
    pose proof (rec_good _ _ _ _ _ _ Hb Hnb Hd) as Gd.
    pose proof (IH _ _ Hall' Hnd2 Hr) as Gr.
    pose proof (good_app _ _ _ _ _ Gt Gd Hdab) as Gtd.
    apply (good_mono _ _ (list_ids elem)) in Gtd; [|exact Hsub].
    pose proof (good_app _ _ _ _ _ Gtd Gr Hdis) as G.
    rewrite <- app_assoc in G.
    exact (good_app _ [] _ _ _ (pseudonode_good owner k (val_of a) (val_of elem) in_note tf)
             G (fun x Hx _ => proj1 (elem_of_nil x) Hx)).
Qed.

Lemma walk_item_good L parent tf skip k in_note x ys in_note' xs :
  holds st x -> NoDup (list_ids x) -> L ∉ list_ids x ->
  lists st !! L = Some xs -> xs !! k = Some (val_of x) ->
  walk_item st rec (VList L) parent tf skip k in_note (val_of x) = Ok (ys, in_note') ->
  igood st L (eq k) (list_ids x) ys.
Proof.
  intros Hh Hnd HL Hxs Hk. destruct x as [a|id items|id fields].
  - cbn. intros H. inversion H. apply good_igood, good_nil.
  - cbn [val_of walk_item].
    destruct (rec (VList id) parent tf skip in_note) as [sub|e] eqn:Hr; bind_step; [|discriminate].
    intros H. inversion H. subst. apply good_igood.
    exact (rec_good (OList id items) _ _ _ _ _ Hh Hnd Hr).
  - pose proof Hh as Hh0. apply holds_dict in Hh as [Hd _].
    cbn [val_of walk_item]. unfold get_dict. rewrite Hd. bind_step.
    destruct (od_get "t" _) as [node_type|] eqn:Ht;
      [|intros H; inversion H; apply good_igood, good_nil].
    destruct (passes_filter tf node_type) as [pass|e]; bind_step; [|discriminate].
    assert (in_place st (L, k, id)) as Hplace by (exists xs; split; assumption).
    assert (igood st L (eq k) (list_ids (ODict id fields))
              (if pass then [mkTuple (Loaded id) parent (VList L) k in_note] else [])) as Hown.
    { rewrite <- (app_nil_r (if pass then _ else _)).
      apply igood_own; [exact HL|apply good_nil|exact Hplace]. }
    destruct (od_get "c" _) as [[a|lc|ld]|] eqn:Hc;
      try (intros H; inversion H; subst; exact Hown).
    destruct (od_get_field _ _ _ Hc) as [c_obj [Hin Hv]].
    destruct c_obj as [a|lc' contents|ld]; try discriminate.
    cbn in Hv. inversion Hv. subst lc'.
    destruct (field_of_dict _ _ _ _ _ Hh0 Hnd Hin) as [Hhc [Hndc Hsub]].
    destruct (is_str "Note" node_type).
    + destruct skip; [intros H; inversion H; subst; exact Hown|].
      destruct (rec (VList lc) _ tf false true) as [sub|e] eqn:Hr; bind_step; [|discriminate].
      intros H. inversion H. subst. apply igood_own; [exact HL| |exact Hplace].
      apply (good_mono _ _ _ _ Hsub). exact (rec_good (OList lc contents) _ _ _ _ _ Hhc Hndc Hr).
    + destruct (negb (is_str "DefinitionList" node_type)).
      * destruct (rec (VList lc) _ tf skip in_note) as [sub|e] eqn:Hr; bind_step; [|discriminate].
        intros H. inversion H. subst. apply igood_own; [exact HL| |exact Hplace].
        apply (good_mono _ _ _ _ Hsub).
        exact (rec_good (OList lc contents) _ _ _ _ _ Hhc Hndc Hr).
      * apply holds_list in Hhc as [Hlc Hall]. unfold get_list. rewrite Hlc. bind_step.
        destruct (walk_definitions st rec id tf skip in_note 0 _) as [sub|e] eqn:Hr;
          bind_step; [|discriminate].
        intros H. inversion H. subst. apply igood_own; [exact HL| |exact Hplace].
        cbn in Hndc. apply NoDup_cons in Hndc as [_ Hndc].
        apply (good_mono _ (flat_map list_ids contents)).
        -- intros y Hy. apply Hsub. right. exact Hy.
        -- exact (walk_definitions_good _ _ _ _ _ _ _ Hall Hndc Hr).
Qed.

Lemma walk_items_good L parent tf skip xs rest : forall k in_note ts,
  Forall (holds st) rest -> NoDup (flat_map list_ids rest) -> L ∉ flat_map list_ids rest ->
  lists st !! L = Some xs -> drop k xs = map val_of rest ->
  walk_items st rec (VList L) parent tf skip k in_note (map val_of rest) = Ok ts ->
  igood st L (le k) (flat_map list_ids rest) ts.
Proof.
  induction rest as [|x rest IH]; intros k in_note ts Hall Hnd HL Hxs Hdrop;
    cbn [map walk_items].
  - intros H. inversion H. apply good_igood, good_nil.
  - inversion Hall as [|? ? Hh Hall']; subst.
    cbn [flat_map] in Hnd, HL. apply NoDup_app in Hnd as [Hnd1 [Hdis Hnd2]].
    assert (xs !! k = Some (val_of x)) as Hk.
    { rewrite <- (Nat.add_0_r k), <- lookup_drop, Hdrop. reflexivity. }
    assert (drop (S k) xs = map val_of rest) as Hdrop'.
    { replace (S k) with (k + 1)%nat by lia. rewrite <- drop_drop, Hdrop. reflexivity. }
    destruct (walk_item st rec (VList L) parent tf skip k in_note (val_of x))
      as [[ys in_note']|e] eqn:Hi; bind_step; [|discriminate].
    destruct (walk_items st rec (VList L) parent tf skip (S k) in_note' (map val_of rest))
      as [zs|e] eqn:Hr; bind_step; [|discriminate].
    intros H. inversion H. subst ts.
    assert (L ∉ list_ids x) as HL1 by (intros Hc; apply HL, elem_of_app; left; exact Hc).
    assert (L ∉ flat_map list_ids rest) as HL2
      by (intros Hc; apply HL, elem_of_app; right; exact Hc).
    apply igood_step; try assumption.
    + exact (walk_item_good _ _ _ _ _ _ _ _ _ _ Hh Hnd1 HL1 Hxs Hk Hi).
    + exact (IH _ _ _ Hall' Hnd2 HL2 Hxs Hdrop' Hr).
Qed.

Lemma walk_body_good o parent tf skip in_note ts :
  holds st o -> NoDup (list_ids o) ->
  walk_body st rec (val_of o) parent tf skip in_note = Ok ts -> good st (list_ids o) ts.
Proof.
  intros Hh Hnd. destruct o as [a|id items|id fields].
  - cbn. destruct a; intros H; inversion H; apply good_nil.
  - apply holds_list in Hh as [Hl Hall]. cbn [val_of walk_body]. unfold get_list.
    rewrite Hl. bind_step. intros H. cbn [list_ids] in *.
    apply NoDup_cons in Hnd as [HL Hnd]. apply igood_good with (I := le 0).
    exact (walk_items_good id parent tf skip _ items 0%nat in_note ts Hall Hnd HL Hl eq_refl H).
  - cbn. intros H. inversion H. apply good_nil.
Qed.

End WalkStep.

Section WalkGood.
Import Base Pandoc Tree.

(** The walk of a tree: the places come in order, every node of the AST
    with the list that has it. *)
Lemma walk_node_list_good st depth : forall o parent tf skip in_note ts,
  holds st o -> NoDup (list_ids o) ->
  walk_node_list st depth (val_of o) parent tf skip in_note = Ok ts ->
  good st (list_ids o) ts.
Proof.
  induction depth as [|depth IH]; cbn [walk_node_list]; intros o parent tf skip in_note ts Hh Hnd.
  - discriminate.
  - apply walk_body_good; assumption.
Qed.

Lemma walk_ast_good st depth root fields tf skip tuples :
  holds st (ODict root fields) -> NoDup (list_ids (ODict root fields)) ->
  _walk_ast st depth root tf skip = Ok tuples ->
  good st (list_ids (ODict root fields)) tuples.
Proof.
  intros Hh Hnd. pose proof Hh as Hh0. apply holds_dict in Hh as [Hd _].
  unfold _walk_ast, get_dict. rewrite Hd. bind_step. unfold getkey.
  destruct (od_get "blocks" _) as [v|] eqn:Hb; bind_step; [|discriminate].
  destruct (od_get_field _ _ _ Hb) as [o [Hin <-]].
  destruct (field_of_dict _ _ _ _ _ Hh0 Hnd Hin) as [Hho [Hndo Hsub]].
  intros H. apply (good_mono _ _ _ _ Hsub).
  exact (walk_node_list_good _ _ _ _ _ _ _ _ Hho Hndo H).
Qed.

End WalkGood.

(** ** What the splicer leaves in place *)

Section SpliceKeeps.
Import Base Pandoc Tree.

Lemma json_induction (P : json -> Prop) :
  (forall a, P (JAtom a)) ->
  (forall xs, Forall P xs -> P (JList xs)) ->
  (forall fields, Forall (fun kv => P kv.2) fields -> P (JDict fields)) ->
  forall x, P x.
Proof.
  intros Ha Hl Hd. fix IH 1. intros [a|xs|fields].
  - apply Ha.
  - apply Hl. induction xs as [|x xs IHxs]; constructor; [apply IH|exact IHxs].
  - apply Hd. induction fields as [|[k x] fields IHf]; constructor; [apply IH|exact IHf].
Qed.

(** From a store in order to a store in order that has every object of
    the first. *)
Definition grows (st st' : store) : Prop :=
  store_ok st ->
  store_ok st'
  /\ (forall l xs, lists st !! l = Some xs -> lists st' !! l = Some xs)
  /\ (forall l d, dicts st !! l = Some d -> dicts st' !! l = Some d).

Lemma grows_refl st : grows st st.
Proof. intros H. split; [exact H|]. split; auto. Qed.

Lemma grows_trans st1 st2 st3 : grows st1 st2 -> grows st2 st3 -> grows st1 st3.
Proof.
  intros H12 H23 H1. destruct (H12 H1) as [H2 [Hl2 Hd2]]. destruct (H23 H2) as [H3 [Hl3 Hd3]].
  split; [exact H3|]. split; auto.
Qed.

Lemma new_list_grows xs st : grows st (new_list xs st).2.
Proof.
  intros [Hl Hd]. split; [split|split]; cbn.
  - apply map_Forall_insert_2; [lia|].
    intros l ys Hy. pose proof (Hl l ys Hy) as Hlt. cbn in Hlt. lia.
  - intros l d Hy. pose proof (Hd l d Hy) as Hlt. cbn in Hlt. lia.
  - intros l ys Hy. rewrite lookup_insert_ne; [exact Hy|].
    pose proof (Hl l ys Hy) as Hlt. cbn in Hlt. lia.
  - auto.
Qed.

Lemma new_dict_grows d st : grows st (new_dict d st).2.
Proof.
  intros [Hl Hd]. split; [split|split]; cbn.
  - intros l ys Hy. pose proof (Hl l ys Hy) as Hlt. cbn in Hlt. lia.
  - apply map_Forall_insert_2; [lia|].
    intros l ys Hy. pose proof (Hd l ys Hy) as Hlt. cbn in Hlt. lia.
  - auto.
  - intros l ys Hy. rewrite lookup_insert_ne; [exact Hy|].
    pose proof (Hd l ys Hy) as Hlt. cbn in Hlt. lia.
Qed.

Lemma alloc_json_grows x : forall st, grows st (alloc_json x st).2.
Proof.
  induction x as [a|xs IH|fields IH] using json_induction; intros st.
  - apply grows_refl.
  - cbn [alloc_json].
    assert (forall st0, grows st0 (alloc_each alloc_json xs st0).2) as Hall.
    { induction IH as [|x xs Hx _ IHxs]; intros st0; cbn; [apply grows_refl|].
      pose proof (Hx st0) as H1. destruct (alloc_json x st0) as [v st1].
      pose proof (IHxs st1) as H2. destruct (alloc_each alloc_json xs st1) as [vs st2].
      exact (grows_trans _ _ _ H1 H2). }
    pose proof (Hall st) as H1. destruct (alloc_each alloc_json xs st) as [vs st1].
    exact (grows_trans _ _ _ H1 (new_list_grows vs st1)).
  - cbn [alloc_json].
    assert (forall st0, grows st0 (alloc_fields alloc_json fields st0).2) as Hall.
    { induction IH as [|[k x] fields Hx _ IHf]; intros st0; cbn; [apply grows_refl|].
      pose proof (Hx st0) as H1. cbn in H1. destruct (alloc_json x st0) as [v st1].
      pose proof (IHf st1) as H2. destruct (alloc_fields alloc_json fields st1) as [vs st2].
      exact (grows_trans _ _ _ H1 H2). }
    pose proof (Hall st) as H1. destruct (alloc_fields alloc_json fields st) as [d st1].
    exact (grows_trans _ _ _ H1 (new_dict_grows d st1)).
Qed.

Lemma alloc_nodes_grows nodes : forall st, grows st (alloc_nodes nodes st).2.
Proof.
  induction nodes as [|n nodes IH]; intros st; cbn [alloc_nodes]; [apply grows_refl|].
  pose proof (alloc_json_grows (of_node n) st) as H1.
  destruct (alloc_json (of_node n) st) as [v st1].
  pose proof (IH st1) as H2. destruct (alloc_nodes nodes st1) as [vs st2].
  exact (grows_trans _ _ _ H1 H2).
Qed.

Lemma set_list_ok l xs ys st :
  store_ok st -> lists st !! l = Some xs -> store_ok (set_list l ys st).
Proof.
  intros [Hl Hd] Hx. split; cbn; [|exact Hd].
  apply map_Forall_insert_2; [exact (Hl l xs Hx)|exact Hl].
Qed.

Lemma set_dict_ok l d d' st :
  store_ok st -> dicts st !! l = Some d -> store_ok (set_dict l d' st).
Proof.
  intros [Hl Hd] Hx. split; cbn; [exact Hl|].
  apply map_Forall_insert_2; [exact (Hd l d Hx)|exact Hd].
Qed.

Variable layout_output : PandocCodeChunk -> string -> string -> option (list string) -> string.
Variable splitlines_lf : string -> list string.
Variable rich_text_default_display : list (string * string).
Variable mime_map : list (string * string).

(** One splice keeps the store in order and every slot that is not in
    the chunk's list at the chunk's index or after it. *)
Lemma update_parent_node_keeps h self st st' self' :
  update_parent_node layout_output splitlines_lf rich_text_default_display mime_map h self st
  = Ok (st', self') ->
  store_ok st ->
  store_ok st'
  /\ forall L i xs v, lists st !! L = Some xs -> xs !! i = Some v ->
       (parent_node_list self = VList L -> (i < parent_node_list_index self)%nat) ->
       exists xs', lists st' !! L = Some xs' /\ xs' !! i = Some v.
Proof.
  unfold update_parent_node. cbv zeta.
  destruct (options (chunk self) !! "example") as [example|]; [|discriminate].
  destruct (output_nodes layout_output splitlines_lf rich_text_default_display mime_map h self)
    as [[nodes self'']|e]; bind_step; [|destruct (negb _); discriminate].
  destruct (negb (truthy h example)).
  - destruct (parent_node_list self) as [a|l|l] eqn:Hpl; try discriminate.
    unfold get_list. destruct (lists st !! l) as [xs0|] eqn:Hl; bind_step; [|discriminate].
    pose proof (alloc_nodes_grows nodes st) as Hg.
    destruct (alloc_nodes nodes st) as [vs st1]. intros H Hok. inversion H; subst.
    destruct (Hg Hok) as [Hok1 [Hl1 Hd1]]. cbn in Hok1, Hl1, Hd1. split.
    + exact (set_list_ok _ _ _ _ Hok1 (Hl1 _ _ Hl)).
    + intros L i xs v HL Hi Hlt. cbn. destruct (decide (L = l)) as [->|Hne].
      * rewrite lookup_insert_eq. eexists. split; [reflexivity|].
        rewrite HL in Hl. inversion Hl; subst xs0. specialize (Hlt eq_refl).
        rewrite lookup_app_l.
        -- rewrite lookup_take_lt; assumption.
        -- rewrite length_take. apply lookup_lt_Some in Hi. lia.
      * rewrite lookup_insert_ne by congruence. exists xs. split; [exact (Hl1 _ _ HL)|exact Hi].
  - destruct (inline (chunk self)).
    + destruct (parent_node self) as [p|owner k term].
      * unfold get_dict. destruct (dicts st !! p) as [d|] eqn:Hd; bind_step; [|discriminate].
        match goal with |- context [alloc_json ?j st] =>
          pose proof (alloc_json_grows j st) as Hg; destruct (alloc_json j st) as [vc st1] end.
        intros H Hok. inversion H; subst.
        destruct (Hg Hok) as [Hok1 [Hl1 Hd1]]. cbn in Hok1, Hl1, Hd1. split.
        -- exact (set_dict_ok _ _ _ _ Hok1 (Hd1 _ _ Hd)).
        -- intros L i xs v HL Hi _. cbn. exists xs. split; [exact (Hl1 _ _ HL)|exact Hi].
      * intros H Hok. inversion H; subst. split; [exact Hok|].
        intros L i xs v HL Hi _. exists xs. split; assumption.
    + destruct (parent_node_list self) as [a|l|l] eqn:Hpl; try discriminate.
      unfold get_list. destruct (lists st !! l) as [xs0|] eqn:Hl; bind_step; [|discriminate].
      destruct (parent_node_list_index self <? length xs0)%nat; [|discriminate].
      match goal with |- context [alloc_json ?j st] =>
        pose proof (alloc_json_grows j st) as Hg; destruct (alloc_json j st) as [vc st1] end.
      intros H Hok. inversion H; subst.
      destruct (Hg Hok) as [Hok1 [Hl1 Hd1]]. cbn in Hok1, Hl1, Hd1. split.
      * exact (set_list_ok _ _ _ _ Hok1 (Hl1 _ _ Hl)).
      * intros L i xs v HL Hi Hlt. cbn. destruct (decide (L = l)) as [->|Hne].
        -- rewrite lookup_insert_eq. eexists. split; [reflexivity|].
           rewrite HL in Hl. inversion Hl; subst xs0. specialize (Hlt eq_refl).
           rewrite list_lookup_insert_ne by lia. exact Hi.
        -- rewrite lookup_insert_ne by congruence. exists xs.
           split; [exact (Hl1 _ _ HL)|exact Hi].
Qed.

(** The same for a run of splices. *)
Lemma update_each_keeps h : forall chunks st st' updated,
  update_each layout_output splitlines_lf rich_text_default_display mime_map h chunks st
  = Ok (st', updated) ->
  store_ok st ->
  store_ok st'
  /\ forall L i xs v, lists st !! L = Some xs -> xs !! i = Some v ->
       (forall c, c ∈ chunks -> parent_node_list c = VList L ->
                  (i < parent_node_list_index c)%nat) ->
       exists xs', lists st' !! L = Some xs' /\ xs' !! i = Some v.
Proof.
  induction chunks as [|self chunks IH]; intros st st' updated; cbn [update_each].
  - intros H Hok. inversion H; subst. split; [exact Hok|].
    intros L i xs v HL Hi _. exists xs. split; assumption.
  - destruct (update_parent_node _ _ _ _ h self st) as [[st1 self']|e] eqn:Hu;
      bind_step; [|discriminate].
    destruct (update_each _ _ _ _ h chunks st1) as [[st2 rest]|e] eqn:Hr;
      bind_step; [|discriminate].
    intros H Hok. inversion H; subst.
    destruct (update_parent_node_keeps _ _ _ _ _ Hu Hok) as [Hok1 Hk1].
    destruct (IH _ _ _ Hr Hok1) as [Hok2 Hk2]. split; [exact Hok2|].
    intros L i xs v HL Hi Hlt.
    destruct (Hk1 L i xs v HL Hi (Hlt self ltac:(left))) as [xs1 [HL1 Hi1]].
    apply (Hk2 L i xs1 v HL1 Hi1). intros c Hc. apply Hlt. right. exact Hc.
Qed.

(** The pass over a run of chunks and then over another is the pass over
    both. *)
Lemma update_each_app h : forall chunks1 chunks2 st,
  update_each layout_output splitlines_lf rich_text_default_display mime_map h
    (chunks1 ++ chunks2) st
  = '(st1, done1) ← update_each layout_output splitlines_lf rich_text_default_display
                      mime_map h chunks1 st;
    '(st2, done2) ← update_each layout_output splitlines_lf rich_text_default_display
                      mime_map h chunks2 st1;
    Ok (st2, done1 ++ done2).
Proof.
  induction chunks1 as [|self chunks1 IH]; intros chunks2 st; cbn [app update_each].
  - bind_step.
    destruct (update_each _ _ _ _ h chunks2 st) as [[st2 done2]|e]; reflexivity.
  - destruct (update_parent_node _ _ _ _ h self st) as [[st1 self']|e]; bind_step;
      [|reflexivity].
    rewrite IH.
    destruct (update_each _ _ _ _ h chunks1 st1) as [[st2 done1]|e]; bind_step; [|reflexivity].
    destruct (update_each _ _ _ _ h chunks2 st2) as [[st3 done2]|e]; reflexivity.
Qed.

End SpliceKeeps.

(** ** Splicing in reverse *)

Section IndexStability.
Import Base Pandoc Tree.

Variable commands : list string.
Variable include_keywords : list string.
Variable super_init :
  list string -> list string -> pyval -> Base.code_arg -> list (string * pyval) ->
  option string -> option Z -> bool -> Base.heap -> result (Base.CodeChunk * Base.heap).
Variable layout_output : PandocCodeChunk -> string -> string -> option (list string) -> string.
Variable splitlines_lf : string -> list string.
Variable rich_text_default_display : list (string * string).
Variable mime_map : list (string * string).

(** The place that a chunk has recorded. *)
Definition chunk_place (self : PandocCodeChunk) : option place :=
  match parent_node_list self with
  | VList l => Some (l, parent_node_list_index self, node self)
  | _ => None
  end.

(** The chunk has the node, the list and the index of the tuple. *)
Definition recorded (tp : node_tuple) (self : PandocCodeChunk) : Prop :=
  nt_node tp = Loaded (node self)
  /\ nt_list tp = parent_node_list self
  /\ nt_index tp = parent_node_list_index self.

(** Two states of a chunk with the same node, list and index. *)
Definition same_slot (self self' : PandocCodeChunk) : Prop :=
  node self = node self'
  /\ parent_node_list self = parent_node_list self'
  /\ parent_node_list_index self = parent_node_list_index self'.

Lemma PandocCodeChunk_init_recorded st l parent node_list index source_name line h self h' :
  PandocCodeChunk_init commands include_keywords super_init st l parent node_list index
    source_name line h = Ok (self, h') ->
  recorded (mkTuple (Loaded l) parent node_list index false) self.
Proof.
  unfold PandocCodeChunk_init.
  destruct (code_node_parts st l) as [[[[[ty nid] ncl] nkv] code]|]; [|discriminate].
  cbv zeta.
  destruct (process_classes _ _ _ _) as [pst|e]; bind_step; [|discriminate].
  destruct (process_kvpairs _ _ _) as [pst'|e]; bind_step; [|discriminate].
  destruct (super_init _ _ _ _ _ _ _ _ _) as [[b h1]|e]; bind_step; [|discriminate].
  destruct (if is_str "Code" ty then _ else _) as [b'|e]; bind_step; [|discriminate].
  destruct (match od_get "lang" _ with Some _ => _ | None => _ end) as [classes1|e];
    bind_step; [|discriminate].
  intros H. inversion H. subst. split; [|split]; reflexivity.
Qed.

Lemma make_chunks_recorded st : forall tuples h chunks ids h',
  make_chunks commands include_keywords super_init st tuples h = Ok (chunks, ids, h') ->
  exists found, found `sublist_of` tuples /\ Forall2 recorded found chunks.
Proof.
  induction tuples as [|tp tuples IH]; intros h chunks ids h'; cbn [make_chunks].
  - intros H. inversion H. exists []. split; constructor.
  - destruct (tuple_type st (nt_node tp)) as [ty|e]; bind_step; [|discriminate].
    destruct (if startswith "Code" ty then _ else _) as [is_chunk|e]; bind_step;
      [|discriminate].
    destruct is_chunk.
    + destruct tp as [n parent node_list index in_note]. cbn [nt_node nt_parent nt_list nt_index].
      destruct n as [l|owner k term]; [|discriminate].
      destruct (PandocCodeChunk_init _ _ _ st l parent node_list index None None h)
        as [[self h1]|e] eqn:Hi; bind_step; [|discriminate].
      destruct (make_chunks _ _ _ st tuples h1) as [[[chunks' ids'] h2]|e] eqn:Hm;
        bind_step; [|discriminate].
      intros H. inversion H. subst.
      destruct (IH _ _ _ _ Hm) as [found [Hsub Hrec]].
      exists (mkTuple (Loaded l) parent node_list index in_note :: found).
      split; [apply sublist_skip; exact Hsub|]. constructor; [|exact Hrec].
      exact (PandocCodeChunk_init_recorded _ _ _ _ _ _ _ _ _ _ Hi).
    + intros H. destruct (IH _ _ _ _ H) as [found [Hsub Hrec]].
      exists found. split; [apply sublist_cons; exact Hsub|exact Hrec].
Qed.

Lemma recorded_same found : forall chunks chunks',
  Forall2 recorded found chunks -> Forall2 same_slot chunks chunks' ->
  Forall2 recorded found chunks'.
Proof.
  induction found as [|tp found IH]; intros chunks chunks' H1 H2.
  - inversion H1; subst. inversion H2; subst. constructor.
  - inversion H1 as [|? c ? cs [Ha [Hb Hc]] H1']; subst.
    inversion H2 as [|? c' ? cs' [Ha' [Hb' Hc']] H2']; subst.
    constructor; [|exact (IH _ _ H1' H2')].
    split; [|split]; congruence.
Qed.

Lemma recorded_places found : forall chunks,
  Forall placed found -> Forall2 recorded found chunks ->
  places found = omap chunk_place chunks
  /\ Forall (fun self => is_Some (chunk_place self)) chunks.
Proof.
  induction found as [|tp found IH]; intros chunks Hp Hr.
  - inversion Hr; subst. split; [reflexivity|constructor].
  - inversion Hr as [|? self ? chunks' [Ha [Hb Hc]] Hr']; subst.
    inversion Hp as [|? ? Hp1 Hp2]; subst.
    destruct (IH _ Hp2 Hr') as [IH1 IH2].
    assert (tuple_place tp = chunk_place self) as Heq.
    { unfold tuple_place, chunk_place. rewrite Ha, Hb, Hc.
      destruct (parent_node_list self); reflexivity. }
    unfold placed in Hp1. rewrite Ha, Heq in Hp1.
    split; [|constructor; assumption].
    unfold places in *. cbn [omap list_omap]. rewrite Heq, IH1. reflexivity.
Qed.

Lemma places_sublist found tuples :
  found `sublist_of` tuples -> places found `sublist_of` places tuples.
Proof.
  unfold places. induction 1 as [|tp l1 l2 Hs IH|tp l1 l2 Hs IH]; cbn [omap list_omap].
  - constructor.
  - destruct (tuple_place tp); [apply sublist_skip|]; exact IH.
  - destruct (tuple_place tp); [apply sublist_cons|]; exact IH.
Qed.

(** Chunks that recorded places of a good walk, spliced in reverse. *)
Lemma recorded_place_kept st ids tuples found chunks before self after st_splice h st' updated :
  good st ids tuples ->
  found `sublist_of` tuples ->
  Forall2 recorded found chunks ->
  store_ok st_splice ->
  (forall l, l ∈ ids -> lists st_splice !! l = lists st !! l) ->
  chunks = before ++ self :: after ->
  update_each layout_output splitlines_lf rich_text_default_display mime_map h
    (rev after) st_splice = Ok (st', updated) ->
  exists l xs,
    parent_node_list self = VList l
    /\ lists st' !! l = Some xs
    /\ xs !! parent_node_list_index self = Some (VDict (node self)).
Proof.
  intros [Hord [Hpl Hin]] Hsub Hrec Hok Hagree Hcs Hup.
  assert (Forall placed found) as Hpf.
  { rewrite Forall_forall in Hpl. apply Forall_forall. intros tp Htp.
    apply Hpl. exact (elem_of_sublist _ _ _ Htp Hsub). }
  destruct (recorded_places _ _ Hpf Hrec) as [Hpe Hsome].
  pose proof (places_sublist _ _ Hsub) as Hps. rewrite Hpe in Hps.
  pose proof (ordered_sublist _ _ Hps Hord) as Hoc.
  subst chunks. rewrite omap_app in Hoc, Hps. apply ordered_app in Hoc as [_ [Hoc _]].
  apply Forall_app in Hsome as [_ Hsome]. inversion Hsome as [|? ? [p Hp] _]; subst.
  cbn [omap list_omap] in Hoc, Hps. rewrite Hp in Hoc, Hps. destruct Hoc as [Hlater _].
  assert (p ∈ places tuples) as Hpt.
  { apply (elem_of_sublist _ _ _ ltac:(apply elem_of_app; right; left) Hps). }
  destruct (Hin p Hpt) as [[xs [Hxs Hnode]] Hid].
  unfold chunk_place in Hp. destruct (parent_node_list self) as [a|l|l] eqn:Hpl'; try discriminate.
  inversion Hp. subst p. cbn in Hxs, Hnode, Hid, Hlater.
  rewrite <- (Hagree _ Hid) in Hxs.
  destruct (update_each_keeps _ _ _ _ _ _ _ _ _ Hup Hok) as [_ Hkeep].
  destruct (Hkeep l _ xs _ Hxs Hnode) as [xs' [Hxs' Hnode']].
  - intros c Hc Hcl. apply (proj1 (elem_of_rev c after)) in Hc.
    apply (Hlater (l, parent_node_list_index c, node c)); [|reflexivity].
    apply list_elem_of_omap. exists c. split; [exact Hc|].
    unfold chunk_place. rewrite Hcl. reflexivity.
  - exists l, xs'. split; [reflexivity|]. split; assumption.
Qed.

(** The pass of [_postprocess_code_chunks] seen from one chunk: the chunks
    found after it are spliced first, the last one first; then the chunk
    itself, in the store that they leave; then the chunks found before
    it.  The converter that comes back has the store of the last splice
    and the chunks in their order. *)
Definition spliced_in_reverse (self0 self' : converter)
    (before : list PandocCodeChunk) (code_chunk : PandocCodeChunk)
    (after : list PandocCodeChunk) (st_chunk : store) : Prop :=
  exists updated_after st_next code_chunk' updated_before,
    update_each layout_output splitlines_lf rich_text_default_display mime_map
      (show_tables self0) (rev after) (ast_objects self0) = Ok (st_chunk, updated_after)
    /\ update_parent_node layout_output splitlines_lf rich_text_default_display mime_map
         (show_tables self0) code_chunk st_chunk = Ok (st_next, code_chunk')
    /\ update_each layout_output splitlines_lf rich_text_default_display mime_map
         (show_tables self0) (rev before) st_next = Ok (ast_objects self', updated_before)
    /\ code_chunks self' = rev updated_before ++ code_chunk' :: rev updated_after.

Lemma postprocess_at_chunk (self0 self' : converter) before code_chunk after :
  code_chunks self0 = before ++ code_chunk :: after ->
  _postprocess_code_chunks layout_output splitlines_lf rich_text_default_display mime_map self0
  = Ok self' ->
  exists st_chunk, spliced_in_reverse self0 self' before code_chunk after st_chunk.
Proof.
  intros Hcs. unfold _postprocess_code_chunks. rewrite Hcs.
  rewrite rev_app_distr. cbn [rev]. rewrite <- app_assoc. cbn [app].
  rewrite update_each_app.
  destruct (update_each _ _ _ _ (show_tables self0) (rev after) (ast_objects self0))
    as [[st_chunk updated_after]|e] eqn:Hafter; bind_step; [|discriminate].
  cbn [update_each].
  destruct (update_parent_node _ _ _ _ (show_tables self0) code_chunk st_chunk)
    as [[st_next code_chunk']|e] eqn:Hchunk; bind_step; [|discriminate].
  destruct (update_each _ _ _ _ (show_tables self0) (rev before) st_next)
    as [[st_last updated_before]|e] eqn:Hbefore; bind_step; [|discriminate].
  intros H. inversion H. subst self'. cbn [ast_objects code_chunks].
  exists st_chunk, updated_after, st_next, code_chunk', updated_before.
  split; [exact Hafter|]. split; [exact Hchunk|]. split; [exact Hbefore|].
  rewrite rev_app_distr. cbn [rev]. rewrite <- app_assoc. reflexivity.
Qed.

(** C2: the tuples of a walk over a tree, the chunks made from them in
    that order, and [_postprocess_code_chunks] on a converter that has
    these chunks, each with any number of output nodes.  For every chunk
    [self] the pass is the splices of the chunks found after it, last one
    first, then the splice of [self], then those of the chunks found
    before it; and in the store that [self] is spliced in, its recorded
    list still has its node at its recorded index. *)
Theorem reverse_splice_keeps_recorded_slot
    (st : store) (depth : nat) (doc : obj) (root : positive)
    (type_filter : option (list string)) (skip_note_contents : bool)
    (tuples : list node_tuple) (h0 h1 : heap)
    (made before after : list PandocCodeChunk) (ids : list positive)
    (self : PandocCodeChunk) (conv conv' : converter) :
  holds st doc ->
  NoDup (list_ids doc) ->
  val_of doc = VDict root ->
  _walk_ast st depth root type_filter skip_note_contents = Ok tuples ->
  make_chunks commands include_keywords super_init st tuples h0 = Ok (made, ids, h1) ->
  Forall2 same_slot made (code_chunks conv) ->
  store_ok (ast_objects conv) ->
  (forall l, l ∈ list_ids doc -> lists (ast_objects conv) !! l = lists st !! l) ->
  code_chunks conv = before ++ self :: after ->
  _postprocess_code_chunks layout_output splitlines_lf rich_text_default_display mime_map conv
  = Ok conv' ->
  exists st_self l xs,
    spliced_in_reverse conv conv' before self after st_self
    /\ parent_node_list self = VList l
    /\ lists st_self !! l = Some xs
    /\ xs !! parent_node_list_index self = Some (VDict (node self)).
Proof.
  intros Hh Hnd Hroot Hw Hm Hsame Hok Hagree Hcs Hpost.
  destruct (postprocess_at_chunk _ _ _ _ _ Hcs Hpost) as [st_self Hpass].
  exists st_self.
  destruct doc as [a|id items|id fields]; try discriminate.
  cbn in Hroot. inversion Hroot. subst id.
  pose proof (walk_ast_good _ _ _ _ _ _ _ Hh Hnd Hw) as Hgood.
  destruct (make_chunks_recorded _ _ _ _ _ _ Hm) as [found [Hsub Hrec]].
  pose proof (recorded_same _ _ _ Hrec Hsame) as Hrec'.
  destruct Hpass as (updated_after & st_next & self' & updated_before & Hup & Hrest).
  destruct (recorded_place_kept _ _ _ _ _ _ _ _ _ _ _ _ Hgood Hsub Hrec' Hok Hagree Hcs Hup)
    as [l [xs Hslot]].
  exists l, xs. split; [|exact Hslot].
  exists updated_after, st_next, self', updated_before. split; [exact Hup|exact Hrest].
Qed.

End IndexStability.

(** ** Four blocks in one list *)

Section FourBlocks.
Import Base Pandoc Tree.

(** Four code blocks: the first shows its code; the second shows only its
    stdout and has none, so it leaves no node; the third asks for an
    example, an option that the constructor of base.py does not know, and
    the fourth has a label twice, so both have a source error. *)
Definition four_blocks_doc : json :=
  JDict [("pandoc-api-version", JList [JAtom (SInt 1); JAtom (SInt 17)]);
         ("meta", JDict []);
         ("blocks", JList [code_block ["cb.code"] [] "x";
                           code_block ["cb.run"] [("show", "stdout")] "y";
                           code_block ["cb.code"] [("example", "true")] "z";
                           code_block ["cb.run"] [("label", "a"); ("label", "b")] "w"])].

Definition four_blocks_store : store := (alloc_json four_blocks_doc empty_store).2.

Definition four_blocks_picture : obj := (picture four_blocks_doc 1).1.

Definition four_blocks_tuples : list node_tuple :=
  [mkTuple (Loaded 7) (Loaded 28) (VList 27) 0 false;
   mkTuple (Loaded 13) (Loaded 28) (VList 27) 1 false;
   mkTuple (Loaded 19) (Loaded 28) (VList 27) 2 false;
   mkTuple (Loaded 26) (Loaded 28) (VList 27) 3 false].

Lemma four_blocks_walk :
  _walk_ast four_blocks_store 100 28 (Some pandoc_code_raw_nodes) false = Ok four_blocks_tuples.
Proof. vm_compute. reflexivity. Qed.

Lemma four_blocks_holds : holds four_blocks_store four_blocks_picture.
Proof. vm_compute. repeat split. Qed.

Lemma four_blocks_tree : NoDup (list_ids four_blocks_picture).
Proof. apply (bool_decide_unpack _). vm_compute. reflexivity. Qed.

Lemma four_blocks_store_ok : store_ok four_blocks_store.
Proof. apply (bool_decide_unpack _). vm_compute. reflexivity. Qed.

Lemma same_slot_all chunks : Forall2 same_slot chunks chunks.
Proof. induction chunks; constructor; [split; [|split]; reflexivity|assumption]. Qed.

Lemma four_blocks_root : val_of four_blocks_picture = VDict 28.
Proof. vm_compute. reflexivity. Qed.

Definition returned {A} (r : result A) : bool :=
  match r with Ok _ => true | Raise _ => false end.

Lemma returned_ok {A} (r : result A) : returned r = true -> exists a, r = Ok a.
Proof. destruct r as [a|e]; [exists a; reflexivity|discriminate]. Qed.

Lemma length_succ_cons {A} (l : list A) (n : nat) :
  length l = S n -> exists x l', l = x :: l'.
Proof. destruct l as [|x l']; [discriminate|]. exists x, l'. reflexivity. Qed.

(** For the examples, a chunk as the code processor, which is not under
    src/, leaves it when nothing was put out: the result attributes are
    assigned and empty, and the options [example] and [code_line_numbers],
    which this file reads and a newer base class sets, are there and off.
    The node, the list and the index stay. *)
Definition with_empty_results (self : PandocCodeChunk) : PandocCodeChunk :=
  {| chunk :=
       set_errors_options (source_errors (chunk self))
         (<["example" := Val (PBool false)]>
            (<["code_line_numbers" := Val (PBool false)]> (options (chunk self))))
         (chunk self);
     node := node self; parent_node := parent_node self;
     parent_node_list := parent_node_list self;
     parent_node_list_index := parent_node_list_index self;
     node_id := node_id self; node_classes := node_classes self;
     node_kvpairs := node_kvpairs self; pandoc_id := pandoc_id self;
     pandoc_classes := pandoc_classes self; pandoc_kvpairs := pandoc_kvpairs self;
     Pandoc._output_nodes := Pandoc._output_nodes self;
     runtime_source_error := Assigned false;
     code_start_line_number := code_start_line_number self;
     repl_lines := Assigned None; expr_lines := Assigned None;
     stdout_lines := Assigned None; stderr_lines := Assigned None;
     rich_output := Assigned None |}.

Lemma with_empty_results_same_slot chunks :
  Forall2 same_slot chunks (map with_empty_results chunks).
Proof.
  induction chunks; constructor; [split; [|split]; reflexivity|assumption].
Qed.

(** A converter of one source when its chunks have been run. *)
Definition run_converter (st : store) (ast : positive) (chunks : list PandocCodeChunk)
    (h : heap) : converter :=
  {| code_chunks := map with_empty_results chunks; asts := [(Some "doc.md", ast)];
     ast_objects := st; show_tables := h |}.

Lemma run_converter_store st ast chunks h : ast_objects (run_converter st ast chunks h) = st.
Proof. reflexivity. Qed.

Lemma run_converter_tables st ast chunks h : show_tables (run_converter st ast chunks h) = h.
Proof. reflexivity. Qed.

Lemma run_converter_chunks st ast chunks h :
  code_chunks (run_converter st ast chunks h) = map with_empty_results chunks.
Proof. reflexivity. Qed.

(** The number of chunks made. *)
Definition chunk_count (made : result (list PandocCodeChunk * list positive * heap)) : nat :=
  match made with Ok (chunks, _, _) => length chunks | Raise _ => 0%nat end.

Definition postprocess_made (made : result (list PandocCodeChunk * list positive * heap))
    : result converter :=
  match made with
  | Ok (chunks, _, h) =>
      _postprocess_code_chunks (fun _ output _ _ => output) (fun s => [s]) [] []
        (run_converter four_blocks_store 28 chunks h)
  | Raise e => Raise e
  end.

(** The pass in reverse over the chunks made, the first left out. *)
Definition splice_after_first (made : result (list PandocCodeChunk * list positive * heap))
    : result (store * list PandocCodeChunk) :=
  match made with
  | Ok (chunks, _, h) =>
      update_each (fun _ output _ _ => output) (fun s => [s]) [] [] h
        (rev (map with_empty_results (tl chunks))) four_blocks_store
  | Raise e => Raise e
  end.

(** The length of a list of the store that a pass leaves. *)
Definition spliced_length (l : positive) (r : result (store * list PandocCodeChunk))
    : option nat :=
  match r with Ok (st, _) => length <$> lists st !! l | Raise _ => None end.

(** C2 at the four blocks, with the chunks that the constructors of
    [pandoc.py] and [base.py] make: [_postprocess_code_chunks] returns;
    seen from the first chunk it goes over the fourth, third and second
    chunk, which leave one node, one node and none, so that the list of
    blocks has three items, and the first chunk still has its node at its
    index in its list when its turn comes. *)
Lemma reverse_splice_keeps_recorded_slot_witness :
  exists made ids h1 first rest conv',
    make_chunks ["code"; "run"] [] CodeChunk_init four_blocks_store
      four_blocks_tuples module_heap = Ok (made, ids, h1)
    /\ made = first :: rest
    /\ length made = 4%nat
    /\ _postprocess_code_chunks (fun _ output _ _ => output) (fun s => [s]) [] []
         (run_converter four_blocks_store 28 made h1) = Ok conv'
    /\ exists st_self l xs,
         spliced_in_reverse (fun _ output _ _ => output) (fun s => [s]) [] []
           (run_converter four_blocks_store 28 made h1) conv' [] (with_empty_results first)
           (map with_empty_results rest) st_self
         /\ parent_node_list (with_empty_results first) = VList l
         /\ lists st_self !! l = Some xs
         /\ xs !! parent_node_list_index (with_empty_results first)
            = Some (VDict (node (with_empty_results first)))
         /\ (length <$> lists st_self !! 27%positive) = Some 3%nat.
Proof.
  assert (returned (make_chunks ["code"; "run"] [] CodeChunk_init
                      four_blocks_store four_blocks_tuples module_heap) = true) as H0
    by (vm_compute; reflexivity).
  assert (chunk_count (make_chunks ["code"; "run"] [] CodeChunk_init
                         four_blocks_store four_blocks_tuples module_heap) = 4%nat) as H1
    by (vm_compute; reflexivity).
  assert (returned (postprocess_made
                      (make_chunks ["code"; "run"] [] CodeChunk_init
                         four_blocks_store four_blocks_tuples module_heap)) = true) as H2
    by (vm_compute; reflexivity).
  assert (spliced_length 27
            (splice_after_first
               (make_chunks ["code"; "run"] [] CodeChunk_init
                  four_blocks_store four_blocks_tuples module_heap)) = Some 3%nat) as H3
    by (vm_compute; reflexivity).
  destruct (returned_ok _ H0) as [[[made ids] h1] Hm].
  rewrite Hm in H1, H2, H3.
  cbv beta iota delta [chunk_count postprocess_made splice_after_first] in H1, H2, H3.
  destruct (length_succ_cons _ _ H1) as [first [rest Hc]].
  destruct (returned_ok _ H2) as [conv' Hpost].
  exists made, ids, h1, first, rest, conv'.
  split; [exact Hm|]. split; [exact Hc|]. split; [exact H1|]. split; [exact Hpost|].
  rewrite Hc in H3. cbv beta iota delta [tl] in H3.
  assert (code_chunks (run_converter four_blocks_store 28 made h1)
          = [] ++ with_empty_results first :: map with_empty_results rest) as Hcs
    by (rewrite run_converter_chunks, Hc; reflexivity).
  assert (store_ok (ast_objects (run_converter four_blocks_store 28 made h1))) as Hok
    by (rewrite run_converter_store; exact four_blocks_store_ok).
  assert (forall l, l ∈ list_ids four_blocks_picture ->
                    lists (ast_objects (run_converter four_blocks_store 28 made h1)) !! l
                    = lists four_blocks_store !! l) as Hagree
    by (intros l _; rewrite run_converter_store; reflexivity).
  destruct (reverse_splice_keeps_recorded_slot ["code"; "run"] [] CodeChunk_init
              (fun _ output _ _ => output) (fun s => [s]) [] []
              four_blocks_store 100 four_blocks_picture 28 (Some pandoc_code_raw_nodes) false
              four_blocks_tuples module_heap h1 made []
              (map with_empty_results rest) ids (with_empty_results first)
              (run_converter four_blocks_store 28 made h1) conv'
              four_blocks_holds four_blocks_tree four_blocks_root four_blocks_walk Hm
              (with_empty_results_same_slot made) Hok Hagree Hcs Hpost)
    as (st_self & l & xs & Hpass & Hl & Hxs & Hnode).
  exists st_self, l, xs.
  split; [exact Hpass|]. split; [exact Hl|]. split; [exact Hxs|]. split; [exact Hnode|].
  destruct Hpass as (updated_after & st_next & first' & updated_before & Hup & _).
  rewrite run_converter_store, run_converter_tables in Hup.
  rewrite Hup in H3. exact H3.
Defined.

End FourBlocks.

(** ** What every yielded tuple has *)

Section WalkAll.
Import Base Pandoc.

Variable st : store.
Variable tf : option (list string).
Variable skip : bool.

(** [Inv] is kept by the local [in_note] of every call, [P] holds of every
    tuple that is yielded under it. *)
Variable Inv : bool -> Prop.
Variable P : node_tuple -> Prop.

Hypothesis Inv_note : skip = false -> Inv true.
Hypothesis P_node : forall l parent node_list index in_note fields node_type,
  Inv in_note -> dicts st !! l = Some fields -> od_get "t" fields = Some node_type ->
  passes_filter tf node_type = Ok true ->
  P (mkTuple (Loaded l) parent node_list index in_note).
Hypothesis P_pseudo : forall owner k term elem in_note,
  Inv in_note -> (forall names, tf = Some names -> mem "Plain" names = true) ->
  P (mkTuple (Pseudonode owner k term) (Loaded owner) elem 0 in_note).

Section Step.

Variable rec : walker.
Hypothesis rec_all : forall v parent in_note ts,
  Inv in_note -> rec v parent tf skip in_note = Ok ts -> Forall P ts.

Lemma walk_definitions_all owner in_note elems : forall k ts,
  Inv in_note ->
  walk_definitions st rec owner tf skip in_note k elems = Ok ts -> Forall P ts.
Proof.
  induction elems as [|elem elems IH]; intros k ts HI; cbn [walk_definitions].
  - intros H. inversion H. constructor.
  - destruct (unpack_pair st elem) as [[term def]|e]; bind_step; [|discriminate].
    destruct (rec term _ tf skip in_note) as [tms|e] eqn:Ht; bind_step; [|discriminate].
    destruct (rec def _ tf skip in_note) as [ds|e] eqn:Hd; bind_step; [|discriminate].
    destruct (walk_definitions st rec owner tf skip in_note (S k) elems) as [rest|e] eqn:Hr;
      bind_step; [|discriminate].
    intros H. inversion H. subst ts.
    apply Forall_app. split.
    + destruct tf as [names|] eqn:Htf.
      * destruct (mem "Plain" names) eqn:Hm; [|constructor].
        constructor; [|constructor]. apply P_pseudo; [exact HI|].
        intros names' Hn. inversion Hn. subst. exact Hm.
      * constructor; [|constructor]. apply P_pseudo; [exact HI|]. intros names' Hn. discriminate.
    + apply Forall_app. split; [exact (rec_all _ _ _ _ HI Ht)|].
      apply Forall_app. split; [exact (rec_all _ _ _ _ HI Hd)|exact (IH _ _ HI Hr)].
Qed.

Lemma walk_item_all node_list parent index in_note o ys in_note' :
  Inv in_note ->
  walk_item st rec node_list parent tf skip index in_note o = Ok (ys, in_note') ->
  Forall P ys /\ Inv in_note'.
Proof.
  intros HI. destruct o as [a|l|l]; cbn [walk_item].
  - intros H. inversion H. subst. split; [constructor|exact HI].
  - destruct (rec (VList l) parent tf skip in_note) as [sub|e] eqn:Hr; bind_step; [|discriminate].
    intros H. inversion H. subst. split; [exact (rec_all _ _ _ _ HI Hr)|exact HI].
  - unfold get_dict. destruct (dicts st !! l) as [fields|] eqn:Hd; bind_step; [|discriminate].
    destruct (od_get "t" fields) as [node_type|] eqn:Ht;
      [|intros H; inversion H; subst; split; [constructor|exact HI]].
    destruct (passes_filter tf node_type) as [pass|e] eqn:Hp; bind_step; [|discriminate].
    assert (Forall P (if pass then [mkTuple (Loaded l) parent node_list index in_note] else []))
      as Hown.
    { destruct pass; [|constructor]. constructor; [|constructor].
      exact (P_node _ _ _ _ _ _ _ HI Hd Ht Hp). }
    destruct (od_get "c" fields) as [[a|lc|ld]|];
      try (intros H; inversion H; subst; split; [exact Hown|exact HI]).
    destruct (is_str "Note" node_type).
    + destruct skip eqn:Hs; [intros H; inversion H; subst; split; [exact Hown|exact HI]|].
      destruct (rec (VList lc) _ tf false true) as [sub|e] eqn:Hr; bind_step; [|discriminate].
      intros H. inversion H. subst. split; [|exact (Inv_note eq_refl)].
      apply Forall_app. split; [exact Hown|exact (rec_all _ _ _ _ (Inv_note eq_refl) Hr)].
    + destruct (negb (is_str "DefinitionList" node_type)).
      * destruct (rec (VList lc) _ tf skip in_note) as [sub|e] eqn:Hr; bind_step; [|discriminate].
        intros H. inversion H. subst. split; [|exact HI].
        apply Forall_app. split; [exact Hown|exact (rec_all _ _ _ _ HI Hr)].
      * destruct (get_list st lc) as [contents|e]; bind_step; [|discriminate].
        destruct (walk_definitions st rec l tf skip in_note 0 contents) as [sub|e] eqn:Hr;
          bind_step; [|discriminate].
        intros H. inversion H. subst. split; [|exact HI].
        apply Forall_app. split; [exact Hown|exact (walk_definitions_all _ _ _ _ _ HI Hr)].
Qed.

Lemma walk_items_all node_list parent items : forall index in_note ts,
  Inv in_note ->
  walk_items st rec node_list parent tf skip index in_note items = Ok ts -> Forall P ts.
Proof.
  induction items as [|o items IH]; intros index in_note ts HI; cbn [walk_items].
  - intros H. inversion H. constructor.
  - destruct (walk_item st rec node_list parent tf skip index in_note o)
      as [[ys in_note']|e] eqn:Hi; bind_step; [|discriminate].
    destruct (walk_items st rec node_list parent tf skip (S index) in_note' items)
      as [zs|e] eqn:Hr; bind_step; [|discriminate].
    intros H. inversion H. subst ts.
    destruct (walk_item_all _ _ _ _ _ _ _ HI Hi) as [Hys HI'].
    apply Forall_app. split; [exact Hys|exact (IH _ _ _ HI' Hr)].
Qed.

Lemma walk_body_all v parent in_note ts :
  Inv in_note -> walk_body st rec v parent tf skip in_note = Ok ts -> Forall P ts.
Proof.
  intros HI. destruct v as [a|l|l]; cbn [walk_body].
  - destruct a; intros H; inversion H; constructor.
  - destruct (get_list st l) as [items|e]; bind_step; [|discriminate].
    apply walk_items_all. exact HI.
  - intros H. inversion H. constructor.
Qed.

End Step.

Lemma walk_node_list_all depth : forall v parent in_note ts,
  Inv in_note -> walk_node_list st depth v parent tf skip in_note = Ok ts -> Forall P ts.
Proof.
  induction depth as [|depth IH]; cbn [walk_node_list]; intros v parent in_note ts HI.
  - discriminate.
  - apply walk_body_all; [exact IH|exact HI].
Qed.

End WalkAll.

Section WalkFlags.
Import Base Pandoc.

(** What a filter lets through. *)
Definition filtered (st : store) (names : list string) (tp : node_tuple) : Prop :=
  match nt_node tp with
  | Loaded l =>
      exists fields ty,
        dicts st !! l = Some fields
        /\ od_get "t" fields = Some (VAtom (SStr ty))
        /\ mem ty names = true
  | Pseudonode _ _ _ => mem "Plain" names = true
  end.

(** With a type filter, the walker yields only nodes whose type is a
    [str] of the filter, and the fake [Plain] nodes of a DefinitionList
    only when the filter has [Plain]. *)
Theorem walk_yields_only_filtered (st : store) (depth : nat) (root : positive)
    (names : list string) (skip : bool) (tuples : list node_tuple) :
  _walk_ast st depth root (Some names) skip = Ok tuples ->
  Forall (filtered st names) tuples.
Proof.
  unfold _walk_ast. destruct (get_dict st root) as [d|e]; bind_step; [|discriminate].
  destruct (getkey "blocks" d) as [v|e]; bind_step; [|discriminate].
  apply (walk_node_list_all st (Some names) skip (fun _ => True)); try exact I.
  - intros _. exact I.
  - intros l parent node_list index in_note fields node_type _ Hd Ht Hp.
    unfold filtered. cbn [nt_node]. cbn in Hp.
    destruct node_type as [[| | | |s]|lx|lx]; try discriminate.
    exists fields, s. split; [exact Hd|]. split; [exact Ht|]. inversion Hp. reflexivity.
  - intros owner k term elem in_note _ H. exact (H names eq_refl).
Qed.

Lemma walk_yields_only_filtered_witness :
  Forall (filtered duplicate_label_store pandoc_code_raw_nodes)
    [mkTuple (Loaded 9) (Loaded 11) (VList 10) 0 false].
Proof.
  exact (walk_yields_only_filtered duplicate_label_store 100 11 pandoc_code_raw_nodes false _
           duplicate_label_walk).
Defined.

(** What is yielded by a call with [in_note] true has the flag: so has
    every node inside the contents of a Note, which are walked by such a
    call. *)
Theorem walk_in_note_stays (st : store) (depth : nat) (node_list : val) (parent : node_ref)
    (type_filter : option (list string)) (skip : bool) (tuples : list node_tuple) :
  walk_node_list st depth node_list parent type_filter skip true = Ok tuples ->
  Forall (fun tp => nt_in_note tp = true) tuples.
Proof.
  apply (walk_node_list_all st type_filter skip (fun b => b = true)); try reflexivity.
  - intros l parent' node_list' index in_note fields node_type HI _ _ _. exact HI.
  - intros owner k term elem in_note HI _. exact HI.
Qed.

Lemma note_contents_walk :
  walk_node_list note_then_code_store 100 (VList 6) (Loaded 7) None false true
  = Ok [mkTuple (Loaded 5) (Loaded 7) (VList 6) 0 true;
        mkTuple (Loaded 3) (Loaded 5) (VList 4) 0 true].
Proof. vm_compute. reflexivity. Qed.

Lemma walk_in_note_stays_witness :
  Forall (fun tp => nt_in_note tp = true)
    [mkTuple (Loaded 5) (Loaded 7) (VList 6) 0 true;
     mkTuple (Loaded 3) (Loaded 5) (VList 4) 0 true].
Proof.
  exact (walk_in_note_stays note_then_code_store 100 (VList 6) (Loaded 7) None false _
           note_contents_walk).
Defined.

(** With [skip_note_contents], no tuple of a walk of the AST has the
    flag. *)
Theorem walk_skip_note_contents_unflagged (st : store) (depth : nat) (root : positive)
    (type_filter : option (list string)) (tuples : list node_tuple) :
  _walk_ast st depth root type_filter true = Ok tuples ->
  Forall (fun tp => nt_in_note tp = false) tuples.
Proof.
  unfold _walk_ast. destruct (get_dict st root) as [d|e]; bind_step; [|discriminate].
  destruct (getkey "blocks" d) as [v|e]; bind_step; [|discriminate].
  apply (walk_node_list_all st type_filter true (fun b => b = false)); try reflexivity.
  - discriminate.
  - intros l parent' node_list' index in_note fields node_type HI _ _ _. exact HI.
  - intros owner k term elem in_note HI _. exact HI.
Qed.

Lemma note_skipped_walk :
  _walk_ast note_then_code_store 100 16 None true
  = Ok [mkTuple (Loaded 14) (Loaded 16) (VList 15) 0 false;
        mkTuple (Loaded 7) (Loaded 14) (VList 13) 0 false;
        mkTuple (Loaded 12) (Loaded 14) (VList 13) 1 false].
Proof. vm_compute. reflexivity. Qed.

Lemma walk_skip_note_contents_unflagged_witness :
  Forall (fun tp => nt_in_note tp = false)
    [mkTuple (Loaded 14) (Loaded 16) (VList 15) 0 false;
     mkTuple (Loaded 7) (Loaded 14) (VList 13) 0 false;
     mkTuple (Loaded 12) (Loaded 14) (VList 13) 1 false].
Proof.
  exact (walk_skip_note_contents_unflagged note_then_code_store 100 16 None _
           note_skipped_walk).
Defined.

End WalkFlags.

(** ** Where the walker finds a node *)

Section WalkPlaces.
Import Base Pandoc Tree.

Lemma placed_place tp n :
  placed tp -> nt_node tp = Loaded n ->
  exists l, nt_list tp = VList l /\ tuple_place tp = Some (l, nt_index tp, n).
Proof.
  unfold placed, tuple_place. intros Hp Hn. rewrite Hn in *.
  destruct (nt_list tp) as [a|l|l]; try (destruct Hp; discriminate).
  exists l. split; reflexivity.
Qed.

(** The walk of an AST whose objects form a tree: every node of the AST
    that is yielded is in the yielded list at the yielded index, and two
    nodes yielded with the same list come with the smaller index first. *)
Theorem walk_nodes_in_place_in_order (st : store) (depth : nat) (doc : obj) (root : positive)
    (type_filter : option (list string)) (skip : bool) (tuples : list node_tuple) :
  holds st doc ->
  NoDup (list_ids doc) ->
  val_of doc = VDict root ->
  _walk_ast st depth root type_filter skip = Ok tuples ->
  (forall tp n, tp ∈ tuples -> nt_node tp = Loaded n ->
     exists l xs, nt_list tp = VList l /\ lists st !! l = Some xs
                  /\ xs !! nt_index tp = Some (VDict n))
  /\ (forall before tp1 between tp2 after n1 n2,
        tuples = before ++ tp1 :: between ++ tp2 :: after ->
        nt_node tp1 = Loaded n1 -> nt_node tp2 = Loaded n2 ->
        nt_list tp1 = nt_list tp2 -> (nt_index tp1 < nt_index tp2)%nat).
Proof.
  intros Hh Hnd Hroot Hw.
  destruct doc as [a|id items|id fields]; try discriminate.
  cbn in Hroot. inversion Hroot. subst id.
  destruct (walk_ast_good _ _ _ _ _ _ _ Hh Hnd Hw) as [Hord [Hpl Hin]].
  rewrite Forall_forall in Hpl. split.
  - intros tp n Htp Hn.
    destruct (placed_place tp n (Hpl _ Htp) Hn) as [l [Hl Hp]].
    assert ((l, nt_index tp, n) ∈ places tuples) as Hin'.
    { apply list_elem_of_omap. exists tp. split; assumption. }
    destruct (Hin _ Hin') as [[xs [Hxs Hi]] _].
    exists l, xs. split; [exact Hl|]. split; assumption.
  - intros before tp1 between tp2 after n1 n2 -> Hn1 Hn2 Hsame.
    assert (placed tp1) as Hp1.
    { apply Hpl. apply elem_of_app. right. left. }
    assert (placed tp2) as Hp2.
    { apply Hpl. apply elem_of_app. right. right. apply elem_of_app. right. left. }
    destruct (placed_place _ _ Hp1 Hn1) as [l1 [Hl1 Hq1]].
    destruct (placed_place _ _ Hp2 Hn2) as [l2 [Hl2 Hq2]].
    rewrite places_app in Hord. apply ordered_app in Hord as [_ [Hord _]].
    unfold places in Hord. cbn [omap list_omap] in Hord. rewrite Hq1 in Hord.
    destruct Hord as [Hlt _].
    apply (Hlt (l2, nt_index tp2, n2)).
    + apply (list_elem_of_omap tuple_place). exists tp2. split; [|exact Hq2].
      apply elem_of_app. right. left.
    + cbn. congruence.
Qed.

Lemma walk_nodes_in_place_in_order_witness :
  (forall tp n, tp ∈ four_blocks_tuples -> nt_node tp = Loaded n ->
     exists l xs, nt_list tp = VList l /\ lists four_blocks_store !! l = Some xs
                  /\ xs !! nt_index tp = Some (VDict n))
  /\ (forall before tp1 between tp2 after n1 n2,
        four_blocks_tuples = before ++ tp1 :: between ++ tp2 :: after ->
        nt_node tp1 = Loaded n1 -> nt_node tp2 = Loaded n2 ->
        nt_list tp1 = nt_list tp2 -> (nt_index tp1 < nt_index tp2)%nat).
Proof.
  exact (walk_nodes_in_place_in_order four_blocks_store 100 four_blocks_picture 28
           (Some pandoc_code_raw_nodes) false four_blocks_tuples
           four_blocks_holds four_blocks_tree four_blocks_root four_blocks_walk).
Defined.

End WalkPlaces.

(** ** What one splice puts into the list *)

Section SpliceShape.
Import Base Pandoc Tree.

Variable layout_output : PandocCodeChunk -> string -> string -> option (list string) -> string.
Variable splitlines_lf : string -> list string.
Variable rich_text_default_display : list (string * string).
Variable mime_map : list (string * string).

Lemma store_ok_next_dict st : store_ok st -> dicts st !! next_loc st = None.
Proof.
  intros [_ Hd]. destruct (dicts st !! next_loc st) as [d|] eqn:E; [|reflexivity].
  pose proof (Hd _ _ E) as Hlt. cbn in Hlt. lia.
Qed.

(** A new dict for a node: its location was free and it has the type. *)
Definition new_node_at (st st' : store) (v : val) (n : onode) : Prop :=
  exists loc d,
    v = VDict loc /\ dicts st !! loc = None /\ dicts st' !! loc = Some d
    /\ od_get "t" d = Some (VAtom (SStr (t n))).

Lemma alloc_json_node n st :
  store_ok st ->
  new_node_at st (alloc_json (of_node n) st).2 (alloc_json (of_node n) st).1 n.
Proof.
  intros Hok. unfold of_node, JNode. cbn [alloc_json alloc_fields JStr].
  pose proof (alloc_json_grows (c n) st Hok) as Hg.
  destruct (alloc_json (c n) st) as [vc st1]. cbn [snd] in Hg.
  destruct Hg as [Hok1 [_ Hd1]]. cbn.
  exists (next_loc st1), [("t", VAtom (SStr (t n))); ("c", vc)].
  split; [reflexivity|]. split; [|split].
  - destruct (dicts st !! next_loc st1) as [d|] eqn:E; [|reflexivity].
    specialize (Hd1 _ _ E). rewrite (store_ok_next_dict _ Hok1) in Hd1. discriminate.
  - apply lookup_insert_eq.
  - reflexivity.
Qed.

Lemma alloc_nodes_new nodes : forall st,
  store_ok st ->
  Forall2 (new_node_at st (alloc_nodes nodes st).2) (alloc_nodes nodes st).1 nodes.
Proof.
  induction nodes as [|n nodes IH]; intros st Hok; cbn [alloc_nodes]; [constructor|].
  pose proof (alloc_json_node n st Hok) as Hn.
  pose proof (alloc_json_grows (of_node n) st Hok) as Hg.
  destruct (alloc_json (of_node n) st) as [v st1]. cbn [fst snd] in Hn, Hg.
  destruct Hg as [Hok1 [_ Hd1]].
  pose proof (IH st1 Hok1) as Hrest.
  pose proof (alloc_nodes_grows nodes st1 Hok1) as Hg2.
  destruct (alloc_nodes nodes st1) as [vs st2]. cbn [fst snd] in Hrest, Hg2 |- *.
  destruct Hg2 as [_ [_ Hd2]].
  constructor.
  - destruct Hn as [loc [d [Hv [Hfree [Hd Ht]]]]]. exists loc, d.
    split; [exact Hv|]. split; [exact Hfree|]. split; [exact (Hd2 _ _ Hd)|exact Ht].
  - eapply Forall2_impl; [exact Hrest|].
    intros v' n' [loc [d [Hv [Hfree [Hd Ht]]]]]. exists loc, d.
    split; [exact Hv|]. split; [|split; assumption].
    destruct (dicts st !! loc) as [d0|] eqn:E; [|reflexivity].
    rewrite (Hd1 _ _ E) in Hfree. discriminate.
Qed.

(** The splice of a chunk that is no example: the items of its list
    before its index stay, one new dict for each output node takes the
    place of its slot, whatever is there, the items after the slot follow,
    and no other list changes.  With no output node the slot is gone; with
    an index past the end the new nodes go last. *)
Theorem splice_replaces_slot (h : heap) (self self' : PandocCodeChunk) (st st' : store)
    (example : slot) :
  store_ok st ->
  options (chunk self) !! "example" = Some example ->
  truthy h example = false ->
  update_parent_node layout_output splitlines_lf rich_text_default_display mime_map h self st
  = Ok (st', self') ->
  exists l xs nodes vs,
    parent_node_list self = VList l
    /\ lists st !! l = Some xs
    /\ output_nodes layout_output splitlines_lf rich_text_default_display mime_map h self
       = Ok (nodes, self')
    /\ lists st' !! l
       = Some (take (parent_node_list_index self) xs ++ vs
               ++ drop (S (parent_node_list_index self)) xs)
    /\ Forall2 (new_node_at st st') vs nodes
    /\ (forall l' xs', l' <> l -> lists st !! l' = Some xs' -> lists st' !! l' = Some xs').
Proof.
  intros Hok Hex Hfalse. unfold update_parent_node. rewrite Hex, Hfalse. cbn [negb].
  destruct (output_nodes _ _ _ _ h self) as [[nodes self1]|e]; bind_step; [|discriminate].
  destruct (parent_node_list self) as [a|l|l]; try discriminate.
  unfold get_list. destruct (lists st !! l) as [xs|] eqn:Hl; bind_step; [|discriminate].
  pose proof (alloc_nodes_new nodes st Hok) as Hnew.
  pose proof (alloc_nodes_grows nodes st Hok) as Hg.
  destruct (alloc_nodes nodes st) as [vs st1]. cbn [fst snd] in Hnew, Hg.
  destruct Hg as [_ [Hl1 _]].
  intros H. inversion H. subst. exists l, xs, nodes, vs.
  split; [reflexivity|]. split; [exact Hl|]. split; [reflexivity|]. split; [|split].
  - cbn. apply lookup_insert_eq.
  - eapply Forall2_impl; [exact Hnew|].
    intros v n [loc [d Hd]]. exists loc, d. exact Hd.
  - intros l' xs' Hne Hx. cbn. rewrite lookup_insert_ne by congruence. exact (Hl1 _ _ Hx).
Qed.

(** The property [output_nodes] keeps what it computed: a second read
    gives the same nodes and leaves the chunk as the first read left it, so
    no second [startFrom] pair is appended. *)
Theorem output_nodes_cached (h : heap) (self self' : PandocCodeChunk) (nodes : list onode) :
  output_nodes layout_output splitlines_lf rich_text_default_display mime_map h self
  = Ok (nodes, self') ->
  _output_nodes self' = Some nodes
  /\ output_nodes layout_output splitlines_lf rich_text_default_display mime_map h self'
     = Ok (nodes, self').
Proof.
  intros H.
  assert (_output_nodes self' = Some nodes) as Hc.
  { revert H. unfold output_nodes. destruct (_output_nodes self) as [cached|] eqn:Hcache.
    - intros H. inversion H. subst. exact Hcache.
    - destruct (source_errors (chunk self)).
      2: { destruct (read (runtime_source_error self)) as [runtime|e]; bind_step;
             [|discriminate].
           intros H. inversion H. reflexivity. }
      repeat match goal with
             | |- context [@mbind _ _ _ _ _ ?m] => destruct m; bind_step; [|discriminate]
             end.
      intros H. inversion H. reflexivity. }
  split; [exact Hc|]. unfold output_nodes. rewrite Hc. reflexivity.
Qed.

End SpliceShape.

Section SpliceShapeExample.
Import Base Pandoc Tree.

(** The inline chunk of scenario A after it has run, with the option
    [example] off, code and raw stdout to show and one line of stdout. *)
Definition shown_chunk : PandocCodeChunk :=
  {| chunk := {| source_errors := []; source_warnings := [];
                 command := PStr "run"; code := "x+1";
                 source_name := None; source_start_line_number := None;
                 inline := true;
                 options :=
                   <["example" := Val (PBool false)]>
                     (<["show" := Val (PSub [("code", "verbatim"); ("stdout", "raw")])]>
                        _cb_default_inline_options) |};
     node := 7; parent_node := Loaded 9; parent_node_list := VList 8;
     parent_node_list_index := 0;
     node_id := EmptyString; node_classes := ["cb.run"]; node_kvpairs := [];
     pandoc_id := EmptyString; pandoc_classes := []; pandoc_kvpairs := [];
     Pandoc._output_nodes := None; runtime_source_error := Assigned false;
     code_start_line_number := None; repl_lines := Assigned None;
     expr_lines := Assigned None; stdout_lines := Assigned (Some ["1"]);
     stderr_lines := Assigned None; rich_output := Assigned None |}.

Lemma scenario_a_store_ok : store_ok scenario_a_store.
Proof. apply (bool_decide_unpack _). vm_compute. reflexivity. Qed.

Lemma shown_chunk_spliced :
  returned (update_parent_node (fun _ output _ _ => output) (fun s => [s]) [] [] module_heap
              shown_chunk scenario_a_store) = true.
Proof. vm_compute. reflexivity. Qed.

Lemma shown_chunk_output :
  returned (output_nodes (fun _ output _ _ => output) (fun s => [s]) [] [] module_heap
              shown_chunk) = true.
Proof. vm_compute. reflexivity. Qed.

Lemma splice_replaces_slot_witness :
  exists st' self' l xs nodes vs,
    update_parent_node (fun _ output _ _ => output) (fun s => [s]) [] [] module_heap
      shown_chunk scenario_a_store = Ok (st', self')
    /\ parent_node_list shown_chunk = VList l
    /\ lists scenario_a_store !! l = Some xs
    /\ output_nodes (fun _ output _ _ => output) (fun s => [s]) [] [] module_heap shown_chunk
       = Ok (nodes, self')
    /\ lists st' !! l
       = Some (take (parent_node_list_index shown_chunk) xs ++ vs
               ++ drop (S (parent_node_list_index shown_chunk)) xs)
    /\ Forall2 (new_node_at scenario_a_store st') vs nodes
    /\ (forall l' xs', l' <> l -> lists scenario_a_store !! l' = Some xs' ->
                       lists st' !! l' = Some xs').
Proof.
  destruct (returned_ok _ shown_chunk_spliced) as [[st' self'] Hu].
  exists st', self'.
  destruct (splice_replaces_slot (fun _ output _ _ => output) (fun s => [s]) [] []
              module_heap shown_chunk self' scenario_a_store st' (Val (PBool false))
              scenario_a_store_ok eq_refl eq_refl Hu) as [l [xs [nodes [vs H]]]].
  exists l, xs, nodes, vs. split; [exact Hu|exact H].
Defined.

Lemma output_nodes_cached_witness :
  exists nodes self',
    output_nodes (fun _ output _ _ => output) (fun s => [s]) [] [] module_heap shown_chunk
    = Ok (nodes, self')
    /\ Pandoc._output_nodes self' = Some nodes
    /\ output_nodes (fun _ output _ _ => output) (fun s => [s]) [] [] module_heap self'
       = Ok (nodes, self').
Proof.
  destruct (returned_ok _ shown_chunk_output) as [[nodes self'] Ho].
  exists nodes, self'. split; [exact Ho|].
  exact (output_nodes_cached (fun _ output _ _ => output) (fun s => [s]) [] []
           module_heap shown_chunk self' nodes Ho).
Defined.

End SpliceShapeExample.

(** ** What the matcher leaves as it was *)

Section MatcherKeeps.
Import Base Pandoc Tree.

Variable commands : list string.

(** A chunk after the matcher: as before, or with a source name and a
    start line. *)
Definition at_most_located (self self' : PandocCodeChunk) : Prop :=
  self' = self \/ exists name line, self' = locate name line self.

Lemma located_at_most entries self self' :
  located_from entries self self' -> at_most_located self self'.
Proof. intros [src [_ [_ [_ [_ H]]]]]. right. exists src.1, (occ_line src.2). exact H. Qed.

Lemma at_most_located_same_slot self self' : at_most_located self self' -> same_slot self self'.
Proof.
  intros [->|[name [line ->]]]; (split; [|split]); reflexivity.
Qed.

Lemma Forall2_same {A} (R : A -> A -> Prop) (l : list A) :
  (forall x, R x x) -> Forall2 R l l.
Proof. intros H. induction l; constructor; auto. Qed.

Lemma match_sources_at_most (single_source : bool) (entries : list source_cb)
    (source_names_stack : list string) (code_chunks : list PandocCodeChunk)
    (codebraid_node_set : list positive) (code_raw_node_tuples : list node_tuple)
    (st st' : store) (chunks' : list PandocCodeChunk) :
  match_sources commands single_source entries source_names_stack code_chunks
    codebraid_node_set code_raw_node_tuples st = Ok (chunks', st') ->
  Forall2 at_most_located code_chunks chunks'.
Proof.
  unfold match_sources. intros H.
  destruct (Nat.eqb_spec (length entries) (length code_chunks)) as [Heq|Hne].
  - destruct (match_equal code_chunks entries) as [[chunks stack]|] eqn:E; cbn in H;
      [|discriminate].
    destruct (freeze_raw_nodes _ _ _) as [st1|]; cbn in H; [|discriminate].
    inversion H; subst.
    pose proof (match_equal_located entries _ _ _ _ (reflexivity _) E) as Hl.
    eapply Forall2_impl; [exact Hl|]. intros self self'. apply located_at_most.
  - destruct (match_nodes _ _ _ _ _) as [m|] eqn:E; cbn in H; [|discriminate].
    inversion H; subst.
    assert (match_inv entries code_chunks (mkMstate entries source_names_stack code_chunks [] st))
      as Hinv.
    { split; [reflexivity|]. split; [constructor|reflexivity]. }
    destruct (match_nodes_inv _ _ _ _ _ _ _ _ Hinv E) as (_ & Hloc & Hit).
    rewrite <- (take_drop (length (located m)) code_chunks) at 1.
    apply Forall2_app.
    + eapply Forall2_impl; [exact Hloc|]. intros self self'. apply located_at_most.
    + rewrite Hit. apply Forall2_same. intros x. left. reflexivity.
Qed.


(** The matcher gives back as many chunks as it got, in the same order,
    and changes nothing of a chunk but its source name and its start line:
    the code, the options, the messages and the recorded place stay. *)
Theorem matcher_only_locates (single_source : bool) (entries : list source_cb)
    (source_names_stack : list string) (code_chunks : list PandocCodeChunk)
    (codebraid_node_set : list positive) (code_raw_node_tuples : list node_tuple)
    (st st' : store) (chunks' : list PandocCodeChunk) :
  match_sources commands single_source entries source_names_stack code_chunks
    codebraid_node_set code_raw_node_tuples st = Ok (chunks', st') ->
  Forall2 at_most_located code_chunks chunks'.
Proof. apply match_sources_at_most. Qed.

(** From a store in order to a store in order with every list as it was
    and with every dict still a dict, the dicts outside [touched] as they
    were. *)
Definition writes_dicts (touched : positive -> Prop) (st st' : store) : Prop :=
  store_ok st ->
  store_ok st'
  /\ (forall l xs, lists st !! l = Some xs -> lists st' !! l = Some xs)
  /\ (forall l d, dicts st !! l = Some d -> ~ touched l -> dicts st' !! l = Some d)
  /\ (forall l, is_Some (dicts st !! l) -> is_Some (dicts st' !! l)).

Lemma writes_dicts_refl touched st : writes_dicts touched st st.
Proof. intros H. split; [exact H|]. split; [auto|]. split; auto. Qed.

Lemma writes_dicts_trans touched st1 st2 st3 :
  writes_dicts touched st1 st2 -> writes_dicts touched st2 st3 -> writes_dicts touched st1 st3.
Proof.
  intros H12 H23 H1. destruct (H12 H1) as [H2 [Hl2 [Hd2 Hs2]]].
  destruct (H23 H2) as [H3 [Hl3 [Hd3 Hs3]]].
  split; [exact H3|]. split; [auto|]. split; auto.
Qed.

Lemma writes_dicts_mono (touched touched' : positive -> Prop) st st' :
  (forall l, touched l -> touched' l) -> writes_dicts touched st st' ->
  writes_dicts touched' st st'.
Proof.
  intros Hsub H Hok. destruct (H Hok) as [H1 [H2 [H3 H4]]].
  split; [exact H1|]. split; [exact H2|]. split; [|exact H4].
  intros l d Hd Hn. apply H3; [exact Hd|]. intros Ht. apply Hn, Hsub, Ht.
Qed.

Lemma grows_writes touched st st' : grows st st' -> writes_dicts touched st st'.
Proof.
  intros Hg Hok. destruct (Hg Hok) as [H1 [H2 H3]].
  split; [exact H1|]. split; [exact H2|]. split.
  - intros l d Hd _. exact (H3 _ _ Hd).
  - intros l [d Hd]. exists d. exact (H3 _ _ Hd).
Qed.

Lemma set_dict_writes l d' st :
  is_Some (dicts st !! l) -> writes_dicts (eq l) st (set_dict l d' st).
Proof.
  intros [d Hd] Hok. split; [exact (set_dict_ok _ _ _ _ Hok Hd)|]. split; [auto|]. split.
  - intros l0 d0 Hd0 Hne. cbn. rewrite lookup_insert_ne by exact Hne. exact Hd0.
  - intros l0 Hs. cbn. destruct (decide (l = l0)) as [->|Hne].
    + rewrite lookup_insert_eq. eexists. reflexivity.
    + rewrite lookup_insert_ne by exact Hne. exact Hs.
Qed.

Lemma freeze_writes node st st' :
  _freeze_raw_node node st = Ok st' -> writes_dicts (eq node) st st'.
Proof.
  unfold _freeze_raw_node, get_dict.
  destruct (dicts st !! node) as [d|] eqn:Hd; bind_step; [|discriminate].
  destruct (getkey "t" d) as [ty|e]; bind_step; [|discriminate].
  destruct (translate _ ty) as [ty'|e]; bind_step; [|discriminate].
  destruct (getkey "c" _) as [contents|e]; bind_step; [|discriminate].
  destruct (unpack_pair st contents) as [[raw_format raw_content]|e]; bind_step;
    [|discriminate].
  do 5 (match goal with
        | |- context [new_list ?xs ?s] =>
            let G := fresh "G" in
            pose proof (new_list_grows xs s) as G;
            destruct (new_list xs s) as [? ?]; cbn [snd] in G
        end).
  intros H. inversion H. subst st'. clear H. intros Hok.
  match goal with
  | |- context [set_dict node _ ?s5] =>
      assert (grows st s5) as Gall
        by (repeat (eapply grows_trans; [eassumption|]); apply grows_refl)
  end.
  destruct (Gall Hok) as [_ [_ Hd5]].
  exact (writes_dicts_trans _ _ _ _ (grows_writes _ _ _ Gall)
           (set_dict_writes _ _ _ (ex_intro _ d (Hd5 _ _ Hd))) Hok).
Qed.

Lemma make_null_writes r st st' :
  make_null r st = Ok st' -> writes_dicts (fun l => r = Loaded l) st st'.
Proof.
  destruct r as [l|owner k term]; cbn [make_null].
  - unfold get_dict. destruct (dicts st !! l) as [d|] eqn:Hd; bind_step; [|discriminate].
    intros H. inversion H. subst.
    apply (writes_dicts_mono (eq l)); [intros l0 ->; reflexivity|].
    apply set_dict_writes. exists d. exact Hd.
  - intros H. inversion H. subst. apply writes_dicts_refl.
Qed.

Lemma freeze_ref_writes r st st' :
  freeze_ref r st = Ok st' -> writes_dicts (fun l => r = Loaded l) st st'.
Proof.
  destruct r as [l|owner k term]; cbn [freeze_ref]; [|discriminate].
  intros H. apply (writes_dicts_mono (eq l)); [intros l0 ->; reflexivity|].
  exact (freeze_writes _ _ _ H).
Qed.

(** The nodes of the given tuples. *)
Definition yielded (tuples : list node_tuple) (l : positive) : Prop :=
  exists tp, tp ∈ tuples /\ nt_node tp = Loaded l.

Lemma yielded_here tp tuples l : nt_node tp = Loaded l -> yielded (tp :: tuples) l.
Proof. intros H. exists tp. split; [left|exact H]. Qed.

Lemma yielded_later tp tuples l : yielded tuples l -> yielded (tp :: tuples) l.
Proof. intros [tp' [Hin H]]. exists tp'. split; [right; exact Hin|exact H]. Qed.

Lemma freeze_raw_nodes_writes single tuples : forall st st',
  freeze_raw_nodes single tuples st = Ok st' -> writes_dicts (yielded tuples) st st'.
Proof.
  induction tuples as [|tp tuples IH]; intros st st'; cbn [freeze_raw_nodes].
  - intros H. inversion H. apply writes_dicts_refl.
  - destruct (tuple_type st (nt_node tp)) as [ty|e]; bind_step; [|discriminate].
    destruct (startswith "Raw" ty).
    + destruct (if single then _ else _) as [eof|e]; bind_step; [|discriminate].
      destruct (if eof then _ else _) as [st1|e] eqn:E; bind_step; [|discriminate].
      intros H. eapply writes_dicts_trans.
      * apply (writes_dicts_mono (fun l => nt_node tp = Loaded l));
          [intros l; apply yielded_here|].
        destruct eof; [exact (make_null_writes _ _ _ E)|exact (freeze_ref_writes _ _ _ E)].
      * apply (writes_dicts_mono (yielded tuples)); [intros l; apply yielded_later|].
        exact (IH _ _ H).
    + intros H. apply (writes_dicts_mono (yielded tuples)); [intros l; apply yielded_later|].
      exact (IH _ _ H).
Qed.

Lemma match_node_writes single set tp m m' :
  match_node commands single set tp m = Ok m' ->
  writes_dicts (fun l => nt_node tp = Loaded l) (ast_store m) (ast_store m').
Proof.
  unfold match_node. cbv zeta.
  destruct (tuple_type (ast_store m) (nt_node tp)) as [ty|e]; bind_step; [|discriminate].
  destruct (if negb single && startswith "Raw" ty then _ else _) as [eof|e]; bind_step;
    [|discriminate].
  destruct eof.
  { destruct (make_null _ _) as [st'|e] eqn:E; bind_step; [|discriminate].
    destruct (source_names_stack m); [discriminate|].
    intros H. inversion H. subst. cbn. exact (make_null_writes _ _ _ E). }
  destruct (tuple_contents _ _) as [contents|e]; bind_step; [|discriminate].
  destruct (getitem _ _ _) as [text|e]; bind_step; [|discriminate].
  destruct (match text with VAtom (SStr s) => _ | _ => _ end) as [node_cb|e]; bind_step;
    [|discriminate].
  destruct (if negb (endswith "Block" ty) then _ else _) as [stack1|e]; bind_step;
    [|discriminate].
  destruct (if in_node_set set (nt_node tp) then _ else _) as [[[chunks done] stack2]|e];
    bind_step; [|discriminate].
  destruct (if endswith "Block" ty then _ else _) as [stack3|e]; bind_step; [|discriminate].
  destruct (if startswith "Raw" ty then _ else _) as [st'|e] eqn:E; bind_step; [|discriminate].
  intros H. inversion H. subst. cbn.
  destruct (startswith "Raw" ty).
  - exact (freeze_ref_writes _ _ _ E).
  - inversion E. apply writes_dicts_refl.
Qed.

Lemma match_nodes_writes single set tuples : forall m m',
  match_nodes commands single set tuples m = Ok m' ->
  writes_dicts (yielded tuples) (ast_store m) (ast_store m').
Proof.
  induction tuples as [|tp tuples IH]; intros m m'; cbn [match_nodes].
  - intros H. inversion H. apply writes_dicts_refl.
  - destruct (match_node commands single set tp m) as [m1|e] eqn:E; bind_step; [|discriminate].
    intros H. eapply writes_dicts_trans.
    + apply (writes_dicts_mono (fun l => nt_node tp = Loaded l));
        [intros l; apply yielded_here|].
      exact (match_node_writes _ _ _ _ _ E).
    + apply (writes_dicts_mono (yielded tuples)); [intros l; apply yielded_later|].
      exact (IH _ _ H).
Qed.

Lemma match_sources_writes (single_source : bool) (entries : list source_cb)
    (source_names_stack : list string) (code_chunks : list PandocCodeChunk)
    (codebraid_node_set : list positive) (code_raw_node_tuples : list node_tuple)
    (st st' : store) (chunks' : list PandocCodeChunk) :
  match_sources commands single_source entries source_names_stack code_chunks
    codebraid_node_set code_raw_node_tuples st = Ok (chunks', st') ->
  writes_dicts (yielded code_raw_node_tuples) st st'.
Proof.
  unfold match_sources.
  destruct (length entries =? length code_chunks)%nat.
  - destruct (match_equal code_chunks entries) as [[chunks stack]|e]; bind_step;
      [|discriminate].
    destruct (freeze_raw_nodes _ _ _) as [st1|e] eqn:E; bind_step; [|discriminate].
    intros H. inversion H. subst. exact (freeze_raw_nodes_writes _ _ _ _ E).
  - destruct (match_nodes _ _ _ _ _) as [m|e] eqn:E; bind_step; [|discriminate].
    intros H. inversion H. subst. exact (match_nodes_writes _ _ _ _ _ E).
Qed.

(** The matcher writes to the store only when it freezes a raw node or
    makes a node [Null], and then to the dict of a node that the walker
    yielded: the store stays in order, every list is as it was, every dict
    is still a dict, and the dicts of all other nodes are as they were. *)
Theorem matcher_writes_only_yielded_nodes (single_source : bool) (entries : list source_cb)
    (source_names_stack : list string) (code_chunks : list PandocCodeChunk)
    (codebraid_node_set : list positive) (code_raw_node_tuples : list node_tuple)
    (st st' : store) (chunks' : list PandocCodeChunk) :
  store_ok st ->
  match_sources commands single_source entries source_names_stack code_chunks
    codebraid_node_set code_raw_node_tuples st = Ok (chunks', st') ->
  store_ok st'
  /\ (forall l xs, lists st !! l = Some xs -> lists st' !! l = Some xs)
  /\ (forall l d, dicts st !! l = Some d -> ~ yielded code_raw_node_tuples l ->
                  dicts st' !! l = Some d)
  /\ (forall l, is_Some (dicts st !! l) -> is_Some (dicts st' !! l)).
Proof. intros Hok H. exact (match_sources_writes _ _ _ _ _ _ _ _ _ H Hok). Qed.

Lemma obj_induction (P : obj -> Prop) :
  (forall a, P (OAtom a)) ->
  (forall id items, Forall P items -> P (OList id items)) ->
  (forall id fields, Forall (fun kv => P kv.2) fields -> P (ODict id fields)) ->
  forall o, P o.
Proof.
  intros Ha Hl Hd. fix IH 1. intros [a|id items|id fields].
  - apply Ha.
  - apply Hl. induction items as [|x items IHi]; constructor; [apply IH|exact IHi].
  - apply Hd. induction fields as [|[k x] fields IHf]; constructor; [apply IH|exact IHf].
Qed.

Lemma elem_of_flat_map_inv {A B} (f : A -> list B) (l : list A) (y : B) :
  y ∈ flat_map f l -> exists x, x ∈ l /\ y ∈ f x.
Proof.
  induction l as [|a l IH]; cbn; intros H.
  - inversion H.
  - apply elem_of_app in H as [H|H].
    + exists a. split; [left|exact H].
    + destruct (IH H) as [x [Hx Hy]]. exists x. split; [right; exact Hx|exact Hy].
Qed.

(** The list locations of a picture are lists of the store. *)
Lemma ids_are_lists st o : holds st o -> forall l, l ∈ list_ids o -> is_Some (lists st !! l).
Proof.
  induction o as [a|id items IH|id fields IH] using obj_induction; intros Hh l Hl.
  - inversion Hl.
  - apply holds_list in Hh as [Hid Hall]. cbn [list_ids] in Hl.
    apply elem_of_cons in Hl as [->|Hl]; [eexists; exact Hid|].
    destruct (elem_of_flat_map_inv _ _ _ Hl) as [x [Hx Hlx]].
    rewrite Forall_forall in IH, Hall. exact (IH x Hx (Hall x Hx) l Hlx).
  - apply holds_dict in Hh as [_ Hall]. cbn [list_ids] in Hl.
    destruct (elem_of_flat_map_inv _ _ _ Hl) as [x [Hx Hlx]].
    rewrite Forall_forall in IH, Hall. exact (IH x Hx (Hall x Hx) l Hlx).
Qed.

End MatcherKeeps.

Section MatcherKeepsExamples.
Import Base Pandoc Tree.

Lemma scenario_a_matched :
  match_sources ["code"; "run"] true [("doc.md", (10, 5, true, Some "run"))%nat] ["doc.md"]
    [scenario_a_chunk] [7%positive] [mkTuple (Loaded 7) (Loaded 9) (VList 8) 0 false]
    scenario_a_store = Ok ([locate "doc.md" 5 scenario_a_chunk], scenario_a_store).
Proof. vm_compute. reflexivity. Qed.

Lemma matcher_only_locates_witness :
  Forall2 at_most_located [scenario_a_chunk] [locate "doc.md" 5 scenario_a_chunk].
Proof.
  exact (matcher_only_locates ["code"; "run"] true _ _ _ _ _ _ _ _ scenario_a_matched).
Defined.

Lemma raw_block_store_ok : store_ok raw_block_store.
Proof. apply (bool_decide_unpack _). vm_compute. reflexivity. Qed.

Lemma raw_block_matched :
  returned (match_sources ["code"; "run"] true [] ["doc.md"] [] []
              [mkTuple (Loaded 4) (Loaded 6) (VList 5) 0 false] raw_block_store) = true.
Proof. vm_compute. reflexivity. Qed.

(** The matcher on the document that is one raw block, which it freezes. *)
Lemma matcher_writes_only_yielded_nodes_witness :
  exists chunks' st',
    match_sources ["code"; "run"] true [] ["doc.md"] [] []
      [mkTuple (Loaded 4) (Loaded 6) (VList 5) 0 false] raw_block_store = Ok (chunks', st')
    /\ store_ok st'
    /\ (forall l xs, lists raw_block_store !! l = Some xs -> lists st' !! l = Some xs)
    /\ (forall l d, dicts raw_block_store !! l = Some d ->
                    ~ yielded [mkTuple (Loaded 4) (Loaded 6) (VList 5) 0 false] l ->
                    dicts st' !! l = Some d)
    /\ (forall l, is_Some (dicts raw_block_store !! l) -> is_Some (dicts st' !! l)).
Proof.
  destruct (returned_ok _ raw_block_matched) as [[chunks' st'] H].
  exists chunks', st'. split; [exact H|].
  exact (matcher_writes_only_yielded_nodes ["code"; "run"] true _ _ _ _ _ _ _ _
           raw_block_store_ok H).
Defined.

End MatcherKeepsExamples.

(** ** From the extraction to the splice *)

Section Pipeline.
Import Base Pandoc Tree.

Variable commands : list string.
Variable include_keywords : list string.
Variable super_init :
  list string -> list string -> pyval -> Base.code_arg -> list (string * pyval) ->
  option string -> option Z -> bool -> Base.heap -> result (Base.CodeChunk * Base.heap).
Variable layout_output : PandocCodeChunk -> string -> string -> option (list string) -> string.
Variable splitlines_lf : string -> list string.
Variable rich_text_default_display : list (string * string).
Variable mime_map : list (string * string).

(** The first source of a conversion, from the loaded AST to the splice:
    [_load_and_process_initial_ast] on a converter without chunks, whose
    AST is a tree; then the code processor, which is not under src/ and of
    which only this is asked: every chunk keeps its node, list and index,
    and the lists of the AST stay; then [_postprocess_code_chunks].  The
    matcher and the freezing of raw nodes in between leave every list and
    every recorded place as it was, so in the pass, which takes the later
    chunks first, every chunk finds its node at its recorded index. *)
Theorem extracted_chunk_spliced_in_place
    (depth : nat) (sources : list (string * string)) (source_string : string)
    (single_source_name : option string) (ast : positive) (doc : obj)
    (self0 self1 self2 self3 : converter) (before after : list PandocCodeChunk)
    (self : PandocCodeChunk) :
  code_chunks self0 = [] ->
  store_ok (ast_objects self0) ->
  holds (ast_objects self0) doc ->
  NoDup (list_ids doc) ->
  val_of doc = VDict ast ->
  _load_and_process_initial_ast commands include_keywords super_init depth false sources
    source_string single_source_name ast self0 = Ok self1 ->
  Forall2 same_slot (code_chunks self1) (code_chunks self2) ->
  store_ok (ast_objects self2) ->
  (forall l xs, lists (ast_objects self1) !! l = Some xs ->
                lists (ast_objects self2) !! l = Some xs) ->
  code_chunks self2 = before ++ self :: after ->
  _postprocess_code_chunks layout_output splitlines_lf rich_text_default_display mime_map self2
  = Ok self3 ->
  exists st_self l xs,
    spliced_in_reverse layout_output splitlines_lf rich_text_default_display mime_map
      self2 self3 before self after st_self
    /\ parent_node_list self = VList l
    /\ lists st_self !! l = Some xs
    /\ xs !! parent_node_list_index self = Some (VDict (node self)).
Proof.
  intros Hnone Hok Hh Hnd Hroot Hload Hrun Hok2 Hkeep Hcs Hpost.
  destruct (postprocess_at_chunk _ _ _ _ _ _ _ _ _ Hcs Hpost) as [st_self Hpass].
  exists st_self.
  destruct doc as [a|id items|id fields]; try discriminate.
  cbn in Hroot. inversion Hroot. subst id.
  revert Hload. unfold _load_and_process_initial_ast. cbv zeta.
  set (found_names :=
         match single_source_name with
         | Some name =>
             found ← source_occurrences commands name source_string; Ok (found, [name])
         | None => found ← all_occurrences commands sources; Ok (found, map fst sources)
         end).
  destruct (_walk_ast (ast_objects self0) depth ast (Some pandoc_code_raw_nodes) false)
    as [tuples|e] eqn:Hw; bind_step; [|discriminate].
  destruct (make_chunks commands include_keywords super_init (ast_objects self0) tuples
              (show_tables self0)) as [[[new_chunks set] h1]|e] eqn:Hm;
    bind_step; [|discriminate].
  destruct found_names as [[sources_cb names]|e]; bind_step; [|discriminate].
  destruct (match_sources _ _ _ _ _ _ _ _) as [[chunks st1]|e] eqn:Hs; bind_step;
    [|discriminate].
  intros Hload. inversion Hload. subst self1. cbn [code_chunks ast_objects] in Hrun, Hkeep.
  rewrite Hnone in Hs. cbn [app] in Hs.
  pose proof (walk_ast_good _ _ _ _ _ _ _ Hh Hnd Hw) as Hgood.
  destruct (make_chunks_recorded _ _ _ _ _ _ _ _ _ Hm) as [found [Hsub Hrec]].
  assert (Forall2 same_slot new_chunks chunks) as Hsame.
  { eapply Forall2_impl; [exact (match_sources_at_most _ _ _ _ _ _ _ _ _ _ Hs)|].
    intros c c'. apply at_most_located_same_slot. }
  destruct (match_sources_writes _ _ _ _ _ _ _ _ _ _ Hs Hok) as [Hok1 [Hl1 _]].
  pose proof (recorded_same _ _ _ (recorded_same _ _ _ Hrec Hsame) Hrun) as Hrec2.
  destruct Hpass as (updated_after & st_next & self' & updated_before & Hup & Hrest).
  destruct (recorded_place_kept layout_output splitlines_lf rich_text_default_display mime_map
              (ast_objects self0) _ tuples found (code_chunks self2) before self after
              (ast_objects self2) (show_tables self2) st_self updated_after
              Hgood Hsub Hrec2 Hok2) as [l [xs Hslot]]; try assumption.
  { intros l Hl. destruct (ids_are_lists _ _ Hh l Hl) as [xs Hxs].
    rewrite Hxs. exact (Hkeep _ _ (Hl1 _ _ Hxs)). }
  exists l, xs. split; [|exact Hslot].
  exists updated_after, st_next, self', updated_before. split; [exact Hup|exact Hrest].
Qed.

End Pipeline.

Section PipelineExample.
Import Base Pandoc Tree.

(** A Markdown source of the four blocks. *)
Definition four_blocks_text : string :=
  let line := String nl EmptyString in
  let fence := "```" in
  fence +:+ "{.cb.code}" +:+ line +:+ "x" +:+ line +:+ fence +:+ line +:+ line
  +:+ fence +:+ "{.cb.run show=stdout}" +:+ line +:+ "y" +:+ line +:+ fence +:+ line +:+ line
  +:+ fence +:+ "{.cb.code example=true}" +:+ line +:+ "z" +:+ line +:+ fence +:+ line +:+ line
  +:+ fence +:+ "{.cb.run label=a label=b}" +:+ line +:+ "w" +:+ line +:+ fence +:+ line.

(** The converter with the AST of the four blocks loaded and no chunk. *)
Definition four_blocks_converter : converter :=
  {| code_chunks := []; asts := []; ast_objects := four_blocks_store;
     show_tables := module_heap |}.

Definition loaded_count (r : result converter) : nat :=
  match r with Ok self => length (code_chunks self) | Raise _ => 0%nat end.

Definition loaded_store_ok (r : result converter) : bool :=
  match r with Ok self => bool_decide (store_ok (ast_objects self)) | Raise _ => false end.

(** The chunks of a converter run, and then the pass. *)
Definition postprocess_loaded (r : result converter) : result converter :=
  match r with
  | Ok self =>
      _postprocess_code_chunks (fun _ output _ _ => output) (fun s => [s]) [] []
        (run_converter (ast_objects self) 28 (code_chunks self) (show_tables self))
  | Raise e => Raise e
  end.

(** The four blocks from the loaded AST on, with the constructors of
    [pandoc.py] and [base.py]: the chunks are found and matched to the
    source, they are run without output, and the pass returns; the first
    chunk is the last to be spliced and finds its node at its index. *)
Lemma extracted_chunk_spliced_in_place_witness :
  exists self1 self3 first rest st_self l xs,
    _load_and_process_initial_ast ["code"; "run"] [] CodeChunk_init 100 false
      [("doc.md", four_blocks_text)] four_blocks_text (Some "doc.md") 28
      four_blocks_converter = Ok self1
    /\ code_chunks self1 = first :: rest
    /\ length (code_chunks self1) = 4%nat
    /\ _postprocess_code_chunks (fun _ output _ _ => output) (fun s => [s]) [] []
         (run_converter (ast_objects self1) 28 (code_chunks self1) (show_tables self1))
       = Ok self3
    /\ spliced_in_reverse (fun _ output _ _ => output) (fun s => [s]) [] []
         (run_converter (ast_objects self1) 28 (code_chunks self1) (show_tables self1))
         self3 [] (with_empty_results first) (map with_empty_results rest) st_self
    /\ parent_node_list (with_empty_results first) = VList l
    /\ lists st_self !! l = Some xs
    /\ xs !! parent_node_list_index (with_empty_results first)
       = Some (VDict (node (with_empty_results first))).
Proof.
  assert (returned (_load_and_process_initial_ast ["code"; "run"] []
                      CodeChunk_init 100 false
                      [("doc.md", four_blocks_text)] four_blocks_text (Some "doc.md") 28
                      four_blocks_converter) = true) as H0
    by (vm_compute; reflexivity).
  assert (loaded_count (_load_and_process_initial_ast ["code"; "run"] []
                          CodeChunk_init 100 false
                          [("doc.md", four_blocks_text)] four_blocks_text (Some "doc.md") 28
                          four_blocks_converter) = 4%nat) as H1
    by (vm_compute; reflexivity).
  assert (returned (postprocess_loaded
                      (_load_and_process_initial_ast ["code"; "run"] []
                         CodeChunk_init 100 false
                         [("doc.md", four_blocks_text)] four_blocks_text (Some "doc.md") 28
                         four_blocks_converter)) = true) as H2
    by (vm_compute; reflexivity).
  assert (loaded_store_ok (_load_and_process_initial_ast ["code"; "run"] []
                             CodeChunk_init 100 false
                             [("doc.md", four_blocks_text)] four_blocks_text (Some "doc.md")
                             28 four_blocks_converter) = true) as H3
    by (vm_compute; reflexivity).
  destruct (returned_ok _ H0) as [self1 Hload].
  rewrite Hload in H1, H2, H3.
  cbv beta iota delta [loaded_count postprocess_loaded loaded_store_ok] in H1, H2, H3.
  destruct (length_succ_cons _ _ H1) as [first [rest Hc]].
  destruct (returned_ok _ H2) as [self3 Hpost].
  apply bool_decide_eq_true_1 in H3.
  assert (code_chunks (run_converter (ast_objects self1) 28 (code_chunks self1)
                         (show_tables self1))
          = [] ++ with_empty_results first :: map with_empty_results rest) as Hcs
    by (rewrite run_converter_chunks, Hc; reflexivity).
  assert (store_ok (ast_objects (run_converter (ast_objects self1) 28 (code_chunks self1)
                                   (show_tables self1)))) as Hok2
    by (rewrite run_converter_store; exact H3).
  assert (forall l xs, lists (ast_objects self1) !! l = Some xs ->
                       lists (ast_objects (run_converter (ast_objects self1) 28
                                             (code_chunks self1) (show_tables self1))) !! l
                       = Some xs) as Hkeep
    by (intros l xs Hl; rewrite run_converter_store; exact Hl).
  assert (Forall2 same_slot (code_chunks self1)
            (code_chunks (run_converter (ast_objects self1) 28 (code_chunks self1)
                            (show_tables self1)))) as Hrun
    by (rewrite run_converter_chunks; apply with_empty_results_same_slot).
  destruct (extracted_chunk_spliced_in_place ["code"; "run"] [] CodeChunk_init
              (fun _ output _ _ => output) (fun s => [s]) [] []
              100 [("doc.md", four_blocks_text)] four_blocks_text (Some "doc.md") 28
              four_blocks_picture four_blocks_converter self1
              (run_converter (ast_objects self1) 28 (code_chunks self1) (show_tables self1))
              self3 [] (map with_empty_results rest) (with_empty_results first)
              eq_refl four_blocks_store_ok four_blocks_holds four_blocks_tree four_blocks_root
              Hload Hrun Hok2 Hkeep Hcs Hpost)
    as (st_self & l & xs & Hpass & Hl & Hxs & Hnode).
  exists self1, self3, first, rest, st_self, l, xs.
  split; [exact Hload|]. split; [exact Hc|]. split; [exact H1|]. split; [exact Hpost|].
  split; [exact Hpass|]. split; [exact Hl|]. split; [exact Hxs|exact Hnode].
Defined.

End PipelineExample.

(** ** The messages and the options of a chunk *)

Section BaseMessages.
Import Base.

Definition extends_warnings (st st' : pstate) : Prop :=
  exists extra, warns st' = warns st ++ extra.

Lemma extends_warnings_refl st : extends_warnings st st.
Proof. exists []. symmetry. apply app_nil_r. Qed.

Lemma extends_warnings_trans a b c :
  extends_warnings a b -> extends_warnings b c -> extends_warnings a c.
Proof.
  intros [x Hx] [y Hy]. exists (x ++ y). rewrite Hy, Hx. symmetry. apply app_assoc.
Qed.

Lemma hide_pop_warns v st st' : hide_pop v st = Ok st' -> warns st' = warns st.
Proof.
  unfold hide_pop. intros H.
  repeat match type of H with
         | context [match ?x with _ => _ end] => destruct x
         end; inversion H; reflexivity.
Qed.

Lemma hide_pop_all_warns vs st st' : hide_pop_all vs st = Ok st' -> warns st' = warns st.
Proof.
  revert st. induction vs as [|v vs IH]; intros st H; cbn in H.
  - inversion H. reflexivity.
  - destruct (hide_pop v st) as [st1|] eqn:E; cbn in H; [|discriminate].
    rewrite (IH _ H). eapply hide_pop_warns, E.
Qed.

(** One token of a [show] value adds at most one warning and at most one
    entry, and exactly one of both. *)
Lemma show_token_step inline key value table ws tok :
  exists table' extra,
    show_token inline key value (table, ws) tok = (table', ws ++ extra)
    /\ ((table' = table /\ length extra = 1%nat)
        \/ (extra = [] /\ od_mem (split_token tok).1 table = false
            /\ exists f, table' = od_set (split_token tok).1 f table
                         /\ (((split_token tok).1 = "code" /\ f = "verbatim")
                             \/ (((split_token tok).1 = "stdout"
                                  \/ (split_token tok).1 = "stderr")
                                 /\ existsb (String.eqb f) show_formats = true)
                             \/ ((split_token tok).1 = "expression" /\ inline = true
                                 /\ existsb (String.eqb f) show_formats = true)))).
Proof.
  unfold show_token. destruct (split_token tok) as [output format]. cbn [fst].
  destruct (od_mem output table) eqn:Hmem.
  { eexists _, [_]. split; [reflexivity|]. left. split; reflexivity. }
  assert (forall f, exists table' extra,
            (od_set output f table, ws) = (table', ws ++ extra)
            /\ ((table' = table /\ length extra = 1%nat)
                \/ (extra = [] /\ false = false
                    /\ exists f0, table' = od_set output f0 table /\ f0 = f))) as Hstore.
  { intros f. exists (od_set output f table), []. rewrite app_nil_r. split; [reflexivity|].
    right. split; [reflexivity|]. split; [reflexivity|]. exists f. split; reflexivity. }
  assert (forall msg, exists table' extra,
            (table, ws ++ [msg]) = (table', ws ++ extra)
            /\ ((table' = table /\ length extra = 1%nat)
                \/ (extra = [] /\ false = false
                    /\ exists f : string, table' = od_set output f table
                         /\ ((output = "code" /\ f = "verbatim")
                             \/ ((output = "stdout" \/ output = "stderr")
                                 /\ existsb (String.eqb f) show_formats = true)
                             \/ (output = "expression" /\ inline = true
                                 /\ existsb (String.eqb f) show_formats = true))))) as Hwarn.
  { intros msg. exists table, [msg]. split; [reflexivity|]. left. split; reflexivity. }
  assert (forall f,
            (output = "code" /\ f = "verbatim")
            \/ ((output = "stdout" \/ output = "stderr")
                /\ existsb (String.eqb f) show_formats = true)
            \/ (output = "expression" /\ inline = true
                /\ existsb (String.eqb f) show_formats = true) ->
            exists table' extra,
              (od_set output f table, ws) = (table', ws ++ extra)
              /\ ((table' = table /\ length extra = 1%nat)
                  \/ (extra = [] /\ false = false
                      /\ exists f0 : string, table' = od_set output f0 table
                           /\ ((output = "code" /\ f0 = "verbatim")
                               \/ ((output = "stdout" \/ output = "stderr")
                                   /\ existsb (String.eqb f0) show_formats = true)
                               \/ (output = "expression" /\ inline = true
                                   /\ existsb (String.eqb f0) show_formats = true)))))
    as Hok.
  { intros f Hf. exists (od_set output f table), []. rewrite app_nil_r.
    split; [reflexivity|]. right. split; [reflexivity|]. split; [reflexivity|].
    exists f. split; [reflexivity|exact Hf]. }
  clear Hstore.
  destruct (String.eqb_spec output "code") as [Hc|Hc].
  { destruct format as [f|].
    - destruct (String.eqb_spec f "verbatim") as [->|]; [|apply Hwarn].
      apply Hok. left. split; [exact Hc|reflexivity].
    - apply Hok. left. split; [exact Hc|reflexivity]. }
  destruct (String.eqb output "stdout" || String.eqb output "stderr") eqn:Hso.
  { assert (output = "stdout" \/ output = "stderr") as Ho.
    { apply orb_prop in Hso as [H|H]; apply String.eqb_eq in H; auto. }
    destruct format as [f|].
    - destruct (existsb (String.eqb f) show_formats) eqn:Hf; [|apply Hwarn].
      apply Hok. right. left. split; [exact Ho|exact Hf].
    - apply Hok. right. left. split; [exact Ho|reflexivity]. }
  destruct (String.eqb_spec output "expression") as [He|He]; [|apply Hwarn].
  destruct inline; cbn [negb]; [|apply Hwarn].
  destruct format as [f|].
  - destruct (existsb (String.eqb f) show_formats) eqn:Hf; [|apply Hwarn].
    apply Hok. right. right. split; [exact He|]. split; [reflexivity|exact Hf].
  - apply Hok. right. right. split; [exact He|]. split; reflexivity.
Qed.

Lemma show_tokens_warns_from inline key value toks : forall table ws,
  exists extra, (fold_left (show_token inline key value) toks (table, ws)).2 = ws ++ extra.
Proof.
  induction toks as [|tok toks IH]; intros table ws; cbn [fold_left].
  - exists []. symmetry. apply app_nil_r.
  - destruct (show_token_step inline key value table ws tok) as [table' [extra [-> _]]].
    destruct (IH table' (ws ++ extra)) as [extra' ->].
    exists (extra ++ extra'). symmetry. apply app_assoc.
Qed.

Lemma processor_extends_warnings inline k key value st st' :
  _cb_option_processors inline k key value st = Ok st' -> extends_warnings st st'.
Proof.
  unfold _cb_option_processors.
  assert (forall msg, extends_warnings st (add_warning msg st)) as Hw
    by (intros msg; exists [msg]; reflexivity).
  assert (forall key' v, extends_warnings st (set_option key' v st)) as Hs
    by (intros key' v; exists []; symmetry; apply app_nil_r).
  repeat match goal with |- context [if ?b then _ else _] => destruct b end.
  - unfold _cb_option_hide. destruct value as [| | |s| |];
      try (intros H; inversion H; apply Hw).
    destruct (String.eqb s "all"); [discriminate|].
    destruct (forallb _ _); [|intros H; inversion H; apply Hw].
    destruct (hide_pop_all _ st) as [st1|] eqn:E; bind_step; [|discriminate].
    intros H. inversion H. exists []. cbn. rewrite (hide_pop_all_warns _ _ _ E).
    symmetry. apply app_nil_r.
  - unfold _cb_option_first_number. destruct (match value with PInt _ => _ | _ => _ end);
      intros H; inversion H; [apply Hs|apply Hw].
  - unfold _cb_option_label. destruct (opts st !! "label"); [intros H; inversion H; apply Hw|].
    destruct value; intros H; inversion H; first [apply Hs|apply Hw].
  - unfold _cb_option_str. destruct value; intros H; inversion H; first [apply Hs|apply Hw].
  - unfold _cb_option_bool. destruct value; intros H; inversion H; first [apply Hs|apply Hw].
  - unfold _cb_option_str. destruct value; intros H; inversion H; first [apply Hs|apply Hw].
  - unfold _cb_option_show. destruct value as [| | |s| |];
      try (intros H; inversion H; apply Hw).
    destruct (String.eqb s "none"); [intros H; inversion H; apply Hs|].
    destruct (String.eqb s "notebook").
    + destruct (objs (hp st) !! _); [|discriminate]. cbn. intros H. inversion H.
      exists []. cbn. symmetry. apply app_nil_r.
    + unfold show_tokens.
      destruct (show_tokens_warns_from inline key s (split "+" (remove_char " " s)) []
                  (warns st)) as [extra Hx].
      destruct (fold_left _ _ _) as [table ws]. cbn in Hx. cbn. intros H. inversion H.
      exists extra. exact Hx.
  - unfold _cb_option_unknown. intros H. inversion H. exists []. cbn.
    symmetry. apply app_nil_r.
Qed.

Lemma process_options_extends_warnings inline items st st' :
  process_options inline items st = Ok st' -> extends_warnings st st'.
Proof.
  revert st. induction items as [|[k v] items IH]; intros st H; cbn in H.
  - inversion H. apply extends_warnings_refl.
  - destruct (_cb_option_processors inline k k v st) as [st1|] eqn:E; cbn in H; [|discriminate].
    eapply extends_warnings_trans; [eapply processor_extends_warnings, E|apply IH, H].
Qed.

(** [CodeChunk.__init__] only appends to the two message lists: what a
    subclass has recorded before the call stays first, in its order. *)
Theorem constructor_keeps_earlier_messages (pre_errors pre_warnings : list string)
    (command : pyval) (code : code_arg) (options : list (string * pyval))
    (source_name : option string) (line : option Z) (inline : bool) (h h' : heap)
    (self : CodeChunk) :
  CodeChunk_init pre_errors pre_warnings command code options source_name line inline h
  = Ok (self, h') ->
  (exists errors, source_errors self = pre_errors ++ errors)
  /\ (exists warnings, source_warnings self = pre_warnings ++ warnings).
Proof.
  unfold CodeChunk_init. cbv zeta.
  destruct (if negb inline then _ else _) as [code_lines|e]; bind_step; [|discriminate].
  destruct (process_options inline options _) as [st|e] eqn:E; bind_step; [|discriminate].
  intros H. inversion H. subst. cbn [source_errors source_warnings].
  destruct (process_options_extends_errors _ _ _ _ E) as [es Hes].
  destruct (process_options_extends_warnings _ _ _ _ E) as [ws Hws].
  cbn [errs warns] in Hes, Hws. split; [|exists ws; exact Hws].
  rewrite Hes.
  assert (exists e1, (match command with
                      | PStr "code" | PStr "run" => pre_errors
                      | _ => pre_errors ++ ["Unknown Codebraid command " +:+ dq
                                            +:+ py_str command +:+ dq]
                      end) = pre_errors ++ e1) as [e1 ->].
  { clear. repeat match goal with
                  | |- context [match ?x with _ => _ end] => destruct x
                  end; first [exists []; symmetry; apply app_nil_r | eexists; reflexivity]. }
  destruct ((1 <? length _)%nat && inline).
  - eexists. rewrite <- !app_assoc. reflexivity.
  - eexists. rewrite <- !app_assoc. reflexivity.
Qed.

Lemma constructor_keeps_earlier_messages_witness :
  exists self h',
    CodeChunk_init ["early"] ["note"] (PStr "go") (CodeStr "x") [("bogus", PNone)]
      None None true module_heap = Ok (self, h')
    /\ (exists errors, source_errors self = ["early"] ++ errors)
    /\ (exists warnings, source_warnings self = ["note"] ++ warnings).
Proof.
  assert (returned (CodeChunk_init ["early"] ["note"] (PStr "go") (CodeStr "x")
                      [("bogus", PNone)] None None true module_heap) = true) as H0
    by (vm_compute; reflexivity).
  destruct (returned_ok _ H0) as [[self h'] H].
  exists self, h'. split; [exact H|].
  exact (constructor_keeps_earlier_messages _ _ _ _ _ _ _ _ _ _ _ H).
Defined.

(** A block chunk without a line of code cannot be made: the empty text
    has no line, and [code_lines[-1] += '\n'] raises [IndexError] before
    any option is looked at. *)
Theorem block_without_code_raises (pre_errors pre_warnings : list string)
    (command : pyval) (code : code_arg) (options : list (string * pyval))
    (source_name : option string) (line : option Z) (h : heap) :
  code_lines_of code = [] ->
  CodeChunk_init pre_errors pre_warnings command code options source_name line false h
  = Raise (Py.IndexError "list index out of range").
Proof.
  intros Hc. unfold CodeChunk_init. cbv zeta.
  unfold code_lines_of in Hc. rewrite Hc. reflexivity.
Qed.

Lemma block_without_code_raises_witness :
  CodeChunk_init [] [] (PStr "run") (CodeStr EmptyString) [] None None false module_heap
  = Raise (Py.IndexError "list index out of range").
Proof.
  exact (block_without_code_raises [] [] (PStr "run") (CodeStr EmptyString) [] None None
           module_heap eq_refl).
Defined.

Lemma str_app_assoc (a b c : string) : (a +:+ b) +:+ c = a +:+ (b +:+ c).
Proof.
  induction a as [|x a IH]; [reflexivity|].
  change (String x ((a +:+ b) +:+ c) = String x (a +:+ (b +:+ c))). f_equal. exact IH.
Qed.

Lemma join_last sep init last :
  exists front, Py.join sep (init ++ [last]) = front +:+ last.
Proof.
  induction init as [|x init IH]; cbn [app Py.join].
  - exists EmptyString. reflexivity.
  - destruct IH as [front IH]. destruct (init ++ [last]) as [|y rest] eqn:E.
    + destruct init; discriminate.
    + exists (x +:+ sep +:+ front). rewrite IH.
      rewrite !str_app_assoc. reflexivity.
Qed.

Lemma append_nl_last_shape ls ls' :
  append_nl_last ls = Ok ls' ->
  exists init last, ls = init ++ [last] /\ ls' = init ++ [last +:+ String Py.nl EmptyString].
Proof.
  revert ls'. induction ls as [|l ls IH]; intros ls'; cbn [append_nl_last]; [discriminate|].
  destruct ls as [|l2 ls].
  - intros H. inversion H. exists [], l. split; reflexivity.
  - destruct (append_nl_last (l2 :: ls)) as [ls''|e]; bind_step; [|discriminate].
    intros H. inversion H. subst.
    destruct (IH _ eq_refl) as [init [last [-> ->]]].
    exists (l :: init), last. split; reflexivity.
Qed.

(** The code of a block chunk ends with a line feed. *)
Theorem block_code_ends_with_newline (pre_errors pre_warnings : list string)
    (command : pyval) (code : code_arg) (options : list (string * pyval))
    (source_name : option string) (line : option Z) (h h' : heap) (self : CodeChunk) :
  CodeChunk_init pre_errors pre_warnings command code options source_name line false h
  = Ok (self, h') ->
  exists text, Base.code self = text +:+ String Py.nl EmptyString.
Proof.
  unfold CodeChunk_init. cbv zeta. cbn [negb].
  destruct (append_nl_last _) as [code_lines|e] eqn:Ha; bind_step; [|discriminate].
  destruct (process_options false options _) as [st|e]; bind_step; [|discriminate].
  intros H. inversion H. subst. cbn [Base.code].
  destruct (append_nl_last_shape _ _ Ha) as [init [last [_ ->]]].
  destruct (join_last (String Py.nl EmptyString) init (last +:+ String Py.nl EmptyString))
    as [front ->].
  exists (front +:+ last). rewrite str_app_assoc. reflexivity.
Qed.

Lemma block_code_ends_with_newline_witness :
  exists self h',
    CodeChunk_init [] [] (PStr "run")
      (CodeStr ("a" +:+ String Py.cr (String Py.nl "b"))) [] None None false module_heap
    = Ok (self, h')
    /\ exists text, Base.code self = text +:+ String Py.nl EmptyString.
Proof.
  assert (returned (CodeChunk_init [] [] (PStr "run")
                      (CodeStr ("a" +:+ String Py.cr (String Py.nl "b"))) [] None None false
                      module_heap) = true) as H0
    by (vm_compute; reflexivity).
  destruct (returned_ok _ H0) as [[self h'] H].
  exists self, h'. split; [exact H|].
  exact (block_code_ends_with_newline _ _ _ _ _ _ _ _ _ _ H).
Defined.

End BaseMessages.

Section BaseOptions.
Import Base.

Lemma od_set_new {V} (k : string) (v : V) d : od_mem k d = false -> od_set k v d = d ++ [(k, v)].
Proof.
  induction d as [|[k0 v0] d IH]; cbn; [reflexivity|].
  destruct (String.eqb k k0); cbn; [discriminate|].
  intros H. rewrite (IH H). reflexivity.
Qed.

Lemma od_mem_false_keys {V} (k : string) (d : list (string * V)) :
  od_mem k d = false -> k ∉ map fst d.
Proof.
  induction d as [|[k0 v0] d IH]; cbn; intros H Hin.
  - inversion Hin.
  - apply orb_false_elim in H as [Hk Hd]. apply String.eqb_neq in Hk.
    apply elem_of_cons in Hin as [->|Hin]; [congruence|exact (IH Hd Hin)].
Qed.

Lemma existsb_eqb_elem (f : string) (l : list string) :
  existsb (String.eqb f) l = true -> f ∈ l.
Proof.
  induction l as [|x l IH]; cbn; [discriminate|].
  destruct (String.eqb_spec f x) as [->|_]; cbn; intros H; [left|right; exact (IH H)].
Qed.

(** An entry that a show table may have. *)
Definition valid_show_entry (inline : bool) (entry : string * string) : Prop :=
  (entry.1 = "code" /\ entry.2 = "verbatim")
  \/ ((entry.1 = "stdout" \/ entry.1 = "stderr") /\ entry.2 ∈ show_formats)
  \/ (entry.1 = "expression" /\ inline = true /\ entry.2 ∈ show_formats).

Lemma show_tokens_valid_from inline key value toks : forall (table : show_spec) ws,
  Forall (valid_show_entry inline) table -> NoDup (map fst table) ->
  exists table' new,
    fold_left (show_token inline key value) toks (table, ws) = (table', ws ++ new)
    /\ Forall (valid_show_entry inline) table'
    /\ NoDup (map fst table')
    /\ (length table' + length new = length table + length toks)%nat.
Proof.
  induction toks as [|tok toks IH]; intros table ws Hv Hn; cbn [fold_left].
  - exists table, []. rewrite app_nil_r. split; [reflexivity|]. split; [exact Hv|].
    split; [exact Hn|]. cbn. lia.
  - destruct (show_token_step inline key value table ws tok)
      as [table1 [extra [-> [[-> Hx]|[-> [Hmem [f [-> Hf]]]]]]]].
    + destruct (IH table (ws ++ extra) Hv Hn) as [table' [new [-> [Hv' [Hn' Hlen]]]]].
      exists table', (extra ++ new). rewrite app_assoc. split; [reflexivity|].
      split; [exact Hv'|]. split; [exact Hn'|]. rewrite length_app. cbn [length]. lia.
    + rewrite (od_set_new _ f _ Hmem). rewrite app_nil_r.
      destruct (IH (table ++ [((split_token tok).1, f)]) ws) as [table' [new [-> [Hv' [Hn' Hlen]]]]].
      * apply Forall_app. split; [exact Hv|]. constructor; [|constructor].
        unfold valid_show_entry. cbn [fst snd].
        destruct Hf as [Hf|[[Ho Hf]|[Ho [Hi Hf]]]]; [left; exact Hf| |].
        -- right. left. split; [exact Ho|apply existsb_eqb_elem, Hf].
        -- right. right. split; [exact Ho|]. split; [exact Hi|apply existsb_eqb_elem, Hf].
      * rewrite map_app. cbn [map fst]. apply NoDup_app. split; [exact Hn|]. split.
        -- intros x Hx Hx'. apply list_elem_of_singleton in Hx'. subst x.
           exact (od_mem_false_keys _ _ Hmem Hx).
        -- apply NoDup_singleton.
      * exists table', new. split; [reflexivity|]. split; [exact Hv'|]. split; [exact Hn'|].
        rewrite length_app in Hlen. cbn [length] in *. lia.
Qed.

(** The [show] option with a value other than [none] and [notebook]: the
    option is a new table in which every entry is a channel with a format
    that the channel allows ([expression] only for inline code), no
    channel twice; every [+]-separated token of the value has given one
    entry or one warning; no error is recorded. *)
Theorem show_option_resolves_valid_table (inline : bool) (key value : string)
    (st st' : pstate) :
  value <> "none" -> value <> "notebook" ->
  _cb_option_show inline key (PStr value) st = Ok st' ->
  exists l table new,
    opts st' !! key = Some (Ref l)
    /\ objs (hp st') !! l = Some table
    /\ Forall (valid_show_entry inline) table
    /\ NoDup (map fst table)
    /\ warns st' = warns st ++ new
    /\ (length table + length new = length (Py.split "+" (Py.remove_char " " value)))%nat
    /\ errs st' = errs st.
Proof.
  intros Hnone Hnb. unfold _cb_option_show.
  destruct (String.eqb_spec value "none") as [|_]; [contradiction|].
  destruct (String.eqb_spec value "notebook") as [|_]; [contradiction|].
  unfold show_tokens.
  destruct (show_tokens_valid_from inline key value (Py.split "+" (Py.remove_char " " value))
              [] (warns st) (Forall_nil_2 _) (NoDup_nil_2))
    as [table [new [Heq [Hv [Hn Hlen]]]]].
  destruct (fold_left _ _ _) as [table0 ws0] eqn:E.
  inversion Heq. subst table0 ws0.
  cbn [alloc]. intros H. inversion H. subst st'. cbn [opts hp objs warns errs].
  exists (next (hp st)), table, new.
  split; [apply lookup_insert_eq|]. split; [apply lookup_insert_eq|].
  split; [exact Hv|]. split; [exact Hn|]. split; [reflexivity|]. split; [exact Hlen|reflexivity].
Qed.

Lemma show_option_resolves_valid_table_witness :
  exists st' l table new,
    _cb_option_show false "show" (PStr "code+stdout:raw+expression+stdout")
      {| errs := []; warns := []; opts := _cb_default_options; hp := module_heap |} = Ok st'
    /\ opts st' !! "show" = Some (Ref l)
    /\ objs (hp st') !! l = Some table
    /\ Forall (valid_show_entry false) table
    /\ NoDup (map fst table)
    /\ warns st' = [] ++ new
    /\ (length table + length new = 4)%nat
    /\ errs st' = [].
Proof.
  assert (returned (_cb_option_show false "show" (PStr "code+stdout:raw+expression+stdout")
                      {| errs := []; warns := []; opts := _cb_default_options;
                         hp := module_heap |}) = true) as H0
    by (vm_compute; reflexivity).
  destruct (returned_ok _ H0) as [st' H].
  destruct (show_option_resolves_valid_table false "show"
              "code+stdout:raw+expression+stdout" _ st'
              ltac:(discriminate) ltac:(discriminate) H) as [l [table [new Hx]]].
  exists st', l, table, new. split; [exact H|exact Hx].
Defined.

Lemma append_nl_last_returns ls : ls <> [] -> exists ls', append_nl_last ls = Ok ls'.
Proof.
  induction ls as [|l ls IH]; [congruence|]. intros _. cbn [append_nl_last].
  destruct ls as [|l2 ls]; [eexists; reflexivity|].
  destruct IH as [ls' ->]; [discriminate|]. eexists. reflexivity.
Qed.

(** [hide=all] as the first option: the constructor raises
    [UnboundLocalError], because [_cb_option_hide] stores [hide_values]
    and assigns it only for the other values. *)
Theorem hide_all_raises (pre_errors pre_warnings : list string) (command : pyval)
    (code : code_arg) (rest : list (string * pyval)) (source_name : option string)
    (line : option Z) (inline : bool) (h : heap) :
  inline = true \/ code_lines_of code <> [] ->
  CodeChunk_init pre_errors pre_warnings command code (("hide", PStr "all") :: rest)
    source_name line inline h = Raise (Py.UnboundLocalError "hide_values").
Proof.
  intros Hc. unfold CodeChunk_init. cbv zeta.
  assert (exists ls', (if negb inline
                       then append_nl_last match code with
                                           | CodeStr s => Py.splitlines s
                                           | CodeLines ls => ls
                                           end
                       else Ok match code with
                               | CodeStr s => Py.splitlines s
                               | CodeLines ls => ls
                               end) = Ok ls') as [ls' ->].
  { destruct inline; cbn [negb]; [eexists; reflexivity|].
    destruct Hc as [Hc|Hc]; [discriminate|].
    apply append_nl_last_returns. destruct code; exact Hc. }
  reflexivity.
Qed.

Lemma hide_all_raises_witness :
  CodeChunk_init [] [] (PStr "run") (CodeStr "x") [("hide", PStr "all")] None None true
    module_heap = Raise (Py.UnboundLocalError "hide_values").
Proof.
  exact (hide_all_raises [] [] (PStr "run") (CodeStr "x") [] None None true module_heap
           (or_introl eq_refl)).
Defined.

Definition known_options : list string :=
  ["hide"; "first_number"; "label"; "lang"; "line_numbers"; "session"; "show"].

Definition only_known_added (st st' : pstate) : Prop :=
  forall k, is_Some (opts st' !! k) -> is_Some (opts st !! k) \/ k ∈ known_options.

Lemma hide_pop_opts v st st' k :
  hide_pop v st = Ok st' -> is_Some (opts st' !! k) -> is_Some (opts st !! k).
Proof.
  unfold hide_pop. destruct (opts st !! "show") as [[v0|l]|] eqn:Hs; [| |discriminate].
  - destruct v0; try discriminate. intros H. inversion H. subst. cbn.
    destruct (decide (k = "show")) as [->|Hne].
    + intros _. rewrite Hs. eexists. reflexivity.
    + rewrite lookup_insert_ne by congruence. auto.
  - destruct (objs (hp st) !! l); [|discriminate]. intros H. inversion H. subst. cbn. auto.
Qed.

Lemma hide_pop_all_opts vs : forall st st' k,
  hide_pop_all vs st = Ok st' -> is_Some (opts st' !! k) -> is_Some (opts st !! k).
Proof.
  induction vs as [|v vs IH]; intros st st' k; cbn [hide_pop_all].
  - intros H. inversion H. auto.
  - destruct (hide_pop v st) as [st1|e] eqn:E; bind_step; [|discriminate].
    intros H Hk. exact (hide_pop_opts _ _ _ _ E (IH _ _ _ H Hk)).
Qed.

Lemma set_option_known key v st : key ∈ known_options -> only_known_added st (set_option key v st).
Proof.
  intros Hk k. cbn. destruct (decide (k = key)) as [->|Hne]; [right; exact Hk|].
  rewrite lookup_insert_ne by congruence. left. assumption.
Qed.

Lemma processor_only_known inline k value st st' :
  _cb_option_processors inline k k value st = Ok st' -> only_known_added st st'.
Proof.
  unfold _cb_option_processors.
  assert (forall msg, only_known_added st (add_warning msg st)) as Hw
    by (intros msg k0 H; left; exact H).
  assert (forall n, nth_error known_options n = Some k ->
                    forall v, only_known_added st (set_option k v st)) as Hs.
  { intros n Hn v. apply set_option_known. apply list_elem_of_In.
    exact (nth_error_In _ _ Hn). }
  destruct (String.eqb_spec k "hide") as [->|_].
  { unfold _cb_option_hide. destruct value as [| | |s| |];
      try (intros H; inversion H; apply Hw).
    destruct (String.eqb s "all"); [discriminate|].
    destruct (forallb _ _); [|intros H; inversion H; apply Hw].
    destruct (hide_pop_all _ st) as [st1|] eqn:E; bind_step; [|discriminate].
    intros H. inversion H. subst. intros k0. cbn.
    destruct (decide (k0 = "hide")) as [->|Hne]; [intros _; right; left|].
    rewrite lookup_insert_ne by congruence. intros Hk. left.
    exact (hide_pop_all_opts _ _ _ _ E Hk). }
  destruct (String.eqb_spec k "first_number") as [->|_].
  { unfold _cb_option_first_number. destruct (match value with PInt _ => _ | _ => _ end);
      intros H; inversion H; [apply (Hs 1%nat eq_refl)|apply Hw]. }
  destruct (String.eqb_spec k "label") as [->|_].
  { unfold _cb_option_label. destruct (opts st !! "label"); [intros H; inversion H; apply Hw|].
    destruct value; intros H; inversion H; first [apply (Hs 2%nat eq_refl)|apply Hw]. }
  destruct (String.eqb_spec k "lang") as [->|_].
  { unfold _cb_option_str.
    destruct value; intros H; inversion H; first [apply (Hs 3%nat eq_refl)|apply Hw]. }
  destruct (String.eqb_spec k "line_numbers") as [->|_].
  { unfold _cb_option_bool.
    destruct value; intros H; inversion H; first [apply (Hs 4%nat eq_refl)|apply Hw]. }
  destruct (String.eqb_spec k "session") as [->|_].
  { unfold _cb_option_str.
    destruct value; intros H; inversion H; first [apply (Hs 5%nat eq_refl)|apply Hw]. }
  destruct (String.eqb_spec k "show") as [->|_].
  { unfold _cb_option_show. destruct value as [| | |s| |];
      try (intros H; inversion H; apply Hw).
    destruct (String.eqb s "none"); [intros H; inversion H; apply (Hs 6%nat eq_refl)|].
    assert (forall er ws l hp', only_known_added st
              {| errs := er; warns := ws; opts := <["show" := Ref l]> (opts st); hp := hp' |})
      as Hshow.
    { intros er ws l hp' k0. cbn. destruct (decide (k0 = "show")) as [->|Hne].
      - intros _. right. apply list_elem_of_In. exact (nth_error_In known_options 6 eq_refl).
      - rewrite lookup_insert_ne by congruence. intros Hk. left. exact Hk. }
    destruct (String.eqb s "notebook").
    - destruct (objs (hp st) !! _); [|discriminate]. cbn. intros H. inversion H. apply Hshow.
    - destruct (show_tokens inline "show" s (warns st)). cbn. intros H. inversion H.
      apply Hshow. }
  unfold _cb_option_unknown. intros H. inversion H. intros k0 Hk. left. exact Hk.
Qed.

(** Option processing never stores an option under a name that has no
    processor: what the options dict has afterwards it had before, or is
    one of the seven known options. *)
Theorem options_only_known_keys (inline : bool) (items : list (string * pyval))
    (st st' : pstate) :
  process_options inline items st = Ok st' ->
  forall k, is_Some (opts st' !! k) -> is_Some (opts st !! k) \/ k ∈ known_options.
Proof.
  revert st. induction items as [|[k v] items IH]; intros st; cbn [process_options].
  - intros H. inversion H. subst. intros k Hk. left. exact Hk.
  - destruct (_cb_option_processors inline k k v st) as [st1|e] eqn:E; bind_step;
      [|discriminate].
    intros H k0 Hk0. destruct (IH _ H k0 Hk0) as [Hin|Hin]; [|right; exact Hin].
    exact (processor_only_known _ _ _ _ _ E k0 Hin).
Qed.

Lemma options_only_known_keys_witness :
  exists st',
    process_options true [("bogus", PStr "x"); ("label", PStr "a")]
      {| errs := []; warns := []; opts := _cb_default_inline_options; hp := module_heap |}
    = Ok st'
    /\ forall k, is_Some (opts st' !! k) ->
                 is_Some (_cb_default_inline_options !! k) \/ k ∈ known_options.
Proof.
  assert (returned (process_options true [("bogus", PStr "x"); ("label", PStr "a")]
                      {| errs := []; warns := []; opts := _cb_default_inline_options;
                         hp := module_heap |}) = true) as H0
    by (vm_compute; reflexivity).
  destruct (returned_ok _ H0) as [st' H].
  exists st'. split; [exact H|].
  exact (options_only_known_keys true _ _ st' H).
Defined.

End BaseOptions.

(** ** What the scan for [.cb.] reports *)

Section ScanReports.
Import Base Pandoc.

Lemma drop_str_drop a b s : drop_str a (drop_str b s) = drop_str (b + a) s.
Proof.
  revert s. induction b as [|b IH]; intros s; cbn [drop_str Nat.add]; [reflexivity|].
  destruct s as [|c s]; [destruct a; reflexivity|]. apply IH.
Qed.

Lemma substring_drop i n s : String.substring i n s = String.substring 0 n (drop_str i s).
Proof.
  revert s. induction i as [|i IH]; intros s; [reflexivity|].
  destruct s as [|c s]; cbn [drop_str]; [destruct n; reflexivity|].
  cbn [String.substring]. apply IH.
Qed.

Lemma find_at_prefix sub s : forall i0 i,
  find_at sub s i0 = Some i ->
  (i0 <= i)%nat /\ String.prefix sub (drop_str (i - i0) s) = true.
Proof.
  induction s as [|a s IH]; intros i0 i H; rewrite find_at_eq in H;
    destruct (String.prefix sub _) eqn:Hp; try discriminate.
  - inversion H; subst. rewrite Nat.sub_diag. split; [lia|exact Hp].
  - inversion H; subst. rewrite Nat.sub_diag. split; [lia|exact Hp].
  - destruct (IH _ _ H) as [Hle Hpre]. split; [lia|].
    replace (i - i0)%nat with (S (i - S i0)) by lia. exact Hpre.
Qed.

(** [text.find(sub, start)] gives an index from [start] on at which
    [sub] is. *)
Lemma find_spec sub s start i :
  find sub s start = Some i ->
  (start <= i)%nat /\ slice s i (i + String.length sub) = sub.
Proof.
  unfold find. destruct (String.length s <? start)%nat; [discriminate|].
  intros H. destruct (find_at_prefix _ _ _ _ H) as [Hle Hp]. split; [exact Hle|].
  rewrite drop_str_drop in Hp. replace (start + (i - start))%nat with i in Hp by lia.
  unfold slice. replace (i + String.length sub - i)%nat with (String.length sub) by lia.
  rewrite substring_drop. apply String.prefix_correct. exact Hp.
Qed.

Lemma scan_end_stops n text : forall e e',
  scan_end n text e = Some e' -> char_in after_attr_chars (slice text e' (S e')) = true.
Proof.
  induction n as [|n IH]; intros e e'; cbn [scan_end]; [discriminate|].
  destruct (char_in after_attr_chars (slice text e (S e))) eqn:Hc.
  - intros H. inversion H; subst. exact Hc.
  - apply IH.
Qed.

Variable commands : list string.

Definition occ_index (o : occurrence) : nat := o.1.1.1.

(** What holds of a reported occurrence: the marker is at its index; its
    line is a line; its command, if it has one, is one of the commands
    and is the text from the marker to the next closing brace or white
    space; and it may be an attribute exactly when at least four
    characters come before the marker and the last of them is an opening
    brace or white space. *)
Definition reported (text : string) (o : occurrence) : Prop :=
  slice text (occ_index o) (occ_index o + 4) = ".cb."
  /\ (1 <= occ_line o)%nat
  /\ (forall c, occ_command o = Some c ->
        mem c commands = true
        /\ exists e, c = slice text (occ_index o + 4) e
                     /\ char_in after_attr_chars (slice text e (S e)) = true)
  /\ occ_maybe o
     = (4 <=? occ_index o)%nat
       && char_in before_attr_chars (slice text (occ_index o - 1) (occ_index o)).

(** The occurrences come in the order of the text, at least four
    characters apart, and their lines never go back. *)
Fixpoint in_text_order (start line : nat) (found : list occurrence) : Prop :=
  match found with
  | [] => True
  | o :: found' =>
      (start <= occ_index o)%nat /\ (line <= occ_line o)%nat
      /\ in_text_order (occ_index o + 4) (occ_line o) found'
  end.

Lemma cb_occurrence_reported text line_num start_index i :
  (1 <= line_num)%nat ->
  find ".cb." text start_index = Some i ->
  let r := cb_occurrence commands text line_num start_index i in
  reported text r.1 /\ occ_index r.1 = i /\ (line_num <= occ_line r.1)%nat
  /\ (i + 4 <= r.2)%nat.
Proof.
  intros Hline Hf. destruct (find_spec _ _ _ _ Hf) as [Hle Hm]. cbn [String.length] in Hm.
  pose proof (cb_occurrence_next commands text line_num start_index i Hf) as [Hnext _].
  unfold cb_occurrence in *. cbv zeta in *. cbn [fst snd] in *.
  split; [|split; [reflexivity|split; [unfold occ_line; cbn; lia|exact Hnext]]].
  unfold reported, occ_index, occ_line, occ_command, occ_maybe. cbn [fst snd].
  split; [exact Hm|]. split; [lia|].
  destruct (scan_end (max_command_len commands + 1) text (i + 4)) as [e|] eqn:He.
  - pose proof (scan_end_stops _ _ _ _ He) as Hstop.
    destruct (mem (slice text (i + 4) e) commands) eqn:Hmem.
    + split.
      * intros c Hc. inversion Hc. subst c. split; [exact Hmem|].
        exists e. split; [reflexivity|exact Hstop].
      * rewrite Hstop. cbn [negb].
        destruct (Nat.ltb_spec i 4) as [Hlt|Hge]; cbn [orb].
        -- destruct (Nat.leb_spec 4 i); [lia|reflexivity].
        -- destruct (Nat.leb_spec 4 i); [|lia]. cbn [andb].
           destruct (char_in before_attr_chars _); reflexivity.
    + split; [intros c Hc; discriminate|].
      destruct (Nat.ltb_spec i 4) as [Hlt|Hge]; cbn [orb].
      * destruct (Nat.leb_spec 4 i); [lia|reflexivity].
      * destruct (Nat.leb_spec 4 i); [|lia]. cbn [andb].
        destruct (char_in before_attr_chars _); reflexivity.
  - split; [intros c Hc; discriminate|].
    destruct (Nat.ltb_spec i 4) as [Hlt|Hge]; cbn [orb].
    + destruct (Nat.leb_spec 4 i); [lia|reflexivity].
    + destruct (Nat.leb_spec 4 i); [|lia]. cbn [andb].
      destruct (char_in before_attr_chars _); reflexivity.
Qed.

Lemma in_text_order_weaken start start' line line' found :
  (start' <= start)%nat -> (line' <= line)%nat ->
  in_text_order start line found -> in_text_order start' line' found.
Proof.
  destruct found as [|o found]; cbn; [trivial|].
  intros H1 H2 [H3 [H4 H5]]. split; [lia|]. split; [lia|exact H5].
Qed.

Lemma find_cb_loop_reports fuel text : forall results line_num start_index found,
  (1 <= line_num)%nat ->
  find_cb_loop commands fuel text results line_num start_index = Some found ->
  exists new,
    found = results ++ new
    /\ Forall (reported text) new
    /\ in_text_order start_index line_num new.
Proof.
  induction fuel as [|fuel IH]; intros results line_num start_index found Hline;
    cbn [find_cb_loop]; [discriminate|].
  destruct (find ".cb." text start_index) as [i|] eqn:Hf.
  - pose proof (cb_occurrence_reported text line_num start_index i Hline Hf) as Hr.
    destruct (find_spec _ _ _ _ Hf) as [Hle _].
    destruct (cb_occurrence commands text line_num start_index i) as [occ start'].
    cbn [fst snd] in Hr. destruct Hr as [Hrep [Hi [Hl Hn]]].
    assert (1 <= occ_line occ)%nat as Hline' by lia.
    intros H. destruct (IH _ _ _ _ Hline' H) as [new [-> [Hall Hord]]].
    exists (occ :: new). rewrite <- app_assoc. split; [reflexivity|].
    split; [constructor; assumption|].
    cbn [in_text_order]. rewrite Hi. split; [exact Hle|]. split; [exact Hl|].
    apply (in_text_order_weaken start' _ (occ_line occ)); [exact Hn|lia|exact Hord].
  - intros H. inversion H. exists []. rewrite app_nil_r.
    split; [reflexivity|]. split; [constructor|exact I].
Qed.

(** [_find_cb_command] returns on every text; at the index of every
    occurrence it reports the text has [.cb.]; the occurrences are in the
    order of the text, each at least four characters after the one before,
    and the line numbers start at 1 and never go back. *)
Theorem scan_reports_markers_in_order (text : string) :
  exists found,
    _find_cb_command commands text = Some found
    /\ Forall (fun o => slice text (occ_index o) (occ_index o + 4) = ".cb."
                        /\ (1 <= occ_line o)%nat) found
    /\ in_text_order 0 1 found.
Proof.
  destruct (find_cb_command_returns commands text) as [found H].
  exists found. split; [exact H|].
  destruct (find_cb_loop_reports _ _ _ _ _ _ (Nat.le_refl 1) H) as [new [-> [Hall Hord]]].
  cbn [app]. split; [|exact Hord].
  eapply Forall_impl; [exact Hall|]. intros o [H1 [H2 _]]. split; assumption.
Qed.

(** The command of a reported occurrence is one of the commands and is
    the text between the marker and the next closing brace or white space;
    and the occurrence is flagged as a possible attribute exactly when at
    least four characters come before the marker and the last of them is
    an opening brace or white space: the test on the character after a
    command that the code makes as well never fails. *)
Theorem scan_reports_command_and_flag (text : string) (found : list occurrence) :
  _find_cb_command commands text = Some found ->
  Forall (fun o =>
            (forall c, occ_command o = Some c ->
               mem c commands = true
               /\ exists e, c = slice text (occ_index o + 4) e
                            /\ char_in after_attr_chars (slice text e (S e)) = true)
            /\ occ_maybe o
               = (4 <=? occ_index o)%nat
                 && char_in before_attr_chars (slice text (occ_index o - 1) (occ_index o)))
         found.
Proof.
  intros H.
  destruct (find_cb_loop_reports _ _ _ _ _ _ (Nat.le_refl 1) H) as [new [-> [Hall _]]].
  cbn [app]. eapply Forall_impl; [exact Hall|]. intros o [_ [_ H3]]. exact H3.
Qed.

End ScanReports.

Section ScanReportsExample.
Import Base Pandoc.

Lemma scan_reports_command_and_flag_witness :
  Forall (fun o =>
            (forall c, occ_command o = Some c ->
               mem c ["code"; "run"] = true
               /\ exists e, c = slice scenario_a_text (occ_index o + 4) e
                            /\ char_in after_attr_chars (slice scenario_a_text e (S e)) = true)
            /\ occ_maybe o
               = (4 <=? occ_index o)%nat
                 && char_in before_attr_chars
                      (slice scenario_a_text (occ_index o - 1) (occ_index o)))
         [(10, 5, true, Some "run")]%nat.
Proof.
  exact (scan_reports_command_and_flag ["code"; "run"] scenario_a_text _
           scenario_a_occurrences).
Defined.

End ScanReportsExample.

(** ** Formats and concatenated sources *)

Section Formats.
Import Base Pandoc.

Lemma str_app_nil_r (s : string) : s +:+ EmptyString = s.
Proof.
  induction s as [|a s IH]; [reflexivity|].
  change (String a (s +:+ EmptyString) = String a s). f_equal. exact IH.
Qed.

Lemma str_app_cons (a : ascii) (s t : string) : String a s +:+ t = String a (s +:+ t).
Proof. reflexivity. Qed.

Lemma str_app_length (s t : string) :
  String.length (s +:+ t) = (String.length s + String.length t)%nat.
Proof.
  induction s as [|a s IH]; [reflexivity|].
  rewrite str_app_cons. cbn [String.length]. rewrite IH. reflexivity.
Qed.

(** [s[:n] + s[n:] == s] *)
Lemma slice_drop_str n : forall s, slice s 0 n +:+ drop_str n s = s.
Proof.
  unfold slice. rewrite Nat.sub_0_r.
  induction n as [|n IH]; intros s.
  - destruct s; reflexivity.
  - destruct s as [|a s]; [reflexivity|].
    cbn [String.substring drop_str]. rewrite str_app_cons. f_equal. apply IH.
Qed.

Lemma prefix_one c a s :
  String.prefix (String c EmptyString) (String a s) = ascii_eqb c a.
Proof.
  cbn [String.prefix]. unfold ascii_eqb.
  destruct (Ascii.ascii_dec c a) as [->|Hne].
  - rewrite Ascii.eqb_refl. destruct s; reflexivity.
  - symmetry. apply Ascii.eqb_neq. exact Hne.
Qed.

(** The first index of a character, with what comes before it. *)
Lemma find_char_at c s : forall i0,
  match find_at (String c EmptyString) s i0 with
  | Some i =>
      exists pre post,
        s = pre +:+ String c post /\ i = (i0 + String.length pre)%nat
        /\ contains_char c pre = false
  | None => contains_char c s = false
  end.
Proof.
  induction s as [|a s IH]; intros i0; rewrite find_at_eq.
  - reflexivity.
  - rewrite prefix_one. cbn [contains_char].
    destruct (ascii_eqb c a) eqn:Hca.
    + exists EmptyString, s. apply Ascii.eqb_eq in Hca. subst a.
      split; [reflexivity|]. split; [cbn; lia|reflexivity].
    + specialize (IH (S i0)). destruct (find_at _ s (S i0)) as [i|].
      * destruct IH as [pre [post [-> [-> Hpre]]]]. exists (String a pre), post.
        split; [reflexivity|]. split; [cbn [String.length]; lia|].
        cbn [contains_char]. rewrite Hca. exact Hpre.
      * exact IH.
Qed.

Lemma find_char c s :
  match find (String c EmptyString) s 0 with
  | Some i =>
      exists pre post,
        s = pre +:+ String c post /\ i = String.length pre /\ contains_char c pre = false
  | None => contains_char c s = false
  end.
Proof.
  unfold find. cbn [Nat.ltb Nat.leb drop_str].
  replace (String.length s <? 0)%nat with false by (symmetry; apply Nat.ltb_ge; lia).
  cbn [drop_str]. exact (find_char_at c s 0).
Qed.

Lemma contains_char_app c s t :
  contains_char c (s +:+ t) = contains_char c s || contains_char c t.
Proof.
  induction s as [|a s IH]; [reflexivity|].
  rewrite str_app_cons. cbn [contains_char]. rewrite IH. apply orb_assoc.
Qed.

Lemma slice_app_short n pre rest :
  (n <= String.length pre)%nat -> slice (pre +:+ rest) 0 n = slice pre 0 n.
Proof.
  unfold slice. rewrite Nat.sub_0_r. revert pre.
  induction n as [|n IH]; intros pre Hn.
  - destruct pre, rest; reflexivity.
  - destruct pre as [|a pre]; [cbn in Hn; lia|].
    rewrite str_app_cons. cbn [String.substring]. f_equal. apply IH. cbn in Hn. lia.
Qed.

Lemma contains_char_slice c s n : contains_char c s = false -> contains_char c (slice s 0 n) = false.
Proof.
  intros H. rewrite <- (slice_drop_str n s), contains_char_app in H.
  apply orb_false_elim in H as [H _]. exact H.
Qed.

Lemma drop_str_app pre rest : drop_str (String.length pre) (pre +:+ rest) = rest.
Proof. induction pre as [|a pre IH]; [destruct rest; reflexivity|exact IH]. Qed.

Lemma slice_whole pre rest :
  slice (pre +:+ rest) 0 (String.length pre) = pre.
Proof.
  rewrite slice_app_short by lia. unfold slice. rewrite Nat.sub_0_r.
  induction pre as [|a pre IH]; [reflexivity|]. cbn [String.length String.substring].
  f_equal. exact IH.
Qed.

(** What [_split_format_extensions] gives for a [str]: a format without
    [+] and [-], and the extensions, which start with one of them when
    there are any; the two put together are the argument. *)
Definition split_at_first_sign (fe : string) (r : option string * option string) : Prop :=
  match r with
  | (Some format, Some extensions) =>
      format +:+ extensions = fe
      /\ contains_char "+" format = false /\ contains_char "-" format = false
      /\ (startswith "+" extensions = true \/ startswith "-" extensions = true)
  | (Some format, None) =>
      format = fe /\ contains_char "+" fe = false /\ contains_char "-" fe = false
  | _ => False
  end.

Lemma split_at_sign fe pre post c other i :
  fe = pre +:+ String c post -> contains_char c pre = false ->
  (i = String.length pre)%nat -> (c = "+"%char \/ c = "-"%char) ->
  contains_char other (slice fe 0 i) = false ->
  (other = "+"%char \/ other = "-"%char) -> other <> c ->
  split_at_first_sign fe (Some (slice fe 0 i), Some (drop_str i fe)).
Proof.
  intros -> Hpre -> Hc Hother Ho Hne. cbn [split_at_first_sign].
  split; [apply slice_drop_str|].
  rewrite slice_whole in *. rewrite drop_str_app.
  assert (startswith "+" (String c post) = true \/ startswith "-" (String c post) = true) as Hs.
  { destruct Hc as [->| ->]; [left|right]; destruct post; reflexivity. }
  destruct Ho as [->| ->]; destruct Hc as [->| ->]; try congruence; auto.
Qed.

Theorem split_format_extensions_at_first_sign (fe : string) :
  split_at_first_sign fe (_split_format_extensions (Some fe)).
Proof.
  unfold _split_format_extensions.
  pose proof (find_char "+" fe) as Hp. pose proof (find_char "-" fe) as Hm.
  destruct (find "+" fe 0) as [ip|]; destruct (find "-" fe 0) as [im|];
    cbn [omap list_omap id min_index fold_left].
  - destruct Hp as [pre [post [Hfe [Hi Hpre]]]].
    destruct Hm as [pre' [post' [Hfe' [Hi' Hpre']]]].
    destruct (Nat.le_ge_cases ip im) as [Hle|Hge].
    + rewrite Nat.min_l by exact Hle.
      apply (split_at_sign fe pre post "+" "-" ip Hfe Hpre Hi (or_introl eq_refl));
        [|right; reflexivity|discriminate].
      rewrite Hfe'. rewrite slice_app_short by lia. apply contains_char_slice, Hpre'.
    + rewrite Nat.min_r by exact Hge.
      apply (split_at_sign fe pre' post' "-" "+" im Hfe' Hpre' Hi' (or_intror eq_refl));
        [|left; reflexivity|discriminate].
      rewrite Hfe. rewrite slice_app_short by lia. apply contains_char_slice, Hpre.
  - destruct Hp as [pre [post [Hfe [Hi Hpre]]]].
    apply (split_at_sign fe pre post "+" "-" ip Hfe Hpre Hi (or_introl eq_refl));
      [|right; reflexivity|discriminate].
    apply contains_char_slice, Hm.
  - destruct Hm as [pre [post [Hfe [Hi Hpre]]]].
    apply (split_at_sign fe pre post "-" "+" im Hfe Hpre Hi (or_intror eq_refl));
      [|left; reflexivity|discriminate].
    apply contains_char_slice, Hp.
  - cbn. split; [reflexivity|]. split; assumption.
Qed.

Lemma join_empty_app (xs ys : list string) :
  join EmptyString (xs ++ ys) = join EmptyString xs +:+ join EmptyString ys.
Proof.
  induction xs as [|x xs IH]; [reflexivity|].
  cbn [app]. destruct xs as [|x2 xs].
  - cbn [app join]. destruct ys as [|y ys]; [symmetry; apply str_app_nil_r|reflexivity].
  - change (join EmptyString (x :: (x2 :: xs) ++ ys))
      with (x +:+ EmptyString +:+ join EmptyString ((x2 :: xs) ++ ys)).
    rewrite IH.
    change (join EmptyString (x :: x2 :: xs))
      with (x +:+ EmptyString +:+ join EmptyString (x2 :: xs)).
    rewrite !str_app_assoc. reflexivity.
Qed.

Definition blank_eof_blank : string :=
  String nl (String nl eof_comment) +:+ String nl (String nl EmptyString).

Lemma with_eof_comment_blank_line (source : string) :
  exists body,
    with_eof_comment source = body +:+ blank_eof_blank
    /\ (source = body \/ source = body +:+ String nl EmptyString).
Proof.
  unfold with_eof_comment. cbv zeta.
  destruct (String.eqb_spec (drop_str (String.length source - 1) source)
              (String nl EmptyString)) as [Heq|Hne].
  - exists (slice source 0 (String.length source - 1)).
    pose proof (slice_drop_str (String.length source - 1) source) as Hs.
    rewrite Heq in Hs. split; [|right; symmetry; exact Hs].
    rewrite <- Hs at 1. rewrite !str_app_assoc. reflexivity.
  - exists source. split; [|left; reflexivity]. reflexivity.
Qed.

(** The text that is given to Pandoc for several sources: every source,
    in order, without its last line feed if it has one, then an empty
    line, the end-of-file comment and an empty line; so the comment is a
    block of its own however the source ends. *)
Theorem concatenated_source_has_eof_blocks (before after : list (string * string))
    (name source : string) :
  exists body,
    concat_sources (before ++ (name, source) :: after)
    = concat_sources before +:+ body +:+ blank_eof_blank +:+ concat_sources after
    /\ (source = body \/ source = body +:+ String nl EmptyString).
Proof.
  destruct (with_eof_comment_blank_line source) as [body [Hb Hs]].
  exists body. split; [|exact Hs].
  unfold concat_sources. rewrite map_app. cbn [map snd].
  rewrite join_empty_app.
  change (with_eof_comment source :: map (fun s => with_eof_comment s.2) after)
    with ([with_eof_comment source] ++ map (fun s => with_eof_comment s.2) after).
  rewrite join_empty_app. cbn [join]. rewrite Hb. rewrite !str_app_assoc. reflexivity.
Qed.

End Formats.

(** ** Tracking of source places through the conversion *)

Section TraceNodes.
Import Base Pandoc.

Variable str_of_object : store -> val -> string.

Ltac tstep := cbn [mbind result_bind mret result_ret].
Ltac tslots := rewrite ?lookup_next, ?lookup_here.
Ltac tlookups :=
  repeat first [ rewrite lookup_insert_eq
               | rewrite lookup_insert_ne by lia ].
Ltac trun := repeat (progress (tstep; tlookups; tslots)).

(** Freeze with trace info, then thaw with trace info, of a raw node whose
    content is a [str]: both return, in between the node passes the test
    for a frozen node, and afterwards the node has its type and its format
    again and its content comes after the tracker of the source name and
    the line number; no other dict and no list that existed has changed. *)
Theorem thaw_freeze_io_map_adds_tracker (st : store) (node : positive)
    (d : list (string * val)) (ty : string) (lc : positive) (raw_format : val)
    (content source_name : string) (line_number : Z) :
  store_ok st ->
  dicts st !! node = Some d ->
  od_get "t" d = Some (VAtom (SStr ty)) ->
  ty = "RawBlock" \/ ty = "RawInline" ->
  od_get "c" d = Some (VList lc) ->
  lists st !! lc = Some [raw_format; VAtom (SStr content)] ->
  exists st1 st2 lc',
    _freeze_raw_node_io_map node source_name line_number st = Ok st1
    /\ is_frozen node st1 = Ok true
    /\ _thaw_raw_node_io_map str_of_object node st1 = Ok st2
    /\ dicts st2 !! node = Some (od_set "c" (VList lc') d)
    /\ lists st2 !! lc'
       = Some [raw_format;
               VAtom (SStr (tracker (trace_of source_name line_number) +:+ content))]
    /\ (forall m, m <> node -> dicts st2 !! m = dicts st !! m)
    /\ (forall l, is_Some (lists st !! l) -> lists st2 !! l = lists st !! l).
Proof.
  intros Hok Hd Ht Hty Hc Hl.
  assert (od_mem "t" d = true) as Hmt by (eapply od_get_mem, Ht).
  assert (od_mem "c" d = true) as Hmc by (eapply od_get_mem, Hc).
  set (n := next_loc st).
  set (ty' := if String.eqb ty "RawBlock" then "CodeBlock" else "Code").
  assert (translate [("RawBlock", "CodeBlock"); ("RawInline", "Code")] (VAtom (SStr ty))
          = Ok ty') as Htr by (destruct Hty; subst; reflexivity).
  assert (translate [("CodeBlock", "RawBlock"); ("Code", "RawInline")] (VAtom (SStr ty'))
          = Ok ty) as Htr' by (destruct Hty; subst; reflexivity).
  assert (is_str "Code" (VAtom (SStr ty')) || is_str "CodeBlock" (VAtom (SStr ty')) = true)
    as Hcode by (destruct Hty; subst; reflexivity).
  set (n1 := Pos.succ n). set (n2 := Pos.succ n1). set (n3 := Pos.succ n2).
  set (n4 := Pos.succ n3). set (n5 := Pos.succ n4). set (n6 := Pos.succ n5).
  set (trace := trace_of source_name line_number).
  set (d1 := od_set "c" (VList n5) (od_set "t" (VAtom (SStr ty')) d)).
  set (lists1 :=
         <[n5 := [VList n4; VAtom (SStr content)]]>
         (<[n4 := [VAtom (SStr EmptyString); VList n; VList n3]]>
         (<[n3 := [VList n1; VList n2]]>
         (<[n2 := [VAtom (SStr "trace"); VAtom (SStr trace)]]>
         (<[n1 := [VAtom (SStr "format"); raw_format]]>
         (<[n := [VAtom (SStr "codebraid--temp")]]> (lists st))))))).
  set (st1 := {| dicts := <[node := d1]> (dicts st); lists := lists1; next_loc := n6 |}).
  assert (_freeze_raw_node_io_map node source_name line_number st = Ok st1) as Hfreeze.
  { unfold _freeze_raw_node_io_map, get_dict, getkey. rewrite Hd. tstep. rewrite Ht. tstep.
    rewrite Htr. tstep. rewrite od_set_other by discriminate. rewrite Hc. tstep.
    unfold unpack_pair, get_list. rewrite Hl. tstep. reflexivity. }
  assert (od_get "t" d1 = Some (VAtom (SStr ty'))) as Ht1.
  { unfold d1. rewrite od_set_other by discriminate. apply od_get_set_eq. }
  assert (od_get "c" d1 = Some (VList n5)) as Hc1 by apply od_get_set_eq.
  set (d2 := od_set "c" (VList n6) (od_set "t" (VAtom (SStr ty)) d1)).
  set (st2 := {| dicts := <[node := d2]> (dicts st1);
                 lists := <[n6 := [raw_format; VAtom (SStr (tracker trace +:+ content))]]> lists1;
                 next_loc := Pos.succ n6 |}).
  assert (d2 = od_set "c" (VList n6) d) as Hd2.
  { unfold d2, d1.
    rewrite (od_set_comm "t" "c") by (try discriminate; apply od_mem_set; assumption).
    rewrite od_set_set, od_set_set. rewrite (od_set_id "t") by exact Ht. reflexivity. }
  exists st1, st2, n6.
  split; [exact Hfreeze|].
  split.
  { unfold is_frozen, get_dict, getkey. cbn [dicts st1]. rewrite lookup_insert_eq. tstep.
    rewrite Ht1. tstep. rewrite Hcode. rewrite Hc1. tstep.
    unfold getitem, has_str, get_list. cbn [lists st1]. unfold lists1, n5, n4, n3, n2, n1. trun.
    rewrite bool_decide_eq_true_2; [reflexivity|]. apply list_elem_of_here. }
  split.
  { unfold _thaw_raw_node_io_map, get_dict, getkey. cbn [dicts st1]. rewrite lookup_insert_eq.
    tstep. rewrite Ht1. tstep. rewrite Htr'. tstep. rewrite od_set_other by discriminate.
    rewrite Hc1. tstep. unfold getitem, iterate, get_list. cbn [lists st1].
    unfold lists1, n5, n4, n3, n2, n1. trun.
    cbn [thaw_pairs]. unfold unpack_pair, get_list. cbn [lists st1]. unfold lists1, n5, n4, n3, n2, n1. trun.
    cbn [is_str String.eqb Ascii.eqb Bool.eqb]. trun. 
    reflexivity. }
  split; [cbn [dicts st2]; rewrite lookup_insert_eq, Hd2; reflexivity|].
  split; [cbn [lists st2]; rewrite lookup_insert_eq; reflexivity|].
  split.
  { intros m Hm. cbn [dicts st2 st1]. rewrite !lookup_insert_ne by congruence. reflexivity. }
  intros l [xs Hxs]. cbn [lists st2]. unfold lists1, n6, n5, n4, n3, n2, n1.
  assert (l < n)%positive as Hlt by (eapply store_ok_list; eassumption).
  tlookups. reflexivity.
Qed.

(** A raw node frozen without trace info cannot be thawed with trace
    info: [_freeze_raw_node] returns, and [_thaw_raw_node_io_map] on its
    result raises [UnboundLocalError] for [trace], which no key-value pair
    has bound. *)
Theorem thaw_io_map_of_plain_freeze_raises (st : store) (node : positive)
    (d : list (string * val)) (ty : string) (lc : positive) (raw_format raw_content : val) :
  dicts st !! node = Some d ->
  od_get "t" d = Some (VAtom (SStr ty)) ->
  ty = "RawBlock" \/ ty = "RawInline" ->
  od_get "c" d = Some (VList lc) ->
  lists st !! lc = Some [raw_format; raw_content] ->
  exists st1,
    _freeze_raw_node node st = Ok st1
    /\ _thaw_raw_node_io_map str_of_object node st1 = Raise (Py.UnboundLocalError "trace").
Proof.
  intros Hd Ht Hty Hc Hl.
  set (n := next_loc st).
  set (ty' := if String.eqb ty "RawBlock" then "CodeBlock" else "Code").
  assert (translate [("RawBlock", "CodeBlock"); ("RawInline", "Code")] (VAtom (SStr ty))
          = Ok ty') as Htr by (destruct Hty; subst; reflexivity).
  assert (translate [("CodeBlock", "RawBlock"); ("Code", "RawInline")] (VAtom (SStr ty'))
          = Ok ty) as Htr' by (destruct Hty; subst; reflexivity).
  set (n1 := Pos.succ n). set (n2 := Pos.succ n1). set (n3 := Pos.succ n2).
  set (n4 := Pos.succ n3).
  set (d1 := od_set "c" (VList n4) (od_set "t" (VAtom (SStr ty')) d)).
  set (lists1 :=
         <[n4 := [VList n3; raw_content]]>
         (<[n3 := [VAtom (SStr EmptyString); VList n; VList n2]]>
         (<[n2 := [VList n1]]>
         (<[n1 := [VAtom (SStr "format"); raw_format]]>
         (<[n := [VAtom (SStr "codebraid--temp")]]> (lists st)))))).
  set (st1 := {| dicts := <[node := d1]> (dicts st); lists := lists1;
                 next_loc := Pos.succ n4 |}).
  exists st1. split.
  { unfold _freeze_raw_node, get_dict, getkey. rewrite Hd. tstep. rewrite Ht. tstep.
    rewrite Htr. tstep. rewrite od_set_other by discriminate. rewrite Hc. tstep.
    unfold unpack_pair, get_list. rewrite Hl. tstep. reflexivity. }
  assert (od_get "t" d1 = Some (VAtom (SStr ty'))) as Ht1.
  { unfold d1. rewrite od_set_other by discriminate. apply od_get_set_eq. }
  assert (od_get "c" d1 = Some (VList n4)) as Hc1 by apply od_get_set_eq.
  unfold _thaw_raw_node_io_map, get_dict, getkey. cbn [dicts st1]. rewrite lookup_insert_eq.
  tstep. rewrite Ht1. tstep. rewrite Htr'. tstep. rewrite od_set_other by discriminate.
  rewrite Hc1. tstep. unfold getitem, iterate, get_list. cbn [lists st1].
  unfold lists1, n4, n3, n2, n1. trun.
  cbn [thaw_pairs]. unfold unpack_pair, get_list. cbn [lists st1]. unfold lists1, n4, n3, n2, n1. trun.
  cbn [is_str String.eqb Ascii.eqb Bool.eqb]. trun.
  reflexivity.
Qed.

(** A tracking span as [_io_map_span_node] builds it, put into a store,
    is rewritten by [_io_map_span_node_to_raw_tracker] into a raw inline
    whose format is [None] and whose content is the tracker of the source
    name and the line number. *)
Theorem span_node_becomes_raw_tracker (st : store) (source_name : string) (line_number : Z) :
  exists span st1 st2 lc,
    alloc_json (_io_map_span_node source_name line_number) st = (VDict span, st1)
    /\ _io_map_span_node_to_raw_tracker str_of_object span st1 = Ok st2
    /\ dicts st2 !! span = Some [("t", VAtom (SStr "RawInline")); ("c", VList lc)]
    /\ lists st2 !! lc
       = Some [VAtom SNone; VAtom (SStr (tracker (trace_of source_name line_number)))]
    /\ (forall m, m <> span -> dicts st2 !! m = dicts st !! m).
Proof.
  set (n := next_loc st).
  set (n1 := Pos.succ n). set (n2 := Pos.succ n1). set (n3 := Pos.succ n2).
  set (n4 := Pos.succ n3). set (n5 := Pos.succ n4). set (n6 := Pos.succ n5).
  set (n7 := Pos.succ n6).
  set (trace := trace_of source_name line_number).
  set (lists1 :=
         <[n5 := [VList n3; VList n4]]>
         (<[n4 := []]>
         (<[n3 := [VAtom (SStr EmptyString); VList n; VList n2]]>
         (<[n2 := [VList n1]]>
         (<[n1 := [VAtom (SStr "trace"); VAtom (SStr trace)]]>
         (<[n := [VAtom (SStr "codebraid--temp")]]> (lists st))))))).
  set (d1 := [("t", VAtom (SStr "Span")); ("c", VList n5)]).
  set (st1 := {| dicts := <[n6 := d1]> (dicts st); lists := lists1; next_loc := n7 |}).
  set (d2 := [("t", VAtom (SStr "RawInline")); ("c", VList n7)]).
  set (st2 := {| dicts := <[n6 := d2]> (dicts st1);
                 lists := <[n7 := [VAtom SNone; VAtom (SStr (tracker trace))]]> lists1;
                 next_loc := Pos.succ n7 |}).
  exists n6, st1, st2, n7.
  split; [reflexivity|].
  split.
  { unfold _io_map_span_node_to_raw_tracker, get_dict, getkey. cbn [dicts st1].
    rewrite lookup_insert_eq. tstep. unfold d1.
    cbn [od_set od_get String.eqb Ascii.eqb Bool.eqb]. tstep.
    unfold getitem, get_list. cbn [lists st1]. unfold lists1, n5, n4, n3, n2, n1. trun.
    reflexivity. }
  split; [cbn [dicts st2]; rewrite lookup_insert_eq; reflexivity|].
  split; [cbn [lists st2]; rewrite lookup_insert_eq; reflexivity|].
  intros m Hm. cbn [dicts st2 st1].
  rewrite !lookup_insert_ne by (intros E; apply Hm; symmetry; exact E). reflexivity.
Qed.

End TraceNodes.

Section TraceNodesExample.
Import Base Pandoc.

(** The round trip with trace info at the raw block of [raw_block_store],
    for line 7 of [doc.md]. *)
Lemma thaw_freeze_io_map_adds_tracker_witness :
  store_ok raw_block_store
  /\ dicts raw_block_store !! 4%positive
     = Some [("t", VAtom (SStr "RawBlock")); ("c", VList 3)]
  /\ lists raw_block_store !! 3%positive = Some [VAtom (SStr "html"); VAtom (SStr "<hr>")]
  /\ exists st1 st2 lc',
       _freeze_raw_node_io_map 4 "doc.md" 7 raw_block_store = Ok st1
       /\ is_frozen 4 st1 = Ok true
       /\ _thaw_raw_node_io_map (fun _ _ => EmptyString) 4 st1 = Ok st2
       /\ dicts st2 !! 4%positive = Some [("t", VAtom (SStr "RawBlock")); ("c", VList lc')]
       /\ lists st2 !! lc'
          = Some [VAtom (SStr "html");
                  VAtom (SStr (tracker (trace_of "doc.md" 7) +:+ "<hr>"))]
       /\ (forall m, m <> 4%positive -> dicts st2 !! m = dicts raw_block_store !! m)
       /\ (forall l, is_Some (lists raw_block_store !! l) ->
                     lists st2 !! l = lists raw_block_store !! l).
Proof.
  assert (store_ok raw_block_store) as Hok
    by (apply (bool_decide_unpack _); vm_compute; reflexivity).
  assert (dicts raw_block_store !! 4%positive
          = Some [("t", VAtom (SStr "RawBlock")); ("c", VList 3)]) as Hd
    by (vm_compute; reflexivity).
  assert (lists raw_block_store !! 3%positive
          = Some [VAtom (SStr "html"); VAtom (SStr "<hr>")]) as Hl
    by (vm_compute; reflexivity).
  split; [exact Hok|]. split; [exact Hd|]. split; [exact Hl|].
  exact (thaw_freeze_io_map_adds_tracker (fun _ _ => EmptyString) raw_block_store 4
           [("t", VAtom (SStr "RawBlock")); ("c", VList 3)] "RawBlock" 3
           (VAtom (SStr "html")) "<hr>" "doc.md" 7
           Hok Hd eq_refl (or_introl eq_refl) eq_refl Hl).
Defined.

Lemma thaw_io_map_of_plain_freeze_raises_witness :
  dicts raw_block_store !! 4%positive
  = Some [("t", VAtom (SStr "RawBlock")); ("c", VList 3)]
  /\ lists raw_block_store !! 3%positive = Some [VAtom (SStr "html"); VAtom (SStr "<hr>")]
  /\ exists st1,
       _freeze_raw_node 4 raw_block_store = Ok st1
       /\ _thaw_raw_node_io_map (fun _ _ => EmptyString) 4 st1 = Raise (Py.UnboundLocalError "trace").
Proof.
  assert (dicts raw_block_store !! 4%positive
          = Some [("t", VAtom (SStr "RawBlock")); ("c", VList 3)]) as Hd
    by (vm_compute; reflexivity).
  assert (lists raw_block_store !! 3%positive
          = Some [VAtom (SStr "html"); VAtom (SStr "<hr>")]) as Hl
    by (vm_compute; reflexivity).
  split; [exact Hd|]. split; [exact Hl|].
  exact (thaw_io_map_of_plain_freeze_raises (fun _ _ => EmptyString) raw_block_store 4
           [("t", VAtom (SStr "RawBlock")); ("c", VList 3)] "RawBlock" 3
           (VAtom (SStr "html")) (VAtom (SStr "<hr>"))
           Hd eq_refl (or_introl eq_refl) eq_refl Hl).
Defined.

End TraceNodesExample.

(** ** Classes and key-value pairs of a code node *)

Section Attributes.
Import Base Pandoc.

Variable commands : list string.
Variable include_keywords : list string.

(** No keyword of [Include] has a dot, so the key [include_<keyword>] is
    split at its underscore. *)
Hypothesis keywords_plain :
  Forall (fun w => contains_char "." w = false) include_keywords.

(** The number of entries that a value of the options dict stands for. *)
Definition weight (v : pyval) : nat :=
  match v with
  | PSub sub_options => length sub_options
  | _ => 1
  end.

(** The options that are set, the sub-options of a namespace counted one
    by one. *)
Definition entries (options : list (string * pyval)) : nat :=
  fold_right (fun kv n => (weight kv.2 + n)%nat) 0%nat options.

(** What the classes and pairs seen so far have led to: options and
    messages. *)
Definition accounted (st : prestate) : nat :=
  (entries (pre_options st) + length (pre_errors st) + length (pre_warnings st))%nat.

(** Only sub-options are stored at a namespace keyword. *)
Definition namespace_ok (st : prestate) : Prop :=
  forall v, od_get "include" (pre_options st) = Some v -> exists sub_options, v = PSub sub_options.

(** Nothing that is set or said is taken back. *)
Definition keeps (st st' : prestate) : Prop :=
  (forall k v, od_get k (pre_options st) = Some v -> (forall sub_options, v <> PSub sub_options) ->
               od_get k (pre_options st') = Some v)
  /\ (exists es, pre_errors st' = pre_errors st ++ es)
  /\ (exists ws, pre_warnings st' = pre_warnings st ++ ws).

Definition one_more (st : prestate) (r : result prestate) : Prop :=
  exists st', r = Ok st' /\ accounted st' = S (accounted st) /\ namespace_ok st' /\ keeps st st'.

Lemma keeps_refl st : keeps st st.
Proof.
  split; [auto|]. split; exists []; symmetry; apply app_nil_r.
Qed.

Lemma keeps_trans st1 st2 st3 : keeps st1 st2 -> keeps st2 st3 -> keeps st1 st3.
Proof.
  intros [H1 [[es1 E1] [ws1 W1]]] [H2 [[es2 E2] [ws2 W2]]]. split; [auto|].
  split; [exists (es1 ++ es2); rewrite E2, E1, app_assoc; reflexivity|].
  exists (ws1 ++ ws2). rewrite W2, W1, app_assoc. reflexivity.
Qed.

Lemma one_more_error msg st : namespace_ok st -> one_more st (Ok (pre_error msg st)).
Proof.
  intros Hns. exists (pre_error msg st). split; [reflexivity|].
  split.
  { unfold accounted, pre_error. cbn [pre_options pre_errors pre_warnings].
    rewrite length_app. cbn [length]. lia. }
  split; [exact Hns|]. split; [auto|]. split; [exists [msg]; reflexivity|].
  exists []. symmetry. apply app_nil_r.
Qed.

Lemma one_more_warning msg st : namespace_ok st -> one_more st (Ok (pre_warning msg st)).
Proof.
  intros Hns. exists (pre_warning msg st). split; [reflexivity|].
  split.
  { unfold accounted, pre_warning. cbn [pre_options pre_errors pre_warnings].
    rewrite length_app. cbn [length]. lia. }
  split; [exact Hns|]. split; [auto|]. split; [exists []; symmetry; apply app_nil_r|].
  exists [msg]. reflexivity.
Qed.

Lemma entries_app d1 d2 : entries (d1 ++ d2) = (entries d1 + entries d2)%nat.
Proof.
  unfold entries. induction d1 as [|[k v] d1 IH]; cbn [app fold_right]; [reflexivity|].
  rewrite IH. lia.
Qed.

Lemma entries_replace k old new d :
  od_get k d = Some old ->
  (entries (od_set k new d) + weight old = entries d + weight new)%nat.
Proof.
  unfold entries. induction d as [|[k0 v0] d IH]; cbn [od_get od_set]; [discriminate|].
  destruct (String.eqb k k0); intros H; cbn [fold_right snd].
  - inversion H; subst. lia.
  - specialize (IH H). lia.
Qed.

Lemma od_get_none_mem {V} (k : string) (d : list (string * V)) :
  od_get k d = None -> od_mem k d = false.
Proof.
  induction d as [|[k0 v0] d IH]; cbn; [reflexivity|].
  destruct (String.eqb k k0); [discriminate|exact IH].
Qed.

Lemma od_get_set_kept {V} (k k' : string) (v v' : V) d :
  od_mem k d = false -> od_get k' d = Some v' -> od_get k' (od_set k v d) = Some v'.
Proof.
  intros Hm Hg. destruct (String.eqb_spec k k') as [->|Hne].
  - apply od_get_mem in Hg. congruence.
  - rewrite od_set_other by exact Hne. exact Hg.
Qed.

(** A key that is new and is no namespace gets its option. *)
Lemma one_more_set k v st :
  pre_has k st = false -> k <> "include" -> weight v = 1%nat -> namespace_ok st ->
  one_more st (Ok (pre_set k v st)).
Proof.
  intros Hnew Hk Hw Hns. exists (pre_set k v st). split; [reflexivity|].
  split.
  { unfold accounted. cbn [pre_set pre_options pre_errors pre_warnings].
    rewrite (od_set_new k v _ Hnew), entries_app. cbn. lia. }
  split.
  { intros w. cbn [pre_set pre_options]. rewrite od_set_other by exact Hk. apply Hns. }
  split; [|split; exists []; symmetry; apply app_nil_r].
  intros k' v' Hg _. cbn [pre_set pre_options]. apply od_get_set_kept; assumption.
Qed.

Lemma mem_elem (x : string) (xs : list string) : mem x xs = true -> x ∈ xs.
Proof. apply existsb_eqb_elem. Qed.

Lemma class_processor_one_more c n st :
  namespace_ok st -> one_more st (_class_processors commands c n c st).
Proof.
  intros Hns. unfold _class_processors.
  destruct (mem c (map _ commands)) eqn:Hcmd.
  - unfold class_codebraid_command. destruct (pre_has _ st) eqn:Hhas;
      [apply one_more_error, Hns|].
    apply mem_elem, list_elem_of_fmap in Hcmd as [k [-> _]].
    change ("cb." +:+ k) with (String "c" (String "b" (String "." k))).
    cbn [split1 ascii_eqb Ascii.eqb Bool.eqb].
    apply one_more_set; [exact Hhas|discriminate|reflexivity|exact Hns].
  - destruct (mem c line_anchors_names).
    + unfold class_line_anchors. destruct (pre_has _ st) eqn:Hhas;
        [apply one_more_warning, Hns|].
      apply one_more_set; [exact Hhas|discriminate|reflexivity|exact Hns].
    + destruct (mem c line_numbers_names).
      * unfold class_line_numbers. destruct (pre_has _ st) eqn:Hhas;
          [apply one_more_warning, Hns|].
        apply one_more_set; [exact Hhas|discriminate|reflexivity|exact Hns].
      * unfold class_lang_or_unknown. destruct (pre_has _ st) eqn:Hhas.
        { destruct (startswith _ c); apply one_more_error, Hns. }
        destruct (0 <? n)%nat.
        { destruct (startswith _ c); apply one_more_error, Hns. }
        apply one_more_set; [exact Hhas|discriminate|reflexivity|exact Hns].
Qed.

Lemma keyval_generic_one_more key value st :
  namespace_ok st -> one_more st (keyval_generic key value st).
Proof.
  intros Hns. unfold keyval_generic.
  destruct (pre_has key st) eqn:Hhas; [apply one_more_error, Hns|].
  destruct (mem key namespace_keywords) eqn:Hk; [apply one_more_error, Hns|].
  apply one_more_set; [exact Hhas| |reflexivity|exact Hns].
  intros ->. discriminate.
Qed.

Lemma keyval_bool_one_more key value st :
  key <> "include" -> namespace_ok st -> one_more st (keyval_bool key value st).
Proof.
  intros Hk Hns. unfold keyval_bool.
  destruct (pre_has key st) eqn:Hhas; [apply one_more_error, Hns|].
  destruct (negb _); [apply one_more_error, Hns|].
  apply one_more_set; [exact Hhas|exact Hk|reflexivity|exact Hns].
Qed.

Lemma keyval_int_one_more key value st :
  key <> "include" -> namespace_ok st -> one_more st (keyval_int key value st).
Proof.
  intros Hk Hns. unfold keyval_int.
  destruct (pre_has key st) eqn:Hhas; [apply one_more_error, Hns|].
  destruct (py_int value); [|apply one_more_error, Hns].
  apply one_more_set; [exact Hhas|exact Hk|reflexivity|exact Hns].
Qed.

Lemma keyval_first_number_one_more key value st :
  namespace_ok st -> one_more st (keyval_first_number key value st).
Proof.
  intros Hns. unfold keyval_first_number.
  destruct (pre_has _ st) eqn:Hhas; [apply one_more_warning, Hns|].
  destruct (py_int value);
    (apply one_more_set; [exact Hhas|discriminate|reflexivity|exact Hns]).
Qed.

Lemma keyval_line_anchors_one_more key value st :
  namespace_ok st -> one_more st (keyval_line_anchors key value st).
Proof.
  intros Hns. unfold keyval_line_anchors.
  destruct (pre_has _ st) eqn:Hhas; [apply one_more_warning, Hns|].
  destruct (negb _); [apply one_more_warning, Hns|].
  apply one_more_set; [exact Hhas|discriminate|reflexivity|exact Hns].
Qed.

Lemma keyval_line_numbers_one_more key value st :
  namespace_ok st -> one_more st (keyval_line_numbers key value st).
Proof.
  intros Hns. unfold keyval_line_numbers.
  destruct (pre_has _ st) eqn:Hhas; [apply one_more_warning, Hns|].
  destruct (negb _); [apply one_more_warning, Hns|].
  apply one_more_set; [exact Hhas|discriminate|reflexivity|exact Hns].
Qed.

Lemma keyval_namespace_one_more w value st :
  contains_char "." w = false -> namespace_ok st ->
  one_more st (keyval_namespace ("include_" +:+ w) value st).
Proof.
  intros Hw Hns. unfold keyval_namespace.
  change ("include_" +:+ w)
    with (String "i" (String "n" (String "c" (String "l" (String "u" (String "d"
            (String "e" (String "_" w)))))))).
  cbn [contains_char split1 ascii_eqb Ascii.eqb Bool.eqb orb]. rewrite Hw.
  destruct (od_get "include" (pre_options st)) as [v|] eqn:Hg.
  - destruct (Hns v Hg) as [sub_options ->].
    destruct (od_mem w sub_options) eqn:Hsub; [apply one_more_error, Hns|].
    eexists. split; [reflexivity|].
    split.
    { unfold accounted. cbn [pre_set pre_options pre_errors pre_warnings].
      pose proof (entries_replace "include" _ (PSub (od_set w value sub_options)) _ Hg) as He.
      cbn [weight] in He. rewrite (od_set_new w value _ Hsub), length_app in He.
      rewrite (od_set_new w value _ Hsub). cbn [length] in He. lia. }
    split.
    { intros v. cbn [pre_set pre_options]. rewrite od_get_set_eq. intros H.
      inversion H. eexists. reflexivity. }
    split; [|split; exists []; symmetry; apply app_nil_r].
    intros k' v' Hg' Hv'. cbn [pre_set pre_options].
    destruct (String.eqb_spec "include" k') as [<-|Hne].
    + rewrite Hg in Hg'. inversion Hg'; subst. destruct (Hv' _ eq_refl).
    + rewrite od_set_other by exact Hne. exact Hg'.
  - pose proof (od_get_none_mem _ _ Hg) as Hnew.
    eexists. split; [reflexivity|].
    split.
    { unfold accounted. cbn [pre_set pre_options pre_errors pre_warnings].
      rewrite (od_set_new _ _ _ Hnew), entries_app. cbn. lia. }
    split.
    { intros v. cbn [pre_set pre_options]. rewrite od_get_set_eq. intros H.
      inversion H. eexists. reflexivity. }
    split; [|split; exists []; symmetry; apply app_nil_r].
    intros k' v' Hg' _. cbn [pre_set pre_options]. apply od_get_set_kept; assumption.
Qed.

Lemma include_is_no_include_key :
  mem "include" (map (fun w => "include_" +:+ w) include_keywords) = false.
Proof.
  destruct (mem _ _) eqn:H; [|reflexivity].
  apply mem_elem, list_elem_of_fmap in H as [w [H _]]. discriminate H.
Qed.

Lemma kv_processor_one_more k v st :
  namespace_ok st -> one_more st (_kv_processors include_keywords k k v st).
Proof.
  intros Hns. destruct (String.eqb_spec k "include") as [->|Hk].
  - unfold _kv_processors. rewrite include_is_no_include_key.
    cbn. apply keyval_generic_one_more, Hns.
  - unfold _kv_processors.
    repeat match goal with
           | |- context [if mem k ?l then _ else _] => destruct (mem k l) eqn:?
           end;
      first [ apply keyval_generic_one_more, Hns
            | apply keyval_bool_one_more; [exact Hk|exact Hns]
            | apply keyval_int_one_more; [exact Hk|exact Hns]
            | apply keyval_first_number_one_more, Hns
            | apply keyval_line_anchors_one_more, Hns
            | apply keyval_line_numbers_one_more, Hns
            | idtac ].
    match goal with
    | H : mem k (map _ include_keywords) = true |- _ =>
        apply mem_elem, list_elem_of_fmap in H as [w [-> Hw]];
        apply keyval_namespace_one_more; [|exact Hns];
        exact (proj1 (Forall_forall _ _) keywords_plain w Hw)
    end.
Qed.

Lemma process_classes_accounts cs : forall n st,
  namespace_ok st ->
  exists st',
    process_classes commands n cs st = Ok st'
    /\ accounted st' = (accounted st + length cs)%nat /\ namespace_ok st' /\ keeps st st'.
Proof.
  induction cs as [|c cs IH]; intros n st Hns; cbn [process_classes].
  - exists st. split; [reflexivity|]. split; [cbn; lia|]. split; [exact Hns|apply keeps_refl].
  - destruct (class_processor_one_more c n st Hns) as [st1 [-> [Hacc [Hns1 Hk1]]]].
    bind_step. destruct (IH (S n) st1 Hns1) as [st2 [-> [Hacc2 [Hns2 Hk2]]]].
    exists st2. split; [reflexivity|]. split; [cbn [length]; lia|].
    split; [exact Hns2|exact (keeps_trans _ _ _ Hk1 Hk2)].
Qed.

Lemma process_kvpairs_accounts kvs : forall st,
  namespace_ok st ->
  exists st',
    process_kvpairs include_keywords kvs st = Ok st'
    /\ accounted st' = (accounted st + length kvs)%nat /\ namespace_ok st' /\ keeps st st'.
Proof.
  induction kvs as [|[k v] kvs IH]; intros st Hns; cbn [process_kvpairs].
  - exists st. split; [reflexivity|]. split; [cbn; lia|]. split; [exact Hns|apply keeps_refl].
  - destruct (kv_processor_one_more k v st Hns) as [st1 [-> [Hacc [Hns1 Hk1]]]].
    bind_step. destruct (IH st1 Hns1) as [st2 [-> [Hacc2 [Hns2 Hk2]]]].
    exists st2. split; [reflexivity|]. split; [cbn [length]; lia|].
    split; [exact Hns2|exact (keeps_trans _ _ _ Hk1 Hk2)].
Qed.

Lemma process_kvpairs_app kvs1 kvs2 : forall st,
  process_kvpairs include_keywords (kvs1 ++ kvs2) st
  = process_kvpairs include_keywords kvs1 st ≫= process_kvpairs include_keywords kvs2.
Proof.
  induction kvs1 as [|[k v] kvs1 IH]; intros st; [reflexivity|].
  cbn [app process_kvpairs].
  destruct (_kv_processors include_keywords k k v st) as [st1|e]; bind_step;
    [apply IH|reflexivity].
Qed.

Lemma namespace_ok_empty : namespace_ok (mkPrestate [] [] []).
Proof. intros v H. discriminate H. Qed.

(** The loops of [PandocCodeChunk.__init__] over the classes and the
    key-value pairs of a node return, and every class and every pair is
    accounted for: it has set one option or one sub-option, or it has
    added one message to the errors or to the warnings. *)
Theorem every_attribute_is_an_option_or_a_message (cs : list string)
    (kvs : list (string * string)) :
  exists st1 st2,
    process_classes commands 0 cs (mkPrestate [] [] []) = Ok st1
    /\ process_kvpairs include_keywords kvs st1 = Ok st2
    /\ (entries (pre_options st2) + length (pre_errors st2) + length (pre_warnings st2)
        = length cs + length kvs)%nat.
Proof.
  destruct (process_classes_accounts cs 0 _ namespace_ok_empty) as [st1 [H1 [A1 [N1 _]]]].
  destruct (process_kvpairs_accounts kvs st1 N1) as [st2 [H2 [A2 _]]].
  exists st1, st2. split; [exact H1|]. split; [exact H2|].
  unfold accounted in A1, A2. cbn in A1. lia.
Qed.

(** An option that the classes or an earlier key-value pair have set is
    not changed by a later pair, and no message is taken back: the first
    one wins.  (The sub-options of [include] are filled one by one.) *)
Theorem first_attribute_wins (cs : list string) (kvs1 kvs2 : list (string * string)) :
  exists st0 st1 st2,
    process_classes commands 0 cs (mkPrestate [] [] []) = Ok st0
    /\ process_kvpairs include_keywords kvs1 st0 = Ok st1
    /\ process_kvpairs include_keywords (kvs1 ++ kvs2) st0 = Ok st2
    /\ (forall k v, od_get k (pre_options st1) = Some v ->
                    (forall sub_options, v <> PSub sub_options) ->
                    od_get k (pre_options st2) = Some v)
    /\ (exists es, pre_errors st2 = pre_errors st1 ++ es)
    /\ (exists ws, pre_warnings st2 = pre_warnings st1 ++ ws).
Proof.
  destruct (process_classes_accounts cs 0 _ namespace_ok_empty) as [st0 [H0 [_ [N0 _]]]].
  destruct (process_kvpairs_accounts kvs1 st0 N0) as [st1 [H1 [_ [N1 _]]]].
  destruct (process_kvpairs_accounts kvs2 st1 N1) as [st2 [H2 [_ [_ K]]]].
  exists st0, st1, st2. split; [exact H0|]. split; [exact H1|].
  split; [rewrite process_kvpairs_app, H1; exact H2|]. exact K.
Qed.

End Attributes.

Section AttributesExample.
Import Base Pandoc.

(** A language, two commands, a session given twice and an included
    file. *)
Lemma every_attribute_is_an_option_or_a_message_witness :
  Forall (fun w => contains_char "." w = false) ["file"; "lines"]
  /\ exists st1 st2,
       process_classes ["code"; "run"] 0 ["python"; "cb.run"; "cb.code"] (mkPrestate [] [] [])
       = Ok st1
       /\ process_kvpairs ["file"; "lines"]
            [("session", "a"); ("session", "b"); ("include_file", "x.py")] st1 = Ok st2
       /\ (entries (pre_options st2) + length (pre_errors st2) + length (pre_warnings st2)
           = 3 + 3)%nat.
Proof.
  assert (Forall (fun w => contains_char "." w = false) ["file"; "lines"]) as Hplain
    by (repeat constructor).
  split; [exact Hplain|].
  exact (every_attribute_is_an_option_or_a_message ["code"; "run"] ["file"; "lines"] Hplain
           ["python"; "cb.run"; "cb.code"]
           [("session", "a"); ("session", "b"); ("include_file", "x.py")]).
Defined.

Lemma first_attribute_wins_witness :
  Forall (fun w => contains_char "." w = false) ["file"; "lines"]
  /\ exists st0 st1 st2,
       process_classes ["code"; "run"] 0 ["python"; "cb.run"] (mkPrestate [] [] []) = Ok st0
       /\ process_kvpairs ["file"; "lines"] [("session", "a")] st0 = Ok st1
       /\ process_kvpairs ["file"; "lines"]
            ([("session", "a")] ++ [("session", "b"); ("lang", "r")]) st0 = Ok st2
       /\ (forall k v, od_get k (pre_options st1) = Some v ->
                       (forall sub_options, v <> PSub sub_options) ->
                       od_get k (pre_options st2) = Some v)
       /\ (exists es, pre_errors st2 = pre_errors st1 ++ es)
       /\ (exists ws, pre_warnings st2 = pre_warnings st1 ++ ws).
Proof.
  assert (Forall (fun w => contains_char "." w = false) ["file"; "lines"]) as Hplain
    by (repeat constructor).
  split; [exact Hplain|].
  exact (first_attribute_wins ["code"; "run"] ["file"; "lines"] Hplain
           ["python"; "cb.run"] [("session", "a")] [("session", "b"); ("lang", "r")]).
Defined.

End AttributesExample.

(** ** The Markdown of a chunk *)

Section MarkdownFence.
Import Base Pandoc.

Lemma find_from_start sub s : find sub s 0 = find_at sub s 0.
Proof.
  unfold find. replace (String.length s <? 0)%nat with false
    by (symmetry; apply Nat.ltb_ge; lia).
  reflexivity.
Qed.

Lemma contains_length sub s :
  contains sub s = true -> (String.length sub <= String.length s)%nat.
Proof.
  unfold contains. rewrite find_from_start.
  destruct (find_at sub s 0) as [i|] eqn:H; [|discriminate].
  intros _. destruct (find_at_bounds _ _ _ _ H). lia.
Qed.

Lemma prefix_app sub post : String.prefix sub (sub +:+ post) = true.
Proof.
  induction sub as [|a sub IH]; [destruct post; reflexivity|].
  rewrite str_app_cons. cbn [String.prefix].
  destruct (Ascii.ascii_dec a a); [exact IH|congruence].
Qed.

Lemma find_at_app sub pre post : forall i, find_at sub (pre +:+ sub +:+ post) i <> None.
Proof.
  induction pre as [|a pre IH]; intros i; rewrite find_at_eq.
  - change (EmptyString +:+ sub +:+ post) with (sub +:+ post).
    rewrite prefix_app. discriminate.
  - destruct (String.prefix sub _); [discriminate|].
    rewrite str_app_cons. apply IH.
Qed.

(** [sub in s] for an [s] that has [sub] in it. *)
Lemma contains_app sub pre post : contains sub (pre +:+ sub +:+ post) = true.
Proof.
  unfold contains. rewrite find_from_start.
  pose proof (find_at_app sub pre post 0) as H.
  destruct (find_at _ _ 0); [reflexivity|congruence].
Qed.

Lemma prefix_split sub s :
  String.prefix sub s = true -> exists post, s = sub +:+ post.
Proof.
  revert s. induction sub as [|a sub IH]; intros s H.
  - exists s. reflexivity.
  - destruct s as [|b s]; [discriminate|]. cbn [String.prefix] in H.
    destruct (Ascii.ascii_dec a b) as [->|]; [|discriminate].
    destruct (IH s H) as [post ->]. exists post. reflexivity.
Qed.

Lemma find_at_split sub s : forall i0 i,
  find_at sub s i0 = Some i -> exists pre post, s = pre +:+ sub +:+ post.
Proof.
  induction s as [|a s IH]; intros i0 i H; rewrite find_at_eq in H;
    destruct (String.prefix sub _) eqn:Hp; try discriminate.
  - destruct (prefix_split _ _ Hp) as [post Hs]. exists EmptyString, post. exact Hs.
  - destruct (prefix_split _ _ Hp) as [post Hs]. exists EmptyString, post. exact Hs.
  - destruct (IH _ _ H) as [pre [post ->]]. exists (String a pre), post. reflexivity.
Qed.

Lemma contains_split sub s :
  contains sub s = true -> exists pre post, s = pre +:+ sub +:+ post.
Proof.
  unfold contains. rewrite find_from_start.
  destruct (find_at sub s 0) as [i|] eqn:H; [|discriminate].
  intros _. exact (find_at_split _ _ _ _ H).
Qed.

(** A text that is part of another. *)
Definition occurs_in (line code : string) : Prop :=
  exists before after, code = before +:+ line +:+ after.

Lemma contains_occurs sub line code :
  occurs_in line code -> contains sub code = false -> contains sub line = false.
Proof.
  intros [before [after ->]] H. destruct (contains sub line) eqn:Hl; [|reflexivity].
  destruct (contains_split _ _ Hl) as [pre [post ->]].
  rewrite <- H. symmetry.
  replace (before +:+ (pre +:+ sub +:+ post) +:+ after)
    with ((before +:+ pre) +:+ sub +:+ (post +:+ after))
    by (rewrite !str_app_assoc; reflexivity).
  apply contains_app.
Qed.

(** [piece * k] *)
Fixpoint str_repeat (piece : string) (k : nat) : string :=
  match k with
  | O => EmptyString
  | S k' => piece +:+ str_repeat piece k'
  end.

Lemma str_repeat_end piece k : str_repeat piece k +:+ piece = str_repeat piece (S k).
Proof.
  induction k as [|k IH]; cbn [str_repeat].
  - rewrite str_app_nil_r. reflexivity.
  - rewrite str_app_assoc, IH. reflexivity.
Qed.

(** The loop over [delim] ends with a [delim] that is not in [code]. *)
Lemma grow_delim_not_in piece code : forall fuel k,
  (1 <= String.length piece)%nat ->
  (String.length code < String.length (str_repeat piece (S k)) + fuel)%nat ->
  exists k',
    grow_delim fuel piece (str_repeat piece (S k)) code = str_repeat piece (S k')
    /\ contains (str_repeat piece (S k')) code = false.
Proof.
  induction fuel as [|fuel IH]; intros k Hp Hlen; cbn [grow_delim].
  - exists k. split; [reflexivity|].
    destruct (contains _ code) eqn:H; [|reflexivity].
    apply contains_length in H. lia.
  - destruct (contains (str_repeat piece (S k)) code) eqn:H.
    + rewrite str_repeat_end. apply IH; [exact Hp|].
      rewrite <- str_repeat_end, str_app_length. lia.
    + exists k. split; [reflexivity|exact H].
Qed.

Lemma grow_delim_fence piece code :
  (1 <= String.length piece)%nat ->
  exists k,
    grow_delim (S (String.length code)) piece piece code = str_repeat piece (S k)
    /\ contains (str_repeat piece (S k)) code = false.
Proof.
  intros Hp.
  assert (str_repeat piece 1 = piece) as E by (cbn [str_repeat]; apply str_app_nil_r).
  destruct (grow_delim_not_in piece code (S (String.length code)) 0 Hp) as [k [Hk Hnot]].
  { rewrite E. lia. }
  exists k. rewrite E in Hk. split; [exact Hk|exact Hnot].
Qed.

(** The Markdown of a code block without placeholder: the opening fence
    with the attributes in braces, the lines of the code, and the closing
    fence.  The fence is a run of backticks, three or a multiple of three,
    that is not in the code; when every line is part of the code, as the
    base class has it, no line has the fence in it. *)
Theorem block_fence_not_in_code (code_lines : list string) (h : heap)
    (self : PandocCodeChunk) (example : bool) (keys : list string) :
  inline (chunk self) = false ->
  hide_markup_keys h (options (chunk self)) = Ok keys ->
  Forall (fun line => occurs_in line (code (chunk self))) code_lines ->
  exists k,
    _generate_markdown_lines None code_lines h self example
    = Ok ([str_repeat "```" (S k) +:+ "{"
           +:+ join " " (attr_list (node_id self) (node_classes self) (node_kvpairs self)
                           (if example then keys ++ ["example"] else keys))
           +:+ "}"]
          ++ code_lines ++ [str_repeat "```" (S k)])
    /\ contains (str_repeat "```" (S k)) (code (chunk self)) = false
    /\ Forall (fun line => contains (str_repeat "```" (S k)) line = false) code_lines.
Proof.
  intros Hinline Hkeys Hlines.
  destruct (grow_delim_fence "```" (code (chunk self))) as [k [Hk Hnot]]; [cbn; lia|].
  exists k. split; [|split; [exact Hnot|]].
  - unfold _generate_markdown_lines. rewrite Hkeys. bind_step. rewrite Hinline.
    cbn [orb]. rewrite Hk. reflexivity.
  - eapply Forall_impl; [exact Hlines|]. intros line Hocc.
    exact (contains_occurs _ _ _ Hocc Hnot).
Qed.

Lemma rev_app_eq s : forall t, String.rev_app s t = String.rev s +:+ t.
Proof.
  unfold String.rev. induction s as [|a s IH]; intros t; cbn [String.rev_app]; [reflexivity|].
  rewrite (IH (String a t)), (IH (String a EmptyString)), str_app_assoc. reflexivity.
Qed.

Lemma rev_cons a s : String.rev (String a s) = String.rev s +:+ String a EmptyString.
Proof. unfold String.rev at 1. cbn [String.rev_app]. apply rev_app_eq. Qed.

Lemma rev_snoc s a : String.rev (s +:+ String a EmptyString) = String a (String.rev s).
Proof.
  induction s as [|b s IH]; [reflexivity|].
  rewrite str_app_cons, rev_cons, IH, rev_cons. reflexivity.
Qed.

Lemma rev_rev s : String.rev (String.rev s) = s.
Proof.
  induction s as [|a s IH]; [reflexivity|]. rewrite rev_cons, rev_snoc, IH. reflexivity.
Qed.

Lemma lstrip_char_last c d s :
  ascii_eqb c d = false ->
  exists u, lstrip_char c (s +:+ String d EmptyString) = u +:+ String d EmptyString.
Proof.
  intros Hcd. induction s as [|a s IH].
  - exists EmptyString. change (EmptyString +:+ String d EmptyString) with (String d EmptyString).
    cbn [lstrip_char]. rewrite Hcd. reflexivity.
  - rewrite str_app_cons. cbn [lstrip_char]. destruct (ascii_eqb c a); [exact IH|].
    exists (String a s). reflexivity.
Qed.

Lemma startswith_backtick s :
  startswith "`" s = true -> exists s', s = String "`" s'.
Proof.
  intros H. destruct (prefix_split _ _ H) as [post ->]. exists post. reflexivity.
Qed.

Lemma endswith_backtick s :
  endswith "`" s = true -> exists s', s = s' +:+ "`".
Proof.
  unfold endswith. intros H. destruct (prefix_split _ _ H) as [post Hs].
  exists (String.rev post). rewrite <- (rev_rev s), Hs.
  change (String.rev "`" +:+ post) with (String "`" post).
  rewrite rev_cons. reflexivity.
Qed.

Lemma endswith_snoc s a : endswith "`" (s +:+ String a EmptyString) = ascii_eqb "`" a.
Proof.
  unfold endswith. rewrite rev_snoc. change (String.rev "`") with (String "`" EmptyString).
  apply prefix_one.
Qed.

(** Stripping spaces keeps a backtick at the start and at the end. *)
Lemma strip_keeps_start s : startswith "`" (strip_char " " (String "`" s)) = true.
Proof.
  unfold strip_char. cbn [lstrip_char ascii_eqb Ascii.eqb Bool.eqb]. rewrite rev_cons.
  destruct (lstrip_char_last " " "`" (String.rev s) eq_refl) as [u ->].
  rewrite rev_snoc. destruct (String.rev u); reflexivity.
Qed.

Lemma strip_keeps_end s : endswith "`" (strip_char " " (s +:+ "`")) = true.
Proof.
  unfold strip_char.
  destruct (lstrip_char_last " " "`" s eq_refl) as [u ->].
  rewrite rev_snoc. cbn [lstrip_char ascii_eqb Ascii.eqb Bool.eqb].
  rewrite rev_cons, rev_rev. rewrite endswith_snoc. reflexivity.
Qed.

(** The code with its padding has no backtick at either end. *)
Lemma padded_ends text :
  let code_strip := strip_char " " text in
  let code1 := if startswith "`" code_strip then " " +:+ text else text in
  let code2 := if endswith "`" code_strip then code1 +:+ " " else code1 in
  startswith "`" code2 = false /\ endswith "`" code2 = false.
Proof.
  cbv zeta.
  assert (startswith "`" (strip_char " " text) = false -> startswith "`" text = false) as Hs.
  { intros H. destruct (startswith "`" text) eqn:E; [|reflexivity].
    destruct (startswith_backtick _ E) as [s' ->]. rewrite strip_keeps_start in H.
    discriminate. }
  assert (endswith "`" (strip_char " " text) = false -> endswith "`" text = false) as He.
  { intros H. destruct (endswith "`" text) eqn:E; [|reflexivity].
    destruct (endswith_backtick _ E) as [s' ->]. rewrite strip_keeps_end in H.
    discriminate. }
  destruct (startswith "`" (strip_char " " text)) eqn:S1;
    destruct (endswith "`" (strip_char " " text)) eqn:E1.
  - split; [reflexivity|]. apply (endswith_snoc (" " +:+ text) " ").
  - split; [reflexivity|]. specialize (He eq_refl).
    destruct text as [|a text]; [reflexivity|].
    revert He. unfold endswith.
    change (" " +:+ String a text) with (String " " (String a text)).
    rewrite (rev_cons " "), (rev_cons a).
    change (String.rev "`") with (String "`" EmptyString).
    destruct (String.rev text) as [|b r].
    + change (EmptyString +:+ String a EmptyString) with (String a EmptyString).
      rewrite str_app_cons, !prefix_one. intros He. exact He.
    + rewrite !str_app_cons, !prefix_one. intros He. exact He.
  - split; [|apply (endswith_snoc text " ")]. specialize (Hs eq_refl).
    destruct text as [|a text]; [reflexivity|]. revert Hs. unfold startswith.
    rewrite str_app_cons, !prefix_one. intros Hs. exact Hs.
  - split; [exact (Hs eq_refl)|exact (He eq_refl)].
Qed.

(** The Markdown of inline code: one line, the code with its padding
    between two equal runs of backticks, and then the attributes in
    braces.  The run is not in the padded code, and the padded code has no
    backtick at its start or at its end, so the delimiters end where the
    code starts. *)
Theorem inline_delimiter_not_in_code (placeholder_code_lines : option (list string))
    (code_lines : list string) (h : heap) (self : PandocCodeChunk) (example : bool)
    (keys : list string) (text : string) :
  inline (chunk self) = true ->
  hide_markup_keys h (options (chunk self)) = Ok keys ->
  match placeholder_code_lines with
  | Some lines => exists rest, lines = text :: rest
  | None => text = code (chunk self)
  end ->
  exists k padded,
    _generate_markdown_lines placeholder_code_lines code_lines h self example
    = Ok [str_repeat "`" (S k) +:+ padded +:+ str_repeat "`" (S k) +:+ "{"
          +:+ join " " (attr_list (node_id self) (node_classes self) (node_kvpairs self)
                          (if example then keys ++ ["example"] else keys))
          +:+ "}"]
    /\ contains (str_repeat "`" (S k)) padded = false
    /\ occurs_in text padded
    /\ startswith "`" padded = false /\ endswith "`" padded = false.
Proof.
  intros Hinline Hkeys Htext.
  set (code_strip := strip_char " " text).
  set (code1 := if startswith "`" code_strip then " " +:+ text else text).
  set (code2 := if endswith "`" code_strip then code1 +:+ " " else code1).
  destruct (grow_delim_fence "`" code2) as [k [Hk Hnot]]; [cbn; lia|].
  exists k, code2. split; [|split; [exact Hnot|split; [|exact (padded_ends text)]]].
  - unfold _generate_markdown_lines. rewrite Hkeys. bind_step.
    assert (match placeholder_code_lines with
            | Some [] => Raise (Py.IndexError "list index out of range")
            | Some (first :: rest) => Ok (first :: rest, first)
            | None => Ok (code_lines, code (chunk self))
            end
            = Ok (match placeholder_code_lines with Some ls => ls | None => code_lines end,
                  text)) as ->.
    { destruct placeholder_code_lines as [ls|]; [|rewrite Htext; reflexivity].
      destruct Htext as [rest ->]. reflexivity. }
    bind_step. rewrite Hinline. fold code_strip. fold code1. fold code2.
    rewrite Hk. reflexivity.
  - unfold code2, code1.
    destruct (startswith "`" code_strip); destruct (endswith "`" code_strip).
    + exists " ", " ". rewrite str_app_assoc. reflexivity.
    + exists " ", EmptyString. rewrite str_app_nil_r. reflexivity.
    + exists EmptyString, " ". reflexivity.
    + exists EmptyString, EmptyString. rewrite str_app_nil_r. reflexivity.
Qed.

End MarkdownFence.

Section MarkdownExamples.
Import Base Pandoc.

(** A block whose code has a fence of three backticks in it. *)
Definition fence_code_lines : list string := ["x = 1"; "```" +:+ String nl EmptyString].

Definition fence_chunk : PandocCodeChunk :=
  {| chunk := {| source_errors := []; source_warnings := [];
                 command := PStr "run";
                 code := "x = 1" +:+ String nl ("```" +:+ String nl EmptyString);
                 source_name := None; source_start_line_number := None;
                 inline := false;
                 options := <["example" := Val (PBool false)]> _cb_default_options |};
     node := 7; parent_node := Loaded 9; parent_node_list := VList 8;
     parent_node_list_index := 0;
     node_id := EmptyString; node_classes := ["python"; "cb.run"];
     node_kvpairs := [("session", "a b")];
     pandoc_id := EmptyString; pandoc_classes := []; pandoc_kvpairs := [];
     Pandoc._output_nodes := None; runtime_source_error := Unset;
     code_start_line_number := None; repl_lines := Unset; expr_lines := Unset;
     stdout_lines := Unset; stderr_lines := Unset; rich_output := Unset |}.

Lemma block_fence_not_in_code_witness :
  inline (chunk fence_chunk) = false
  /\ hide_markup_keys module_heap (options (chunk fence_chunk)) = Ok []
  /\ Forall (fun line => occurs_in line (code (chunk fence_chunk))) fence_code_lines
  /\ exists k,
       _generate_markdown_lines None fence_code_lines module_heap fence_chunk false
       = Ok ([str_repeat "```" (S k) +:+ "{"
              +:+ join " " (attr_list (node_id fence_chunk) (node_classes fence_chunk)
                              (node_kvpairs fence_chunk) [])
              +:+ "}"]
             ++ fence_code_lines ++ [str_repeat "```" (S k)])
       /\ contains (str_repeat "```" (S k)) (code (chunk fence_chunk)) = false
       /\ Forall (fun line => contains (str_repeat "```" (S k)) line = false)
            fence_code_lines.
Proof.
  assert (hide_markup_keys module_heap (options (chunk fence_chunk)) = Ok []) as Hkeys
    by (vm_compute; reflexivity).
  assert (Forall (fun line => occurs_in line (code (chunk fence_chunk))) fence_code_lines)
    as Hlines.
  { repeat constructor.
    - exists EmptyString, (String nl ("```" +:+ String nl EmptyString)). reflexivity.
    - exists ("x = 1" +:+ String nl EmptyString), EmptyString. reflexivity. }
  split; [reflexivity|]. split; [exact Hkeys|]. split; [exact Hlines|].
  exact (block_fence_not_in_code fence_code_lines module_heap fence_chunk false []
           eq_refl Hkeys Hlines).
Defined.

(** The inline chunk of scenario A, whose code is its own text. *)
Lemma inline_delimiter_not_in_code_witness :
  inline (chunk shown_chunk) = true
  /\ hide_markup_keys module_heap (options (chunk shown_chunk)) = Ok []
  /\ exists k padded,
       _generate_markdown_lines None [] module_heap shown_chunk true
       = Ok [str_repeat "`" (S k) +:+ padded +:+ str_repeat "`" (S k) +:+ "{"
             +:+ join " " (attr_list (node_id shown_chunk) (node_classes shown_chunk)
                             (node_kvpairs shown_chunk) ([] ++ ["example"]))
             +:+ "}"]
       /\ contains (str_repeat "`" (S k)) padded = false
       /\ occurs_in (code (chunk shown_chunk)) padded
       /\ startswith "`" padded = false /\ endswith "`" padded = false.
Proof.
  assert (hide_markup_keys module_heap (options (chunk shown_chunk)) = Ok []) as Hkeys
    by (vm_compute; reflexivity).
  split; [reflexivity|]. split; [exact Hkeys|].
  exact (inline_delimiter_not_in_code None [] module_heap shown_chunk true []
           (code (chunk shown_chunk)) eq_refl Hkeys eq_refl).
Defined.

End MarkdownExamples.

(** ** The splice of an example *)

Section ExampleSplice.
Import Base Pandoc Tree.

Variable layout_output : PandocCodeChunk -> string -> string -> option (list string) -> string.
Variable splitlines_lf : string -> list string.
Variable rich_text_default_display : list (string * string).
Variable mime_map : list (string * string).

(** The splice of a block chunk that is an example: its slot, which the
    list must have, gets one new [Div]; the list keeps its length and its
    other items, and no other list changes. *)
Theorem example_block_replaces_slot (h : heap) (self self' : PandocCodeChunk)
    (st st' : store) (example : slot) :
  store_ok st ->
  options (chunk self) !! "example" = Some example ->
  truthy h example = true ->
  inline (chunk self) = false ->
  update_parent_node layout_output splitlines_lf rich_text_default_display mime_map h self st
  = Ok (st', self') ->
  exists l xs loc d,
    parent_node_list self = VList l
    /\ lists st !! l = Some xs
    /\ (parent_node_list_index self < length xs)%nat
    /\ lists st' !! l = Some (<[parent_node_list_index self := VDict loc]> xs)
    /\ dicts st !! loc = None
    /\ dicts st' !! loc = Some d
    /\ od_get "t" d = Some (VAtom (SStr "Div"))
    /\ (forall l' xs', l' <> l -> lists st !! l' = Some xs' -> lists st' !! l' = Some xs').
Proof.
  intros Hok Hex Htrue Hblock. unfold update_parent_node. rewrite Hex, Htrue. cbn [negb].
  destruct (output_nodes _ _ _ _ h self) as [[nodes self1]|e]; bind_step; [|discriminate].
  rewrite Hblock.
  destruct (parent_node_list self) as [a|l|l]; try discriminate.
  unfold get_list. destruct (lists st !! l) as [xs|] eqn:Hl; bind_step; [|discriminate].
  destruct (parent_node_list_index self <? length xs)%nat eqn:Hlt; [|discriminate].
  match goal with
  | |- context [alloc_json (JNode "Div" ?c) st] =>
      pose proof (alloc_json_node {| t := "Div"; c := c |} st Hok) as Hnew;
      pose proof (alloc_json_grows (JNode "Div" c) st Hok) as Hg;
      change (of_node {| t := "Div"; c := c |}) with (JNode "Div" c) in Hnew;
      destruct (alloc_json (JNode "Div" c) st) as [v st1]
  end.
  cbn [fst snd] in Hnew, Hg. destruct Hg as [_ [Hl1 _]].
  destruct Hnew as [loc [d [-> [Hfree [Hd Ht]]]]].
  intros H. inversion H. subst. exists l, xs, loc, d.
  split; [reflexivity|]. split; [exact Hl|].
  split; [apply Nat.ltb_lt; exact Hlt|].
  split; [cbn; apply lookup_insert_eq|].
  split; [exact Hfree|]. split; [exact Hd|]. split; [exact Ht|].
  intros l' xs' Hne Hx. cbn. rewrite lookup_insert_ne by congruence. exact (Hl1 _ _ Hx).
Qed.

(** The splice of an inline chunk that is an example, in a paragraph of
    the AST: the paragraph itself becomes the [Div], with new contents; no
    list that existed changes, so the paragraph keeps its place, and no
    other dict changes. *)
Theorem example_inline_rewrites_paragraph (h : heap) (self self' : PandocCodeChunk)
    (st st' : store) (example : slot) (p : positive) :
  store_ok st ->
  options (chunk self) !! "example" = Some example ->
  truthy h example = true ->
  inline (chunk self) = true ->
  parent_node self = Loaded p ->
  update_parent_node layout_output splitlines_lf rich_text_default_display mime_map h self st
  = Ok (st', self') ->
  exists d contents,
    dicts st !! p = Some d
    /\ dicts st' !! p
       = Some (od_set "c" contents (od_set "t" (VAtom (SStr "Div")) d))
    /\ (forall l xs, lists st !! l = Some xs -> lists st' !! l = Some xs)
    /\ (forall m d', m <> p -> dicts st !! m = Some d' -> dicts st' !! m = Some d').
Proof.
  intros Hok Hex Htrue Hinline Hp. unfold update_parent_node. rewrite Hex, Htrue. cbn [negb].
  destruct (output_nodes _ _ _ _ h self) as [[nodes self1]|e]; bind_step; [|discriminate].
  rewrite Hinline, Hp.
  unfold get_dict. destruct (dicts st !! p) as [d|] eqn:Hd; bind_step; [|discriminate].
  match goal with
  | |- context [alloc_json ?x st] =>
      pose proof (alloc_json_grows x st Hok) as Hg;
      destruct (alloc_json x st) as [vc st1]
  end.
  cbn [snd] in Hg. destruct Hg as [_ [Hl1 Hd1]].
  intros H. inversion H. subst. exists d, vc.
  split; [reflexivity|]. split; [cbn; apply lookup_insert_eq|].
  split; [intros l xs Hx; cbn; exact (Hl1 _ _ Hx)|].
  intros m d' Hne Hm. cbn. rewrite lookup_insert_ne by congruence. exact (Hd1 _ _ Hm).
Qed.

End ExampleSplice.

Section ExampleSpliceExamples.
Import Base Pandoc Tree.

(** The third block of [four_blocks_doc], an example, after it has run,
    with the options that a newer base class adds. *)
Definition example_block_chunk : PandocCodeChunk :=
  {| chunk := {| source_errors := []; source_warnings := [];
                 command := PStr "code"; code := "z" +:+ String nl EmptyString;
                 source_name := None; source_start_line_number := None;
                 inline := false;
                 options :=
                   <["example" := Val (PBool true)]>
                     (<["code_line_numbers" := Val (PBool false)]>
                        (<["show" := Val (PSub [("code", "verbatim")])]>
                           _cb_default_options)) |};
     node := 19; parent_node := Loaded 28; parent_node_list := VList 27;
     parent_node_list_index := 2;
     node_id := EmptyString; node_classes := ["cb.code"];
     node_kvpairs := [("example", "true")];
     pandoc_id := EmptyString; pandoc_classes := []; pandoc_kvpairs := [];
     Pandoc._output_nodes := None; runtime_source_error := Assigned false;
     code_start_line_number := None; repl_lines := Assigned None;
     expr_lines := Assigned None; stdout_lines := Assigned None;
     stderr_lines := Assigned None; rich_output := Assigned None |}.

Lemma example_block_chunk_spliced :
  returned (update_parent_node (fun _ output _ _ => output) (fun s => [s]) [] [] module_heap
              example_block_chunk four_blocks_store) = true.
Proof. vm_compute. reflexivity. Qed.

Lemma example_block_replaces_slot_witness :
  exists st' self' l xs loc d,
    update_parent_node (fun _ output _ _ => output) (fun s => [s]) [] [] module_heap
      example_block_chunk four_blocks_store = Ok (st', self')
    /\ parent_node_list example_block_chunk = VList l
    /\ lists four_blocks_store !! l = Some xs
    /\ (parent_node_list_index example_block_chunk < length xs)%nat
    /\ lists st' !! l = Some (<[parent_node_list_index example_block_chunk := VDict loc]> xs)
    /\ dicts four_blocks_store !! loc = None
    /\ dicts st' !! loc = Some d
    /\ od_get "t" d = Some (VAtom (SStr "Div"))
    /\ (forall l' xs', l' <> l -> lists four_blocks_store !! l' = Some xs' ->
                       lists st' !! l' = Some xs').
Proof.
  destruct (returned_ok _ example_block_chunk_spliced) as [[st' self'] Hu].
  exists st', self'.
  destruct (example_block_replaces_slot (fun _ output _ _ => output) (fun s => [s]) [] []
              module_heap example_block_chunk self' four_blocks_store st' (Val (PBool true))
              four_blocks_store_ok eq_refl eq_refl eq_refl Hu) as [l [xs [loc [d H]]]].
  exists l, xs, loc, d. split; [exact Hu|exact H].
Defined.

(** The inline chunk of scenario A as an example. *)
Definition example_inline_chunk : PandocCodeChunk :=
  {| chunk := {| source_errors := []; source_warnings := [];
                 command := PStr "run"; code := "x+1";
                 source_name := None; source_start_line_number := None;
                 inline := true;
                 options :=
                   <["example" := Val (PBool true)]>
                     (<["show" := Val (PSub [("code", "verbatim"); ("stdout", "raw")])]>
                        _cb_default_inline_options) |};
     node := 7; parent_node := Loaded 9; parent_node_list := VList 8;
     parent_node_list_index := 0;
     node_id := EmptyString; node_classes := ["cb.run"]; node_kvpairs := [("example", "true")];
     pandoc_id := EmptyString; pandoc_classes := []; pandoc_kvpairs := [];
     Pandoc._output_nodes := None; runtime_source_error := Assigned false;
     code_start_line_number := None; repl_lines := Assigned None;
     expr_lines := Assigned None; stdout_lines := Assigned (Some ["1"]);
     stderr_lines := Assigned None; rich_output := Assigned None |}.

Lemma example_inline_chunk_spliced :
  returned (update_parent_node (fun _ output _ _ => output) (fun s => [s]) [] [] module_heap
              example_inline_chunk scenario_a_store) = true.
Proof. vm_compute. reflexivity. Qed.

Lemma example_inline_rewrites_paragraph_witness :
  exists st' self' d contents,
    update_parent_node (fun _ output _ _ => output) (fun s => [s]) [] [] module_heap
      example_inline_chunk scenario_a_store = Ok (st', self')
    /\ dicts scenario_a_store !! 9%positive = Some d
    /\ dicts st' !! 9%positive
       = Some (od_set "c" contents (od_set "t" (VAtom (SStr "Div")) d))
    /\ (forall l xs, lists scenario_a_store !! l = Some xs -> lists st' !! l = Some xs)
    /\ (forall m d', m <> 9%positive -> dicts scenario_a_store !! m = Some d' ->
                     dicts st' !! m = Some d').
Proof.
  destruct (returned_ok _ example_inline_chunk_spliced) as [[st' self'] Hu].
  exists st', self'.
  destruct (example_inline_rewrites_paragraph (fun _ output _ _ => output) (fun s => [s]) [] []
              module_heap example_inline_chunk self' scenario_a_store st' (Val (PBool true)) 9
              scenario_a_store_ok eq_refl eq_refl eq_refl eq_refl Hu) as [d [contents H]].
  exists d, contents. split; [exact Hu|exact H].
Defined.

End ExampleSpliceExamples.
(** ** Checks of the primitives *)

Example splitlines_ex1 :
  Py.splitlines ("a" +:+ String Py.nl "b" +:+ String Py.cr (String Py.nl "c") +:+ String Py.nl EmptyString)
  = ["a"; "b"; "c"].
Proof. reflexivity. Qed.

Example split_ex1 : Py.split "+" "code+stdout:raw+stdout" = ["code"; "stdout:raw"; "stdout"].
Proof. reflexivity. Qed.

Example py_str_ex1 : Py.py_str (Py.PInt (-12)) = "-12" /\ Py.py_str (Py.PStrs ["a"; "b'c"]) = "['a', " +:+ Py.dq +:+ "b'c" +:+ Py.dq +:+ "]".
Proof. split; reflexivity. Qed.

